(** * MEGA SDK command layer: result processing of API commands

    A shallow embedding of the [procresult] bodies of [src/commands.cpp]
    and of the contracts they rely on (response cursor, [Result] view,
    request batching), with the properties stated about them. *)

From stdpp Require Import base option list gmap strings.
From Stdlib Require Import ZArith Lia.

Open Scope Z_scope.

Local Set Warnings "-register-all".

(** ** Scalars *)

Definition handle := Z.
Definition error := Z.
Definition nameid := Z.
Definition bytes := list Z.

(** [~(handle)0], the undefined handle. *)
Definition UNDEF : handle := 18446744073709551615.
Definition ISUNDEF (h : handle) : bool := bool_decide (h = UNDEF).

(** The API's error enumeration (declared in [mega/types.h]); the
    specification fixes [-17] for the quota error. *)
Definition API_OK : error := 0.
Definition API_EINTERNAL : error := -1.
Definition API_EARGS : error := -2.
Definition API_EAGAIN : error := -3.
Definition API_ERATELIMIT : error := -4.
Definition API_ENOENT : error := -9.
Definition API_EACCESS : error := -11.
Definition API_EINCOMPLETE : error := -13.
Definition API_EBLOCKED : error := -16.
Definition API_EOVERQUOTA : error := -17.

(** [id = (id << 8) + c] over the characters of a key, as [getnameid]
    packs them; [MAKENAMEIDn] are its compile-time forms. *)
Fixpoint packname (acc : nameid) (s : string) : nameid :=
  match s with
  | EmptyString => acc
  | String c r => packname (Z.shiftl acc 8 + Z.of_nat (Ascii.nat_of_ascii c)) r
  end.

Definition MAKENAMEID (s : string) : nameid := packname 0 s.

(** End of object: the name id of no key. *)
Definition EOO : nameid := 0.

(** ** Response cursor *)

Module JSON.

(** One value of the response text.  [Bad] stands for text no value
    can be read from: malformed or truncated input. *)
Inductive value :=
| Num (n : Z)
| Str (s : string)
| Arr (l : list value)
| Obj (m : list (nameid * value))
| Bad.

(** What the cursor steps over inside a container: a key or a value. *)
Inductive item :=
| IName (id : nameid)
| IVal (v : value).

(** The cursor: what is left of the container it is in, and what is
    left of each enclosing container. *)
Record t := mk { cur : list item; up : list (list item) }.

Definition at_ (c : list item) (j : t) : t := {| cur := c; up := up j |}.

(** A value that can be skipped: no malformed text inside. *)
Fixpoint complete (v : value) : bool :=
  match v with
  | Num _ | Str _ => true
  | Arr l => forallb complete l
  | Obj m => forallb (fun kv => complete (snd kv)) m
  | Bad => false
  end.

Definition text (v : value) : string :=
  match v with
  | Str s => s
  | _ => ""
  end.

Definition members (m : list (nameid * value)) : list item :=
  flat_map (fun kv => [IName (fst kv); IVal (snd kv)]) m.

(** Modelled from the spec: the parser side of the wire codec
    ([JSON], whose source is not part of the translated file), §4.1.
    [getnameid] returns the packed identifier of the next key, or
    [EOO] without moving when the cursor is not at a key. *)
Definition getnameid (j : t) : nameid * t :=
  match cur j with
  | IName id :: r => (id, at_ r j)
  | _ => (EOO, j)
  end.

(** Modelled from the spec: [storeobject] skips one value, returning
    its text; on malformed or missing input it fails and leaves the
    cursor where it is (§4.1, "surfaces as the skip/extraction call
    returning failure"). *)
Definition storeobject (j : t) : bool * string * t :=
  match cur j with
  | IVal v :: r => if complete v then (true, text v, at_ r j) else (false, "", j)
  | IName _ :: r => (true, "", at_ r j)
  | [] => (false, "", j)
  end.

(** Modelled from the spec: [getvalue] hands out the text at the
    cursor and skips it; where [storeobject] fails it hands out the
    null pointer, [None]. *)
Definition getvalue (j : t) : option string * t :=
  let '(ok, s, j') := storeobject j in (if ok then Some s else None, j').

(** Modelled from the spec: [getint] extracts a bare number, [-1]
    when there is none. *)
Definition getint (j : t) : Z * t :=
  match cur j with
  | IVal (Num n) :: r => (n, at_ r j)
  | _ => (-1, j)
  end.

(** Modelled from the spec: [isnumeric] peeks for a bare number. *)
Definition isnumeric (j : t) : bool :=
  match cur j with
  | IVal (Num _) :: _ => true
  | _ => false
  end.

(** Modelled from the spec: [enterarray] / [leavearray] descend into
    and ascend from an array; leaving needs the cursor at its end. *)
Definition enterarray (j : t) : bool * t :=
  match cur j with
  | IVal (Arr l) :: r => (true, {| cur := map IVal l; up := r :: up j |})
  | _ => (false, j)
  end.

Definition leavearray (j : t) : bool * t :=
  match cur j, up j with
  | [], r :: u => (true, {| cur := r; up := u |})
  | _, _ => (false, j)
  end.

(** Modelled from the spec: [enterobject] descends into an object. *)
Definition enterobject (j : t) : bool * t :=
  match cur j with
  | IVal (Obj m) :: r => (true, {| cur := members m; up := r :: up j |})
  | _ => (false, j)
  end.

(** Number of keys still ahead in the current container. *)
Fixpoint names (c : list item) : nat :=
  match c with
  | [] => 0
  | IName _ :: r => S (names r)
  | IVal _ :: r => names r
  end.

End JSON.

(** ** Result: the view over one response slot *)

(** Modelled from the spec: [Command::Result] (declared in
    [mega/command.h]), §3 and §4.3: a tagged union over a bare status
    code, a JSON object, a JSON array, or a scalar value. *)
Inductive Result :=
| StrictError (e : error)
| JsonObject
| JsonArray
| Scalar.

Definition wasErrorOrOK (r : Result) : bool :=
  match r with StrictError _ => true | _ => false end.

Definition wasError (r : Result) (e : error) : bool :=
  match r with StrictError e' => bool_decide (e' = e) | _ => false end.

Definition wasStrictlyError (r : Result) : bool :=
  match r with StrictError e' => negb (bool_decide (e' = API_OK)) | _ => false end.

Definition hasJsonObject (r : Result) : bool :=
  match r with JsonObject => true | _ => false end.

Definition hasJsonArray (r : Result) : bool :=
  match r with JsonArray => true | _ => false end.

Definition hasJsonItem (r : Result) : bool :=
  match r with Scalar => true | _ => false end.

(** §3: "objects/arrays with no explicit error field are treated as
    success". *)
Definition errorOrOK (r : Result) : error :=
  match r with StrictError e => e | _ => API_OK end.

(** ** Enumerations of the client *)

(** [reqstatus_t] of an HTTP request. *)
Inductive reqstatus_t := REQ_READY | REQ_INFLIGHT | REQ_SUCCESS | REQ_FAILURE.

(** [syncdel_t]: how far the move of a locally deleted node has got. *)
Inductive syncdel_t :=
| SYNCDEL_NONE | SYNCDEL_DELETED | SYNCDEL_INFLIGHT | SYNCDEL_BIN
| SYNCDEL_DEBRIS | SYNCDEL_DEBRISDAY | SYNCDEL_FAILED.

Inductive putsource_t := PUTNODES_APP | PUTNODES_SYNC | PUTNODES_SYNCDEBRIS.

Inductive targettype_t := USER_HANDLE | NODE_HANDLE.

#[global] Instance reqstatus_eq_dec : EqDecision reqstatus_t.
Proof. solve_decision. Defined.
#[global] Instance syncdel_eq_dec : EqDecision syncdel_t.
Proof. solve_decision. Defined.
#[global] Instance putsource_eq_dec : EqDecision putsource_t.
Proof. solve_decision. Defined.
#[global] Instance targettype_eq_dec : EqDecision targettype_t.
Proof. solve_decision. Defined.

(** ** Domain objects the commands touch *)

(** The fields of a [Node] read or written by the modelled commands. *)
Record Node := mkNode {
  parent : option handle;
  attr_f : option string;          (* attrs.map['f'] *)
  syncdeleted : syncdel_t;
  node_tag : Z;
  localnode : bool                 (* a LocalNode is attached *)
}.

Definition set_syncdeleted (v : syncdel_t) (n : Node) : Node :=
  {| parent := parent n; attr_f := attr_f n; syncdeleted := v;
     node_tag := node_tag n; localnode := localnode n |}.

(** The fields of a [NewNode] used after the reply. *)
Record NewNode := mkNewNode {
  nodehandle : handle;
  mAddedHandle : handle;
  nn_localnode : bool
}.

Definition reset_localnode (n : NewNode) : NewNode :=
  {| nodehandle := nodehandle n; mAddedHandle := mAddedHandle n; nn_localnode := false |}.

(** A [TransferSlot] with the fields of its [Transfer] that the upload
    URL command fills in. *)
Record TransferSlot := mkTransferSlot {
  pendingcmd : bool;               (* a command is pending for the slot *)
  tempurls : list string;
  starttime : Z;
  lastdata : Z
}.

(** A [DirectReadNode] with the fields the streaming-read command
    writes. *)
Record DirectReadNode := mkDirectReadNode {
  drn_pendingcmd : bool;           (* a command is pending for the node *)
  drn_tempurls : list string;
  drn_size : Z
}.

(** A [FileAttributeFetchChannel]: the fetches not yet asked for
    ([fafs[0]]) and those pending ([fafs[1]]), by attribute handle, the
    error recorded for the channel, and its HTTP request. *)
Record FileAttributeFetchChannel := mkFafc {
  fafs_fresh : gmap handle Z;
  fafs_pending : gmap handle Z;
  fafc_e : error;
  fafc_status : reqstatus_t;       (* req.status *)
  fafc_posturl : string;
  fafc_urltime : Z
}.

(** The teardown a logout leaves behind for the end of the batch. *)
Record Deferred := mkDeferred {
  keepSyncConfigsFile : bool
}.

(** ** Calls into collaborators *)

(** Every call a command makes out of the command layer: the
    application callbacks, the completions handed in by the caller, and
    the client's own operations. *)
Inductive event :=
| app_putfa_result (h : handle) (t : Z) (e : error)
| app_putnodes_result (e : error) (t : targettype_t) (nn : list NewNode) (targetOverride : bool)
| app_unlink_result (h : handle) (e : error)
| app_prelogin_result (v : Z) (email salt : option string) (e : error)
| app_login_result (e : error)
| app_validatepassword_result (e : error)
| PutFA_mCompletion (e : error) (url : string) (ips : list string)
| GetPutUrl_mCompletion (e : error) (url : string) (ips : list string)
| SetAttr_completion (h : handle) (e : error)
| PutNodes_mResultFunction (e : error) (t : targettype_t) (nn : list NewNode) (targetOverride : bool)
| MoveNode_completion (h : handle) (e : error)
| DelNode_mResultFunction (h : handle) (e : error)
| Logout_completion (e : error)
| client_setattr (n : handle) (f : string)
| client_activateoverquota
| client_disableSyncContainingNode (h : handle)
| client_sendevent (code : Z)
| client_putnodes_sync_result (e : error) (nn : list NewNode)
| client_putnodes_syncdebris_result (e : error) (nn : list NewNode)
| client_sendkeyrewrites
| client_rename (n t : handle) (syncdel : syncdel_t) (pp : handle) (canChangeVault : bool) (tag : Z)
| client_locallogout (removecaches keepSyncConfigs : bool)
| client_setkeypair
| client_finduser (h : handle)
| client_openStatusTable
| client_getaccountdetails
| tctable_beginOnce
| tctable_del (id : Z)
| fsaccess_unlinklocal (path : string)
| transfer_failed (slot : Z) (e : error)
| drn_cmdresult (n : Z) (e : error) (timeleft : option Z)
| fafc_dispatch (part : Z)
| tslot_progress (slot : Z)
| transferbuf_setIsRaid (slot : Z) (urls : list string)
| cacheresolvedurls (urls ips : list string)
| httpreq_post (data : string)
| sctable_remove
| null_dereference (what : string)
| assert_failed (what : string).

(** ** The client *)

(** Login and session state held by the client. *)
Record Session := mkSession {
  me : handle;
  uid : string;
  sid : bytes;
  key : bytes;                     (* the master key loaded in [client->key] *)
  sessionkey : bytes;
  mPrivKey : string;
  asymkey : option bytes;          (* the private key loaded in [client->asymkey] *)
  accountversion : Z;
  accountsalt : bytes;
  cachedscsn : handle;
  sctable : bool;                  (* a state cache table is open *)
  pendingsccommit : bool;
  currentDbVersion : Z;
  achievements_enabled : bool;
  ephemeralSessionPlusPlus : bool
}.

(** The part of [MegaClient] the modelled commands read and write.
    [log] holds the calls made to collaborators, oldest first. *)
Record MegaClient := mkClient {
  json : JSON.t;
  log : list event;
  looprequested : bool;
  nodes : gmap handle Node;
  toDebris : list handle;
  rubbish : handle;                (* rootnodes.rubbish *)
  reqtag : Z;
  syncdownrequired : bool;
  pendingtcids : gmap Z (list Z);
  pendingfiles : gmap Z (list string);
  tctable : bool;                  (* a transfer cache table is open *)
  tslots : gmap Z TransferSlot;
  ds : Z;                          (* waiter->ds *)
  loggingout : Z;
  mOnCSCompletion : option Deferred;
  session : Session;
  drns : gmap Z DirectReadNode;    (* the DirectReadNodes, by an id standing for their address *)
  fafcs : gmap Z FileAttributeFetchChannel
}.

Definition set_json (v : JSON.t) (c : MegaClient) : MegaClient :=
  mkClient v (log c) (looprequested c) (nodes c) (toDebris c) (rubbish c) (reqtag c)
    (syncdownrequired c) (pendingtcids c) (pendingfiles c) (tctable c) (tslots c) (ds c)
    (loggingout c) (mOnCSCompletion c) (session c) (drns c) (fafcs c).

Definition set_log (v : list event) (c : MegaClient) : MegaClient :=
  mkClient (json c) v (looprequested c) (nodes c) (toDebris c) (rubbish c) (reqtag c)
    (syncdownrequired c) (pendingtcids c) (pendingfiles c) (tctable c) (tslots c) (ds c)
    (loggingout c) (mOnCSCompletion c) (session c) (drns c) (fafcs c).

Definition set_looprequested (v : bool) (c : MegaClient) : MegaClient :=
  mkClient (json c) (log c) v (nodes c) (toDebris c) (rubbish c) (reqtag c)
    (syncdownrequired c) (pendingtcids c) (pendingfiles c) (tctable c) (tslots c) (ds c)
    (loggingout c) (mOnCSCompletion c) (session c) (drns c) (fafcs c).

Definition set_nodes (v : gmap handle Node) (c : MegaClient) : MegaClient :=
  mkClient (json c) (log c) (looprequested c) v (toDebris c) (rubbish c) (reqtag c)
    (syncdownrequired c) (pendingtcids c) (pendingfiles c) (tctable c) (tslots c) (ds c)
    (loggingout c) (mOnCSCompletion c) (session c) (drns c) (fafcs c).

Definition set_toDebris (v : list handle) (c : MegaClient) : MegaClient :=
  mkClient (json c) (log c) (looprequested c) (nodes c) v (rubbish c) (reqtag c)
    (syncdownrequired c) (pendingtcids c) (pendingfiles c) (tctable c) (tslots c) (ds c)
    (loggingout c) (mOnCSCompletion c) (session c) (drns c) (fafcs c).

Definition set_reqtag (v : Z) (c : MegaClient) : MegaClient :=
  mkClient (json c) (log c) (looprequested c) (nodes c) (toDebris c) (rubbish c) v
    (syncdownrequired c) (pendingtcids c) (pendingfiles c) (tctable c) (tslots c) (ds c)
    (loggingout c) (mOnCSCompletion c) (session c) (drns c) (fafcs c).

Definition set_syncdownrequired (v : bool) (c : MegaClient) : MegaClient :=
  mkClient (json c) (log c) (looprequested c) (nodes c) (toDebris c) (rubbish c) (reqtag c)
    v (pendingtcids c) (pendingfiles c) (tctable c) (tslots c) (ds c)
    (loggingout c) (mOnCSCompletion c) (session c) (drns c) (fafcs c).

Definition set_pendingtcids (v : gmap Z (list Z)) (c : MegaClient) : MegaClient :=
  mkClient (json c) (log c) (looprequested c) (nodes c) (toDebris c) (rubbish c) (reqtag c)
    (syncdownrequired c) v (pendingfiles c) (tctable c) (tslots c) (ds c)
    (loggingout c) (mOnCSCompletion c) (session c) (drns c) (fafcs c).

Definition set_pendingfiles (v : gmap Z (list string)) (c : MegaClient) : MegaClient :=
  mkClient (json c) (log c) (looprequested c) (nodes c) (toDebris c) (rubbish c) (reqtag c)
    (syncdownrequired c) (pendingtcids c) v (tctable c) (tslots c) (ds c)
    (loggingout c) (mOnCSCompletion c) (session c) (drns c) (fafcs c).

Definition set_tslots (v : gmap Z TransferSlot) (c : MegaClient) : MegaClient :=
  mkClient (json c) (log c) (looprequested c) (nodes c) (toDebris c) (rubbish c) (reqtag c)
    (syncdownrequired c) (pendingtcids c) (pendingfiles c) (tctable c) v (ds c)
    (loggingout c) (mOnCSCompletion c) (session c) (drns c) (fafcs c).

Definition set_loggingout (v : Z) (c : MegaClient) : MegaClient :=
  mkClient (json c) (log c) (looprequested c) (nodes c) (toDebris c) (rubbish c) (reqtag c)
    (syncdownrequired c) (pendingtcids c) (pendingfiles c) (tctable c) (tslots c) (ds c)
    v (mOnCSCompletion c) (session c) (drns c) (fafcs c).

Definition set_mOnCSCompletion (v : option Deferred) (c : MegaClient) : MegaClient :=
  mkClient (json c) (log c) (looprequested c) (nodes c) (toDebris c) (rubbish c) (reqtag c)
    (syncdownrequired c) (pendingtcids c) (pendingfiles c) (tctable c) (tslots c) (ds c)
    (loggingout c) v (session c) (drns c) (fafcs c).

Definition set_session (v : Session) (c : MegaClient) : MegaClient :=
  mkClient (json c) (log c) (looprequested c) (nodes c) (toDebris c) (rubbish c) (reqtag c)
    (syncdownrequired c) (pendingtcids c) (pendingfiles c) (tctable c) (tslots c) (ds c)
    (loggingout c) (mOnCSCompletion c) v (drns c) (fafcs c).

Definition set_drns (v : gmap Z DirectReadNode) (c : MegaClient) : MegaClient :=
  mkClient (json c) (log c) (looprequested c) (nodes c) (toDebris c) (rubbish c) (reqtag c)
    (syncdownrequired c) (pendingtcids c) (pendingfiles c) (tctable c) (tslots c) (ds c)
    (loggingout c) (mOnCSCompletion c) (session c) v (fafcs c).

Definition set_fafcs (v : gmap Z FileAttributeFetchChannel) (c : MegaClient) : MegaClient :=
  mkClient (json c) (log c) (looprequested c) (nodes c) (toDebris c) (rubbish c) (reqtag c)
    (syncdownrequired c) (pendingtcids c) (pendingfiles c) (tctable c) (tslots c) (ds c)
    (loggingout c) (mOnCSCompletion c) (session c) (drns c) v.

Definition set_key (v : bytes) (s : Session) : Session :=
  mkSession (me s) (uid s) (sid s) v (sessionkey s) (mPrivKey s) (asymkey s) (accountversion s)
    (accountsalt s) (cachedscsn s) (sctable s) (pendingsccommit s) (currentDbVersion s)
    (achievements_enabled s) (ephemeralSessionPlusPlus s).

Definition set_sid (v : bytes) (s : Session) : Session :=
  mkSession (me s) (uid s) v (key s) (sessionkey s) (mPrivKey s) (asymkey s) (accountversion s)
    (accountsalt s) (cachedscsn s) (sctable s) (pendingsccommit s) (currentDbVersion s)
    (achievements_enabled s) (ephemeralSessionPlusPlus s).

Definition set_sessionkey (v : bytes) (s : Session) : Session :=
  mkSession (me s) (uid s) (sid s) (key s) v (mPrivKey s) (asymkey s) (accountversion s)
    (accountsalt s) (cachedscsn s) (sctable s) (pendingsccommit s) (currentDbVersion s)
    (achievements_enabled s) (ephemeralSessionPlusPlus s).

Definition set_privkey (txt : string) (k : option bytes) (s : Session) : Session :=
  mkSession (me s) (uid s) (sid s) (key s) (sessionkey s) txt k (accountversion s)
    (accountsalt s) (cachedscsn s) (sctable s) (pendingsccommit s) (currentDbVersion s)
    (achievements_enabled s) (ephemeralSessionPlusPlus s).

Definition set_account (v : Z) (salt : bytes) (s : Session) : Session :=
  mkSession (me s) (uid s) (sid s) (key s) (sessionkey s) (mPrivKey s) (asymkey s) v
    salt (cachedscsn s) (sctable s) (pendingsccommit s) (currentDbVersion s)
    (achievements_enabled s) (ephemeralSessionPlusPlus s).

Definition set_cachedscsn (v : handle) (s : Session) : Session :=
  mkSession (me s) (uid s) (sid s) (key s) (sessionkey s) (mPrivKey s) (asymkey s)
    (accountversion s) (accountsalt s) v (sctable s) (pendingsccommit s) (currentDbVersion s)
    (achievements_enabled s) (ephemeralSessionPlusPlus s).

(** [sctable.reset(); pendingsccommit = false; cachedscsn = UNDEF;
    dbaccess->currentDbVersion = v] *)
Definition drop_sctable (v : Z) (s : Session) : Session :=
  mkSession (me s) (uid s) (sid s) (key s) (sessionkey s) (mPrivKey s) (asymkey s)
    (accountversion s) (accountsalt s) UNDEF false false v
    (achievements_enabled s) (ephemeralSessionPlusPlus s).

(** [me = h; uid = u; achievements_enabled = ach] *)
Definition set_user (h : handle) (u : string) (ach : bool) (s : Session) : Session :=
  mkSession h u (sid s) (key s) (sessionkey s) (mPrivKey s) (asymkey s)
    (accountversion s) (accountsalt s) (cachedscsn s) (sctable s) (pendingsccommit s)
    (currentDbVersion s) ach (ephemeralSessionPlusPlus s).

Definition upd_session (f : Session -> Session) (c : MegaClient) : MegaClient :=
  set_session (f (session c)) c.

(** A call to a collaborator, appended to the log. *)
Definition emit (ev : event) (c : MegaClient) : MegaClient :=
  set_log (log c ++ [ev]) c.

Definition emit_all (evs : list event) (c : MegaClient) : MegaClient :=
  set_log (log c ++ evs) c.

(** [client->nodeByHandle] / [client->nodebyhandle]. *)
Definition nodeByHandle (c : MegaClient) (h : handle) : option Node :=
  nodes c !! h.

(** [assert(b)]: a failed assertion is recorded and execution goes on,
    as it does in a build without assertions. *)
Definition assert_ (b : bool) (what : string) (c : MegaClient) : MegaClient :=
  if b then c else emit (assert_failed what) c.

(** ** Collaborators consumed as pure functions *)

(** Cryptography, Base64 and the queries and parsers of the client
    that the command layer only calls (§1, out of scope). *)
Record Env := mkEnv {
  ENABLE_SYNC : bool;              (* the build has the sync engine *)
  atob : string -> bytes;          (* Base64::atob *)
  btoa : bytes -> string;          (* Base64::btoa *)
  handle_bytes : handle -> bytes;
  bytes_handle : bytes -> handle;
  checkaccess_full : MegaClient -> handle -> bool;       (* client->checkaccess(n, FULL) *)
  isPrivateNode : MegaClient -> handle -> bool;          (* client->isPrivateNode *)
  readnodes : JSON.value -> putsource_t -> option (list NewNode) -> Z -> gmap handle Node ->
              bool * option (list NewNode) * gmap handle Node;  (* client->readnodes *)
  ecb_decrypt : bytes -> bytes -> bytes;                 (* SymmCipher::ecb_decrypt, by key *)
  checktsid : bytes -> bytes -> bool;                    (* client->checktsid, by master key *)
  asym_setkey : bytes -> bool;                           (* AsymmCipher::setkey(PRIVKEY, ..) *)
  asym_decrypt : bytes -> bytes -> option bytes;         (* AsymmCipher::decrypt, by key *)
  sid_userhandle : bytes -> option handle;               (* the user handle inside a session id *)
  KEYLENGTH : Z;                                         (* SymmCipher::KEYLENGTH *)
  MAXKEYLENGTH : Z;                                      (* AsymmCipher::MAXKEYLENGTH *)
  SIDLEN : Z;                                            (* MegaClient::SIDLEN *)
  DB_VERSION : Z;                                        (* DbAccess::DB_VERSION *)
  DEFAULT_BW_OVERQUOTA_BACKOFF_SECS : Z                  (* MegaClient::DEFAULT_BW_OVERQUOTA_BACKOFF_SECS *)
}.

(** [(int)x] and [(error)x] of a 64-bit [m_off_t]: the low 32 bits, signed. *)
Definition to_int (z : Z) : Z := (z + 2147483648) mod 4294967296 - 2147483648.

Arguments to_int : simpl never.

(** [dstime(x)] of a 64-bit [m_off_t]: the low 32 bits, unsigned. *)
Definition to_dstime (z : Z) : Z := z mod 4294967296.

Arguments to_dstime : simpl never.

(** The number of parts of a file stored in parts ([mega/raid.h]); the
    streaming-read command speaks of "an array of 6 URLs for a raid
    download". *)
Definition RAIDPARTS : nat := 6.

(** ** Helpers shared by the commands *)

Definition is_name (id : nameid) (s : string) : bool := bool_decide (id = MAKENAMEID s).

(** The loop [for (;;) { if (!json.storeobject(&s)) break; v.push_back(s); }]
    as the commands write it out for arrays of strings.  Each turn that
    goes on has consumed one item, so [fuel] turns, for [fuel] the
    number of items left, reach the failing [storeobject]. *)
Fixpoint store_strings (fuel : nat) (acc : list string) (j : JSON.t) : list string * JSON.t :=
  match fuel with
  | O => (acc, j)
  | S n =>
      let '(ok, s, j') := JSON.storeobject j in
      if ok then store_strings n (acc ++ [s]) j' else (acc, j)
  end.

(** Modelled from the spec: [Command::loadIpsFromJson] (in
    [command.cpp]): enter the array, store each string, leave it; the
    same three steps are written out for key [g] in
    [CommandDirectRead::procresult]. *)
Definition loadIpsFromJson (ips : list string) (c : MegaClient) : bool * list string * MegaClient :=
  let '(ok, j1) := JSON.enterarray (json c) in
  if ok then
    let '(ips', j2) := store_strings (length (JSON.cur j1)) ips j1 in
    let '(_, j3) := JSON.leavearray j2 in
    (true, ips', set_json j3 c)
  else (false, ips, c).

(** What a [procresult] hands back: its return value, the command
    object as it leaves it, and the client. *)
Definition outcome (Cmd : Type) : Type := option (bool * Cmd * MegaClient).

(** ** CommandGetPutUrl: request an upload target URL *)

Module CommandGetPutUrl.

Record t := mk { canceled : bool }.

Definition cancel (cmd : t) : t := {| canceled := true |}.

Fixpoint parse (fuel : nat) (url : string) (ips : list string) (cmd : t) (c : MegaClient)
  : outcome t :=
  match fuel with
  | O => None
  | S fuel =>
      let '(id, j) := JSON.getnameid (json c) in
      let c := set_json j c in
      if is_name id "p" then
        let '(ok, s, j) := JSON.storeobject (json c) in
        let url := if canceled cmd then url else if ok then s else url in
        parse fuel url ips cmd (set_json j c)
      else if is_name id "ip" then
        let '(_, ips, c) := loadIpsFromJson ips c in
        parse fuel url ips cmd c
      else if bool_decide (id = EOO) then
        if canceled cmd then Some (true, cmd, c)
        else Some (true, cmd, emit (GetPutUrl_mCompletion API_OK url ips) c)
      else
        let '(ok, _, j) := JSON.storeobject (json c) in
        if ok then parse fuel url ips cmd (set_json j c)
        else if canceled cmd then Some (false, cmd, c)
        else Some (false, cmd, emit (GetPutUrl_mCompletion API_EINTERNAL "" []) c)
  end.

Definition procresult (fuel : nat) (cmd : t) (r : Result) (c : MegaClient) : outcome t :=
  if wasErrorOrOK r then
    if canceled cmd then Some (true, cmd, c)
    else Some (true, cmd, emit (GetPutUrl_mCompletion (errorOrOK r) "" []) c)
  else parse fuel "" [] cmd c.

End CommandGetPutUrl.

(** ** CommandPutFile: set up a file transfer with the returned URL *)

Module CommandPutFile.

(** [tslot] is the back-reference to the transfer slot, by its key in
    [tslots]; [None] is the null pointer. *)
Record t := mk { tslot : option Z; canceled : bool }.

(** [Command::cancel(); tslot = NULL;] *)
Definition cancel (cmd : t) : t := {| tslot := None; canceled := true |}.

(** A use of [tslot->...]: on a null back-reference the dereference is
    recorded. *)
Definition with_tslot (cmd : t) (f : Z -> MegaClient -> MegaClient) (c : MegaClient) : MegaClient :=
  match tslot cmd with
  | Some s => f s c
  | None => emit (null_dereference "tslot") c
  end.

Definition clear_pendingcmd (ts : TransferSlot) : TransferSlot :=
  mkTransferSlot false (tempurls ts) (starttime ts) (lastdata ts).

Definition start_slot (urls : list string) (now : Z) (ts : TransferSlot) : TransferSlot :=
  mkTransferSlot (pendingcmd ts) urls now now.

Definition failed (e : error) (cmd : t) (c : MegaClient) : MegaClient :=
  with_tslot cmd (fun s => emit (transfer_failed s e)) c.

Fixpoint parse (fuel : nat) (tempurls tempips : list string) (cmd : t) (c : MegaClient)
  : outcome t :=
  match fuel with
  | O => None
  | S fuel =>
      let '(id, j) := JSON.getnameid (json c) in
      let c := set_json j c in
      if is_name id "p" then
        let '(ok, s, j) := JSON.storeobject (json c) in
        let u := if canceled cmd then "" else if ok then s else "" in
        parse fuel (tempurls ++ [u]) tempips cmd (set_json j c)
      else if is_name id "ip" then
        let '(_, tempips, c) := loadIpsFromJson tempips c in
        parse fuel tempurls tempips cmd c
      else if bool_decide (id = EOO) then
        if canceled cmd then Some (true, cmd, c)
        else if bool_decide (length tempurls = 1%nat) then
          let c := emit (cacheresolvedurls tempurls tempips) c in
          let c := with_tslot cmd (fun s c =>
                     let c := set_tslots (alter (start_slot tempurls (ds c)) s (tslots c)) c in
                     let c := emit (transferbuf_setIsRaid s tempurls) c in
                     emit (tslot_progress s) c) c in
          Some (true, cmd, c)
        else Some (true, cmd, failed API_EINTERNAL cmd c)
      else
        let '(ok, _, j) := JSON.storeobject (json c) in
        if ok then parse fuel tempurls tempips cmd (set_json j c)
        else if canceled cmd then Some (false, cmd, c)
        else Some (false, cmd, failed API_EINTERNAL cmd c)
  end.

Definition procresult (fuel : nat) (cmd : t) (r : Result) (c : MegaClient) : outcome t :=
  let '(cmd, c) :=
    match tslot cmd with
    | Some s => (cmd, set_tslots (alter clear_pendingcmd s (tslots c)) c)
    | None => ({| tslot := None; canceled := true |}, c)
    end in
  if wasErrorOrOK r then
    if canceled cmd then Some (true, cmd, c)
    else Some (true, cmd, failed (errorOrOK r) cmd c)
  else parse fuel [] [] cmd c.

End CommandPutFile.

(** ** CommandDirectRead: request the source URLs of a streaming read *)

Module CommandDirectRead.

(** [drn] is the back-reference to the read node, by its key in
    [drns]; [None] is the null pointer. *)
Record t := mk { drn : option Z; canceled : bool }.

(** [Command::cancel(); drn = NULL;] *)
Definition cancel (cmd : t) : t := {| drn := None; canceled := true |}.

Definition clear_pendingcmd (n : DirectReadNode) : DirectReadNode :=
  mkDirectReadNode false (drn_tempurls n) (drn_size n).

Definition set_tempurls (v : list string) (n : DirectReadNode) : DirectReadNode :=
  mkDirectReadNode (drn_pendingcmd n) v (drn_size n).

Definition set_size (v : Z) (n : DirectReadNode) : DirectReadNode :=
  mkDirectReadNode (drn_pendingcmd n) (drn_tempurls n) v.

(** [if (!canceled && drn) drn->cmdresult(e, timeleft);] *)
Definition cmdresult (cmd : t) (e : error) (timeleft : option Z) (c : MegaClient) : MegaClient :=
  if canceled cmd then c
  else match drn cmd with
       | Some n => emit (drn_cmdresult n e timeleft) c
       | None => c
       end.

(** The value of [g]: an array of URLs, each stored, or a single
    URL. *)
Definition read_urls (tempurls : list string) (j : JSON.t) : list string * JSON.t :=
  let '(ok, j1) := JSON.enterarray j in
  if ok then
    let '(urls, j2) := store_strings (length (JSON.cur j1)) tempurls j1 in
    let '(_, j3) := JSON.leavearray j2 in
    (urls, j3)
  else
    let '(ok, tu, j1) := JSON.storeobject j in
    (if ok then tempurls ++ [tu] else tempurls, j1).

Section WithEnv.
Context (env : Env).

Fixpoint parse (fuel : nat) (e : error) (tl : Z) (tempurls : list string) (cmd : t)
  (c : MegaClient) : outcome t :=
  match fuel with
  | O => None
  | S fuel =>
      let '(id, j) := JSON.getnameid (json c) in
      let c := set_json j c in
      if is_name id "g" then
        let '(tempurls, j) := read_urls tempurls (json c) in
        let c := set_json j c in
        if bool_decide (length tempurls = 1%nat) || bool_decide (length tempurls = RAIDPARTS)
        then
          match drn cmd with
          | Some n =>
              (* [drn->tempurls.swap(tempurls)]: the local list takes the node's *)
              let old := default [] (drn_tempurls <$> drns c !! n) in
              parse fuel API_OK tl old cmd (set_drns (alter (set_tempurls tempurls) n (drns c)) c)
          | None => parse fuel e tl tempurls cmd c
          end
        else parse fuel API_EINCOMPLETE tl tempurls cmd c
      else if is_name id "s" then
        match drn cmd with
        | Some n =>
            let '(v, j) := JSON.getint (json c) in
            parse fuel e tl tempurls cmd (set_drns (alter (set_size v) n (drns c)) (set_json j c))
        | None => parse fuel e tl tempurls cmd c
        end
      else if is_name id "d" then parse fuel API_EBLOCKED tl tempurls cmd c
      else if is_name id "e" then
        let '(v, j) := JSON.getint (json c) in
        parse fuel (to_int v) tl tempurls cmd (set_json j c)
      else if is_name id "tl" then
        let '(v, j) := JSON.getint (json c) in
        parse fuel e (to_dstime v) tempurls cmd (set_json j c)
      else if bool_decide (id = EOO) then
        let tl := if bool_decide (e = API_EOVERQUOTA) && bool_decide (tl = 0)
                  then to_dstime (DEFAULT_BW_OVERQUOTA_BACKOFF_SECS env) else tl in
        let timeleft := if bool_decide (e = API_EOVERQUOTA) then to_dstime (tl * 10) else 0 in
        Some (true, cmd, cmdresult cmd e (Some timeleft) c)
      else
        let '(ok, _, j) := JSON.storeobject (json c) in
        if ok then parse fuel e tl tempurls cmd (set_json j c)
        else Some (false, cmd, cmdresult cmd e None c)
  end.

Definition procresult (fuel : nat) (cmd : t) (r : Result) (c : MegaClient) : outcome t :=
  let c := match drn cmd with
           | Some n => set_drns (alter clear_pendingcmd n (drns c)) c
           | None => c
           end in
  if wasErrorOrOK r then Some (true, cmd, cmdresult cmd (errorOrOK r) None c)
  else parse fuel API_EINTERNAL 0 [] cmd c.

End WithEnv.

End CommandDirectRead.

(** ** HttpReqCommandPutFA: upload a file attribute *)

Module HttpReqCommandPutFA.

(** [data] is the attribute to post; [user_completion] tells whether
    the caller supplied [mCompletion] (then there is no [data]). *)
Record t := mk {
  th : handle;
  type : Z;
  status : reqstatus_t;
  posturl : string;
  data : option string;
  user_completion : bool
}.

Definition set_status (v : reqstatus_t) (cmd : t) : t :=
  mk (th cmd) (type cmd) v (posturl cmd) (data cmd) (user_completion cmd).

Definition set_posturl (v : string) (cmd : t) : t :=
  mk (th cmd) (type cmd) (status cmd) v (data cmd) (user_completion cmd).

(** [mCompletion]: the caller's closure, or the one the constructor
    installs, which posts the data or reports the failure. *)
Definition mCompletion (cmd : t) (e : error) (url : string) (ips : list string)
  (c : MegaClient) : MegaClient :=
  if user_completion cmd then emit (PutFA_mCompletion e url ips) c
  else
    let e := match data cmd with
             | Some d => if bool_decide (d = "") then API_EARGS else e
             | None => API_EARGS
             end in
    if bool_decide (e = API_OK) then emit (httpreq_post (default "" (data cmd))) c
    else emit (app_putfa_result (th cmd) (type cmd) e) c.

Section WithEnv.
Context (env : Env).

Fixpoint parse (fuel : nat) (p : option string) (ips : list string) (cmd : t) (c : MegaClient)
  : outcome t :=
  match fuel with
  | O => None
  | S fuel =>
      let '(id, j) := JSON.getnameid (json c) in
      let c := set_json j c in
      if is_name id "p" then
        let '(p, j) := JSON.getvalue (json c) in
        parse fuel p ips cmd (set_json j c)
      else if is_name id "ip" then
        let '(_, ips, c) := loadIpsFromJson ips c in
        parse fuel p ips cmd c
      else if bool_decide (id = EOO) then
        match p with
        | None => parse fuel p ips (set_status REQ_FAILURE cmd) c
        | Some u =>
            let cmd := set_posturl u cmd in
            let c := emit (cacheresolvedurls [u] ips) c in
            Some (true, cmd, mCompletion cmd API_OK u ips c)
        end
      else
        let '(ok, _, j) := JSON.storeobject (json c) in
        if ok then parse fuel p ips cmd (set_json j c)
        else
          let cmd := set_status REQ_SUCCESS cmd in
          Some (false, cmd, mCompletion cmd API_EINTERNAL "" [] c)
  end.

Definition procresult (fuel : nat) (cmd : t) (r : Result) (c : MegaClient) : outcome t :=
  let c := set_looprequested true c in
  if wasErrorOrOK r then
    if wasError r API_EAGAIN || wasError r API_ERATELIMIT then
      Some (true, set_status REQ_FAILURE cmd, c)
    else
      let c :=
        if wasError r API_EACCESS then
          match nodeByHandle c (th cmd) with
          | Some n =>
              let me64 := btoa env (handle_bytes env (me (session c))) in
              if checkaccess_full env c (th cmd)
                 && (match attr_f n with
                     | None => true
                     | Some f => negb (bool_decide (f = me64))
                     end)
              then emit (client_setattr (th cmd) me64) c
              else c
          | None => c
          end
        else c in
      let cmd := set_status REQ_SUCCESS cmd in
      Some (true, cmd, mCompletion cmd (errorOrOK r) "" [] c)
  else parse fuel None [] cmd c.

End WithEnv.

End HttpReqCommandPutFA.

(** ** CommandGetFA: request the URL to fetch file attributes from *)

Module CommandGetFA.

Record t := mk { part : Z }.

(** The loop that moves every fetch "from fresh to pending", then
    [e = err; req.status = REQ_FAILURE]. *)
Definition fail (err : error) (ch : FileAttributeFetchChannel) : FileAttributeFetchChannel :=
  mkFafc ∅ (fafs_fresh ch ∪ fafs_pending ch) err REQ_FAILURE (fafc_posturl ch) (fafc_urltime ch).

(** [posturl = p; urltime = Waiter::ds;] *)
Definition set_posturl (p : string) (now : Z) (ch : FileAttributeFetchChannel)
  : FileAttributeFetchChannel :=
  mkFafc (fafs_fresh ch) (fafs_pending ch) (fafc_e ch) (fafc_status ch) p now.

(** [it != client->fafcs.end()] *)
Definition found (cmd : t) (c : MegaClient) : bool :=
  bool_decide (is_Some (fafcs c !! part cmd)).

Fixpoint parse (fuel : nat) (p : option string) (cmd : t) (c : MegaClient) : outcome t :=
  match fuel with
  | O => None
  | S fuel =>
      let '(id, j) := JSON.getnameid (json c) in
      let c := set_json j c in
      if is_name id "p" then
        let '(p, j) := JSON.getvalue (json c) in
        parse fuel p cmd (set_json j c)
      else if bool_decide (id = EOO) then
        if found cmd c then
          match p with
          | Some u =>
              let c := set_fafcs (alter (set_posturl u (ds c)) (part cmd) (fafcs c)) c in
              Some (true, cmd, emit (fafc_dispatch (part cmd)) c)
          | None =>
              Some (true, cmd, set_fafcs (alter (fail API_EINTERNAL) (part cmd) (fafcs c)) c)
          end
        else Some (true, cmd, c)
      else
        let '(ok, _, j) := JSON.storeobject (json c) in
        if ok then parse fuel p cmd (set_json j c)
        else
          (* [it->second] is used without the test for [end()] *)
          if found cmd c
          then Some (false, cmd, set_fafcs (alter (fail API_EINTERNAL) (part cmd) (fafcs c)) c)
          else Some (false, cmd, emit (null_dereference "it->second") c)
  end.

Definition procresult (fuel : nat) (cmd : t) (r : Result) (c : MegaClient) : outcome t :=
  let c := set_looprequested true c in
  if wasErrorOrOK r then
    if found cmd c
    then Some (true, cmd, set_fafcs (alter (fail (errorOrOK r)) (part cmd) (fafcs c)) c)
    else Some (true, cmd, c)
  else parse fuel None cmd c.

End CommandGetFA.

(** ** CommandSetAttr *)

Module CommandSetAttr.

(** [completion] tells whether the caller supplied a completion. *)
Record t := mk { h : handle; syncop : bool; completion : bool }.

(** The block under [ENABLE_SYNC] only writes a debug line. *)
Definition procresult (cmd : t) (r : Result) (c : MegaClient) : outcome t :=
  let c := if completion cmd then emit (SetAttr_completion (h cmd) (errorOrOK r)) c else c in
  Some (wasErrorOrOK r, cmd, c).

End CommandSetAttr.

(** ** CommandPutNodes *)

Module CommandPutNodes.

Record t := mk {
  nn : list NewNode;
  type : targettype_t;
  source : putsource_t;
  targethandle : handle;
  tag : Z;
  mResultFunction : bool           (* the caller supplied a result function *)
}.

Definition set_nn (v : list NewNode) (cmd : t) : t :=
  mk v (type cmd) (source cmd) (targethandle cmd) (tag cmd) (mResultFunction cmd).

Definition removePendingDBRecordsAndTempFiles (cmd : t) (c : MegaClient) : MegaClient :=
  let c :=
    match pendingtcids c !! tag cmd with
    | Some ids =>
        let c :=
          if tctable c then
            emit_all (tctable_beginOnce ::
                      map tctable_del (filter (fun i => i ≠ 0) ids)) c
          else c in
        set_pendingtcids (delete (tag cmd) (pendingtcids c)) c
    | None => c
    end in
  match pendingfiles c !! tag cmd with
  | Some pfs =>
      let c := emit_all (map fsaccess_unlinklocal pfs) c in
      set_pendingfiles (delete (tag cmd) (pendingfiles c)) c
  | None => c
  end.

(** [if (mResultFunction) mResultFunction(..) else client->app->putnodes_result(..)] *)
Definition result (cmd : t) (e : error) (nodes_ : list NewNode) (targetOverride : bool)
  (c : MegaClient) : MegaClient :=
  if mResultFunction cmd then emit (PutNodes_mResultFunction e (type cmd) nodes_ targetOverride) c
  else emit (app_putnodes_result e (type cmd) nodes_ targetOverride) c.

Section WithEnv.
Context (env : Env).

(** [client->readnodes(&client->json, 1, src, nn, tag, true)] on the
    value at the cursor: the parser itself is a collaborator; a value
    it accepts is consumed. *)
Definition client_readnodes (src : putsource_t) (nn_ : option (list NewNode)) (tag_ : Z)
  (c : MegaClient) : bool * option (list NewNode) * MegaClient :=
  match JSON.cur (json c) with
  | JSON.IVal v :: r =>
      let '(ok, nn', nodes') := readnodes env v src nn_ tag_ (nodes c) in
      let c := set_nodes nodes' c in
      (ok, nn', if ok then set_json (JSON.at_ r (json c)) c else c)
  | _ => (false, nn_, c)
  end.

(** The [while (noexit)] loop; it hands back [e], [empty] and the
    command with its [nn] as [readnodes] left it. *)
Fixpoint parse (fuel : nat) (e : error) (empty : bool) (cmd : t) (c : MegaClient)
  : option (error * bool * t * MegaClient) :=
  match fuel with
  | O => None
  | S fuel =>
      let '(id, j) := JSON.getnameid (json c) in
      let c := set_json j c in
      if is_name id "f" then
        let empty :=
          match JSON.cur (json c) with
          | JSON.IVal (JSON.Arr []) :: _ => true
          | _ => false
          end in
        let '(ok, nn', c) := client_readnodes (source cmd) (Some (nn cmd)) (tag cmd) c in
        let cmd := set_nn (default (nn cmd) nn') cmd in
        if ok then parse fuel API_OK empty cmd c
        else Some (API_EINTERNAL, empty, cmd, c)
      else if is_name id "f2" then
        let '(ok, _, c) := client_readnodes PUTNODES_APP None 0 c in
        if ok then parse fuel e empty cmd c
        else Some (API_EINTERNAL, empty, cmd, c)
      else if bool_decide (id = EOO) then Some (e, empty, cmd, c)
      else
        let '(ok, _, j) := JSON.storeobject (json c) in
        if ok then parse fuel e empty cmd (set_json j c)
        else Some (API_EINTERNAL, empty, cmd, c)
  end.

(** What follows the loop: the key rewrites, the override check and
    the delivery of [e]. *)
Definition deliver (e : error) (empty : bool) (cmd : t) (c : MegaClient) : outcome t :=
  let c := emit client_sendkeyrewrites c in
  let targetOverride :=
    match nn cmd with
    | n0 :: _ =>
        match nodeByHandle c (mAddedHandle n0) with
        | Some tempNode =>
            negb (bool_decide (default UNDEF (parent tempNode) = targethandle cmd))
        | None => false
        end
    | [] => false
    end in
  if ENABLE_SYNC env && bool_decide (source cmd = PUTNODES_SYNC) then
    let c := result cmd e (nn cmd) targetOverride c in
    Some (true, cmd, emit (client_putnodes_sync_result e (nn cmd)) c)
  else if bool_decide (source cmd = PUTNODES_APP) then
    let c :=
      if ENABLE_SYNC env && negb (ISUNDEF (targethandle cmd)) then
        match nodeByHandle c (targethandle cmd) with
        | Some parent_ => if localnode parent_ then set_syncdownrequired true c else c
        | None => c
        end
      else c in
    let ec := if bool_decide (e = API_OK) && empty then API_ENOENT else e in
    Some (true, cmd, result cmd ec (nn cmd) targetOverride c)
  else if ENABLE_SYNC env then
    Some (true, cmd, emit (client_putnodes_syncdebris_result e (nn cmd)) c)
  else Some (true, cmd, c).

(** [if (r.wasErrorOrOK()) { .. }]: [inr] is a return from inside the
    block, [inl] falls out of it into the loop. *)
Definition on_code (cmd : t) (r : Result) (c : MegaClient) : MegaClient + outcome t :=
  if wasErrorOrOK r then
    let c :=
      if wasError r API_EOVERQUOTA then
        if isPrivateNode env c (targethandle cmd) then emit client_activateoverquota c
        else if ENABLE_SYNC env && bool_decide (source cmd = PUTNODES_SYNC)
             then emit (client_disableSyncContainingNode (targethandle cmd)) c
             else c
      else c in
    if ENABLE_SYNC env && bool_decide (source cmd = PUTNODES_SYNC) then
      let c := if wasError r API_EACCESS then emit (client_sendevent 99402) c else c in
      let c := result cmd (errorOrOK r) [] false c in
      let cmd := set_nn (map reset_localnode (nn cmd)) cmd in
      inr (Some (true, cmd, emit (client_putnodes_sync_result (errorOrOK r) (nn cmd)) c))
    else if bool_decide (source cmd = PUTNODES_APP) then
      inr (Some (true, cmd, result cmd (errorOrOK r) (nn cmd) false c))
    else if ENABLE_SYNC env then
      inr (Some (true, cmd, emit (client_putnodes_syncdebris_result (errorOrOK r) (nn cmd)) c))
    else inl c
  else inl c.

Definition procresult (fuel : nat) (cmd : t) (r : Result) (c : MegaClient) : outcome t :=
  let c := removePendingDBRecordsAndTempFiles cmd c in
  match on_code cmd r c with
  | inr o => o
  | inl c =>
      match parse fuel API_EINTERNAL false cmd c with
      | None => None
      | Some (e, empty, cmd, c) => deliver e empty cmd c
      end
  end.

End WithEnv.

End CommandPutNodes.

(** ** CommandMoveNode *)

Module CommandMoveNode.

Record t := mk {
  h : handle;
  syncdel : syncdel_t;
  np : handle;
  pp : handle;
  syncop : bool;
  mCanChangeVault : bool;
  completion : bool                (* the caller supplied a completion *)
}.

(** [do { if (n == syncn) .. } while ((n = n->parent))]: whether the
    walk from [n] up the parents meets [syncn]; a tree of [fuel] nodes
    has no longer path. *)
Fixpoint reaches (fuel : nat) (ns : gmap handle Node) (syncn n : handle) : bool :=
  match fuel with
  | O => false
  | S fuel =>
      if bool_decide (n = syncn) then true
      else match ns !! n with
           | Some nd => match parent nd with
                        | Some p => reaches fuel ns syncn p
                        | None => false
                        end
           | None => false
           end
  end.

(** One record of [toDebris]: [toDebrisNode->syncdeleted = syncdel]
    when the walk from it meets the node moved. *)
Definition mark_one (cmd : t) (c : MegaClient) (d : handle) : MegaClient :=
  if reaches (S (size (nodes c))) (nodes c) (h cmd) d
  then set_nodes (alter (set_syncdeleted (syncdel cmd)) d (nodes c)) c
  else c.

(** "update all todebris records in the subtree" *)
Definition mark_todebris (cmd : t) (c : MegaClient) : MegaClient :=
  fold_left (mark_one cmd) (toDebris c) c.

Section WithEnv.
Context (env : Env).

(** The block under [ENABLE_SYNC]. *)
Definition sync_block (cmd : t) (r : Result) (c : MegaClient) : MegaClient :=
  if bool_decide (syncdel cmd ≠ SYNCDEL_NONE) then
    match nodeByHandle c (h cmd) with
    | Some syncn =>
        if wasError r API_OK then mark_todebris cmd c
        else
          let tn := nodeByHandle c (rubbish c) in
          if bool_decide (syncdel cmd = SYNCDEL_BIN)
             || bool_decide (syncdel cmd = SYNCDEL_FAILED)
             || negb (bool_decide (is_Some tn))
          then
            let c := set_nodes (alter (set_syncdeleted SYNCDEL_NONE) (h cmd) (nodes c)) c in
            set_toDebris (filter (fun d => d ≠ h cmd) (toDebris c)) c
          else
            let creqtag := reqtag c in
            let c := set_reqtag (node_tag syncn) c in
            let c := emit (client_rename (h cmd) (rubbish c) SYNCDEL_FAILED (pp cmd)
                             (mCanChangeVault cmd) (reqtag c)) c in
            set_reqtag creqtag c
    | None => c
    end
  else c.

Definition procresult (cmd : t) (r : Result) (c : MegaClient) : outcome t :=
  let c :=
    if wasErrorOrOK r then
      let c := if wasError r API_EOVERQUOTA then emit client_activateoverquota c else c in
      let c := if ENABLE_SYNC env then sync_block cmd r c else c in
      if wasStrictlyError r && bool_decide (syncdel cmd = SYNCDEL_NONE)
      then emit (client_sendevent 99439) c
      else c
    else c in
  let c := if completion cmd then emit (MoveNode_completion (h cmd) (errorOrOK r)) c else c in
  Some (wasErrorOrOK r, cmd, c).

End WithEnv.

End CommandMoveNode.

(** ** CommandDelNode *)

Module CommandDelNode.

Record t := mk { h : handle; mResultFunction : bool }.

(** [if (mResultFunction) mResultFunction(h, e) else client->app->unlink_result(h, e)] *)
Definition result (cmd : t) (e : error) (c : MegaClient) : MegaClient :=
  if mResultFunction cmd then emit (DelNode_mResultFunction (h cmd) e) c
  else emit (app_unlink_result (h cmd) e) c.

Fixpoint parse (fuel : nat) (e : error) (cmd : t) (c : MegaClient) : outcome t :=
  match fuel with
  | O => None
  | S fuel =>
      let '(id, j) := JSON.getnameid (json c) in
      let c := set_json j c in
      if is_name id "r" then
        let '(ok, j1) := JSON.enterarray (json c) in
        if ok then
          let '(e, j2) := if JSON.isnumeric j1
                          then let '(n, j2) := JSON.getint j1 in (to_int n, j2)
                          else (e, j1) in
          let '(_, j3) := JSON.leavearray j2 in
          parse fuel e cmd (set_json j3 c)
        else parse fuel e cmd c
      else if bool_decide (id = EOO) then Some (true, cmd, result cmd e c)
      else
        let '(ok, _, j) := JSON.storeobject (json c) in
        if ok then parse fuel e cmd (set_json j c)
        else Some (false, cmd, result cmd API_EINTERNAL c)
  end.

Definition procresult (fuel : nat) (cmd : t) (r : Result) (c : MegaClient) : outcome t :=
  if wasErrorOrOK r then Some (true, cmd, result cmd (errorOrOK r) c)
  else parse fuel API_OK cmd c.

End CommandDelNode.

(** ** CommandLogout *)

Module CommandLogout.

(** [batchSeparately] is set by the constructor. *)
Record t := mk { mKeepSyncConfigsFile : bool; batchSeparately : bool }.

Definition make (keep : bool) : t := {| mKeepSyncConfigsFile := keep; batchSeparately := true |}.

Definition procresult (cmd : t) (r : Result) (c : MegaClient) : outcome t :=
  let c := assert_ (wasErrorOrOK r) "r.wasErrorOrOK()" c in
  let c := if bool_decide (loggingout c > 0) then set_loggingout (loggingout c - 1) c else c in
  if wasError r API_OK then
    Some (true, cmd, set_mOnCSCompletion (Some (mkDeferred (mKeepSyncConfigsFile cmd))) c)
  else Some (true, cmd, emit (Logout_completion (errorOrOK r)) c).

(** The closure stored in [mOnCSCompletion], run by the client once
    it has left the processing of the batch:
    [client->locallogout(true, keepSyncConfigsFile); completion(API_OK);] *)
Definition run_mOnCSCompletion (c : MegaClient) : MegaClient :=
  match mOnCSCompletion c with
  | Some d =>
      let c := set_mOnCSCompletion None c in
      let c := emit (client_locallogout true (keepSyncConfigsFile d)) c in
      emit (Logout_completion API_OK) c
  | None => c
  end.

End CommandLogout.

(** ** CommandValidatePassword *)

Module CommandValidatePassword.

Record t := mk { tag : Z }.

(** "we don't use the object contents, and will exit the object
    automatically" *)
Definition procresult (cmd : t) (r : Result) (c : MegaClient) : outcome t :=
  if wasError r API_OK then
    Some (true, cmd, emit (app_validatepassword_result (errorOrOK r)) c)
  else
    let c := assert_ (hasJsonObject r) "r.hasJsonObject()" c in
    Some (hasJsonObject r, cmd, emit (app_validatepassword_result API_OK) c).

End CommandValidatePassword.

(** ** CommandPrelogin *)

Module CommandPrelogin.

(** [batchSeparately] is set by the constructor. *)
Record t := mk { email : string; batchSeparately : bool }.

Definition make (email_ : string) : t := {| email := email_; batchSeparately := true |}.

Section WithEnv.
Context (env : Env).

Fixpoint parse (fuel : nat) (v : Z) (salt : string) (cmd : t) (c : MegaClient) : outcome t :=
  match fuel with
  | O => None
  | S fuel =>
      let '(id, j) := JSON.getnameid (json c) in
      let c := set_json j c in
      if is_name id "v" then
        let '(n, j) := JSON.getint (json c) in
        parse fuel (to_int n) salt cmd (set_json j c)
      else if is_name id "s" then
        let '(ok, s, j) := JSON.storeobject (json c) in
        parse fuel v (if ok then s else salt) cmd (set_json j c)
      else if bool_decide (id = EOO) then
        if bool_decide (v = 0) then
          Some (true, cmd, emit (app_prelogin_result 0 None None API_EINTERNAL) c)
        else if bool_decide (v > 2) then
          Some (true, cmd, emit (app_prelogin_result 0 None None API_EINTERNAL) c)
        else if bool_decide (v = 2) && bool_decide (salt = "") then
          Some (true, cmd, emit (app_prelogin_result 0 None None API_EINTERNAL) c)
        else
          let c := upd_session (set_account v (atob env salt)) c in
          Some (true, cmd, emit (app_prelogin_result v (Some (email cmd)) (Some salt) API_OK) c)
      else
        let '(ok, _, j) := JSON.storeobject (json c) in
        if ok then parse fuel v salt cmd (set_json j c)
        else Some (false, cmd, emit (app_prelogin_result 0 None None API_EINTERNAL) c)
  end.

Definition procresult (fuel : nat) (cmd : t) (r : Result) (c : MegaClient) : outcome t :=
  if wasErrorOrOK r then
    Some (true, cmd, emit (app_prelogin_result 0 None None (errorOrOK r)) c)
  else
    let c := assert_ (hasJsonObject r) "r.hasJsonObject()" c in
    parse fuel 0 "" cmd c.

End WithEnv.

End CommandPrelogin.

(** ** CommandLogin *)

Module CommandLogin.

(** [batchSeparately] is set by the constructor. *)
Record t := mk { checksession : bool; sessionversion : Z; batchSeparately : bool }.

Definition make (checksession_ : bool) (sessionversion_ : Z) : t :=
  {| checksession := checksession_; sessionversion := sessionversion_; batchSeparately := true |}.

(** The locals of [procresult] filled in by the reply. *)
Record locals := mkLocals {
  hash : bytes; sidbuf : bytes; privkbuf : bytes; sek : bytes;
  len_k : Z; len_privk : Z; len_csid : Z; len_tsid : Z; len_sek : Z;
  me_ : handle; fa : bool; ach : bool
}.

Definition locals0 : locals := mkLocals [] [] [] [] 0 0 0 0 0 UNDEF false false.

Section WithEnv.
Context (env : Env).

(** Modelled from the spec: [JSON::storebinary] decodes a Base64
    string into a buffer of [size] bytes and returns how many it
    wrote, [0] with the buffer untouched when there is no string. *)
Definition storebinary (buf : bytes) (size : Z) (j : JSON.t) : Z * bytes * JSON.t :=
  match JSON.cur j with
  | JSON.IVal (JSON.Str s) :: r =>
      let b := take (Z.to_nat size) (atob env s) in
      (Z.of_nat (length b), b, JSON.at_ r j)
  | _ => (0, buf, j)
  end.

(** Modelled from the spec: [JSON::gethandle] decodes a Base64
    handle, [UNDEF] when there is no string. *)
Definition gethandle (j : JSON.t) : handle * JSON.t :=
  match JSON.cur j with
  | JSON.IVal (JSON.Str s) :: r => (bytes_handle env (atob env s), JSON.at_ r j)
  | _ => (UNDEF, j)
  end.

Definition login_result (e : error) (cmd : t) (c : MegaClient) : outcome t :=
  Some (true, cmd, emit (app_login_result e) c).

(** [case EOO:] of the reply loop. *)
Definition finish (l : locals) (cmd : t) (c : MegaClient) : outcome t :=
  let step1 : option MegaClient :=
    if negb (checksession cmd) then
      if ISUNDEF (me_ l) || negb (bool_decide (len_k l = KEYLENGTH env)) then None
      else Some (upd_session (fun s => set_key (ecb_decrypt env (key s) (hash l)) s) c)
    else
      if fa l && sctable (session c) then
        let c := emit sctable_remove c in
        let c := upd_session (drop_sctable (DB_VERSION env)) c in
        Some (emit (client_sendevent 99404) c)
      else Some c in
  match step1 with
  | None => login_result API_EINTERNAL cmd c
  | Some c =>
  if negb (bool_decide (len_sek l = 0)) && negb (bool_decide (len_sek l = KEYLENGTH env))
  then login_result API_EINTERNAL cmd c
  else
  let c :=
    if negb (bool_decide (len_sek l = 0)) && checksession cmd
       && negb (bool_decide (sessionversion cmd = 0))
    then upd_session (fun s => set_key (ecb_decrypt env (sek l) (key s)) s) c
    else c in
  (* the session id: [inr e] is an early [login_result(e); return true] *)
  let step3 : MegaClient * option error :=
    if negb (bool_decide (len_tsid l = 0)) then
      let c := upd_session (set_sid (take (Z.to_nat (SIDLEN env)) (sidbuf l))) c in
      if negb (checktsid env (key (session c)) (take (Z.to_nat (len_tsid l)) (sidbuf l)))
      then (c, Some API_ENOENT)
      else (emit client_setkeypair c, None)
    else
      let step3a : MegaClient * option error :=
        if bool_decide (len_privk l < 256) then
          if negb (checksession cmd) then (c, Some API_EINTERNAL)
          else if negb (ephemeralSessionPlusPlus (session c))
               then (emit client_setkeypair c, None)
               else (c, None)
        else
          let privk := ecb_decrypt env (key (session c)) (privkbuf l) in
          let c := upd_session (set_privkey (btoa env privk) (asymkey (session c))) c in
          if asym_setkey env privk
          then (upd_session (set_privkey (btoa env privk) (Some privk)) c, None)
          else (c, Some API_ENOENT) in
      match step3a with
      | (c, Some e) => (c, Some e)
      | (c, None) =>
          if negb (checksession cmd) then
            if bool_decide (len_csid l < 32) then (c, Some API_EINTERNAL)
            else
              match asym_decrypt env (default [] (asymkey (session c)))
                      (take (Z.to_nat (len_csid l)) (sidbuf l)) with
              | Some sid_ =>
                  if bool_decide (sid_userhandle env sid_ = Some (me_ l))
                  then (upd_session (set_sid (take (Z.to_nat (SIDLEN env)) sid_)) c, None)
                  else (c, Some API_EINTERNAL)
              | None => (c, Some API_EINTERNAL)
              end
          else (c, None)
      end in
  match step3 with
  | (c, Some e) => login_result e cmd c
  | (c, None) =>
      let c := upd_session (set_user (me_ l) (btoa env (handle_bytes env (me_ l))) (ach l)) c in
      let c := emit (client_finduser (me_ l)) c in
      let c := if negb (bool_decide (len_sek l = 0))
               then upd_session (set_sessionkey (sek l)) c else c in
      let c := emit client_openStatusTable c in
      let c := emit (app_login_result API_OK) c in
      Some (true, cmd, emit client_getaccountdetails c)
  end
  end.

Fixpoint parse (fuel : nat) (l : locals) (cmd : t) (c : MegaClient) : outcome t :=
  match fuel with
  | O => None
  | S fuel =>
      let '(id, j) := JSON.getnameid (json c) in
      let c := set_json j c in
      if is_name id "k" then
        let '(n, b, j) := storebinary (hash l) (KEYLENGTH env) (json c) in
        parse fuel (mkLocals b (sidbuf l) (privkbuf l) (sek l) n (len_privk l) (len_csid l)
                      (len_tsid l) (len_sek l) (me_ l) (fa l) (ach l)) cmd (set_json j c)
      else if is_name id "u" then
        let '(h, j) := gethandle (json c) in
        parse fuel (mkLocals (hash l) (sidbuf l) (privkbuf l) (sek l) (len_k l) (len_privk l)
                      (len_csid l) (len_tsid l) (len_sek l) h (fa l) (ach l)) cmd (set_json j c)
      else if is_name id "sek" then
        let '(n, b, j) := storebinary (sek l) (KEYLENGTH env) (json c) in
        parse fuel (mkLocals (hash l) (sidbuf l) (privkbuf l) b (len_k l) (len_privk l)
                      (len_csid l) (len_tsid l) n (me_ l) (fa l) (ach l)) cmd (set_json j c)
      else if is_name id "tsid" then
        let '(n, b, j) := storebinary (sidbuf l) (MAXKEYLENGTH env) (json c) in
        parse fuel (mkLocals (hash l) b (privkbuf l) (sek l) (len_k l) (len_privk l)
                      (len_csid l) n (len_sek l) (me_ l) (fa l) (ach l)) cmd (set_json j c)
      else if is_name id "csid" then
        let '(n, b, j) := storebinary (sidbuf l) (MAXKEYLENGTH env) (json c) in
        parse fuel (mkLocals (hash l) b (privkbuf l) (sek l) (len_k l) (len_privk l)
                      n (len_tsid l) (len_sek l) (me_ l) (fa l) (ach l)) cmd (set_json j c)
      else if is_name id "privk" then
        let '(n, b, j) := storebinary (privkbuf l) (MAXKEYLENGTH env * 2) (json c) in
        parse fuel (mkLocals (hash l) (sidbuf l) b (sek l) (len_k l) n
                      (len_csid l) (len_tsid l) (len_sek l) (me_ l) (fa l) (ach l)) cmd (set_json j c)
      else if is_name id "fa" then
        let '(n, j) := JSON.getint (json c) in
        parse fuel (mkLocals (hash l) (sidbuf l) (privkbuf l) (sek l) (len_k l) (len_privk l)
                      (len_csid l) (len_tsid l) (len_sek l) (me_ l)
                      (negb (bool_decide (n = 0))) (ach l)) cmd (set_json j c)
      else if is_name id "ach" then
        let '(n, j) := JSON.getint (json c) in
        parse fuel (mkLocals (hash l) (sidbuf l) (privkbuf l) (sek l) (len_k l) (len_privk l)
                      (len_csid l) (len_tsid l) (len_sek l) (me_ l) (fa l)
                      (negb (bool_decide (n = 0)))) cmd (set_json j c)
      else if is_name id "sn" then
        let '(n, j) := JSON.getint (json c) in
        let c := set_json j c in
        let c := if bool_decide (n = 0) then upd_session (set_cachedscsn UNDEF) c else c in
        parse fuel l cmd c
      else if bool_decide (id = EOO) then finish l cmd c
      else
        let '(ok, _, j) := JSON.storeobject (json c) in
        if ok then parse fuel l cmd (set_json j c)
        else Some (false, cmd, emit (app_login_result API_EINTERNAL) c)
  end.

Definition procresult (fuel : nat) (cmd : t) (r : Result) (c : MegaClient) : outcome t :=
  if wasErrorOrOK r then Some (true, cmd, emit (app_login_result (errorOrOK r)) c)
  else
    let c := assert_ (hasJsonObject r) "r.hasJsonObject()" c in
    parse fuel locals0 cmd c.

End WithEnv.

End CommandLogin.

(** ** CommandFetchNodes: the constructor *)

Module CommandFetchNodes.

Record t := mk { tag : Z; nocache : bool; batchSeparately : bool }.

(** "The servers are more efficient with this command when it's the
    only one in the batch" *)
Definition make (tag_ : Z) (nocache_ : bool) : t :=
  {| tag := tag_; nocache := nocache_; batchSeparately := true |}.

End CommandFetchNodes.

(** ** The command variants and the polymorphic hook *)

Inductive Command :=
| PutFA (x : HttpReqCommandPutFA.t)
| GetFA (x : CommandGetFA.t)
| PutFile (x : CommandPutFile.t)
| GetPutUrl (x : CommandGetPutUrl.t)
| DirectRead (x : CommandDirectRead.t)
| SetAttr (x : CommandSetAttr.t)
| PutNodes (x : CommandPutNodes.t)
| MoveNode (x : CommandMoveNode.t)
| DelNode (x : CommandDelNode.t)
| Logout (x : CommandLogout.t)
| ValidatePassword (x : CommandValidatePassword.t)
| Prelogin (x : CommandPrelogin.t)
| Login (x : CommandLogin.t).

Definition lift {A : Type} (K : A -> Command) (o : outcome A) : outcome Command :=
  match o with
  | Some (b, x, c) => Some (b, K x, c)
  | None => None
  end.

(** [cmd->procresult(r)], by the dynamic type of the command.  [None]
    is a reply loop that has not returned within [fuel] turns. *)
Definition procresult (env : Env) (fuel : nat) (cmd : Command) (r : Result) (c : MegaClient)
  : outcome Command :=
  match cmd with
  | PutFA x => lift PutFA (HttpReqCommandPutFA.procresult env fuel x r c)
  | GetFA x => lift GetFA (CommandGetFA.procresult fuel x r c)
  | PutFile x => lift PutFile (CommandPutFile.procresult fuel x r c)
  | GetPutUrl x => lift GetPutUrl (CommandGetPutUrl.procresult fuel x r c)
  | DirectRead x => lift DirectRead (CommandDirectRead.procresult env fuel x r c)
  | SetAttr x => lift SetAttr (CommandSetAttr.procresult x r c)
  | PutNodes x => lift PutNodes (CommandPutNodes.procresult env fuel x r c)
  | MoveNode x => lift MoveNode (CommandMoveNode.procresult env x r c)
  | DelNode x => lift DelNode (CommandDelNode.procresult fuel x r c)
  | Logout x => lift Logout (CommandLogout.procresult x r c)
  | ValidatePassword x => lift ValidatePassword (CommandValidatePassword.procresult x r c)
  | Prelogin x => lift Prelogin (CommandPrelogin.procresult env fuel x r c)
  | Login x => lift Login (CommandLogin.procresult env fuel x r c)
  end.

(** [cmd->cancel()] for the variants whose [procresult] tests
    [canceled]. *)
Definition cancel (cmd : Command) : Command :=
  match cmd with
  | PutFile x => PutFile (CommandPutFile.cancel x)
  | GetPutUrl x => GetPutUrl (CommandGetPutUrl.cancel x)
  | DirectRead x => DirectRead (CommandDirectRead.cancel x)
  | _ => cmd
  end.

Definition cancellable (cmd : Command) : bool :=
  match cmd with
  | PutFile _ | GetPutUrl _ | DirectRead _ => true
  | _ => false
  end.

Definition canceled (cmd : Command) : bool :=
  match cmd with
  | PutFile x => CommandPutFile.canceled x || bool_decide (CommandPutFile.tslot x = None)
  | GetPutUrl x => CommandGetPutUrl.canceled x
  | DirectRead x => CommandDirectRead.canceled x || bool_decide (CommandDirectRead.drn x = None)
  | _ => false
  end.

(** The commands that ask for an upload URL. *)
Definition requests_upload (cmd : Command) : bool :=
  match cmd with
  | PutFile _ | GetPutUrl _ => true
  | _ => false
  end.



(** ** Completions in the log *)

(** The error a completion or result callback was called with. *)
Definition completion_error (ev : event) : option error :=
  match ev with
  | app_putfa_result _ _ e | app_putnodes_result e _ _ _ | app_unlink_result _ e
  | app_prelogin_result _ _ _ e | app_login_result e | app_validatepassword_result e
  | PutFA_mCompletion e _ _ | GetPutUrl_mCompletion e _ _ | SetAttr_completion _ e
  | PutNodes_mResultFunction e _ _ _ | MoveNode_completion _ e
  | DelNode_mResultFunction _ e | Logout_completion e => Some e
  | _ => None
  end.

(** The errors handed to completions by a run of events, in order. *)
Definition completions (evs : list event) : list error :=
  omap completion_error evs.

(** The create-node commands whose result goes to a completion: those
    of the application, and those of the sync engine where it is
    built; the moves into the sync debris report to the client only. *)
Definition putnodes_scope (env : Env) (x : CommandPutNodes.t) : bool :=
  bool_decide (CommandPutNodes.source x = PUTNODES_APP)
  || (ENABLE_SYNC env && bool_decide (CommandPutNodes.source x = PUTNODES_SYNC)).

(** Whether the command has a completion to call: one supplied by the
    caller, or the application callback it falls back to. *)
Definition completes (env : Env) (cmd : Command) : bool :=
  match cmd with
  | PutFA _ | GetFA _ | PutFile _ | DirectRead _ => false
  | GetPutUrl x => negb (CommandGetPutUrl.canceled x)
  | SetAttr x => CommandSetAttr.completion x
  | MoveNode x => CommandMoveNode.completion x
  | PutNodes x => putnodes_scope env x
  | DelNode _ | Logout _ | ValidatePassword _ | Prelogin _ | Login _ => true
  end.









(** ** The batch: dispatch of a reply and queueing of requests *)

(** The cursor entered into a slot, and the view over the slot. *)
Definition enter_slot (v : JSON.value) (rest : list JSON.item) (c : MegaClient)
  : Result * MegaClient :=
  let j := json c in
  match v with
  | JSON.Num e => (StrictError e, set_json (JSON.at_ rest j) c)
  | JSON.Obj m => (JsonObject, set_json (JSON.mk (JSON.members m) (rest :: JSON.up j)) c)
  | JSON.Arr l => (JsonArray, set_json (JSON.mk (map JSON.IVal l) (rest :: JSON.up j)) c)
  | _ => (Scalar, c)
  end.

(** Modelled from the spec: the dispatch loop of the batch sender
    (§4.4; its source is not part of the translated file).  Commands
    and slots are walked in lockstep: a [Result] is built over the
    slot, [procresult] is called, and the cursor is put at the next
    slot boundary whatever the command returned.  The commands left
    over when the reply runs out, or when a slot cannot be skipped, are
    handed back for resubmission. *)
Fixpoint dispatch (env : Env) (fuel : nat) (cmds : list Command) (c : MegaClient)
  : option (list Command * MegaClient) :=
  match cmds with
  | [] => Some ([], c)
  | cmd :: rest =>
      match JSON.cur (json c) with
      | JSON.IVal v :: slots =>
          let up_ := JSON.up (json c) in
          let '(r, c1) := enter_slot v slots c in
          match procresult env fuel cmd r c1 with
          | None => None
          | Some (_, _, c2) =>
              if JSON.complete v
              then dispatch env fuel rest (set_json (JSON.mk slots up_) c2)
              else Some (rest, c2)
          end
      | _ => Some (cmds, c)
      end
  end.

Module RequestDispatcher.

Section Queue.
Context {C : Type} (batchSeparately : C -> bool).

(** The batches closed but not yet sent, oldest first, and the
    accumulating set. *)
Record t := mk { closed : list (list C); accumulating : list C }.

Definition empty : t := {| closed := []; accumulating := [] |}.



(** Modelled from the spec: [dispatch] (§4.4) hands the oldest
    pending batch to the transport as one request; the accumulating
    set goes when nothing older is pending, and a fresh one is opened. *)
Definition dispatch (q : t) : option (list C) * t :=
  match closed q with
  | b :: older => (Some b, {| closed := older; accumulating := accumulating q |})
  | [] =>
      match accumulating q with
      | [] => (None, q)
      | b => (Some b, empty)
      end
  end.







End Queue.

End RequestDispatcher.

(** The [batchSeparately] flag of a command: set by the constructors
    of the logout, prelogin and login commands, clear otherwise. *)
Definition batchSeparately (cmd : Command) : bool :=
  match cmd with
  | Logout x => CommandLogout.batchSeparately x
  | Prelogin x => CommandPrelogin.batchSeparately x
  | Login x => CommandLogin.batchSeparately x
  | _ => false
  end.

(** ** Concrete clients and replies for the examples *)

Definition session0 : Session :=
  mkSession UNDEF "" [] [] [] "" None 0 [] UNDEF false false 0 false false.

(** A client with nothing in it, its cursor at the end of input. *)
Definition client0 : MegaClient :=
  mkClient (JSON.mk [] []) [] false ∅ [] UNDEF 0 false ∅ ∅ false ∅ 0 0 None session0 ∅ ∅.

(** The client reading the slots of a reply array. *)
Definition reading (slots : list JSON.value) (c : MegaClient) : MegaClient :=
  set_json (JSON.mk (map JSON.IVal slots) []) c.

(** The client with its cursor inside an object slot with members [m]. *)
Definition inside (m : list (nameid * JSON.value)) (c : MegaClient) : MegaClient :=
  set_json (JSON.mk (JSON.members m) (JSON.up (json c))) c.

(** Collaborators that accept nothing and decode to nothing; the sync
    engine is built in. *)
Definition env0 : Env :=
  mkEnv true (fun _ => []) (fun _ => "") (fun _ => []) (fun _ => UNDEF)
    (fun _ _ => false) (fun _ _ => false)
    (fun v _ nn _ ns => (match v with JSON.Arr _ => JSON.complete v | _ => false end, nn, ns))
    (fun _ b => b) (fun _ _ => false) (fun _ => false) (fun _ _ => None) (fun _ => None)
    16 1026 43 13 3600.

(** An upload waiting for its URL, the reply to it, and a delete
    command. *)
Definition example_upload : Command := PutFile (CommandPutFile.mk (Some 1) false).

Definition example_url_reply : JSON.value :=
  JSON.Obj [(MAKENAMEID "p", JSON.Str "https://up");
            (MAKENAMEID "ip", JSON.Arr [JSON.Str "10.0.0.1"; JSON.Str "::1"])].

Definition example_delete : Command := DelNode (CommandDelNode.mk 7 true).



(** A client that holds read node 1, the command pending. *)
Definition client_reading : MegaClient :=
  set_drns {[ 1 := mkDirectReadNode true [] 0 ]} client0.



(** A move of node 7 into the sync debris, and a client that holds the
    node with its debris record. *)
Definition example_debris_move : CommandMoveNode.t :=
  CommandMoveNode.mk 7 SYNCDEL_BIN 8 UNDEF false false true.

Definition client_debris : MegaClient :=
  set_toDebris [7] (set_nodes {[ 7 := mkNode (Some 1) None SYNCDEL_BIN 0 false ]} client0).


(** A create-node command of the application under node 8. *)
Definition example_putnodes : CommandPutNodes.t :=
  CommandPutNodes.mk [mkNewNode 1 UNDEF false] NODE_HANDLE PUTNODES_APP 8 0 true.

(** Only the log differs between [c] and [c']. *)
Definition only_logged (c c' : MegaClient) : Prop := c' = set_log (log c') c.

(** ** Counting helpers for the statements *)

Definition count_true (l : list bool) : nat := length (filter (fun b => b = true) l).

(** The assertions recorded as failed by a run of events. *)
Definition asserts (evs : list event) : list string :=
  omap (fun ev => match ev with assert_failed s => Some s | _ => None end) evs.

(** Keys of an object slot; no turn of a reply loop is needed for any
    other slot. *)
Definition keys (v : JSON.value) : nat :=
  match v with
  | JSON.Obj m => length m
  | _ => 0%nat
  end.

(** A member of the reply to an upload-URL request that the reply
    loop reads to its end: a key, a value that can be skipped, and an
    array under [ip]. *)
Definition url_member_ok (kv : nameid * JSON.value) : bool :=
  negb (bool_decide (fst kv = EOO)) && JSON.complete (snd kv)
  && (if is_name (fst kv) "ip"
      then match snd kv with JSON.Arr _ => true | _ => false end
      else true).

(** A reply slot a canceled upload command reads to its end. *)
Definition well_formed_url_reply (v : JSON.value) : bool :=
  match v with
  | JSON.Num _ => true
  | JSON.Obj m => forallb url_member_ok m
  | _ => false
  end.

(** The cursor at the boundary of slot [v], the slots [vs] still to
    come: behind a bare code, or at the end of the container entered. *)
Definition slot_end (v : JSON.value) (vs : list JSON.value) : JSON.t :=
  match v with
  | JSON.Obj _ | JSON.Arr _ => JSON.mk [] [map JSON.IVal vs]
  | _ => JSON.mk (map JSON.IVal vs) []
  end.

(** What a reply that has been processed with return value [b]
    leaves in the client: the pending teardown as it was, and a run of
    calls among which there is one completion and no failed assertion;
    a return of false comes with [API_EINTERNAL] and the cursor in
    front of a value that cannot be skipped. *)
Definition completed_once (c : MegaClient) (b : bool) (c' : MegaClient) : Prop :=
  mOnCSCompletion c' = mOnCSCompletion c
  /\ exists evs x,
       log c' = log c ++ evs
       /\ completions evs = [x]
       /\ asserts evs = []
       /\ (b = false -> x = API_EINTERNAL /\ (JSON.storeobject (json c')).1.1 = false).

(** The weaker fact for any command: one completion among the calls
    made, the pending teardown as it was. *)
Definition called_once (c c' : MegaClient) : Prop :=
  mOnCSCompletion c' = mOnCSCompletion c
  /\ exists evs x, log c' = log c ++ evs /\ completions evs = [x].

(** A member of a reply with a key other than [s] and a value that
    can be skipped. *)
Definition member_without (s : string) (kv : nameid * JSON.value) : bool :=
  negb (bool_decide (fst kv = EOO)) && JSON.complete (snd kv)
  && negb (is_name (fst kv) s).

(** The keys the reply loops of the delete-node, prelogin and login
    commands have a case for. *)
Definition delnode_keys : list string := ["r"].

Definition prelogin_keys : list string := ["v"; "s"].

Definition login_keys : list string :=
  ["k"; "u"; "sek"; "tsid"; "csid"; "privk"; "fa"; "ach"; "sn"].

(** A key that is none of [known]: the loop takes its [default]
    branch. *)
Definition unknown_key (known : list string) (k : nameid) : bool :=
  negb (bool_decide (k = EOO)) && forallb (fun s => negb (is_name k s)) known.

(** Between [c] and [c'] one completion was called, with [e]. *)
Definition reported (c c' : MegaClient) (e : error) : Prop :=
  exists evs, log c' = log c ++ evs /\ completions evs = [e].

(** A member of a create-node reply that the loop skips: a key other
    than [f] and [f2], and a value that can be skipped. *)
Definition skipped_member (kv : nameid * JSON.value) : bool :=
  negb (bool_decide (fst kv = EOO)) && JSON.complete (snd kv)
  && negb (is_name (fst kv) "f") && negb (is_name (fst kv) "f2").

(** One turn of a reply loop in hypothesis [H], taken apart at its
    [getnameid]. *)
Ltac turn H :=
  simpl in H;
  match type of H with
  | context [JSON.getnameid ?j] =>
      let id := fresh "id" in
      let j' := fresh "j" in
      let E := fresh "Eid" in
      destruct (JSON.getnameid j) as [id j'] eqn:E
  end.

(** The same for a loop in the goal. *)
Ltac turn_goal :=
  simpl;
  match goal with
  | |- context [JSON.getnameid ?j] =>
      let id := fresh "id" in
      let j' := fresh "j" in
      let E := fresh "Eid" in
      destruct (JSON.getnameid j) as [id j'] eqn:E
  end.

(** Closes [completed_once] for a client built by emits on [c]. *)
Ltac finish_once :=
  split; [reflexivity|];
  simpl; rewrite <- ?app_assoc;
  eexists _, _; split; [reflexivity|];
  split; [reflexivity|]; split; [reflexivity|];
  first [ intros; discriminate | intros _; split; [reflexivity|assumption] ].

(** Closes [called_once] for a client built by emits on [c]. *)
Ltac finish_called :=
  split; [reflexivity|];
  simpl; rewrite <- ?app_assoc;
  eexists _, _; split; [reflexivity|reflexivity].

(** ** Predicates for the further properties *)

(** A member of a reply without an upload URL: any member the
    upload-URL loops read to its end, the key [p] apart. *)
Definition no_url_member (kv : nameid * JSON.value) : bool :=
  url_member_ok kv && negb (is_name (fst kv) "p").

(** The URLs under the keys [p] of a reply and the addresses under its
    keys [ip], in the order of the reply. *)
Definition reply_urls (m : list (nameid * JSON.value)) : list string :=
  omap (fun kv => if is_name (fst kv) "p" then Some (JSON.text (snd kv)) else None) m.

Definition reply_ips (m : list (nameid * JSON.value)) : list string :=
  flat_map (fun kv => if is_name (fst kv) "ip"
                      then match snd kv with
                           | JSON.Arr l => map JSON.text l
                           | _ => []
                           end
                      else []) m.

(** A client that holds node 7, locally deleted and on its way to the
    sync debris of the day, and node 9, its Rubbish Bin. *)
Definition client_with_bin : MegaClient :=
  mkClient (JSON.mk [] []) [] false
    {[ 7 := mkNode (Some 1) None SYNCDEL_DEBRISDAY 5 false;
       9 := mkNode None None SYNCDEL_NONE 0 false ]}
    [7] 9 0 false ∅ ∅ false ∅ 0 0 None session0 ∅ ∅.

(** [d] is the node [a] or lies under it: the chain of parents of
    [d] leads to [a]. *)
Inductive in_subtree (ns : gmap handle Node) (a : handle) : handle -> Prop :=
| subtree_root : in_subtree ns a a
| subtree_child (d : handle) (nd : Node) (p : handle) :
    ns !! d = Some nd -> parent nd = Some p -> in_subtree ns a p -> in_subtree ns a d.

(** A client that holds folder 7, locally deleted, with file 5 in it,
    and file 3 next to it; each has its debris record. *)
Definition client_debris_tree : MegaClient :=
  set_toDebris [7; 5; 3]
    (set_nodes {[ 7 := mkNode (Some 1) None SYNCDEL_BIN 0 false;
                  5 := mkNode (Some 7) None SYNCDEL_NONE 0 false;
                  3 := mkNode (Some 1) None SYNCDEL_DEBRISDAY 0 false ]} client0).

(** A member of a reply that can be read or skipped: a key and a
    value without malformed text. *)
Definition member_ok (kv : nameid * JSON.value) : bool :=
  negb (bool_decide (fst kv = EOO)) && JSON.complete (snd kv).

(** A client with the fetch channel of part 0, one fetch not yet
    asked for. *)
Definition client_fetching : MegaClient :=
  set_fafcs {[ 0 := mkFafc {[ 5 := 1 ]} ∅ API_OK REQ_INFLIGHT "" 0 ]} client0.

(** Collaborators for a login that goes through: every private key
    is accepted, decryption gives back its input, and every session id
    carries user 42. *)
Definition env_login : Env :=
  mkEnv true (fun _ => []) (fun _ => "") (fun _ => []) (fun _ => UNDEF)
    (fun _ _ => false) (fun _ _ => false)
    (fun v _ nn _ ns => (match v with JSON.Arr _ => JSON.complete v | _ => false end, nn, ns))
    (fun _ b => b) (fun _ _ => false) (fun _ => true) (fun _ b => Some b) (fun _ => Some 42)
    16 1026 43 13 3600.

(** What the loop has gathered from the reply to the login of user
    42: a master key of 16 bytes, a private key of 256 and a session id
    of 32. *)
Definition example_login_locals : CommandLogin.locals :=
  CommandLogin.mkLocals (repeat 1 16) (repeat 2 32) (repeat 3 256) [] 16 256 32 0 0 42
    false false.

(** A member of a delete-node reply that the loop skips: any member
    that can be skipped, the key [r] apart. *)
Definition not_result_member (kv : nameid * JSON.value) : bool :=
  member_ok kv && negb (is_name (fst kv) "r").

(** ** The SMS verification commands *)

(** [isdigit] of the C locale. *)
Definition isdigit (ch : Ascii.ascii) : bool :=
  (48 <=? Ascii.nat_of_ascii ch)%nat && (Ascii.nat_of_ascii ch <=? 57)%nat.

(** The character [+]. *)
Definition plus_sign : Ascii.ascii := Ascii.ascii_of_nat 43.

(** [s[i]]; the index is in range wherever the commands use it. *)
Definition char_at (s : string) (i : nat) : Ascii.ascii :=
  default Ascii.zero (String.get i s).

Module CommandSMSVerificationSend.

(** [for (auto i = s.size(); i--; )]: the characters from the last
    to the first; [i] is the number of characters still to check. *)
Fixpoint scan (s : string) (i : nat) : bool :=
  match i with
  | O => true
  | S i =>
      if negb (isdigit (char_at s i)
               || (bool_decide (i = 0%nat) && bool_decide (char_at s i = plus_sign)))
      then false
      else scan s i
  end.

Definition isPhoneNumber (s : string) : bool :=
  if scan s (String.length s) then bool_decide (6 < String.length s)%nat else false.

End CommandSMSVerificationSend.

Module CommandSMSVerificationCheck.

(** [for (const char c : s) if (!isdigit(c)) return false;] *)
Fixpoint digits (s : string) : bool :=
  match s with
  | EmptyString => true
  | String ch r => if negb (isdigit ch) then false else digits r
  end.

Definition isVerificationCode (s : string) : bool :=
  if digits s then bool_decide (String.length s = 6%nat) else false.

End CommandSMSVerificationCheck.

(** All the characters of [s] are digits. *)
Definition all_digits (s : string) : Prop :=
  forall i ch, String.get i s = Some ch -> isdigit ch = true.

(** ** CommandGetCountryCallingCodes *)

(** Modelled from the spec: [JSON::leaveobject] (§4.1) ascends from
    an object; like [leavearray], it needs the cursor at the end of
    what it leaves. *)
Definition leaveobject (j : JSON.t) : bool * JSON.t :=
  match JSON.cur j, JSON.up j with
  | [], r :: u => (true, JSON.mk r u)
  | _, _ => (false, j)
  end.

Module CommandGetCountryCallingCodes.

(** [client->app->getcountrycallingcodes_result(e, codes)]; [None] is
    the null pointer. *)
Inductive call :=
| getcountrycallingcodes_result (e : error) (codes : option (gmap string (list string))).

(** [countryCallingCodes.emplace(..)]: a country code already in the
    map keeps its list. *)
Definition emplace (cc : string) (codes : list string) (m : gmap string (list string))
  : gmap string (list string) :=
  match m !! cc with
  | Some _ => m
  | None => <[cc := codes]> m
  end.

(** The loop [while (!exit)] over the members of one entry: [inl] is
    the [return false] of a value that cannot be skipped, [inr] the end
    of the entry with what it gave. *)
Fixpoint entry (fuel : nat) (countryCode : string) (callingCodes : list string) (j : JSON.t)
  : option (JSON.t + string * list string * JSON.t) :=
  match fuel with
  | O => None
  | S fuel =>
      let '(id, j) := JSON.getnameid j in
      if is_name id "cc" then
        let '(ok, s, j) := JSON.storeobject j in
        entry fuel (if ok then s else countryCode) callingCodes j
      else if is_name id "l" then
        let '(ok, j1) := JSON.enterarray j in
        if ok then
          let '(codes, j2) := store_strings (length (JSON.cur j1)) callingCodes j1 in
          let '(_, j3) := JSON.leavearray j2 in
          entry fuel countryCode codes j3
        else entry fuel countryCode callingCodes j
      else if bool_decide (id = EOO) then Some (inr (countryCode, callingCodes, j))
      else
        let '(ok, _, j) := JSON.storeobject j in
        if ok then entry fuel countryCode callingCodes j else Some (inl j)
  end.

(** The loop [while (client->json.enterobject())] and what follows
    it.  An entry has one turn for each of its keys and one more. *)
Fixpoint entries (fuel : nat) (success : bool) (m : gmap string (list string)) (j : JSON.t)
  : option (bool * list call * JSON.t) :=
  match fuel with
  | O => None
  | S fuel =>
      let '(ok, j1) := JSON.enterobject j in
      if ok then
        match entry (S (JSON.names (JSON.cur j1))) "" [] j1 with
        | None => None
        | Some (inl j2) => Some (false, [getcountrycallingcodes_result API_EINTERNAL None], j2)
        | Some (inr (countryCode, callingCodes, j2)) =>
            let '(success, m) :=
              if bool_decide (countryCode = "") || bool_decide (callingCodes = [])
              then (false, m)
              else (success, emplace countryCode callingCodes m) in
            let '(_, j3) := leaveobject j2 in
            entries fuel success m j3
        end
      else if success then Some (true, [getcountrycallingcodes_result API_OK (Some m)], j)
      else Some (false, [getcountrycallingcodes_result API_EINTERNAL None], j)
  end.

(** [procresult] on the client's cursor: its return value, the call
    made and the cursor. *)
Definition procresult (fuel : nat) (r : Result) (j : JSON.t) : option (bool * list call * JSON.t) :=
  if wasErrorOrOK r then Some (true, [getcountrycallingcodes_result (errorOrOK r) None], j)
  else entries fuel true ∅ j.

End CommandGetCountryCallingCodes.

(** One entry [{"cc":c,"l":[codes]}] of the reply, as a value. *)
Definition calling_codes_entry (e : string * list string) : JSON.value :=
  JSON.Obj [(MAKENAMEID "cc", JSON.Str (fst e)); (MAKENAMEID "l", JSON.Arr (map JSON.Str (snd e)))].

(** An entry with a country code and at least one calling code. *)
Definition calling_codes_ok (e : string * list string) : bool :=
  negb (bool_decide (fst e = "")) && negb (bool_decide (snd e = [])).

(** The calling codes of the first entry for country [cc]. *)
Fixpoint first_codes (cc : string) (es : list (string * list string)) : option (list string) :=
  match es with
  | [] => None
  | e :: es => if bool_decide (fst e = cc) then Some (snd e) else first_codes cc es
  end.

(** ** The request of CommandPutFile *)

(** Modelled from the spec: the builder side of the wire codec
    ([cmd], [arg], [beginarray], [element], [endarray] of §4.1, whose
    source is not part of the translated file): a request is the
    sequence of the fields appended to it. *)
Inductive field :=
| cmd_ (name : string)
| arg_num (key : string) (v : Z)
| arg_str (key : string) (v : string)
| beginarray (key : string)
| element_handle (h : handle)
| endarray.

(** A [File] of the transfer: its target node, or the target user. *)
Record File := mkFile { file_h : handle; targetuser : string }.

Module PutFileRequest.

Section WithClient.
Context (usehttps : bool) (ns : gmap handle Node).
(** [client->getrootnode(node)->nodehandle], by the handle of the
    node. *)
Context (getrootnode : handle -> handle).

(** The first loop over [tslot->transfer->files]: the roots seen, the
    flag [begun] and the request so far. *)
Fixpoint targets (files : list File) (targetRoots : gset handle) (begun : bool)
  (req : list field) : bool * list field :=
  match files with
  | [] => (begun, req)
  | file :: files =>
      if negb (ISUNDEF (file_h file)) then
        let send (roots : gset handle) :=
          let req := if begun then req else req ++ [beginarray "t"] in
          targets files roots true (req ++ [element_handle (file_h file)]) in
        match ns !! file_h file with
        | Some _ =>
            let rootnode := getrootnode (file_h file) in
            if bool_decide (rootnode ∈ targetRoots) then targets files targetRoots begun req
            else send ({[ rootnode ]} ∪ targetRoots)
        | None => send targetRoots
        end
      else targets files targetRoots begun req
  end.

(** The second loop: the first target user, when no array was
    begun. *)
Fixpoint target_user (files : list File) (req : list field) : list field :=
  match files with
  | [] => req
  | file :: files =>
      if ISUNDEF (file_h file) && negb (bool_decide (targetuser file = ""))
      then req ++ [arg_str "t" (targetuser file)]
      else target_user files req
  end.

(** [CommandPutFile::CommandPutFile]: the request it builds for a
    file of [size] bytes. *)
Definition make (size ms : Z) (files : list File) : list field :=
  let req := [cmd_ "u"] in
  let req := if usehttps then req ++ [arg_num "ssl" 2] else req in
  let req := req ++ [arg_num "v" 3; arg_num "s" size; arg_num "ms" ms] in
  let '(begun, req) := targets files ∅ false req in
  if begun then req ++ [endarray] else target_user files req.

End WithClient.

End PutFileRequest.

(** The node handles sent in a request. *)
Definition sent_handles (req : list field) : list handle :=
  omap (fun f => match f with element_handle h => Some h | _ => None end) req.

(** The target users sent in a request. *)
Definition sent_users (req : list field) : list string :=
  omap (fun f => match f with arg_str "t" u => Some u | _ => None end) req.

(** The roots of the handles sent that have a node. *)
Definition sent_roots (ns : gmap handle Node) (getrootnode : handle -> handle)
  (req : list field) : list handle :=
  map getrootnode (filter (fun h => is_Some (ns !! h)) (sent_handles req)).

(** ** CommandGetFile: request the download URLs and the attributes of a file *)

(** The key error of the API's enumeration ([mega/types.h]). *)
Definition API_EKEY : error := -14.

Module CommandGetFile.

(** The arguments of [mCompletion]; [None] is the null pointer. *)
Record result := mkResult {
  res_e : error;
  res_size : Z;
  res_ts : Z;
  res_tm : Z;
  res_timeleft : Z;
  res_filename : option string;
  res_fingerprint : option string;
  res_fileattrstring : option string;
  res_tempurls : list string;
  res_ips : list string
}.

Inductive call :=
| completion (a : result)
| cacheresolvedurls (urls ips : list string).

(** [mCompletion] is the callback of the caller, or none. *)
Record t := mk { canceled : bool; mCompletion : option (result -> bool) }.

(** [Command::cancel();] *)
Definition cancel (cmd : t) : t := {| canceled := true; mCompletion := mCompletion cmd |}.

(** [if (mCompletion) mCompletion(e, -1, -1, -1, 0, nullptr, nullptr, nullptr, {}, {});] *)
Definition callFailedCompletion (cmd : t) (e : error) : list call :=
  match mCompletion cmd with
  | Some _ => [completion (mkResult e (-1) (-1) (-1) 0 None None None [] [])]
  | None => []
  end.

(** The locals of [procresult]; [at_] is the pointer [at]. *)
Record locals := mkLocals {
  at_ : option string;
  e : error;
  s : Z;
  tl : Z;
  ts : Z;
  tm : Z;
  fileattrstring : string;
  tempurls : list string;
  tempips : list string
}.

Definition locals0 : locals := mkLocals None API_EINTERNAL (-1) 0 0 0 "" [] [].

(** The inner loop over the decrypted attributes: [inl (b, calls)] is
    a [return b] after a failed completion, [inr] the end of the object
    with the name and the fingerprint found. *)
Fixpoint attrs (fuel : nat) (cmd : t) (filenamestring filefingerprint : string) (j : JSON.t)
  : option (bool * list call + string * string) :=
  match fuel with
  | O => None
  | S fuel =>
      let '(id, j) := JSON.getnameid j in
      if is_name id "c" then
        let '(ok, v, j) := JSON.storeobject j in
        if ok then attrs fuel cmd filenamestring v j
        else Some (inl (true, callFailedCompletion cmd API_EINTERNAL))
      else if is_name id "n" then
        let '(ok, v, j) := JSON.storeobject j in
        if ok then attrs fuel cmd v filefingerprint j
        else Some (inl (true, callFailedCompletion cmd API_EINTERNAL))
      else if bool_decide (id = EOO) then Some (inr (filenamestring, filefingerprint))
      else
        let '(ok, _, j) := JSON.storeobject j in
        if ok then attrs fuel cmd filenamestring filefingerprint j
        else Some (inl (false, callFailedCompletion cmd API_EINTERNAL))
  end.

Section WithCipher.

(** [Node::decryptattr] with the key of the command, and [JSON::begin]
    past the prefix of the buffer: the members of the attribute object,
    or [None] for the null buffer. *)
Context (decryptattr : string -> option (list JSON.item)).

(** [case EOO] of the outer loop.  The call of [cacheresolvedurls] is
    deferred to the end of the block: it comes after the completion. *)
Definition at_end (l : locals) (cmd : t) : option (bool * list call) :=
  let deferThis := [cacheresolvedurls (tempurls l) (tempips l)] in
  if canceled cmd then Some (true, deferThis)
  else
    match at_ l with
    | None => Some (true, callFailedCompletion cmd API_EINTERNAL ++ deferThis)
    | Some a =>
        match decryptattr a with
        | None => Some (true, callFailedCompletion cmd API_EKEY ++ deferThis)
        | Some buf =>
            match attrs (S (JSON.names buf)) cmd "" "" (JSON.mk buf []) with
            | None => None
            | Some (inl (b, calls)) => Some (b, calls ++ deferThis)
            | Some (inr (filenamestring, filefingerprint)) =>
                match mCompletion cmd with
                | Some f =>
                    let a := mkResult (e l) (s l) (ts l) (tm l) (tl l)
                               (Some filenamestring) (Some filefingerprint)
                               (Some (fileattrstring l)) (tempurls l) (tempips l) in
                    Some (f a, [completion a] ++ deferThis)
                | None => Some (false, deferThis)
                end
            end
        end
    end.

Fixpoint parse (fuel : nat) (l : locals) (cmd : t) (c : MegaClient)
  : option (bool * list call * MegaClient) :=
  match fuel with
  | O => None
  | S fuel =>
      let '(id, j) := JSON.getnameid (json c) in
      let c := set_json j c in
      if is_name id "g" then
        let '(urls, j) := CommandDirectRead.read_urls (tempurls l) (json c) in
        parse fuel (mkLocals (at_ l) API_OK (s l) (tl l) (ts l) (tm l) (fileattrstring l)
                      urls (tempips l)) cmd (set_json j c)
      else if is_name id "ip" then
        let '(_, ips, c) := loadIpsFromJson (tempips l) c in
        parse fuel (mkLocals (at_ l) (e l) (s l) (tl l) (ts l) (tm l) (fileattrstring l)
                      (tempurls l) ips) cmd c
      else if is_name id "s" then
        let '(v, j) := JSON.getint (json c) in
        parse fuel (mkLocals (at_ l) (e l) v (tl l) (ts l) (tm l) (fileattrstring l)
                      (tempurls l) (tempips l)) cmd (set_json j c)
      else if is_name id "ts" then
        let '(v, j) := JSON.getint (json c) in
        parse fuel (mkLocals (at_ l) (e l) (s l) (tl l) v (tm l) (fileattrstring l)
                      (tempurls l) (tempips l)) cmd (set_json j c)
      else if is_name id "tmd" then
        let '(v, j) := JSON.getint (json c) in
        parse fuel (mkLocals (at_ l) (e l) (s l) (tl l) (ts l) (ts l + v) (fileattrstring l)
                      (tempurls l) (tempips l)) cmd (set_json j c)
      else if is_name id "at" then
        let '(v, j) := JSON.getvalue (json c) in
        parse fuel (mkLocals v (e l) (s l) (tl l) (ts l) (tm l) (fileattrstring l)
                      (tempurls l) (tempips l)) cmd (set_json j c)
      else if is_name id "fa" then
        let '(ok, v, j) := JSON.storeobject (json c) in
        parse fuel (mkLocals (at_ l) (e l) (s l) (tl l) (ts l) (tm l)
                      (if ok then v else fileattrstring l)
                      (tempurls l) (tempips l)) cmd (set_json j c)
      else if is_name id "e" then
        let '(v, j) := JSON.getint (json c) in
        parse fuel (mkLocals (at_ l) (to_int v) (s l) (tl l) (ts l) (tm l) (fileattrstring l)
                      (tempurls l) (tempips l)) cmd (set_json j c)
      else if is_name id "tl" then
        let '(v, j) := JSON.getint (json c) in
        parse fuel (mkLocals (at_ l) (e l) (s l) (to_dstime v) (ts l) (tm l) (fileattrstring l)
                      (tempurls l) (tempips l)) cmd (set_json j c)
      else if bool_decide (id = EOO) then
        match at_end l cmd with
        | Some (b, calls) => Some (b, calls, c)
        | None => None
        end
      else
        let '(ok, _, j) := JSON.storeobject (json c) in
        if ok then parse fuel l cmd (set_json j c)
        else if canceled cmd then Some (false, [], c)
        else Some (false, callFailedCompletion cmd API_EINTERNAL, c)
  end.

Definition procresult (fuel : nat) (cmd : t) (r : Result) (c : MegaClient)
  : option (bool * list call * MegaClient) :=
  if wasErrorOrOK r then
    if canceled cmd then Some (true, [], c)
    else Some (true, callFailedCompletion cmd (errorOrOK r), c)
  else parse fuel locals0 cmd c.

End WithCipher.

(** The completions among the calls. *)
Definition completions (calls : list call) : list result :=
  omap (fun x => match x with completion a => Some a | _ => None end) calls.

End CommandGetFile.

(** How many completions a run is to make: one, unless the command is
    canceled or has no callback. *)
Definition getfile_due (cmd : CommandGetFile.t) : nat :=
  if CommandGetFile.canceled cmd then 0%nat
  else match CommandGetFile.mCompletion cmd with Some _ => 1%nat | None => 0%nat end.


(** ** CommandSetPendingContact: add, delete or remind a pending contact request *)

(** [ACCESS_UNKNOWN] of the access levels ([mega/types.h]). *)
Definition ACCESS_UNKNOWN : Z := -1.

Module CommandSetPendingContact.

Inductive opcactions_t := OPCA_ADD | OPCA_DELETE | OPCA_REMIND.

#[global] Instance opcactions_eq_dec : EqDecision opcactions_t.
Proof. solve_decision. Defined.

(** A pending contact request, as its constructor is given it;
    [changed_deleted] is [changed.deleted]. *)
Record PendingContactRequest := mkPcr {
  id : handle;
  originatoremail : string;
  targetemail : string;
  pcr_ts : Z;
  pcr_uts : Z;
  pcr_msg : option string;
  isoutgoing : bool;
  changed_deleted : bool
}.

Definition set_deleted (p : PendingContactRequest) : PendingContactRequest :=
  mkPcr (id p) (originatoremail p) (targetemail p) (pcr_ts p) (pcr_uts p) (pcr_msg p)
    (isoutgoing p) true.

(** What the command reads of a node; [pendingshares] holds the keys
    of its map of pending shares, [None] for the null pointer. *)
Record Node := mkNode {
  nodehandle : handle;
  owner : handle;
  pendingshares : option (gset handle)
}.

(** The arguments of [new NewShare(..)] the command gives. *)
Record NewShare := mkNewShare {
  ns_h : handle;
  ns_outgoing : Z;
  ns_peer : handle;
  ns_access : Z;
  ns_ts : Z;
  ns_pending : handle
}.

Inductive call :=
| notifypcr (pcr : handle)
| mergenewshares (notify : Z)
| mappcr (p : handle) (pcr : PendingContactRequest)
| mCompletion (h : handle) (result : error) (actions : opcactions_t)
| setpcr_result (h : handle) (result : error) (actions : opcactions_t).

(** The client as the command sees it: the cursor, the index of the
    requests and the nodes, both in the order their maps are iterated
    in, the queue of new shares, and the calls made. *)
Record client := mkClient {
  json : JSON.t;
  pcrindex : list (handle * PendingContactRequest);
  nodes : list Node;
  newshares : list NewShare;
  calls : list call
}.

Definition set_json (j : JSON.t) (c : client) : client :=
  mkClient j (pcrindex c) (nodes c) (newshares c) (calls c).

Definition emit (x : call) (c : client) : client :=
  mkClient (json c) (pcrindex c) (nodes c) (newshares c) (calls c ++ [x]).

(** [has_completion] tells whether the caller gave [mCompletion]. *)
Record t := mk { temail : string; action : opcactions_t; has_completion : bool }.

(** [doComplete]: the callback of the caller, or without one the
    application's. *)
Definition doComplete (cmd : t) (h : handle) (result : error) (actions : opcactions_t)
  (c : client) : client :=
  emit (if has_completion cmd then mCompletion h result actions
        else setpcr_result h result actions) c.

(** The pending shares to remove with request [p]: one for each node
    that has a pending share with it. *)
Definition shares_of (p : handle) (ns : list Node) : list NewShare :=
  omap (fun n => match pendingshares n with
                 | Some m => if bool_decide (p ∈ m)
                             then Some (mkNewShare (nodehandle n) 1 (owner n) ACCESS_UNKNOWN 0 p)
                             else None
                 | None => None
                 end) ns.

(** The branch of a bare code [API_OK]: find the request by the
    e-mail; of a deletion, flag it and queue the removal of its
    pending shares. *)
Definition acknowledged (cmd : t) (c : client) : handle * client :=
  match list_find (fun kv => targetemail (snd kv) = temail cmd) (pcrindex c) with
  | Some (i, (_, pcr)) =>
      if bool_decide (action cmd = OPCA_DELETE) then
        let c := mkClient (json c) (alter (fun kv => (fst kv, set_deleted (snd kv))) i (pcrindex c))
                   (nodes c) (newshares c) (calls c) in
        let c := emit (notifypcr (id pcr)) c in
        let c := mkClient (json c) (pcrindex c) (nodes c)
                   (newshares c ++ shares_of (id pcr) (nodes c)) (calls c) in
        (id pcr, emit (mergenewshares 1) c)
      else (id pcr, c)
  | None => (UNDEF, c)
  end.

Record locals := mkLocals {
  p : handle;
  ts : Z;
  uts : Z;
  eValue : option string;
  m : option string;
  msg : option string
}.

Definition locals0 : locals := mkLocals UNDEF 0 0 None None None.

Section WithEnv.
Context (env : Env).

Fixpoint parse (fuel : nat) (l : locals) (cmd : t) (c : client) : option (bool * client) :=
  match fuel with
  | O => None
  | S fuel =>
      let '(id_, j) := JSON.getnameid (json c) in
      let c := set_json j c in
      if is_name id_ "p" then
        let '(h, j) := CommandLogin.gethandle env (json c) in
        parse fuel (mkLocals h (ts l) (uts l) (eValue l) (m l) (msg l)) cmd (set_json j c)
      else if is_name id_ "m" then
        let '(v, j) := JSON.getvalue (json c) in
        parse fuel (mkLocals (p l) (ts l) (uts l) (eValue l) v (msg l)) cmd (set_json j c)
      else if is_name id_ "e" then
        let '(v, j) := JSON.getvalue (json c) in
        parse fuel (mkLocals (p l) (ts l) (uts l) v (m l) (msg l)) cmd (set_json j c)
      else if is_name id_ "msg" then
        let '(v, j) := JSON.getvalue (json c) in
        parse fuel (mkLocals (p l) (ts l) (uts l) (eValue l) (m l) v) cmd (set_json j c)
      else if is_name id_ "ts" then
        let '(v, j) := JSON.getint (json c) in
        parse fuel (mkLocals (p l) v (uts l) (eValue l) (m l) (msg l)) cmd (set_json j c)
      else if is_name id_ "uts" then
        let '(v, j) := JSON.getint (json c) in
        parse fuel (mkLocals (p l) (ts l) v (eValue l) (m l) (msg l)) cmd (set_json j c)
      else if bool_decide (id_ = EOO) then
        if ISUNDEF (p l) then Some (true, doComplete cmd UNDEF API_EINTERNAL (action cmd) c)
        else
          match eValue l, m l with
          | Some e, Some m_ =>
              if negb (bool_decide (action cmd = OPCA_ADD))
                 || bool_decide (ts l = 0) || bool_decide (uts l = 0)
              then Some (true, doComplete cmd UNDEF API_EINTERNAL (action cmd) c)
              else
                let pcr := mkPcr (p l) e m_ (ts l) (uts l) (msg l) true false in
                let c := emit (mappcr (p l) pcr) c in
                let c := emit (notifypcr (p l)) c in
                Some (true, doComplete cmd (p l) API_OK (action cmd) c)
          | _, _ => Some (true, doComplete cmd UNDEF API_EINTERNAL (action cmd) c)
          end
      else
        let '(ok, _, j) := JSON.storeobject (json c) in
        if ok then parse fuel l cmd (set_json j c)
        else Some (false, doComplete cmd UNDEF API_EINTERNAL (action cmd) c)
  end.

Definition procresult (fuel : nat) (cmd : t) (r : Result) (c : client) : option (bool * client) :=
  if wasErrorOrOK r then
    let '(pcrhandle, c) := if wasError r API_OK then acknowledged cmd c else (UNDEF, c) in
    Some (true, doComplete cmd pcrhandle (errorOrOK r) (action cmd) c)
  else parse fuel locals0 cmd c.

End WithEnv.

(** The completions among the calls: the callback of the caller or
    the application's. *)
Definition completions (l : list call) : list (handle * error * opcactions_t) :=
  omap (fun x => match x with
                 | mCompletion h e a | setpcr_result h e a => Some (h, e, a)
                 | _ => None
                 end) l.

End CommandSetPendingContact.

(** What the loop over a reply object may have done to client [c]:
    refused with one completion, or, of an addition, registered the
    request [pcr] and completed with its handle. *)
Definition setpcr_refused (cmd : CommandSetPendingContact.t)
  (c c' : CommandSetPendingContact.client) : Prop :=
  CommandSetPendingContact.calls c'
  = CommandSetPendingContact.calls
      (CommandSetPendingContact.doComplete cmd UNDEF API_EINTERNAL
         (CommandSetPendingContact.action cmd) c).

Definition setpcr_registered (cmd : CommandSetPendingContact.t)
  (pcr : CommandSetPendingContact.PendingContactRequest)
  (c c' : CommandSetPendingContact.client) : Prop :=
  CommandSetPendingContact.calls c'
  = CommandSetPendingContact.calls
      (CommandSetPendingContact.doComplete cmd (CommandSetPendingContact.id pcr) API_OK
         CommandSetPendingContact.OPCA_ADD
         (CommandSetPendingContact.emit
            (CommandSetPendingContact.notifypcr (CommandSetPendingContact.id pcr))
            (CommandSetPendingContact.emit
               (CommandSetPendingContact.mappcr (CommandSetPendingContact.id pcr) pcr) c))).

Definition setpcr_settled (cmd : CommandSetPendingContact.t)
  (c : CommandSetPendingContact.client) (b : bool) (c' : CommandSetPendingContact.client) : Prop :=
  CommandSetPendingContact.pcrindex c' = CommandSetPendingContact.pcrindex c
  /\ CommandSetPendingContact.newshares c' = CommandSetPendingContact.newshares c
  /\ (setpcr_refused cmd c c'
      \/ (b = true
          /\ CommandSetPendingContact.action cmd = CommandSetPendingContact.OPCA_ADD
          /\ exists pcr,
               CommandSetPendingContact.id pcr <> UNDEF
               /\ CommandSetPendingContact.pcr_ts pcr <> 0
               /\ CommandSetPendingContact.pcr_uts pcr <> 0
               /\ CommandSetPendingContact.isoutgoing pcr = true
               /\ CommandSetPendingContact.changed_deleted pcr = false
               /\ setpcr_registered cmd pcr c c')).

(** Collaborators that decode every handle to 7. *)
Definition env_handles : Env :=
  mkEnv true (fun _ => []) (fun _ => "") (fun _ => []) (fun _ => 7)
    (fun _ _ => false) (fun _ _ => false)
    (fun v _ nn _ ns => (match v with JSON.Arr _ => JSON.complete v | _ => false end, nn, ns))
    (fun _ b => b) (fun _ _ => false) (fun _ => false) (fun _ _ => None) (fun _ => None)
    16 1026 43 13 3600.

(** ** Sets: CommandSE and CommandPutSet *)

Module CommandSE.

(** What [procresultid] writes through its references and pointers;
    [None] in [u], [s] or [o] is the null pointer. *)
Record ids := mkIds {
  id : handle;
  ts : Z;
  u : option handle;
  s : option handle;
  o : option Z
}.

Section WithEnv.
Context (env : Env).

(** The loop of [procresultid] over the members of the reply. *)
Fixpoint members (fuel : nat) (v : ids) (j : JSON.t) : option (bool * ids * JSON.t) :=
  match fuel with
  | O => None
  | S fuel =>
      let '(k, j) := JSON.getnameid j in
      if is_name k "id" then
        let '(h, j) := CommandLogin.gethandle env j in
        members fuel (mkIds h (ts v) (u v) (s v) (o v)) j
      else if is_name k "u" then
        match u v with
        | Some _ =>
            let '(h, j) := CommandLogin.gethandle env j in
            members fuel (mkIds (id v) (ts v) (Some h) (s v) (o v)) j
        | None =>
            let '(ok, _, j) := JSON.storeobject j in
            if ok then members fuel v j else Some (false, v, j)
        end
      else if is_name k "s" then
        match s v with
        | Some _ =>
            let '(h, j) := CommandLogin.gethandle env j in
            members fuel (mkIds (id v) (ts v) (u v) (Some h) (o v)) j
        | None =>
            let '(ok, _, j) := JSON.storeobject j in
            if ok then members fuel v j else Some (false, v, j)
        end
      else if is_name k "ts" then
        let '(n, j) := JSON.getint j in
        members fuel (mkIds (id v) n (u v) (s v) (o v)) j
      else if is_name k "o" then
        match o v with
        | Some _ =>
            let '(n, j) := JSON.getint j in
            members fuel (mkIds (id v) (ts v) (u v) (s v) (Some n)) j
        | None =>
            let '(ok, _, j) := JSON.storeobject j in
            if ok then members fuel v j else Some (false, v, j)
        end
      else if bool_decide (k = EOO) then Some (true, v, j)
      else
        let '(ok, _, j) := JSON.storeobject j in
        if ok then members fuel v j else Some (false, v, j)
  end.

Definition procresultid (fuel : nat) (r : Result) (v : ids) (j : JSON.t)
  : option (bool * ids * JSON.t) :=
  if hasJsonObject r then members fuel v j else Some (false, v, j).

End WithEnv.

(** [procerrorcode]: the code of a bare status code, or no code. *)
Definition procerrorcode (r : Result) (e : error) : bool * error :=
  if wasErrorOrOK r then (true, errorOrOK r) else (false, e).

End CommandSE.

Module CommandPutSet.

(** What the command touches of a Set; [CH_NEW] is its bit of the
    changes. *)
Record Set_ := mkSet {
  id : handle;
  user : handle;
  ts : Z;
  CH_NEW : bool
}.

Inductive call :=
| addSet (s : Set_)
| updateSet (s : Set_)
| completion (e : error) (s : option Set_).

(** [has_completion] tells whether the caller gave [mCompletion]. *)
Record t := mk { mSet : Set_; has_completion : bool }.

Section WithClient.
Context (env : Env).

(** [client->addSet] and [client->updateSet]: the pointer and the
    verdict they return. *)
Context (client_addSet : Set_ -> option Set_) (client_updateSet : Set_ -> bool).

Definition procresult (fuel : nat) (cmd : t) (r : Result) (j : JSON.t)
  : option (bool * list call * JSON.t) :=
  let '(coded, e) := CommandSE.procerrorcode r API_OK in
  match (if coded then Some (true, CommandSE.mkIds 0 0 (Some 0) None None, j)
         else CommandSE.procresultid env fuel r (CommandSE.mkIds 0 0 (Some 0) None None) j) with
  | None => None
  | Some (parsedOk, v, j) =>
      let sId := CommandSE.id v in
      let user_ := default 0 (CommandSE.u v) in
      let '(e, s, calls) :=
        if negb parsedOk || (ISUNDEF (id (mSet cmd)) && bool_decide (user_ = 0))
        then (API_EINTERNAL, None, [])
        else if bool_decide (e = API_OK) then
          if ISUNDEF (id (mSet cmd)) then
            let set := mkSet sId user_ (CommandSE.ts v) true in
            (e, client_addSet set, [addSet set])
          else
            let set := mkSet (id (mSet cmd)) (user (mSet cmd)) (CommandSE.ts v)
                         (CH_NEW (mSet cmd)) in
            if client_updateSet set then (e, None, [updateSet set])
            else (API_ENOENT, None, [updateSet set])
        else (e, None, []) in
      Some (parsedOk, if has_completion cmd then calls ++ [completion e s] else calls, j)
  end.

End WithClient.

Definition completions (l : list call) : list (error * option Set_) :=
  omap (fun x => match x with completion e s => Some (e, s) | _ => None end) l.

End CommandPutSet.

(** ** CommandSetPH: create or delete the public link of a node *)

Module CommandSetPH.

(** [setpubliclink] stands for [n->setpubliclink(..)] and the flag
    [n->changed.publiclink = true] that follows it. *)
Inductive call :=
| completion (e : error) (h ph : handle)
| setpubliclink (n : handle) (ph : handle) (cts ets : Z) (takendown : bool) (authKey : string)
| notifynode (n : handle).

Record t := mk { h : handle; ets : Z; mWritable : bool }.

Section WithEnv.
Context (env : Env).

(** [time(nullptr)] when the reply is processed. *)
Context (now : Z).

(** The loop of a writable link, over the members of the reply:
    [inl] is a [return false] after its completion, [inr] the exit of
    the loop with the public handle and the key. *)
Fixpoint members (fuel : nat) (ph : handle) (authKey : string) (c : MegaClient)
  : option (list call * MegaClient + handle * string * MegaClient) :=
  match fuel with
  | O => None
  | S fuel =>
      let '(k, j) := JSON.getnameid (json c) in
      let c := set_json j c in
      if is_name k "w" then
        let '(ok, v, j) := JSON.storeobject (json c) in
        members fuel ph (if ok then v else authKey) (set_json j c)
      else if is_name k "ph" then
        let '(v, j) := CommandLogin.gethandle env (json c) in
        members fuel v authKey (set_json j c)
      else if bool_decide (k = EOO) then
        if bool_decide (authKey = "") then Some (inl ([completion API_EINTERNAL UNDEF UNDEF], c))
        else Some (inr (ph, authKey, c))
      else
        let '(ok, _, j) := JSON.storeobject (json c) in
        if ok then members fuel ph authKey (set_json j c)
        else Some (inl ([completion API_EINTERNAL UNDEF UNDEF], c))
  end.

(** What follows the reading of the reply. *)
Definition finish (cmd : t) (ph : handle) (authKey : string) (c : MegaClient)
  : bool * list call * MegaClient :=
  if ISUNDEF ph then (false, [completion API_EINTERNAL UNDEF UNDEF], c)
  else
    let calls :=
      match nodeByHandle c (h cmd) with
      | Some _ => [setpubliclink (h cmd) ph now (ets cmd) false authKey; notifynode (h cmd)]
      | None => []
      end in
    (true, calls ++ [completion API_OK (h cmd) ph], c).

Definition procresult (fuel : nat) (cmd : t) (r : Result) (c : MegaClient)
  : option (bool * list call * MegaClient) :=
  if wasErrorOrOK r then Some (true, [completion (errorOrOK r) UNDEF UNDEF], c)
  else if mWritable cmd then
    match members fuel UNDEF "" c with
    | None => None
    | Some (inl (calls, c)) => Some (false, calls, c)
    | Some (inr (ph, authKey, c)) => Some (finish cmd ph authKey c)
    end
  else
    let '(ph, j) := CommandLogin.gethandle env (json c) in
    Some (finish cmd ph "" (set_json j c)).

End WithEnv.

End CommandSetPH.

(** Takes apart a membership in a list of calls written out. *)
Ltac in_calls H :=
  repeat match type of H with
         | _ ∈ _ :: _ => apply elem_of_cons in H; destruct H as [H|H]; [try discriminate H|]
         | _ ∈ [] => apply elem_of_nil in H; contradiction
         end.

(** * Properties *)

(** ** Result shapes *)

(** C3, as stated, fails: a scalar slot satisfies none of the three
    predicates, so "exactly one" does not hold for every slot. *)
Lemma C3_scalar_slot_has_none_of_the_three :
  ~ (forall r : Result,
       count_true [wasErrorOrOK r; hasJsonObject r; hasJsonArray r] = 1%nat).
Proof.
  intros H. specialize (H Scalar). vm_compute in H. discriminate H.
Qed.

Lemma asserts_app (a b : list event) : asserts (a ++ b) = asserts a ++ asserts b.
Proof. unfold asserts. apply omap_app. Qed.

Lemma completions_app (a b : list event) : completions (a ++ b) = completions a ++ completions b.
Proof. unfold completions. apply omap_app. Qed.

(** ** The cursor *)

Lemma client_eta (c : MegaClient) : set_json (json c) c = c.
Proof. destruct c; reflexivity. Qed.

Lemma names_values (l : list JSON.value) : JSON.names (map JSON.IVal l) = 0%nat.
Proof. induction l; simpl; auto. Qed.

Lemma names_members (m : list (nameid * JSON.value)) : JSON.names (JSON.members m) = length m.
Proof. induction m as [|[k v] m IH]; simpl; auto. Qed.

(** [getnameid] either steps over a key or reports [EOO] in place. *)
Lemma getnameid_cases (j : JSON.t) (id : nameid) (j' : JSON.t) :
  JSON.getnameid j = (id, j') ->
  (exists r, JSON.cur j = JSON.IName id :: r /\ j' = JSON.at_ r j)
  \/ (id = EOO /\ j' = j).
Proof.
  unfold JSON.getnameid. destruct (JSON.cur j) as [|[k|v] r] eqn:E; intros [= <- <-]; eauto.
Qed.

Lemma storeobject_names (j : JSON.t) ok s j' :
  JSON.storeobject j = (ok, s, j') ->
  (JSON.names (JSON.cur j') <= JSON.names (JSON.cur j))%nat
  /\ JSON.up j' = JSON.up j
  /\ (ok = false -> j' = j).
Proof.
  unfold JSON.storeobject.
  destruct (JSON.cur j) as [|[k|v] r] eqn:E.
  - intros [= <- <- <-]. rewrite E. auto.
  - intros [= <- <- <-]. simpl. split; [lia|split; [reflexivity|discriminate]].
  - destruct (JSON.complete v); intros [= <- <- <-]; simpl; rewrite ?E; simpl;
      split; try lia; split; auto; discriminate.
Qed.

Lemma getint_names (j : JSON.t) n j' :
  JSON.getint j = (n, j') ->
  (JSON.names (JSON.cur j') <= JSON.names (JSON.cur j))%nat /\ JSON.up j' = JSON.up j.
Proof.
  unfold JSON.getint.
  destruct (JSON.cur j) as [|[k|[]] r] eqn:E; intros [= <- <-]; rewrite ?E; simpl; auto.
Qed.

Lemma store_strings_names (n : nat) : forall acc j acc' j',
  store_strings n acc j = (acc', j') ->
  (JSON.names (JSON.cur j') <= JSON.names (JSON.cur j))%nat /\ JSON.up j' = JSON.up j.
Proof.
  induction n as [|n IH]; simpl; intros acc j acc' j'.
  - intros [= <- <-]. auto.
  - destruct (JSON.storeobject j) as [[ok s] j1] eqn:E.
    destruct (storeobject_names _ _ _ _ E) as (Hn & Hu & _).
    destruct ok.
    + intros H. destruct (IH _ _ _ _ H) as [Hn' Hu']. split; [lia|congruence].
    + intros [= <- <-]. auto.
Qed.

Lemma enterarray_cases (j : JSON.t) ok j1 :
  JSON.enterarray j = (ok, j1) ->
  (ok = false /\ j1 = j)
  \/ (ok = true /\ exists l r, JSON.cur j = JSON.IVal (JSON.Arr l) :: r
                              /\ j1 = JSON.mk (map JSON.IVal l) (r :: JSON.up j)).
Proof.
  unfold JSON.enterarray.
  destruct (JSON.cur j) as [|[k|[n|s|l|m|]] r] eqn:E; intros [= <- <-];
    try (left; split; reflexivity).
  right. split; [reflexivity|]. exists l, r. split; reflexivity.
Qed.

Lemma leavearray_names (j2 : JSON.t) ok j3 r u :
  JSON.up j2 = r :: u ->
  JSON.leavearray j2 = (ok, j3) ->
  (JSON.names (JSON.cur j3) <= JSON.names (JSON.cur j2) + JSON.names r)%nat.
Proof.
  unfold JSON.leavearray. intros ->.
  destruct (JSON.cur j2) eqn:E; intros [= <- <-]; simpl; rewrite ?E; simpl; lia.
Qed.

(** [loadIpsFromJson] moves the cursor only, and never puts more keys
    ahead of it. *)
Lemma loadIpsFromJson_frame (ips : list string) (c : MegaClient) ok ips' c' :
  loadIpsFromJson ips c = (ok, ips', c') ->
  c' = set_json (json c') c
  /\ (JSON.names (JSON.cur (json c')) <= JSON.names (JSON.cur (json c)))%nat.
Proof.
  unfold loadIpsFromJson, JSON.enterarray.
  destruct (JSON.cur (json c)) as [|[k|[]] r] eqn:E;
    try (intros [= <- <- <-]; rewrite client_eta, ?E; auto).
  destruct (store_strings _ _ _) as [acc j2] eqn:Es.
  destruct (store_strings_names _ _ _ _ _ Es) as [Hn Hu]. simpl in Hn, Hu.
  rewrite names_values in Hn.
  unfold JSON.leavearray. rewrite Hu.
  destruct (JSON.cur j2) eqn:E2; intros [= <- <- <-]; simpl.
  - split; [reflexivity|lia].
  - split; [reflexivity|]. rewrite E2. lia.
Qed.

(** ** CommandGetPutUrl *)

Lemma getnameid_names (j : JSON.t) id j' :
  JSON.getnameid j = (id, j') ->
  id = EOO \/ (JSON.names (JSON.cur j') < JSON.names (JSON.cur j))%nat.
Proof.
  intros H. destruct (getnameid_cases _ _ _ H) as [(r & E & ->)|[-> _]]; auto.
  right. rewrite E. simpl. lia.
Qed.

Lemma getputurl_canceled_frame (fuel : nat) : forall url ips c b cmd' c',
  CommandGetPutUrl.parse fuel url ips (CommandGetPutUrl.mk true) c = Some (b, cmd', c') ->
  cmd' = CommandGetPutUrl.mk true /\ c' = set_json (json c') c.
Proof.
  induction fuel as [|fuel IH]; intros url ips c b cmd' c' H; [discriminate|].
  turn H.
  destruct (is_name id "p").
  { destruct (JSON.storeobject _) as [[ok s] j1] in H.
    apply IH in H as [-> ->]. auto. }
  destruct (is_name id "ip").
  { destruct (loadIpsFromJson _ _) as [[ok ips1] c1] eqn:El in H.
    apply loadIpsFromJson_frame in El as [El _].
    apply IH in H as [-> ->]. rewrite El. auto. }
  destruct (bool_decide (id = EOO)).
  { injection H as <- <- <-. auto. }
  destruct (JSON.storeobject _) as [[ok s] j1] in H.
  destruct ok.
  - apply IH in H as [-> ->]. auto.
  - injection H as <- <- <-. auto.
Qed.

(** The loop returns once it has had a turn for each key ahead and one
    more. *)
Lemma getputurl_parse_returns (fuel : nat) : forall url ips cmd c,
  (JSON.names (JSON.cur (json c)) < fuel)%nat ->
  is_Some (CommandGetPutUrl.parse fuel url ips cmd c).
Proof.
  induction fuel as [|fuel IH]; intros url ips cmd c Hf; [lia|].
  turn_goal.
  destruct (getnameid_names _ _ _ Eid) as [->|Hn].
  { simpl. destruct (CommandGetPutUrl.canceled cmd); eauto. }
  destruct (is_name id "p").
  { destruct (JSON.storeobject _) as [[ok s] j1] eqn:Es.
    apply storeobject_names in Es as (Hs & _). simpl in Hs.
    apply IH. simpl. lia. }
  destruct (is_name id "ip").
  { destruct (loadIpsFromJson _ _) as [[ok ips1] c1] eqn:El.
    apply loadIpsFromJson_frame in El as [_ El]. simpl in El.
    apply IH. lia. }
  destruct (bool_decide (id = EOO)).
  { destruct (CommandGetPutUrl.canceled cmd); eauto. }
  destruct (JSON.storeobject _) as [[ok s] j1] eqn:Es.
  apply storeobject_names in Es as (Hs & _). simpl in Hs.
  destruct ok.
  - apply IH. simpl. lia.
  - destruct (CommandGetPutUrl.canceled cmd); eauto.
Qed.

(** A command that was not canceled calls its completion once, at the
    end: with [API_OK] when the loop returns true, with
    [API_EINTERNAL] in front of the value it could not skip when it
    returns false. *)
Lemma getputurl_parse_completes (fuel : nat) : forall url ips c b cmd' c',
  CommandGetPutUrl.parse fuel url ips (CommandGetPutUrl.mk false) c = Some (b, cmd', c') ->
  exists e u i,
    c' = emit (GetPutUrl_mCompletion e u i) (set_json (json c') c)
    /\ e = (if b then API_OK else API_EINTERNAL)
    /\ (b = false -> (JSON.storeobject (json c')).1.1 = false).
Proof.
  induction fuel as [|fuel IH]; intros url ips c b cmd' c' H; [discriminate|].
  turn H.
  destruct (is_name id "p").
  { destruct (JSON.storeobject _) as [[ok s] j1] in H.
    apply IH in H as (e & u & i & -> & He & Hb). simpl in *. eauto 10. }
  destruct (is_name id "ip").
  { destruct (loadIpsFromJson _ _) as [[ok ips1] c1] eqn:El in H.
    apply loadIpsFromJson_frame in El as [El _].
    apply IH in H as (e & u & i & -> & He & Hb). rewrite El. simpl in *. eauto 10. }
  destruct (bool_decide (id = EOO)).
  { injection H as <- <- <-. do 3 eexists. split; [reflexivity|]. split; [reflexivity|discriminate]. }
  destruct (JSON.storeobject _) as [[ok s] j1] eqn:Es in H.
  destruct ok.
  - apply IH in H as (e & u & i & -> & He & Hb). simpl in *. eauto 10.
  - injection H as <- <- <-. do 3 eexists. split; [reflexivity|]. split; [reflexivity|].
    intros _. simpl in *. rewrite Es. reflexivity.
Qed.

Lemma store_strings_complete (l : list JSON.value) : forall acc u,
  forallb JSON.complete l = true ->
  store_strings (length (map JSON.IVal l)) acc (JSON.mk (map JSON.IVal l) u)
  = (acc ++ map JSON.text l, JSON.mk [] u).
Proof.
  induction l as [|v l IH]; intros acc u Hl; simpl.
  - rewrite app_nil_r. reflexivity.
  - simpl in Hl. apply andb_prop in Hl as [Hv Hl].
    unfold JSON.storeobject. simpl. rewrite Hv.
    unfold JSON.at_. simpl. rewrite IH by assumption.
    rewrite <- app_assoc. reflexivity.
Qed.

(** An array of values that can be skipped is read to its end and
    left. *)
Lemma loadIpsFromJson_array (ips : list string) (c : MegaClient) l r :
  JSON.cur (json c) = JSON.IVal (JSON.Arr l) :: r ->
  forallb JSON.complete l = true ->
  loadIpsFromJson ips c = (true, ips ++ map JSON.text l, set_json (JSON.at_ r (json c)) c).
Proof.
  intros E Hl. unfold loadIpsFromJson, JSON.enterarray. rewrite E.
  simpl JSON.cur. rewrite store_strings_complete by assumption.
  reflexivity.
Qed.

(** A canceled command reads a well-formed reply to the end of the
    object and touches nothing but the cursor. *)
Lemma getputurl_canceled_consumes (m : list (nameid * JSON.value)) :
  forall fuel url ips c u,
  forallb url_member_ok m = true ->
  (length m < fuel)%nat ->
  json c = JSON.mk (JSON.members m) u ->
  CommandGetPutUrl.parse fuel url ips (CommandGetPutUrl.mk true) c
  = Some (true, CommandGetPutUrl.mk true, set_json (JSON.mk [] u) c).
Proof.
  induction m as [|[k v] m IH]; intros fuel url ips c u Hm Hf Hj;
    (destruct fuel as [|fuel]; [simpl in Hf; lia|]).
  - simpl in Hj. simpl. unfold JSON.getnameid. rewrite Hj. simpl.
    rewrite <- Hj. reflexivity.
  - simpl in Hm. apply andb_prop in Hm as [Hkv Hm].
    unfold url_member_ok in Hkv. simpl in Hkv.
    apply andb_prop in Hkv as [Hkv Hip]. apply andb_prop in Hkv as [Hk Hv].
    simpl. unfold JSON.getnameid. rewrite Hj. simpl.
    destruct (is_name k "p").
    { unfold JSON.storeobject. simpl. rewrite Hv. simpl.
      erewrite IH; [reflexivity|assumption|simpl in Hf; lia|reflexivity]. }
    destruct (is_name k "ip").
    { destruct v; try discriminate.
      erewrite loadIpsFromJson_array; [|reflexivity|exact Hv].
      erewrite IH; [reflexivity|assumption|simpl in Hf; lia|reflexivity]. }
    apply negb_true_iff in Hk. rewrite Hk.
    unfold JSON.storeobject. simpl. rewrite Hv. simpl.
    erewrite IH; [reflexivity|assumption|simpl in Hf; lia|reflexivity].
Qed.

(** The loop returns false only in front of a value it could not
    skip. *)
Lemma getputurl_parse_false (fuel : nat) : forall url ips cmd c cmd' c',
  CommandGetPutUrl.parse fuel url ips cmd c = Some (false, cmd', c') ->
  (JSON.storeobject (json c')).1.1 = false.
Proof.
  induction fuel as [|fuel IH]; intros url ips cmd c cmd' c' H; [discriminate|].
  turn H.
  destruct (is_name id "p").
  { destruct (JSON.storeobject _) as [[ok s] j1] in H. eauto. }
  destruct (is_name id "ip").
  { destruct (loadIpsFromJson _ _) as [[ok ips1] c1] in H. eauto. }
  destruct (bool_decide (id = EOO)).
  { destruct (CommandGetPutUrl.canceled cmd); discriminate. }
  destruct (JSON.storeobject _) as [[ok s] j1] eqn:Es in H.
  destruct ok; [eauto|].
  destruct (CommandGetPutUrl.canceled cmd); injection H as <- <-; simpl in *;
    rewrite Es; reflexivity.
Qed.

(** ** CommandPutFile *)

Lemma putfile_canceled_frame (fuel : nat) : forall urls ips c b cmd' c',
  CommandPutFile.parse fuel urls ips (CommandPutFile.mk None true) c = Some (b, cmd', c') ->
  cmd' = CommandPutFile.mk None true /\ c' = set_json (json c') c.
Proof.
  induction fuel as [|fuel IH]; intros urls ips c b cmd' c' H; [discriminate|].
  turn H.
  destruct (is_name id "p").
  { destruct (JSON.storeobject _) as [[ok s] j1] in H.
    apply IH in H as [-> ->]. auto. }
  destruct (is_name id "ip").
  { destruct (loadIpsFromJson _ _) as [[ok ips1] c1] eqn:El in H.
    apply loadIpsFromJson_frame in El as [El _].
    apply IH in H as [-> ->]. rewrite El. auto. }
  destruct (bool_decide (id = EOO)).
  { injection H as <- <- <-. auto. }
  destruct (JSON.storeobject _) as [[ok s] j1] in H.
  destruct ok.
  - apply IH in H as [-> ->]. auto.
  - injection H as <- <- <-. auto.
Qed.

Lemma putfile_parse_returns (fuel : nat) : forall urls ips cmd c,
  (JSON.names (JSON.cur (json c)) < fuel)%nat ->
  is_Some (CommandPutFile.parse fuel urls ips cmd c).
Proof.
  induction fuel as [|fuel IH]; intros urls ips cmd c Hf; [lia|].
  turn_goal.
  destruct (getnameid_names _ _ _ Eid) as [->|Hn].
  { simpl. destruct (CommandPutFile.canceled cmd); eauto.
    destruct (bool_decide _); eauto. }
  destruct (is_name id "p").
  { destruct (JSON.storeobject _) as [[ok s] j1] eqn:Es.
    apply storeobject_names in Es as (Hs & _). simpl in Hs.
    apply IH. simpl. lia. }
  destruct (is_name id "ip").
  { destruct (loadIpsFromJson _ _) as [[ok ips1] c1] eqn:El.
    apply loadIpsFromJson_frame in El as [_ El]. simpl in El.
    apply IH. lia. }
  destruct (bool_decide (id = EOO)).
  { destruct (CommandPutFile.canceled cmd); eauto. destruct (bool_decide _); eauto. }
  destruct (JSON.storeobject _) as [[ok s] j1] eqn:Es.
  apply storeobject_names in Es as (Hs & _). simpl in Hs.
  destruct ok.
  - apply IH. simpl. lia.
  - destruct (CommandPutFile.canceled cmd); eauto.
Qed.

Lemma putfile_canceled_consumes (m : list (nameid * JSON.value)) :
  forall fuel urls ips c u,
  forallb url_member_ok m = true ->
  (length m < fuel)%nat ->
  json c = JSON.mk (JSON.members m) u ->
  CommandPutFile.parse fuel urls ips (CommandPutFile.mk None true) c
  = Some (true, CommandPutFile.mk None true, set_json (JSON.mk [] u) c).
Proof.
  induction m as [|[k v] m IH]; intros fuel urls ips c u Hm Hf Hj;
    (destruct fuel as [|fuel]; [simpl in Hf; lia|]).
  - simpl in Hj. simpl. unfold JSON.getnameid. rewrite Hj. simpl.
    rewrite <- Hj. reflexivity.
  - simpl in Hm. apply andb_prop in Hm as [Hkv Hm].
    unfold url_member_ok in Hkv. simpl in Hkv.
    apply andb_prop in Hkv as [Hkv Hip]. apply andb_prop in Hkv as [Hk Hv].
    simpl. unfold JSON.getnameid. rewrite Hj. simpl.
    destruct (is_name k "p").
    { unfold JSON.storeobject. simpl. rewrite Hv. simpl.
      erewrite IH; [reflexivity|assumption|simpl in Hf; lia|reflexivity]. }
    destruct (is_name k "ip").
    { destruct v; try discriminate.
      erewrite loadIpsFromJson_array; [|reflexivity|exact Hv].
      erewrite IH; [reflexivity|assumption|simpl in Hf; lia|reflexivity]. }
    apply negb_true_iff in Hk. rewrite Hk.
    unfold JSON.storeobject. simpl. rewrite Hv. simpl.
    erewrite IH; [reflexivity|assumption|simpl in Hf; lia|reflexivity].
Qed.

Lemma putfile_parse_false (fuel : nat) : forall urls ips cmd c cmd' c',
  CommandPutFile.parse fuel urls ips cmd c = Some (false, cmd', c') ->
  (JSON.storeobject (json c')).1.1 = false.
Proof.
  induction fuel as [|fuel IH]; intros urls ips cmd c cmd' c' H; [discriminate|].
  turn H.
  destruct (is_name id "p").
  { destruct (JSON.storeobject _) as [[ok s] j1] in H. eauto. }
  destruct (is_name id "ip").
  { destruct (loadIpsFromJson _ _) as [[ok ips1] c1] in H. eauto. }
  destruct (bool_decide (id = EOO)).
  { destruct (CommandPutFile.canceled cmd); [discriminate|].
    destruct (bool_decide _); discriminate. }
  destruct (JSON.storeobject _) as [[ok s] j1] eqn:Es in H.
  destruct ok; [eauto|].
  destruct (CommandPutFile.canceled cmd); injection H as <- <-; simpl in *.
  - rewrite Es; reflexivity.
  - unfold CommandPutFile.failed, CommandPutFile.with_tslot.
    destruct (CommandPutFile.tslot cmd); simpl; rewrite Es; reflexivity.
Qed.

(** ** CommandGetFA *)




(** ** CommandDirectRead *)

Lemma read_urls_names (urls : list string) (j : JSON.t) urls' j' :
  CommandDirectRead.read_urls urls j = (urls', j') ->
  (JSON.names (JSON.cur j') <= JSON.names (JSON.cur j))%nat.
Proof.
  unfold CommandDirectRead.read_urls.
  destruct (JSON.enterarray j) as [ok j1] eqn:Ee.
  destruct (enterarray_cases _ _ _ Ee) as [[-> ->]|(-> & l & r & Ej & ->)].
  - destruct (JSON.storeobject j) as [[ok s] j1] eqn:Es.
    apply storeobject_names in Es as (Hs & _). intros [= <- <-]. exact Hs.
  - destruct (store_strings _ _ _) as [acc j2] eqn:Es.
    destruct (store_strings_names _ _ _ _ _ Es) as [Hn Hu]. simpl in Hn, Hu.
    rewrite names_values in Hn.
    destruct (JSON.leavearray j2) as [ok j3] eqn:El.
    pose proof (leavearray_names _ _ _ _ _ Hu El) as Hl.
    intros [= <- <-]. rewrite Ej. simpl. lia.
Qed.

(** A canceled command, its back-reference cleared, moves nothing
    but the cursor. *)
Lemma directread_canceled_frame (env : Env) (fuel : nat) : forall e tl urls c b cmd' c',
  CommandDirectRead.parse env fuel e tl urls (CommandDirectRead.mk None true) c
  = Some (b, cmd', c') ->
  cmd' = CommandDirectRead.mk None true /\ c' = set_json (json c') c.
Proof.
  induction fuel as [|fuel IH]; intros e tl urls c b cmd' c' H; [discriminate|].
  turn H.
  destruct (is_name id "g").
  { destruct (CommandDirectRead.read_urls _ _) as [urls1 j1] in H.
    destruct (_ || _) in H; apply IH in H as [-> ->]; auto. }
  destruct (is_name id "s"); [apply IH in H as [-> ->]; auto|].
  destruct (is_name id "d"); [apply IH in H as [-> ->]; auto|].
  destruct (is_name id "e").
  { destruct (JSON.getint _) as [n j1] in H. apply IH in H as [-> ->]. auto. }
  destruct (is_name id "tl").
  { destruct (JSON.getint _) as [n j1] in H. apply IH in H as [-> ->]. auto. }
  destruct (bool_decide (id = EOO)).
  { injection H as <- <- <-. auto. }
  destruct (JSON.storeobject _) as [[ok s] j1] in H.
  destruct ok.
  - apply IH in H as [-> ->]. auto.
  - injection H as <- <- <-. auto.
Qed.

Lemma directread_parse_returns (env : Env) (fuel : nat) : forall e tl urls cmd c,
  (JSON.names (JSON.cur (json c)) < fuel)%nat ->
  is_Some (CommandDirectRead.parse env fuel e tl urls cmd c).
Proof.
  induction fuel as [|fuel IH]; intros e tl urls cmd c Hf; [lia|].
  turn_goal.
  destruct (getnameid_names _ _ _ Eid) as [->|Hn]; [simpl; eauto|].
  destruct (is_name id "g").
  { destruct (CommandDirectRead.read_urls _ _) as [urls1 j1] eqn:Er.
    apply read_urls_names in Er. simpl in Er.
    destruct (_ || _); [destruct (CommandDirectRead.drn cmd)|]; apply IH; simpl; lia. }
  destruct (is_name id "s").
  { destruct (CommandDirectRead.drn cmd); [|apply IH; simpl; lia].
    destruct (JSON.getint _) as [n j1] eqn:Eg. apply getint_names in Eg as [Hg _].
    simpl in Hg. apply IH. simpl. lia. }
  destruct (is_name id "d"); [apply IH; simpl; lia|].
  destruct (is_name id "e").
  { destruct (JSON.getint _) as [n j1] eqn:Eg. apply getint_names in Eg as [Hg _].
    simpl in Hg. apply IH. simpl. lia. }
  destruct (is_name id "tl").
  { destruct (JSON.getint _) as [n j1] eqn:Eg. apply getint_names in Eg as [Hg _].
    simpl in Hg. apply IH. simpl. lia. }
  destruct (bool_decide (id = EOO)); [eauto|].
  destruct (JSON.storeobject _) as [[ok s] j1] eqn:Es.
  apply storeobject_names in Es as (Hs & _). simpl in Hs.
  destruct ok; [apply IH; simpl; lia|eauto].
Qed.

Lemma cmdresult_json (cmd : CommandDirectRead.t) e tl (c : MegaClient) :
  json (CommandDirectRead.cmdresult cmd e tl c) = json c.
Proof.
  unfold CommandDirectRead.cmdresult.
  destruct (CommandDirectRead.canceled cmd), (CommandDirectRead.drn cmd); reflexivity.
Qed.

(** The loop returns false only in front of a value it could not
    skip. *)
Lemma directread_parse_false (env : Env) (fuel : nat) : forall e tl urls cmd c cmd' c',
  CommandDirectRead.parse env fuel e tl urls cmd c = Some (false, cmd', c') ->
  (JSON.storeobject (json c')).1.1 = false.
Proof.
  induction fuel as [|fuel IH]; intros e tl urls cmd c cmd' c' H; [discriminate|].
  turn H.
  destruct (is_name id "g").
  { destruct (CommandDirectRead.read_urls _ _) as [urls1 j1] in H.
    destruct (_ || _) in H; [destruct (CommandDirectRead.drn cmd) in H|]; eauto. }
  destruct (is_name id "s").
  { destruct (CommandDirectRead.drn cmd) in H; [|eauto].
    destruct (JSON.getint _) as [n j1] in H. eauto. }
  destruct (is_name id "d"); [eauto|].
  destruct (is_name id "e"); [destruct (JSON.getint _) as [n j1] in H; eauto|].
  destruct (is_name id "tl"); [destruct (JSON.getint _) as [n j1] in H; eauto|].
  destruct (bool_decide (id = EOO)); [discriminate|].
  destruct (JSON.storeobject _) as [[ok s] j1] eqn:Es in H.
  destruct ok; [eauto|].
  injection H as <- <-. rewrite cmdresult_json. simpl in *. rewrite Es. reflexivity.
Qed.

(** With its back-reference cleared the command does not read the
    value of [s]: the loop takes the value for the end of the object and
    returns true in front of it, whatever follows. *)
Lemma directread_canceled_skips_size (env : Env) (fuel : nat) (v : JSON.value)
  (m : list (nameid * JSON.value)) (c : MegaClient) :
  CommandDirectRead.procresult env (S (S fuel)) (CommandDirectRead.mk None true) JsonObject
    (inside ((MAKENAMEID "s", v) :: m) c)
  = Some (true, CommandDirectRead.mk None true,
          set_json (JSON.mk (JSON.IVal v :: JSON.members m) (JSON.up (json c))) c).
Proof. reflexivity. Qed.

(** ** Cancellation *)

Lemma enter_slot_frame (v : JSON.value) rest (c : MegaClient) (j : JSON.t) :
  set_json j (enter_slot v rest c).2 = set_json j c.
Proof. destruct v; reflexivity. Qed.

Lemma enter_slot_names (v : JSON.value) (vs : list JSON.value) (c : MegaClient) :
  JSON.names (JSON.cur (json (enter_slot v (map JSON.IVal vs) (reading (v :: vs) c)).2)) = keys v.
Proof.
  destruct v; simpl; rewrite ?names_values, ?names_members; reflexivity.
Qed.

(** [procresult] of a canceled upload command returns on any slot and
    moves nothing but the cursor. *)
Lemma putfile_canceled_procresult (fuel : nat) (x : CommandPutFile.t) r (c : MegaClient) :
  (JSON.names (JSON.cur (json c)) < fuel)%nat ->
  exists b c',
    CommandPutFile.procresult fuel (CommandPutFile.cancel x) r c
    = Some (b, CommandPutFile.cancel x, c')
    /\ c' = set_json (json c') c.
Proof.
  intros Hf. unfold CommandPutFile.procresult, CommandPutFile.cancel. simpl.
  destruct (wasErrorOrOK r).
  - exists true, c. rewrite client_eta. auto.
  - destruct (putfile_parse_returns fuel [] [] (CommandPutFile.mk None true) c Hf)
      as [[[b cmd'] c'] Hp].
    destruct (putfile_canceled_frame _ _ _ _ _ _ _ Hp) as [-> Hc'].
    rewrite Hp. eauto.
Qed.

Lemma getputurl_canceled_procresult (fuel : nat) (x : CommandGetPutUrl.t) r (c : MegaClient) :
  (JSON.names (JSON.cur (json c)) < fuel)%nat ->
  exists b c',
    CommandGetPutUrl.procresult fuel (CommandGetPutUrl.cancel x) r c
    = Some (b, CommandGetPutUrl.cancel x, c')
    /\ c' = set_json (json c') c.
Proof.
  intros Hf. unfold CommandGetPutUrl.procresult, CommandGetPutUrl.cancel. simpl.
  destruct (wasErrorOrOK r).
  - exists true, c. rewrite client_eta. auto.
  - destruct (getputurl_parse_returns fuel "" [] (CommandGetPutUrl.mk true) c Hf)
      as [[[b cmd'] c'] Hp].
    destruct (getputurl_canceled_frame _ _ _ _ _ _ _ Hp) as [-> Hc'].
    rewrite Hp. eauto.
Qed.

Lemma directread_canceled_procresult (env : Env) (fuel : nat) (x : CommandDirectRead.t) r
  (c : MegaClient) :
  (JSON.names (JSON.cur (json c)) < fuel)%nat ->
  exists b c',
    CommandDirectRead.procresult env fuel (CommandDirectRead.cancel x) r c
    = Some (b, CommandDirectRead.cancel x, c')
    /\ c' = set_json (json c') c.
Proof.
  intros Hf. unfold CommandDirectRead.procresult, CommandDirectRead.cancel. simpl.
  destruct (wasErrorOrOK r).
  - exists true, c. rewrite client_eta. auto.
  - destruct (directread_parse_returns env fuel API_EINTERNAL 0 []
                (CommandDirectRead.mk None true) c Hf) as [[[b cmd'] c'] Hp].
    destruct (directread_canceled_frame _ _ _ _ _ _ _ _ _ Hp) as [-> Hc'].
    rewrite Hp. eauto.
Qed.

Lemma canceled_procresult_frame (env : Env) (fuel : nat) (cmd : Command) r (c : MegaClient) :
  cancellable cmd = true ->
  (JSON.names (JSON.cur (json c)) < fuel)%nat ->
  exists b c',
    procresult env fuel (cancel cmd) r c = Some (b, cancel cmd, c')
    /\ c' = set_json (json c') c.
Proof.
  intros Hc Hf.
  destruct cmd as [| | x | x | x | | | | | | | |]; try discriminate Hc; clear Hc;
    unfold procresult, cancel.
  - destruct (putfile_canceled_procresult fuel x r c Hf) as (b & c' & -> & Hc'). simpl. eauto.
  - destruct (getputurl_canceled_procresult fuel x r c Hf) as (b & c' & -> & Hc'). simpl. eauto.
  - destruct (directread_canceled_procresult env fuel x r c Hf) as (b & c' & -> & Hc').
    simpl. eauto.
Qed.

(** On a well-formed reply a canceled upload command returns true
    with the cursor at the slot boundary. *)
Lemma canceled_procresult_consumes (env : Env) (fuel : nat) (cmd : Command) (v : JSON.value)
  (vs : list JSON.value) (c : MegaClient) :
  requests_upload cmd = true ->
  well_formed_url_reply v = true ->
  (keys v < fuel)%nat ->
  procresult env fuel (cancel cmd) (enter_slot v (map JSON.IVal vs) (reading (v :: vs) c)).1
    (enter_slot v (map JSON.IVal vs) (reading (v :: vs) c)).2
  = Some (true, cancel cmd, set_json (slot_end v vs) c).
Proof.
  intros Hc Hv Hf.
  destruct cmd as [| | x | x | | | | | | | | |]; try discriminate Hc; clear Hc;
    destruct v as [n|s|l|m|]; try discriminate Hv; unfold procresult, cancel; simpl.
  - reflexivity.
  - unfold CommandPutFile.procresult. simpl.
    erewrite putfile_canceled_consumes; [reflexivity|exact Hv|exact Hf|reflexivity].
  - reflexivity.
  - unfold CommandGetPutUrl.procresult. simpl.
    erewrite getputurl_canceled_consumes; [reflexivity|exact Hv|exact Hf|reflexivity].
Qed.

(** The reply slot of a canceled command: [procresult] still runs
    and returns; nothing in the client but the cursor has changed (no
    domain mutation, no completion called, the cleared back-reference
    not dereferenced); a canceled upload command has consumed every
    token of a well-formed reply; and the sibling commands of the batch
    are dispatched exactly as if the canceled command and its slot were
    not there. *)
Lemma canceled_reply_moves_the_cursor_only
  (env : Env) (fuel : nat) (cmd : Command) (v : JSON.value) (vs : list JSON.value)
  (rest : list Command) (c : MegaClient) :
  cancellable cmd = true ->
  JSON.complete v = true ->
  (keys v < fuel)%nat ->
  exists b c',
    procresult env fuel (cancel cmd)
      (enter_slot v (map JSON.IVal vs) (reading (v :: vs) c)).1
      (enter_slot v (map JSON.IVal vs) (reading (v :: vs) c)).2
    = Some (b, cancel cmd, c')
    /\ c' = set_json (json c') c
    /\ log c' = log c
    /\ (if requests_upload cmd && well_formed_url_reply v
        then b = true /\ json c' = slot_end v vs
        else True)
    /\ dispatch env fuel (cancel cmd :: rest) (reading (v :: vs) c)
       = dispatch env fuel rest (reading vs c).
Proof.
  intros Hc Hv Hf.
  pose proof (enter_slot_names v vs c) as Hn.
  pose proof (canceled_procresult_consumes env fuel cmd v vs c) as Hw.
  pose proof (fun j => enter_slot_frame v (map JSON.IVal vs) (reading (v :: vs) c) j) as Hfr.
  assert (Hd : dispatch env fuel (cancel cmd :: rest) (reading (v :: vs) c)
               = match procresult env fuel (cancel cmd)
                         (enter_slot v (map JSON.IVal vs) (reading (v :: vs) c)).1
                         (enter_slot v (map JSON.IVal vs) (reading (v :: vs) c)).2 with
                 | Some (_, _, c2) =>
                     dispatch env fuel rest (set_json (JSON.mk (map JSON.IVal vs) []) c2)
                 | None => None
                 end).
  { simpl. destruct (enter_slot _ _ _) as [r c1]. simpl.
    destruct (procresult _ _ _ _ _) as [[[b cmd'] c2]|]; [|reflexivity].
    rewrite Hv. reflexivity. }
  destruct (enter_slot v (map JSON.IVal vs) (reading (v :: vs) c)) as [r c1].
  simpl in *.
  destruct (canceled_procresult_frame env fuel cmd r c1 Hc) as (b & c' & Hp & Hc'); [lia|].
  rewrite Hfr in Hc'.
  exists b, c'. split; [exact Hp|]. split; [exact Hc'|].
  split; [rewrite Hc'; reflexivity|].
  split.
  - destruct (requests_upload cmd) eqn:Hu; [|exact I].
    destruct (well_formed_url_reply v); [|exact I]. simpl.
    rewrite (Hw eq_refl eq_refl Hf) in Hp. injection Hp as <- <-. auto.
  - rewrite Hd, Hp, Hc'. reflexivity.
Qed.

(** An upload command is canceled, its reply arrives with a URL and
    two addresses, and a delete command follows in the batch. *)
Lemma canceled_upload_example :
  exists b c',
    procresult env0 5 (cancel example_upload)
      (enter_slot example_url_reply (map JSON.IVal [JSON.Num 0])
         (reading [example_url_reply; JSON.Num 0] client0)).1
      (enter_slot example_url_reply (map JSON.IVal [JSON.Num 0])
         (reading [example_url_reply; JSON.Num 0] client0)).2
    = Some (b, cancel example_upload, c')
    /\ c' = set_json (json c') client0
    /\ log c' = log client0
    /\ (if requests_upload example_upload && well_formed_url_reply example_url_reply
        then b = true /\ json c' = slot_end example_url_reply [JSON.Num 0]
        else True)
    /\ dispatch env0 5 (cancel example_upload :: [example_delete])
         (reading [example_url_reply; JSON.Num 0] client0)
       = dispatch env0 5 [example_delete] (reading [JSON.Num 0] client0).
Proof.
  apply (canceled_reply_moves_the_cursor_only env0 5 example_upload example_url_reply
           [JSON.Num 0] [example_delete] client0).
  - reflexivity.
  - reflexivity.
  - simpl. lia.
Defined.


(** ** Reply loops that complete once *)

Lemma completed_once_step (c1 c : MegaClient) b c' :
  mOnCSCompletion c1 = mOnCSCompletion c ->
  log c1 = log c ->
  completed_once c1 b c' ->
  completed_once c b c'.
Proof.
  intros Hm Hl (Hm' & evs & x & Hl' & H). split; [congruence|].
  exists evs, x. rewrite <- Hl. auto.
Qed.

Lemma delnode_parse_once (fuel : nat) : forall e cmd c b cmd' c',
  CommandDelNode.parse fuel e cmd c = Some (b, cmd', c') ->
  cmd' = cmd /\ completed_once c b c'.
Proof.
  induction fuel as [|fuel IH]; intros e cmd c b cmd' c' H; [discriminate|].
  turn H.
  destruct (is_name id "r").
  { destruct (JSON.enterarray j) as [[] j1].
    - destruct (JSON.isnumeric j1).
      + destruct (JSON.getint j1) as [n j2]. destruct (JSON.leavearray j2) as [ok j3].
        apply IH in H as [-> H]. split; [reflexivity|].
        eapply completed_once_step; [| |exact H]; reflexivity.
      + destruct (JSON.leavearray j1) as [ok j3].
        apply IH in H as [-> H]. split; [reflexivity|].
        eapply completed_once_step; [| |exact H]; reflexivity.
    - apply IH in H as [-> H]. split; [reflexivity|].
      eapply completed_once_step; [| |exact H]; reflexivity. }
  destruct (bool_decide (id = EOO)).
  { injection H as <- <- <-. split; [reflexivity|].
    unfold CommandDelNode.result. destruct (CommandDelNode.mResultFunction cmd); finish_once. }
  destruct (JSON.storeobject j) as [[ok s] j1] eqn:Es.
  destruct ok.
  - apply IH in H as [-> H]. split; [reflexivity|].
    eapply completed_once_step; [| |exact H]; reflexivity.
  - injection H as <- <- <-. split; [reflexivity|].
    assert (Hs : (JSON.storeobject j).1.1 = false) by (rewrite Es; reflexivity).
    unfold CommandDelNode.result. destruct (CommandDelNode.mResultFunction cmd); finish_once.
Qed.

Lemma delnode_parse_returns (fuel : nat) : forall e cmd c,
  (JSON.names (JSON.cur (json c)) < fuel)%nat ->
  is_Some (CommandDelNode.parse fuel e cmd c).
Proof.
  induction fuel as [|fuel IH]; intros e cmd c Hf; [lia|].
  turn_goal.
  destruct (getnameid_names _ _ _ Eid) as [->|Hn]; [simpl; eauto|].
  destruct (is_name id "r").
  { destruct (JSON.enterarray j) as [ok j1] eqn:Ee.
    destruct (enterarray_cases _ _ _ Ee) as [[-> ->]|(-> & l & r & Ej & ->)].
    { apply IH. simpl. lia. }
    assert (Hr : JSON.names r = JSON.names (JSON.cur j)) by (rewrite Ej; reflexivity).
    destruct (JSON.isnumeric _).
    - destruct (JSON.getint _) as [n j2] eqn:Eg. apply getint_names in Eg as [Hg Hu].
      simpl in Hg, Hu. rewrite names_values in Hg.
      destruct (JSON.leavearray j2) as [ok j3] eqn:El.
      apply (leavearray_names _ _ _ _ _ Hu) in El. apply IH. simpl. lia.
    - destruct (JSON.leavearray _) as [ok j3] eqn:El.
      apply (leavearray_names (JSON.mk (map JSON.IVal l) (r :: JSON.up j)) _ _
               r (JSON.up j) eq_refl) in El. simpl in El.
      rewrite names_values in El. apply IH. simpl. lia. }
  destruct (bool_decide (id = EOO)); [eauto|].
  destruct (JSON.storeobject j) as [[ok s] j1] eqn:Es.
  apply storeobject_names in Es as (Hs & _).
  destruct ok; [|eauto]. apply IH. simpl. lia.
Qed.

Lemma prelogin_parse_once (env : Env) (fuel : nat) : forall v salt cmd c b cmd' c',
  CommandPrelogin.parse env fuel v salt cmd c = Some (b, cmd', c') ->
  cmd' = cmd /\ completed_once c b c'.
Proof.
  induction fuel as [|fuel IH]; intros v salt cmd c b cmd' c' H; [discriminate|].
  turn H.
  destruct (is_name id "v").
  { destruct (JSON.getint j) as [n j1].
    apply IH in H as [-> H]. split; [reflexivity|].
    eapply completed_once_step; [| |exact H]; reflexivity. }
  destruct (is_name id "s").
  { destruct (JSON.storeobject j) as [[ok s] j1].
    apply IH in H as [-> H]. split; [reflexivity|].
    eapply completed_once_step; [| |exact H]; reflexivity. }
  destruct (bool_decide (id = EOO)).
  { destruct (bool_decide (v = 0)); [injection H as <- <- <-; split; [reflexivity|finish_once]|].
    destruct (bool_decide (v > 2)); [injection H as <- <- <-; split; [reflexivity|finish_once]|].
    destruct (bool_decide (v = 2) && bool_decide (salt = ""));
      injection H as <- <- <-; (split; [reflexivity|finish_once]). }
  destruct (JSON.storeobject j) as [[ok s] j1] eqn:Es.
  destruct ok.
  - apply IH in H as [-> H]. split; [reflexivity|].
    eapply completed_once_step; [| |exact H]; reflexivity.
  - injection H as <- <- <-. split; [reflexivity|].
    assert (Hs : (JSON.storeobject j).1.1 = false) by (rewrite Es; reflexivity).
    finish_once.
Qed.

Lemma prelogin_parse_returns (env : Env) (fuel : nat) : forall v salt cmd c,
  (JSON.names (JSON.cur (json c)) < fuel)%nat ->
  is_Some (CommandPrelogin.parse env fuel v salt cmd c).
Proof.
  induction fuel as [|fuel IH]; intros v salt cmd c Hf; [lia|].
  turn_goal.
  assert (Heoo : forall c0 : MegaClient,
             is_Some (if bool_decide (v = 0)
                      then Some (true, cmd, emit (app_prelogin_result 0 None None API_EINTERNAL) c0)
                      else if bool_decide (v > 2)
                      then Some (true, cmd, emit (app_prelogin_result 0 None None API_EINTERNAL) c0)
                      else if bool_decide (v = 2) && bool_decide (salt = "")
                      then Some (true, cmd, emit (app_prelogin_result 0 None None API_EINTERNAL) c0)
                      else Some (true, cmd,
                                 emit (app_prelogin_result v (Some (CommandPrelogin.email cmd))
                                         (Some salt) API_OK)
                                   (upd_session (set_account v (atob env salt)) c0)))).
  { intros c0. repeat (destruct (bool_decide _); simpl; eauto). }
  destruct (getnameid_names _ _ _ Eid) as [->|Hn]; [simpl; apply Heoo|].
  destruct (is_name id "v").
  { destruct (JSON.getint j) as [n j1] eqn:Eg. apply getint_names in Eg as [Hg _].
    apply IH. simpl. lia. }
  destruct (is_name id "s").
  { destruct (JSON.storeobject j) as [[ok s] j1] eqn:Es.
    apply storeobject_names in Es as (Hs & _). apply IH. simpl. lia. }
  destruct (bool_decide (id = EOO)); [apply Heoo|].
  destruct (JSON.storeobject j) as [[ok s] j1] eqn:Es.
  apply storeobject_names in Es as (Hs & _).
  destruct ok; [|eauto]. apply IH. simpl. lia.
Qed.

(** ** CommandLogin *)

Lemma login_finish_once (env : Env) l cmd c b cmd' c' :
  CommandLogin.finish env l cmd c = Some (b, cmd', c') ->
  b = true /\ cmd' = cmd /\ completed_once c true c'.
Proof.
  unfold CommandLogin.finish, CommandLogin.login_result. intros H.
  repeat match type of H with
         | context [if ?b then _ else _] => destruct b
         | context [match ?o with Some _ => _ | None => _ end] => destruct o
         end;
    injection H as <- <- <-; (split; [reflexivity|]); (split; [reflexivity|]); finish_once.
Qed.

Lemma storebinary_names (env : Env) buf size (j : JSON.t) n b j' :
  CommandLogin.storebinary env buf size j = (n, b, j') ->
  (JSON.names (JSON.cur j') <= JSON.names (JSON.cur j))%nat.
Proof.
  unfold CommandLogin.storebinary.
  destruct (JSON.cur j) as [|[k|[]] r] eqn:E; intros [= <- <- <-]; rewrite ?E; simpl; auto.
Qed.

Lemma gethandle_names (env : Env) (j : JSON.t) h j' :
  CommandLogin.gethandle env j = (h, j') ->
  (JSON.names (JSON.cur j') <= JSON.names (JSON.cur j))%nat.
Proof.
  unfold CommandLogin.gethandle.
  destruct (JSON.cur j) as [|[k|[]] r] eqn:E; intros [= <- <-]; rewrite ?E; simpl; auto.
Qed.

Lemma login_parse_once (env : Env) (fuel : nat) : forall l cmd c b cmd' c',
  CommandLogin.parse env fuel l cmd c = Some (b, cmd', c') ->
  cmd' = cmd /\ completed_once c b c'.
Proof.
  induction fuel as [|fuel IH]; intros l cmd c b cmd' c' H; [discriminate|].
  turn H.
  repeat match type of H with
         | context [if is_name id ?s then _ else _] =>
             destruct (is_name id s);
             [ repeat match type of H with
                      | context [CommandLogin.storebinary ?e ?b ?z ?j] =>
                          destruct (CommandLogin.storebinary e b z j) as [[? ?] ?]
                      | context [CommandLogin.gethandle ?e ?j] =>
                          destruct (CommandLogin.gethandle e j) as [? ?]
                      | context [JSON.getint ?j] => destruct (JSON.getint j) as [? ?]
                      | context [if bool_decide ?P then _ else _] => destruct (bool_decide P)
                      end;
               apply IH in H as [-> H]; split; [reflexivity|];
               eapply completed_once_step; [| |exact H]; reflexivity
             | ]
         end.
  destruct (is_name id "sn").
  { destruct (JSON.getint j) as [n j0]. destruct (bool_decide (n = 0));
      apply IH in H as [-> H]; (split; [reflexivity|]);
      (eapply completed_once_step; [| |exact H]); reflexivity. }
  destruct (bool_decide (id = EOO)).
  { apply login_finish_once in H as (-> & -> & H). split; [reflexivity|].
    eapply completed_once_step; [| |exact H]; reflexivity. }
  destruct (JSON.storeobject j) as [[ok s] j1] eqn:Es.
  destruct ok.
  - apply IH in H as [-> H]. split; [reflexivity|].
    eapply completed_once_step; [| |exact H]; reflexivity.
  - injection H as <- <- <-. split; [reflexivity|].
    assert (Hs : (JSON.storeobject j).1.1 = false) by (rewrite Es; reflexivity).
    finish_once.
Qed.

Lemma login_finish_returns (env : Env) l cmd c : is_Some (CommandLogin.finish env l cmd c).
Proof.
  unfold CommandLogin.finish, CommandLogin.login_result.
  repeat match goal with
         | |- context [if ?b then _ else _] => destruct b
         | |- context [match ?o with Some _ => _ | None => _ end] => destruct o
         end; eauto.
Qed.

Lemma login_parse_returns (env : Env) (fuel : nat) : forall l cmd c,
  (JSON.names (JSON.cur (json c)) < fuel)%nat ->
  is_Some (CommandLogin.parse env fuel l cmd c).
Proof.
  induction fuel as [|fuel IH]; intros l cmd c Hf; [lia|].
  turn_goal.
  destruct (getnameid_names _ _ _ Eid) as [->|Hn]; [simpl; apply login_finish_returns|].
  repeat match goal with
         | |- context [if is_name id ?s then _ else _] =>
             destruct (is_name id s);
             [ repeat match goal with
                      | |- context [CommandLogin.storebinary ?e ?b ?z ?j] =>
                          let E := fresh "E" in
                          destruct (CommandLogin.storebinary e b z j) as [[? ?] ?] eqn:E;
                          apply storebinary_names in E
                      | |- context [CommandLogin.gethandle ?e ?j] =>
                          let E := fresh "E" in
                          destruct (CommandLogin.gethandle e j) as [? ?] eqn:E;
                          apply gethandle_names in E
                      | |- context [JSON.getint ?j] =>
                          let E := fresh "E" in
                          destruct (JSON.getint j) as [? ?] eqn:E;
                          apply getint_names in E as [E _]
                      | |- context [if bool_decide ?P then _ else _] => destruct (bool_decide P)
                      end;
               apply IH; simpl in *; lia
             | ]
         end.
  destruct (bool_decide (id = EOO)); [apply login_finish_returns|].
  destruct (JSON.storeobject j) as [[ok s] j1] eqn:Es.
  apply storeobject_names in Es as (Hs & _).
  destruct ok; [|eauto]. apply IH. simpl. lia.
Qed.

(** ** CommandPutNodes *)

Lemma client_readnodes_frame (env : Env) src nn_ tag_ (c : MegaClient) ok nn' c' :
  CommandPutNodes.client_readnodes env src nn_ tag_ c = (ok, nn', c') ->
  log c' = log c /\ mOnCSCompletion c' = mOnCSCompletion c
  /\ (JSON.names (JSON.cur (json c')) <= JSON.names (JSON.cur (json c)))%nat.
Proof.
  unfold CommandPutNodes.client_readnodes.
  destruct (JSON.cur (json c)) as [|[k|v] r] eqn:E;
    try (intros [= <- <- <-]; rewrite ?E; simpl; repeat split; auto; lia).
  destruct (readnodes env v src nn_ tag_ (nodes c)) as [[ok1 nn1] ns1].
  destruct ok1; intros [= <- <- <-]; simpl; rewrite ?E; simpl; repeat split; auto; lia.
Qed.

(** The reply loop calls no collaborator but [readnodes]. *)
Lemma putnodes_parse_frame (env : Env) (fuel : nat) : forall e empty cmd c e' empty' cmd' c',
  CommandPutNodes.parse env fuel e empty cmd c = Some (e', empty', cmd', c') ->
  log c' = log c /\ mOnCSCompletion c' = mOnCSCompletion c
  /\ CommandPutNodes.source cmd' = CommandPutNodes.source cmd
  /\ CommandPutNodes.mResultFunction cmd' = CommandPutNodes.mResultFunction cmd.
Proof.
  induction fuel as [|fuel IH]; intros e empty cmd c e' empty' cmd' c' H; [discriminate|].
  turn H.
  destruct (is_name id "f").
  { destruct (CommandPutNodes.client_readnodes _ _ _ _ _) as [[ok nn'] c1] eqn:Er.
    apply client_readnodes_frame in Er as (Hl & Hm & _). simpl in Hl, Hm.
    destruct ok.
    - apply IH in H as (-> & -> & -> & ->). auto.
    - injection H as <- <- <- <-. auto. }
  destruct (is_name id "f2").
  { destruct (CommandPutNodes.client_readnodes _ _ _ _ _) as [[ok nn'] c1] eqn:Er.
    apply client_readnodes_frame in Er as (Hl & Hm & _). simpl in Hl, Hm.
    destruct ok.
    - apply IH in H as (-> & -> & -> & ->). auto.
    - injection H as <- <- <- <-. auto. }
  destruct (bool_decide (id = EOO)).
  { injection H as <- <- <- <-. auto. }
  destruct (JSON.storeobject j) as [[ok s] j1].
  destruct ok.
  - apply IH in H as (-> & -> & -> & ->). auto.
  - injection H as <- <- <- <-. auto.
Qed.

Lemma putnodes_parse_returns (env : Env) (fuel : nat) : forall e empty cmd c,
  (JSON.names (JSON.cur (json c)) < fuel)%nat ->
  is_Some (CommandPutNodes.parse env fuel e empty cmd c).
Proof.
  induction fuel as [|fuel IH]; intros e empty cmd c Hf; [lia|].
  turn_goal.
  destruct (getnameid_names _ _ _ Eid) as [->|Hn]; [simpl; eauto|].
  destruct (is_name id "f").
  { destruct (CommandPutNodes.client_readnodes _ _ _ _ _) as [[ok nn'] c1] eqn:Er.
    apply client_readnodes_frame in Er as (_ & _ & Hr). simpl in Hr.
    destruct ok; [|eauto]. apply IH. lia. }
  destruct (is_name id "f2").
  { destruct (CommandPutNodes.client_readnodes _ _ _ _ _) as [[ok nn'] c1] eqn:Er.
    apply client_readnodes_frame in Er as (_ & _ & Hr). simpl in Hr.
    destruct ok; [|eauto]. apply IH. lia. }
  destruct (bool_decide (id = EOO)); [eauto|].
  destruct (JSON.storeobject j) as [[ok s] j1] eqn:Es.
  apply storeobject_names in Es as (Hs & _).
  destruct ok; [|eauto]. apply IH. simpl. lia.
Qed.

Lemma completions_map_tctable_del (ids : list Z) : completions (map tctable_del ids) = [].
Proof. induction ids; simpl; auto. Qed.

Lemma asserts_map_tctable_del (ids : list Z) : asserts (map tctable_del ids) = [].
Proof. induction ids; simpl; auto. Qed.

Lemma completions_map_unlinklocal (pfs : list string) :
  completions (map fsaccess_unlinklocal pfs) = [].
Proof. induction pfs; simpl; auto. Qed.

Lemma asserts_map_unlinklocal (pfs : list string) : asserts (map fsaccess_unlinklocal pfs) = [].
Proof. induction pfs; simpl; auto. Qed.

(** Dropping the pending records calls no completion. *)
Lemma removePending_frame (cmd : CommandPutNodes.t) (c : MegaClient) :
  json (CommandPutNodes.removePendingDBRecordsAndTempFiles cmd c) = json c
  /\ mOnCSCompletion (CommandPutNodes.removePendingDBRecordsAndTempFiles cmd c)
     = mOnCSCompletion c
  /\ exists evs,
       log (CommandPutNodes.removePendingDBRecordsAndTempFiles cmd c) = log c ++ evs
       /\ completions evs = [] /\ asserts evs = [].
Proof.
  unfold CommandPutNodes.removePendingDBRecordsAndTempFiles.
  destruct (pendingtcids c !! CommandPutNodes.tag cmd) as [ids|];
    [destruct (tctable c)|]; simpl;
    (match goal with |- context [pendingfiles ?c !! ?t] => destruct (pendingfiles c !! t) as [pfs|] end);
    simpl; (split; [reflexivity|]); (split; [reflexivity|]);
    rewrite <- ?app_assoc;
    try (eexists; split; [reflexivity|]; rewrite ?completions_app, ?asserts_app; simpl;
         rewrite ?completions_map_tctable_del, ?asserts_map_tctable_del,
           ?completions_map_unlinklocal, ?asserts_map_unlinklocal; auto);
    exists []; rewrite app_nil_r; auto.
Qed.

(** ** Every variant, one completion *)

Lemma completed_called_once (c : MegaClient) b c' : completed_once c b c' -> called_once c c'.
Proof. intros (Hm & evs & x & Hl & Hc & _). split; eauto. Qed.

Lemma called_once_after (c0 c c' : MegaClient) evs0 :
  mOnCSCompletion c = mOnCSCompletion c0 ->
  log c = log c0 ++ evs0 ->
  completions evs0 = [] ->
  called_once c c' ->
  called_once c0 c'.
Proof.
  intros Hm Hl Hc0 (Hm' & evs & x & Hl' & Hc). split; [congruence|].
  exists (evs0 ++ evs), x. rewrite Hl', Hl, <- app_assoc.
  rewrite completions_app, Hc0, Hc. auto.
Qed.

Lemma mark_todebris_frame (cmd : CommandMoveNode.t) (c : MegaClient) :
  log (CommandMoveNode.mark_todebris cmd c) = log c
  /\ mOnCSCompletion (CommandMoveNode.mark_todebris cmd c) = mOnCSCompletion c
  /\ json (CommandMoveNode.mark_todebris cmd c) = json c.
Proof.
  unfold CommandMoveNode.mark_todebris.
  generalize (toDebris c). intros l. revert c.
  induction l as [|d l IH]; intros c; simpl; [auto|].
  destruct (IH (CommandMoveNode.mark_one cmd c d)) as (-> & -> & ->).
  unfold CommandMoveNode.mark_one.
  destruct (CommandMoveNode.reaches _ _ _ _); auto.
Qed.

(** The block under [ENABLE_SYNC] calls no completion. *)
Lemma sync_block_frame (cmd : CommandMoveNode.t) r (c : MegaClient) :
  mOnCSCompletion (CommandMoveNode.sync_block cmd r c) = mOnCSCompletion c
  /\ json (CommandMoveNode.sync_block cmd r c) = json c
  /\ exists evs, log (CommandMoveNode.sync_block cmd r c) = log c ++ evs
                 /\ completions evs = [] /\ asserts evs = [].
Proof.
  unfold CommandMoveNode.sync_block.
  destruct (bool_decide _); [|repeat split; exists []; rewrite app_nil_r; auto].
  destruct (nodeByHandle c _) as [syncn|]; [|repeat split; exists []; rewrite app_nil_r; auto].
  destruct (wasError r API_OK).
  { destruct (mark_todebris_frame cmd c) as (-> & -> & ->).
    repeat split; exists []; rewrite app_nil_r; auto. }
  destruct (_ || _); simpl.
  - repeat split; exists []; rewrite app_nil_r; auto.
  - repeat split; eexists; split; [reflexivity|]; auto.
Qed.

Lemma assert_frame b what (c : MegaClient) :
  mOnCSCompletion (assert_ b what c) = mOnCSCompletion c
  /\ json (assert_ b what c) = json c
  /\ exists evs, log (assert_ b what c) = log c ++ evs /\ completions evs = [].
Proof.
  destruct b; simpl; repeat split; [exists []; rewrite app_nil_r; auto|eexists; split; eauto].
Qed.

Lemma putnodes_deliver_once (env : Env) e empty (x : CommandPutNodes.t) (c : MegaClient) :
  putnodes_scope env x = true ->
  exists c', CommandPutNodes.deliver env e empty x c = Some (true, x, c') /\ called_once c c'.
Proof.
  unfold putnodes_scope, CommandPutNodes.deliver, CommandPutNodes.result. intros Hc.
  destruct (ENABLE_SYNC env); simpl in Hc |- *.
  - destruct (bool_decide (CommandPutNodes.source x = PUTNODES_SYNC)); simpl.
    + eexists. split; [reflexivity|].
      destruct (CommandPutNodes.mResultFunction x); finish_called.
    + rewrite orb_false_r in Hc. rewrite Hc.
      eexists. split; [reflexivity|].
      destruct (negb (ISUNDEF _)); [destruct (nodeByHandle _ _) as [[? ? ? ? []]|]|];
        destruct (CommandPutNodes.mResultFunction x); finish_called.
  - rewrite orb_false_r in Hc. rewrite Hc.
    eexists. split; [reflexivity|].
    destruct (CommandPutNodes.mResultFunction x); finish_called.
Qed.

Lemma putnodes_on_code_once (env : Env) (x : CommandPutNodes.t) r (c : MegaClient) :
  putnodes_scope env x = true ->
  match CommandPutNodes.on_code env x r c with
  | inr o => wasErrorOrOK r = true
             /\ exists cmd' c', o = Some (true, cmd', c') /\ called_once c c'
  | inl c1 => wasErrorOrOK r = false /\ c1 = c
  end.
Proof.
  unfold putnodes_scope, CommandPutNodes.on_code, CommandPutNodes.result. intros Hc.
  destruct (wasErrorOrOK r); [|auto].
  set (c1 := if wasError r API_EOVERQUOTA then _ else c).
  assert (H1 : mOnCSCompletion c1 = mOnCSCompletion c
               /\ exists evs, log c1 = log c ++ evs /\ completions evs = []).
  { unfold c1. destruct (wasError r API_EOVERQUOTA);
      [destruct (isPrivateNode env c _); [|destruct (_ && _)]|];
      simpl; split; auto;
      first [ exists []; rewrite app_nil_r; split; reflexivity
            | eexists; split; [reflexivity|reflexivity] ]. }
  destruct H1 as (Hm1 & evs1 & Hl1 & Hc1).
  destruct (ENABLE_SYNC env); simpl in Hc |- *.
  - destruct (bool_decide (CommandPutNodes.source x = PUTNODES_SYNC)); simpl.
    + split; [reflexivity|]. do 2 eexists. split; [reflexivity|].
      eapply called_once_after; [exact Hm1|exact Hl1|exact Hc1|].
      destruct (wasError r API_EACCESS), (CommandPutNodes.mResultFunction x); finish_called.
    + rewrite orb_false_r in Hc. rewrite Hc.
      split; [reflexivity|]. do 2 eexists. split; [reflexivity|].
      eapply called_once_after; [exact Hm1|exact Hl1|exact Hc1|].
      destruct (CommandPutNodes.mResultFunction x); finish_called.
  - rewrite orb_false_r in Hc. rewrite Hc.
    split; [reflexivity|]. do 2 eexists. split; [reflexivity|].
    eapply called_once_after; [exact Hm1|exact Hl1|exact Hc1|].
    destruct (CommandPutNodes.mResultFunction x); finish_called.
Qed.

Lemma putnodes_procresult_once (env : Env) (fuel : nat) (x : CommandPutNodes.t) r
  (c : MegaClient) :
  putnodes_scope env x = true ->
  (JSON.names (JSON.cur (json c)) < fuel)%nat ->
  exists cmd' c',
    CommandPutNodes.procresult env fuel x r c = Some (true, cmd', c') /\ called_once c c'.
Proof.
  intros Hc Hf. unfold CommandPutNodes.procresult.
  destruct (removePending_frame x c) as (Hj & Hm & evs0 & Hl0 & Hc0 & _).
  set (c0 := CommandPutNodes.removePendingDBRecordsAndTempFiles x c) in *.
  pose proof (putnodes_on_code_once env x r c0 Hc) as Hoc.
  destruct (CommandPutNodes.on_code env x r c0) as [c1|o].
  - destruct Hoc as [_ ->].
    destruct (putnodes_parse_returns env fuel API_EINTERNAL false x c0)
      as [[[[e em] cmd'] c2] Hp]; [rewrite Hj; exact Hf|].
    rewrite Hp. apply putnodes_parse_frame in Hp as (Hl2 & Hm2 & Hs2 & Hr2).
    destruct (putnodes_deliver_once env e em cmd' c2) as (c3 & Hd & H3).
    { unfold putnodes_scope in *. rewrite Hs2. exact Hc. }
    rewrite Hd. do 2 eexists. split; [reflexivity|].
    eapply (called_once_after c c2 c3 evs0); [congruence|congruence|exact Hc0|exact H3].
  - destruct Hoc as (_ & cmd' & c' & -> & H3). do 2 eexists. split; [reflexivity|].
    eapply called_once_after; [exact Hm|exact Hl0|exact Hc0|exact H3].
Qed.

(** Every variant that has a completion and is not a logout calls it
    once, whatever the slot holds. *)
Lemma procresult_called_once (env : Env) (fuel : nat) (cmd : Command) r (c : MegaClient) :
  completes env cmd = true ->
  (JSON.names (JSON.cur (json c)) < fuel)%nat ->
  (forall x, cmd <> Logout x) ->
  exists b cmd' c', procresult env fuel cmd r c = Some (b, cmd', c') /\ called_once c c'.
Proof.
  intros Hc Hf Hl.
  destruct cmd as [x|x|x|x|x|x|x|x|x|x|x|x|x]; try discriminate Hc; simpl in Hc;
    unfold procresult.
  - (* CommandGetPutUrl *)
    destruct x as [[]]; [discriminate|]. unfold CommandGetPutUrl.procresult. simpl.
    destruct (wasErrorOrOK r); simpl; [do 3 eexists; split; [reflexivity|finish_called]|].
    destruct (getputurl_parse_returns fuel "" [] (CommandGetPutUrl.mk false) c Hf)
      as [[[b cmd'] c'] Hp].
    rewrite Hp. simpl. do 3 eexists. split; [reflexivity|].
    apply getputurl_parse_completes in Hp as (e & u & i & -> & _). finish_called.
  - (* CommandSetAttr *)
    unfold CommandSetAttr.procresult. rewrite Hc. simpl.
    do 3 eexists. split; [reflexivity|finish_called].
  - (* CommandPutNodes *)
    destruct (putnodes_procresult_once env fuel x r c Hc Hf) as (cmd' & c' & -> & H).
    simpl. eauto.
  - (* CommandMoveNode *)
    unfold CommandMoveNode.procresult. rewrite Hc. simpl.
    do 3 eexists. split; [reflexivity|].
    destruct (wasErrorOrOK r); [|finish_called].
    set (c1 := if wasError r API_EOVERQUOTA then emit client_activateoverquota c else c).
    assert (H1 : mOnCSCompletion c1 = mOnCSCompletion c
                 /\ exists evs, log c1 = log c ++ evs /\ completions evs = []).
    { unfold c1. destruct (wasError r API_EOVERQUOTA); simpl; split; auto;
        [eexists; split; reflexivity|exists []; rewrite app_nil_r; auto]. }
    destruct H1 as (Hm1 & evs1 & Hl1 & Hc1).
    set (c2 := if ENABLE_SYNC env then CommandMoveNode.sync_block x r c1 else c1).
    assert (H2 : mOnCSCompletion c2 = mOnCSCompletion c1
                 /\ exists evs, log c2 = log c1 ++ evs /\ completions evs = []).
    { unfold c2. destruct (ENABLE_SYNC env).
      - destruct (sync_block_frame x r c1) as (? & _ & evs & ? & ? & _). eauto.
      - split; auto. exists []. rewrite app_nil_r. auto. }
    destruct H2 as (Hm2 & evs2 & Hl2 & Hc2).
    eapply (called_once_after c c2 _ (evs1 ++ evs2)); [congruence| | |].
    + rewrite Hl2, Hl1, app_assoc. reflexivity.
    + rewrite completions_app, Hc1, Hc2. reflexivity.
    + destruct (_ && _); finish_called.
  - (* CommandDelNode *)
    unfold CommandDelNode.procresult.
    destruct (wasErrorOrOK r); simpl.
    { do 3 eexists. split; [reflexivity|].
      unfold CommandDelNode.result. destruct (CommandDelNode.mResultFunction x); finish_called. }
    destruct (delnode_parse_returns fuel API_OK x c Hf) as [[[b cmd'] c'] Hp].
    rewrite Hp. simpl. do 3 eexists. split; [reflexivity|].
    apply delnode_parse_once in Hp as [_ Hp]. eapply completed_called_once; eauto.
  - (* CommandLogout *)
    exfalso. eapply Hl. reflexivity.
  - (* CommandValidatePassword *)
    unfold CommandValidatePassword.procresult.
    destruct (wasError r API_OK); simpl; [do 3 eexists; split; [reflexivity|finish_called]|].
    do 3 eexists. split; [reflexivity|].
    destruct (hasJsonObject r); finish_called.
  - (* CommandPrelogin *)
    unfold CommandPrelogin.procresult.
    destruct (wasErrorOrOK r); simpl; [do 3 eexists; split; [reflexivity|finish_called]|].
    destruct (assert_frame (hasJsonObject r) "r.hasJsonObject()" c) as (Hm & Hj & evs & Hl0 & Hc0).
    destruct (prelogin_parse_returns env fuel 0 "" x (assert_ (hasJsonObject r) "r.hasJsonObject()" c))
      as [[[b cmd'] c'] Hp]; [rewrite Hj; exact Hf|].
    rewrite Hp. simpl. do 3 eexists. split; [reflexivity|].
    apply prelogin_parse_once in Hp as [_ Hp].
    eapply called_once_after; [exact Hm|exact Hl0|exact Hc0|].
    eapply completed_called_once; eauto.
  - (* CommandLogin *)
    unfold CommandLogin.procresult.
    destruct (wasErrorOrOK r); simpl; [do 3 eexists; split; [reflexivity|finish_called]|].
    destruct (assert_frame (hasJsonObject r) "r.hasJsonObject()" c) as (Hm & Hj & evs & Hl0 & Hc0).
    destruct (login_parse_returns env fuel CommandLogin.locals0 x
                (assert_ (hasJsonObject r) "r.hasJsonObject()" c))
      as [[[b cmd'] c'] Hp]; [rewrite Hj; exact Hf|].
    rewrite Hp. simpl. do 3 eexists. split; [reflexivity|].
    apply login_parse_once in Hp as [_ Hp].
    eapply called_once_after; [exact Hm|exact Hl0|exact Hc0|].
    eapply completed_called_once; eauto.
Qed.

(** C4, as stated, fails on the cancellation path: the reply to a
    canceled upload-URL command is processed and its completion is
    called zero times. *)
Lemma C4_canceled_completion_not_called :
  procresult env0 1 (cancel (GetPutUrl (CommandGetPutUrl.mk false))) (StrictError API_OK)
    (reading [] client0)
  = Some (true, cancel (GetPutUrl (CommandGetPutUrl.mk false)), reading [] client0)
  /\ completions (log (reading [] client0)) = [].
Proof. split; reflexivity. Qed.

Lemma logout_called_once (x : CommandLogout.t) r (c : MegaClient) :
  mOnCSCompletion c = None ->
  exists c' evs e,
    CommandLogout.procresult x r c = Some (true, x, c')
    /\ log (CommandLogout.run_mOnCSCompletion c') = log c ++ evs
    /\ completions evs = [e].
Proof.
  intros Hm. unfold CommandLogout.procresult, CommandLogout.run_mOnCSCompletion.
  destruct r as [e| | |]; simpl; try destruct (bool_decide (e = API_OK));
    destruct (bool_decide (loggingout c > 0)); simpl; rewrite ?Hm; simpl;
    do 3 eexists; (split; [reflexivity|]); simpl; rewrite ?Hm; simpl;
    rewrite <- ?app_assoc; split; reflexivity.
Qed.

(** A create-node command outside [putnodes_scope], one issued for
    the sync debris or, in a build without the sync engine, by the
    sync engine, calls no completion: its result goes to the client,
    or nowhere. *)
Lemma putnodes_outside_scope (env : Env) (fuel : nat) (x : CommandPutNodes.t) r
  (c : MegaClient) :
  putnodes_scope env x = false ->
  (JSON.names (JSON.cur (json c)) < fuel)%nat ->
  exists x' c' evs,
    CommandPutNodes.procresult env fuel x r c = Some (true, x', c')
    /\ log c' = log c ++ evs
    /\ completions evs = [].
Proof.
  unfold putnodes_scope. intros Hc Hf.
  apply orb_false_iff in Hc as [Happ Hsync].
  unfold CommandPutNodes.procresult.
  destruct (removePending_frame x c) as (Hj0 & _ & evs0 & Hl0 & Hc0 & _).
  set (c0 := CommandPutNodes.removePendingDBRecordsAndTempFiles x c) in *.
  assert (Hloop : forall c1 evs1,
             json c1 = json c0 -> log c1 = log c ++ evs1 -> completions evs1 = [] ->
             exists x' c' evs,
               match CommandPutNodes.parse env fuel API_EINTERNAL false x c1 with
               | Some (e, empty, cmd, c2) => CommandPutNodes.deliver env e empty cmd c2
               | None => None
               end = Some (true, x', c')
               /\ log c' = log c ++ evs /\ completions evs = []).
  { intros c1 evs1 Hj1 Hl1 Hc1.
    destruct (putnodes_parse_returns env fuel API_EINTERNAL false x c1)
      as [[[[e1 empty1] x1] c2] Hp]; [rewrite Hj1, Hj0; exact Hf|].
    rewrite Hp.
    destruct (putnodes_parse_frame env fuel _ _ _ _ _ _ _ _ Hp) as (Hl2 & _ & Hs2 & _).
    unfold CommandPutNodes.deliver. rewrite Hs2, Hsync, Happ.
    destruct (ENABLE_SYNC env); do 3 eexists; (split; [reflexivity|]); simpl;
      rewrite Hl2, Hl1, <- ?app_assoc; (split; [reflexivity|]);
      rewrite completions_app, Hc1; reflexivity. }
  unfold CommandPutNodes.on_code. rewrite Hsync, Happ.
  destruct (wasErrorOrOK r); [|apply (Hloop c0 evs0); auto].
  destruct (wasError r API_EOVERQUOTA); [destruct (isPrivateNode env c0 _)|];
    (destruct (ENABLE_SYNC env);
     [ do 3 eexists; (split; [reflexivity|]); simpl; rewrite Hl0, <- ?app_assoc;
       (split; [reflexivity|]); rewrite completions_app, Hc0; reflexivity
     | ]).
  - apply (Hloop (emit client_activateoverquota c0) (evs0 ++ [client_activateoverquota])).
    + reflexivity.
    + simpl. rewrite Hl0, <- app_assoc. reflexivity.
    + rewrite completions_app, Hc0. reflexivity.
  - apply (Hloop c0 evs0); auto.
  - apply (Hloop c0 evs0); auto.
Qed.

(** C4, amended: the reply slot of an upload-URL, set-attribute,
    move-node, create-node, delete-node, logout, password-check,
    prelogin or login command that has a completion to call and was not
    canceled leads to one call of that completion, on every path
    through [procresult], the paths of a failed parse included (with no
    teardown of an earlier logout pending; the logout command hands its
    call to the teardown that runs after the batch).  The reply to a
    canceled command leads to no call; nor does that to a create-node
    command issued for the sync debris, or by the sync engine in a
    build without it, whose result goes to the client or nowhere. *)
Theorem C4_completion_called_once_unless_canceled
  (env : Env) (fuel : nat) (cmd : Command) (r : Result) (c : MegaClient) :
  mOnCSCompletion c = None ->
  (JSON.names (JSON.cur (json c)) < fuel)%nat ->
  (if completes env cmd
   then exists b cmd' c' evs x,
          procresult env fuel cmd r c = Some (b, cmd', c')
          /\ log (CommandLogout.run_mOnCSCompletion c') = log c ++ evs
          /\ completions evs = [x]
   else True)
  /\ (if cancellable cmd
      then exists b c',
             procresult env fuel (cancel cmd) r c = Some (b, cancel cmd, c')
             /\ completions (log c') = completions (log c)
      else True)
  /\ match cmd with
     | PutNodes x =>
         if putnodes_scope env x then True
         else exists cmd' c' evs,
                procresult env fuel cmd r c = Some (true, cmd', c')
                /\ log c' = log c ++ evs
                /\ completions evs = []
     | _ => True
     end.
Proof.
  intros Hm Hf. split; [|split].
  - destruct (completes env cmd) eqn:Hc; [|exact I].
    destruct cmd as [x|x|x|x|x|x|x|x|x|x|x|x|x];
      try (destruct (procresult_called_once env fuel _ r c Hc Hf)
             as (b & cmd' & c' & Hp & Hm' & evs & e & Hl & He); [discriminate|];
           exists b, cmd', c', evs, e; split; [exact Hp|]; split; [|exact He];
           unfold CommandLogout.run_mOnCSCompletion; rewrite Hm', Hm; exact Hl).
    destruct (logout_called_once x r c Hm) as (c' & evs & e & Hp & Hl & He).
    exists true, (Logout x), c', evs, e. unfold procresult. rewrite Hp. auto.
  - destruct (cancellable cmd) eqn:Hc; [|exact I].
    destruct (canceled_procresult_frame env fuel cmd r c Hc Hf) as (b & c' & Hp & Hc').
    exists b, c'. split; [exact Hp|]. rewrite Hc'. reflexivity.
  - destruct cmd as [x|x|x|x|x|x|x|x|x|x|x|x|x]; try exact I.
    destruct (putnodes_scope env x) eqn:Hs; [exact I|].
    destruct (putnodes_outside_scope env fuel x r c Hs Hf) as (x' & c' & evs & Hp & Hl & He).
    exists (PutNodes x'), c', evs. unfold procresult. rewrite Hp. auto.
Qed.

(** C4 at work: a delete command and the reply [{"r":[0]}]. *)
Lemma C4_completion_called_once_unless_canceled_witness :
  mOnCSCompletion (inside [(MAKENAMEID "r", JSON.Arr [JSON.Num 0])] client0) = None
  /\ (JSON.names (JSON.cur (json (inside [(MAKENAMEID "r", JSON.Arr [JSON.Num 0])] client0))) < 3)%nat
  /\ (if completes env0 example_delete
      then exists b cmd' c' evs x,
             procresult env0 3 example_delete JsonObject
               (inside [(MAKENAMEID "r", JSON.Arr [JSON.Num 0])] client0) = Some (b, cmd', c')
             /\ log (CommandLogout.run_mOnCSCompletion c')
                = log (inside [(MAKENAMEID "r", JSON.Arr [JSON.Num 0])] client0) ++ evs
             /\ completions evs = [x]
      else True)
  /\ (if cancellable example_delete
      then exists b c',
             procresult env0 3 (cancel example_delete) JsonObject
               (inside [(MAKENAMEID "r", JSON.Arr [JSON.Num 0])] client0)
             = Some (b, cancel example_delete, c')
             /\ completions (log c')
                = completions (log (inside [(MAKENAMEID "r", JSON.Arr [JSON.Num 0])] client0))
      else True)
  /\ match example_delete with
     | PutNodes x =>
         if putnodes_scope env0 x then True
         else exists cmd' c' evs,
                procresult env0 3 example_delete JsonObject
                  (inside [(MAKENAMEID "r", JSON.Arr [JSON.Num 0])] client0)
                = Some (true, cmd', c')
                /\ log c' = log (inside [(MAKENAMEID "r", JSON.Arr [JSON.Num 0])] client0) ++ evs
                /\ completions evs = []
     | _ => True
     end.
Proof.
  split; [reflexivity|]. split; [simpl; lia|].
  apply (C4_completion_called_once_unless_canceled env0 3 example_delete JsonObject
           (inside [(MAKENAMEID "r", JSON.Arr [JSON.Num 0])] client0)).
  - reflexivity.
  - simpl. lia.
Defined.

(** ** Bare status codes *)










(** ** The quota error *)

(** What the reply [-17] to a move into the sync debris does change:
    the sync-deletion state of the node is reset and its debris record
    is erased; the node stays where it is. *)
Lemma debris_move_resets_the_deletion_state :
  exists c',
    CommandMoveNode.procresult env0 example_debris_move (StrictError API_EOVERQUOTA)
      client_debris = Some (true, example_debris_move, c')
    /\ syncdeleted <$> (nodes client_debris !! 7) = Some SYNCDEL_BIN
    /\ syncdeleted <$> (nodes c' !! 7) = Some SYNCDEL_NONE
    /\ parent <$> (nodes c' !! 7) = parent <$> (nodes client_debris !! 7)
    /\ toDebris client_debris = [7]
    /\ toDebris c' = [].
Proof.
  eexists. split; [reflexivity|]. vm_compute. auto.
Qed.





(** ** Logout *)

(** C9: the reply to a logout decrements the count of logouts under
    way when it is positive; on [API_OK] nothing is torn down and no
    completion is called while the reply is processed: the teardown and
    the completion are stored to run once the batch has been left; on
    any other code the completion is called at once with that code. *)
Theorem C9_logout_defers_teardown (x : CommandLogout.t) (e : error) (c : MegaClient) :
  exists c',
    CommandLogout.procresult x (StrictError e) c = Some (true, x, c')
    /\ loggingout c' = (if bool_decide (loggingout c > 0) then loggingout c - 1 else loggingout c)
    /\ (if bool_decide (e = API_OK)
        then log c' = log c
             /\ mOnCSCompletion c' = Some (mkDeferred (CommandLogout.mKeepSyncConfigsFile x))
             /\ log (CommandLogout.run_mOnCSCompletion c')
                = log c ++ [client_locallogout true (CommandLogout.mKeepSyncConfigsFile x);
                            Logout_completion API_OK]
        else log c' = log c ++ [Logout_completion e]
             /\ mOnCSCompletion c' = mOnCSCompletion c).
Proof.
  unfold CommandLogout.procresult. simpl.
  destruct (bool_decide (e = API_OK)), (bool_decide (loggingout c > 0));
    eexists; (split; [reflexivity|]); simpl; rewrite <- ?app_assoc; auto.
Qed.

(** ** Batches *)

Section QueueFacts.
Context {C : Type} (sep : C -> bool).









End QueueFacts.



(** ** The shapes and the login family *)

Lemma prelogin_asserts (env : Env) (fuel : nat) (p : CommandPrelogin.t) r (c : MegaClient) :
  (JSON.names (JSON.cur (json c)) < fuel)%nat ->
  exists b c',
    CommandPrelogin.procresult env fuel p r c = Some (b, p, c')
    /\ asserts (log c')
       = asserts (log c)
         ++ (if wasErrorOrOK r || hasJsonObject r then [] else ["r.hasJsonObject()"]).
Proof.
  intros Hf. unfold CommandPrelogin.procresult.
  destruct (wasErrorOrOK r) eqn:Hr; simpl.
  { do 2 eexists. split; [reflexivity|]. simpl. rewrite asserts_app. reflexivity. }
  destruct (prelogin_parse_returns env fuel 0 "" p (assert_ (hasJsonObject r) "r.hasJsonObject()" c))
    as [[[b cmd'] c'] Hp].
  { destruct (hasJsonObject r); exact Hf. }
  rewrite Hp. apply prelogin_parse_once in Hp as (-> & _ & evs & x & Hl & _ & Ha & _).
  exists b, c'. split; [reflexivity|]. rewrite Hl, asserts_app, Ha, app_nil_r.
  destruct (hasJsonObject r); simpl; rewrite ?asserts_app, ?app_nil_r; reflexivity.
Qed.

Lemma login_asserts (env : Env) (fuel : nat) (l : CommandLogin.t) r (c : MegaClient) :
  (JSON.names (JSON.cur (json c)) < fuel)%nat ->
  exists b c',
    CommandLogin.procresult env fuel l r c = Some (b, l, c')
    /\ asserts (log c')
       = asserts (log c)
         ++ (if wasErrorOrOK r || hasJsonObject r then [] else ["r.hasJsonObject()"]).
Proof.
  intros Hf. unfold CommandLogin.procresult.
  destruct (wasErrorOrOK r) eqn:Hr; simpl.
  { do 2 eexists. split; [reflexivity|]. simpl. rewrite asserts_app. reflexivity. }
  destruct (login_parse_returns env fuel CommandLogin.locals0 l
              (assert_ (hasJsonObject r) "r.hasJsonObject()" c)) as [[[b cmd'] c'] Hp].
  { destruct (hasJsonObject r); exact Hf. }
  rewrite Hp. apply login_parse_once in Hp as (-> & _ & evs & x & Hl & _ & Ha & _).
  exists b, c'. split; [reflexivity|]. rewrite Hl, asserts_app, Ha, app_nil_r.
  destruct (hasJsonObject r); simpl; rewrite ?asserts_app, ?app_nil_r; reflexivity.
Qed.

(** C3, amended: of the four shape predicates [wasErrorOrOK],
    [hasJsonObject], [hasJsonArray] and [hasJsonItem] exactly one holds
    for a slot, so the first three exclude each other and none of them
    holds for a scalar slot; the assertion at the top of the prelogin
    and login [procresult] bodies holds exactly for the slots that are
    a bare code or an object. *)
Theorem C3_exactly_one_of_four_shapes
  (env : Env) (fuel : nat) (r : Result) (p : CommandPrelogin.t) (l : CommandLogin.t)
  (c : MegaClient) :
  (JSON.names (JSON.cur (json c)) < fuel)%nat ->
  count_true [wasErrorOrOK r; hasJsonObject r; hasJsonArray r; hasJsonItem r] = 1%nat
  /\ (count_true [wasErrorOrOK r; hasJsonObject r; hasJsonArray r] <= 1)%nat
  /\ (exists b c',
        CommandPrelogin.procresult env fuel p r c = Some (b, p, c')
        /\ asserts (log c')
           = asserts (log c)
             ++ (if wasErrorOrOK r || hasJsonObject r then [] else ["r.hasJsonObject()"]))
  /\ (exists b c',
        CommandLogin.procresult env fuel l r c = Some (b, l, c')
        /\ asserts (log c')
           = asserts (log c)
             ++ (if wasErrorOrOK r || hasJsonObject r then [] else ["r.hasJsonObject()"])).
Proof.
  intros Hf.
  split; [destruct r; vm_compute; reflexivity|].
  split; [destruct r; vm_compute; lia|].
  split; [apply prelogin_asserts; exact Hf|apply login_asserts; exact Hf].
Qed.

(** C3 at work: an array where the login family expects an object. *)
Lemma C3_exactly_one_of_four_shapes_witness :
  (JSON.names (JSON.cur (json (reading [] client0))) < 1)%nat
  /\ count_true [wasErrorOrOK JsonArray; hasJsonObject JsonArray; hasJsonArray JsonArray;
                 hasJsonItem JsonArray] = 1%nat
  /\ (count_true [wasErrorOrOK JsonArray; hasJsonObject JsonArray; hasJsonArray JsonArray]
      <= 1)%nat
  /\ (exists b c',
        CommandPrelogin.procresult env0 1 (CommandPrelogin.make "a@b.c") JsonArray
          (reading [] client0) = Some (b, CommandPrelogin.make "a@b.c", c')
        /\ asserts (log c')
           = asserts (log (reading [] client0))
             ++ (if wasErrorOrOK JsonArray || hasJsonObject JsonArray then []
                 else ["r.hasJsonObject()"]))
  /\ (exists b c',
        CommandLogin.procresult env0 1 (CommandLogin.make false 0) JsonArray
          (reading [] client0) = Some (b, CommandLogin.make false 0, c')
        /\ asserts (log c')
           = asserts (log (reading [] client0))
             ++ (if wasErrorOrOK JsonArray || hasJsonObject JsonArray then []
                 else ["r.hasJsonObject()"])).
Proof.
  split; [simpl; lia|].
  apply (C3_exactly_one_of_four_shapes env0 1 JsonArray (CommandPrelogin.make "a@b.c")
           (CommandLogin.make false 0) (reading [] client0)).
  simpl. lia.
Defined.

(** ** Incomplete replies *)

(** C6, as stated, fails: a prelogin reply without the required
    version, here [{}], is reported with [API_EINTERNAL] but
    [procresult] returns true. *)
Lemma C6_missing_field_returns_true :
  exists c',
    procresult env0 1 (Prelogin (CommandPrelogin.make "a@b.c")) JsonObject (inside [] client0)
    = Some (true, Prelogin (CommandPrelogin.make "a@b.c"), c')
    /\ log c' = [app_prelogin_result 0 None None API_EINTERNAL].
Proof. eexists. split; reflexivity. Qed.

(** A prelogin reply without [v] is read to its end and reported as
    an internal error. *)
Lemma prelogin_without_version (env : Env) (m : list (nameid * JSON.value)) :
  forall fuel salt p c u,
  forallb (member_without "v") m = true ->
  (length m < fuel)%nat ->
  json c = JSON.mk (JSON.members m) u ->
  CommandPrelogin.parse env fuel 0 salt p c
  = Some (true, p, emit (app_prelogin_result 0 None None API_EINTERNAL)
                     (set_json (JSON.mk [] u) c)).
Proof.
  induction m as [|[k v] m IH]; intros fuel salt p c u Hm Hf Hj;
    (destruct fuel as [|fuel]; [simpl in Hf; lia|]).
  - simpl in Hj. simpl. unfold JSON.getnameid. rewrite Hj. simpl.
    rewrite <- Hj. reflexivity.
  - simpl in Hm. apply andb_prop in Hm as [Hkv Hm].
    unfold member_without in Hkv. simpl in Hkv.
    apply andb_prop in Hkv as [Hkv Hnv]. apply andb_prop in Hkv as [Hk Hv].
    apply negb_true_iff in Hnv. apply negb_true_iff in Hk.
    simpl. unfold JSON.getnameid. rewrite Hj. simpl. rewrite Hnv.
    destruct (is_name k "s").
    { unfold JSON.storeobject. simpl. rewrite Hv. simpl.
      erewrite IH; [reflexivity|assumption|simpl in Hf; lia|reflexivity]. }
    rewrite Hk. unfold JSON.storeobject. simpl. rewrite Hv. simpl.
    erewrite IH; [reflexivity|assumption|simpl in Hf; lia|reflexivity].
Qed.

Lemma login_finish_without_user (env : Env) l (x : CommandLogin.t) (c : MegaClient) :
  CommandLogin.checksession x = false ->
  CommandLogin.me_ l = UNDEF ->
  CommandLogin.finish env l x c = Some (true, x, emit (app_login_result API_EINTERNAL) c).
Proof.
  intros Hc Hme. unfold CommandLogin.finish. rewrite Hc, Hme. reflexivity.
Qed.

(** With the cursor in front of a value the loop is at its end. *)
Lemma login_parse_at_value (env : Env) (fuel : nat) l (x : CommandLogin.t) (c : MegaClient) v r :
  JSON.cur (json c) = JSON.IVal v :: r ->
  CommandLogin.parse env (S fuel) l x c = CommandLogin.finish env l x c.
Proof.
  intros E. simpl. unfold JSON.getnameid. rewrite E. simpl. rewrite client_eta. reflexivity.
Qed.

(** A login reply without [u], for a login that is not a session
    check, is reported as an internal error, and [procresult] returns
    true. *)
Lemma login_without_user (env : Env) (m : list (nameid * JSON.value)) :
  forall fuel l (x : CommandLogin.t) c u,
  CommandLogin.checksession x = false ->
  CommandLogin.me_ l = UNDEF ->
  forallb (member_without "u") m = true ->
  (length m < fuel)%nat ->
  json c = JSON.mk (JSON.members m) u ->
  exists c',
    CommandLogin.parse env fuel l x c = Some (true, x, c')
    /\ log c' = log c ++ [app_login_result API_EINTERNAL].
Proof.
  induction m as [|[k v] m IH]; intros fuel l x c u Hc Hme Hm Hf Hj;
    (destruct fuel as [|fuel]; [simpl in Hf; lia|]).
  - simpl in Hj. simpl. unfold JSON.getnameid. rewrite Hj. simpl.
    rewrite login_finish_without_user by assumption. eexists. split; reflexivity.
  - simpl in Hm. apply andb_prop in Hm as [Hkv Hm].
    unfold member_without in Hkv. simpl in Hkv.
    apply andb_prop in Hkv as [Hkv Hnu]. apply andb_prop in Hkv as [Hk Hv].
    apply negb_true_iff in Hnu. apply negb_true_iff in Hk.
    assert (Hfuel : exists fuel', fuel = S fuel') by (destruct fuel; [simpl in Hf; lia|eauto]).
    assert (Hnext : forall l' (c1 : MegaClient),
               CommandLogin.me_ l' = UNDEF ->
               log c1 = log c ->
               json c1 = JSON.mk (JSON.members m) u ->
               exists c', CommandLogin.parse env fuel l' x c1 = Some (true, x, c')
                          /\ log c' = log c ++ [app_login_result API_EINTERNAL]).
    { intros l' c1 Hme' Hl1 Hj1.
      destruct (IH fuel l' x c1 u Hc Hme' Hm) as (c' & Hp & Hl); [simpl in Hf; lia|exact Hj1|].
      exists c'. split; [exact Hp|]. rewrite Hl, Hl1. reflexivity. }
    assert (Hstuck : forall l' (c1 : MegaClient),
               CommandLogin.me_ l' = UNDEF ->
               log c1 = log c ->
               JSON.cur (json c1) = JSON.IVal v :: JSON.members m ->
               exists c', CommandLogin.parse env fuel l' x c1 = Some (true, x, c')
                          /\ log c' = log c ++ [app_login_result API_EINTERNAL]).
    { intros l' c1 Hme' Hl1 Hj1. destruct Hfuel as [fuel' ->].
      rewrite (login_parse_at_value env fuel' l' x c1 v _ Hj1).
      rewrite login_finish_without_user by assumption.
      eexists. split; [reflexivity|]. simpl. rewrite Hl1. reflexivity. }
    simpl. unfold JSON.getnameid. rewrite Hj. simpl. rewrite Hnu.
    unfold CommandLogin.storebinary, CommandLogin.gethandle, JSON.getint. simpl.
    repeat match goal with
           | |- context [if is_name k ?s then _ else _] =>
               destruct (is_name k s);
               [ destruct v; simpl;
                 try match goal with
                     | |- context [if bool_decide ?P then _ else _] => destruct (bool_decide P)
                     end;
                 first [ apply Hnext; [assumption|reflexivity|reflexivity]
                       | apply Hstuck; [assumption|reflexivity|reflexivity] ]
               | ]
           end.
    rewrite Hk. unfold JSON.storeobject. simpl. rewrite Hv. simpl.
    apply Hnext; [assumption|reflexivity|reflexivity].
Qed.

Lemma unknown_key_names (known : list string) (k : nameid) :
  unknown_key known k = true ->
  bool_decide (k = EOO) = false /\ Forall (fun s => is_name k s = false) known.
Proof.
  unfold unknown_key. intros H. apply andb_prop in H as [He Hk].
  apply negb_true_iff in He. split; [exact He|].
  apply Forall_forall. intros s Hs. rewrite forallb_forall in Hk.
  apply negb_true_iff. apply Hk. apply list_elem_of_In. exact Hs.
Qed.

(** C6, amended: of a slot that is structurally present but
    incomplete, a required field that is missing (a prelogin reply
    without [v]; a login reply without [u], the login not being a
    session check) is reported to the completion with [API_EINTERNAL]
    while [procresult] returns true, the reply having been read; a
    value that cannot be skipped, under a key the command has no case
    for, is reported with [API_EINTERNAL] and [procresult] returns
    false (delete-node, prelogin, login, session check or not).  Other
    incomplete replies are not reported as errors: a session check
    completes the empty reply with [API_OK], and text that is no value
    under a key the command reads itself, [r] of delete-node and [v] of
    prelogin, is taken for the end of the reply, which completes with
    [API_OK], [procresult] returning true. *)
Theorem C6_incomplete_reply_is_an_internal_error
  (env : Env) (fuel : nat) (mp ml rest : list (nameid * JSON.value)) (kd kp kl : nameid)
  (v : JSON.value) (d : CommandDelNode.t) (p : CommandPrelogin.t) (l ls : CommandLogin.t)
  (c : MegaClient) :
  forallb (member_without "v") mp = true ->
  forallb (member_without "u") ml = true ->
  (length mp < fuel)%nat ->
  (length ml < fuel)%nat ->
  unknown_key delnode_keys kd = true ->
  unknown_key prelogin_keys kp = true ->
  unknown_key login_keys kl = true ->
  JSON.complete v = false ->
  CommandLogin.checksession l = false ->
  CommandLogin.checksession ls = true ->
  (exists c',
     CommandPrelogin.procresult env fuel p JsonObject (inside mp c) = Some (true, p, c')
     /\ reported c c' API_EINTERNAL /\ JSON.cur (json c') = [])
  /\ (exists c',
        CommandLogin.procresult env fuel l JsonObject (inside ml c) = Some (true, l, c')
        /\ reported c c' API_EINTERNAL)
  /\ (exists c',
        CommandDelNode.procresult fuel d JsonObject (inside ((kd, v) :: rest) c)
        = Some (false, d, c')
        /\ reported c c' API_EINTERNAL)
  /\ (exists c',
        CommandPrelogin.procresult env fuel p JsonObject (inside ((kp, v) :: rest) c)
        = Some (false, p, c')
        /\ reported c c' API_EINTERNAL)
  /\ (exists c',
        CommandLogin.procresult env fuel l JsonObject (inside ((kl, v) :: rest) c)
        = Some (false, l, c')
        /\ reported c c' API_EINTERNAL)
  /\ (exists c',
        CommandLogin.procresult env fuel ls JsonObject (inside ((kl, v) :: rest) c)
        = Some (false, ls, c')
        /\ reported c c' API_EINTERNAL)
  /\ (exists c',
        CommandLogin.procresult env fuel ls JsonObject (inside [] c) = Some (true, ls, c')
        /\ reported c c' API_OK)
  /\ (exists c',
        CommandDelNode.procresult (S fuel) d JsonObject
          (inside ((MAKENAMEID "r", JSON.Bad) :: rest) c)
        = Some (true, d, c')
        /\ reported c c' API_OK
        /\ JSON.cur (json c') = JSON.IVal JSON.Bad :: JSON.members rest)
  /\ (exists c',
        CommandPrelogin.procresult env (S fuel) p JsonObject
          (inside ((MAKENAMEID "v", JSON.Bad) :: rest) c)
        = Some (true, p, c')
        /\ reported c c' API_OK
        /\ JSON.cur (json c') = JSON.IVal JSON.Bad :: JSON.members rest).
Proof.
  intros Hmp Hml Hfp Hfl Hkd Hkp Hkl Hv Hc Hs.
  destruct (unknown_key_names _ _ Hkd) as (Ked & Kd).
  destruct (unknown_key_names _ _ Hkp) as (Kep & Kp).
  destruct (unknown_key_names _ _ Hkl) as (Kel & Kl).
  unfold delnode_keys in Kd. unfold prelogin_keys in Kp. unfold login_keys in Kl.
  repeat match goal with
         | H : Forall _ (_ :: _) |- _ =>
             let H1 := fresh "K" in
             apply Forall_cons in H as [H1 H]
         end.
  assert (Hfuel : exists fuel', fuel = S fuel') by (destruct fuel; [lia|eauto]).
  destruct Hfuel as [fuel' ->].
  assert (Hlogin : forall x : CommandLogin.t,
             exists c',
               CommandLogin.procresult env (S fuel') x JsonObject (inside ((kl, v) :: rest) c)
               = Some (false, x, c')
               /\ reported c c' API_EINTERNAL).
  { intros x. unfold CommandLogin.procresult. simpl. unfold JSON.getnameid. simpl.
    repeat match goal with
           | H : is_name kl _ = false |- _ => rewrite H; clear H
           end.
    rewrite Kel. unfold JSON.storeobject. simpl. rewrite Hv.
    eexists. split; [reflexivity|]. eexists; split; reflexivity. }
  repeat match goal with |- _ /\ _ => split end.
  - change (CommandPrelogin.procresult env (S fuel') p JsonObject (inside mp c))
      with (CommandPrelogin.parse env (S fuel') 0 "" p (inside mp c)).
    erewrite prelogin_without_version; [|exact Hmp|exact Hfp|reflexivity].
    eexists. split; [reflexivity|]. split; [|reflexivity].
    exists [app_prelogin_result 0 None None API_EINTERNAL]. split; reflexivity.
  - change (CommandLogin.procresult env (S fuel') l JsonObject (inside ml c))
      with (CommandLogin.parse env (S fuel') CommandLogin.locals0 l (inside ml c)).
    destruct (login_without_user env ml (S fuel') CommandLogin.locals0 l (inside ml c)
                (JSON.up (json c)) Hc eq_refl Hml Hfl eq_refl) as (c' & Hp & Hl).
    exists c'. split; [exact Hp|]. eexists. split; [exact Hl|reflexivity].
  - unfold CommandDelNode.procresult. simpl. unfold JSON.getnameid. simpl.
    repeat match goal with
           | H : is_name kd _ = false |- _ => rewrite H; clear H
           end.
    rewrite Ked. unfold JSON.storeobject. simpl. rewrite Hv.
    eexists. split; [reflexivity|]. unfold CommandDelNode.result.
    destruct (CommandDelNode.mResultFunction d); eexists; split; reflexivity.
  - unfold CommandPrelogin.procresult. simpl. unfold JSON.getnameid. simpl.
    repeat match goal with
           | H : is_name kp _ = false |- _ => rewrite H; clear H
           end.
    rewrite Kep. unfold JSON.storeobject. simpl. rewrite Hv.
    eexists. split; [reflexivity|]. eexists; split; reflexivity.
  - apply Hlogin.
  - apply Hlogin.
  - unfold CommandLogin.procresult. simpl. unfold JSON.getnameid. simpl.
    unfold CommandLogin.finish. rewrite Hs. simpl.
    destruct (ephemeralSessionPlusPlus (session c));
      eexists; (split; [reflexivity|]); eexists; simpl; rewrite <- ?app_assoc;
      (split; [reflexivity|reflexivity]).
  - unfold CommandDelNode.procresult. simpl. unfold JSON.getnameid. simpl.
    eexists. split; [reflexivity|]. unfold CommandDelNode.result.
    destruct (CommandDelNode.mResultFunction d);
      (split; [eexists; split; reflexivity|reflexivity]).
  - unfold CommandPrelogin.procresult. simpl. unfold JSON.getnameid. simpl.
    eexists. split; [reflexivity|]. split; [eexists; split; reflexivity|reflexivity].
Qed.

(** C6 at work: a prelogin reply with a salt only, a login reply with
    a user name [v] only, and replies that break off under a key the
    command has no case for or under [r] and [v]. *)
Lemma C6_incomplete_reply_is_an_internal_error_witness :
  forallb (member_without "v") [(MAKENAMEID "s", JSON.Str "c2FsdA")] = true
  /\ forallb (member_without "u") [(MAKENAMEID "v", JSON.Num 1)] = true
  /\ (length [(MAKENAMEID "s", JSON.Str "c2FsdA")] < 3)%nat
  /\ (length [(MAKENAMEID "v", JSON.Num 1)] < 3)%nat
  /\ unknown_key delnode_keys (MAKENAMEID "v") = true
  /\ unknown_key prelogin_keys (MAKENAMEID "u") = true
  /\ unknown_key login_keys (MAKENAMEID "zz") = true
  /\ JSON.complete JSON.Bad = false
  /\ CommandLogin.checksession (CommandLogin.make false 0) = false
  /\ CommandLogin.checksession (CommandLogin.make true 1) = true
  /\ (exists c',
        CommandPrelogin.procresult env0 3 (CommandPrelogin.make "a@b.c") JsonObject
          (inside [(MAKENAMEID "s", JSON.Str "c2FsdA")] client0)
        = Some (true, CommandPrelogin.make "a@b.c", c')
        /\ reported client0 c' API_EINTERNAL /\ JSON.cur (json c') = [])
  /\ (exists c',
        CommandLogin.procresult env0 3 (CommandLogin.make false 0) JsonObject
          (inside [(MAKENAMEID "v", JSON.Num 1)] client0)
        = Some (true, CommandLogin.make false 0, c')
        /\ reported client0 c' API_EINTERNAL)
  /\ (exists c',
        CommandDelNode.procresult 3 (CommandDelNode.mk 7 true) JsonObject
          (inside ((MAKENAMEID "v", JSON.Bad) :: [(MAKENAMEID "r", JSON.Arr [JSON.Num 0])])
             client0)
        = Some (false, CommandDelNode.mk 7 true, c')
        /\ reported client0 c' API_EINTERNAL)
  /\ (exists c',
        CommandPrelogin.procresult env0 3 (CommandPrelogin.make "a@b.c") JsonObject
          (inside ((MAKENAMEID "u", JSON.Bad) :: [(MAKENAMEID "r", JSON.Arr [JSON.Num 0])])
             client0)
        = Some (false, CommandPrelogin.make "a@b.c", c')
        /\ reported client0 c' API_EINTERNAL)
  /\ (exists c',
        CommandLogin.procresult env0 3 (CommandLogin.make false 0) JsonObject
          (inside ((MAKENAMEID "zz", JSON.Bad) :: [(MAKENAMEID "r", JSON.Arr [JSON.Num 0])])
             client0)
        = Some (false, CommandLogin.make false 0, c')
        /\ reported client0 c' API_EINTERNAL)
  /\ (exists c',
        CommandLogin.procresult env0 3 (CommandLogin.make true 1) JsonObject
          (inside ((MAKENAMEID "zz", JSON.Bad) :: [(MAKENAMEID "r", JSON.Arr [JSON.Num 0])])
             client0)
        = Some (false, CommandLogin.make true 1, c')
        /\ reported client0 c' API_EINTERNAL)
  /\ (exists c',
        CommandLogin.procresult env0 3 (CommandLogin.make true 1) JsonObject
          (inside [] client0)
        = Some (true, CommandLogin.make true 1, c')
        /\ reported client0 c' API_OK)
  /\ (exists c',
        CommandDelNode.procresult 4 (CommandDelNode.mk 7 true) JsonObject
          (inside ((MAKENAMEID "r", JSON.Bad) :: [(MAKENAMEID "r", JSON.Arr [JSON.Num 0])])
             client0)
        = Some (true, CommandDelNode.mk 7 true, c')
        /\ reported client0 c' API_OK
        /\ JSON.cur (json c')
           = JSON.IVal JSON.Bad :: JSON.members [(MAKENAMEID "r", JSON.Arr [JSON.Num 0])])
  /\ (exists c',
        CommandPrelogin.procresult env0 4 (CommandPrelogin.make "a@b.c") JsonObject
          (inside ((MAKENAMEID "v", JSON.Bad) :: [(MAKENAMEID "r", JSON.Arr [JSON.Num 0])])
             client0)
        = Some (true, CommandPrelogin.make "a@b.c", c')
        /\ reported client0 c' API_OK
        /\ JSON.cur (json c')
           = JSON.IVal JSON.Bad :: JSON.members [(MAKENAMEID "r", JSON.Arr [JSON.Num 0])]).
Proof.
  repeat (split; [first [reflexivity | simpl; lia]|]).
  apply (C6_incomplete_reply_is_an_internal_error env0 3
           [(MAKENAMEID "s", JSON.Str "c2FsdA")] [(MAKENAMEID "v", JSON.Num 1)]
           [(MAKENAMEID "r", JSON.Arr [JSON.Num 0])]
           (MAKENAMEID "v") (MAKENAMEID "u") (MAKENAMEID "zz") JSON.Bad
           (CommandDelNode.mk 7 true) (CommandPrelogin.make "a@b.c")
           (CommandLogin.make false 0) (CommandLogin.make true 1) client0).
  - reflexivity.
  - reflexivity.
  - simpl. lia.
  - simpl. lia.
  - reflexivity.
  - reflexivity.
  - reflexivity.
  - reflexivity.
  - reflexivity.
  - reflexivity.
Defined.

(** ** An empty node array *)

Lemma members_app (a b : list (nameid * JSON.value)) :
  JSON.members (a ++ b) = JSON.members a ++ JSON.members b.
Proof. unfold JSON.members. apply flat_map_app. Qed.

(** The create-node loop steps over the members it has no use for. *)
Lemma putnodes_parse_skip (env : Env) (m : list (nameid * JSON.value)) :
  forall fuel e empty x c rest u,
  forallb skipped_member m = true ->
  json c = JSON.mk (JSON.members m ++ rest) u ->
  CommandPutNodes.parse env (length m + fuel) e empty x c
  = CommandPutNodes.parse env fuel e empty x (set_json (JSON.mk rest u) c).
Proof.
  induction m as [|[k v] m IH]; intros fuel e empty x c rest u Hm Hj.
  - simpl in *. rewrite <- Hj, client_eta. reflexivity.
  - simpl in Hm. apply andb_prop in Hm as [Hkv Hm].
    unfold skipped_member in Hkv. simpl in Hkv.
    apply andb_prop in Hkv as [Hkv Hf2]. apply andb_prop in Hkv as [Hkv Hf].
    apply andb_prop in Hkv as [Hk Hv].
    apply negb_true_iff in Hf2. apply negb_true_iff in Hf. apply negb_true_iff in Hk.
    simpl. unfold JSON.getnameid. rewrite Hj. simpl. rewrite Hf, Hf2, Hk.
    unfold JSON.storeobject. simpl. rewrite Hv. simpl.
    erewrite IH; [reflexivity|assumption|reflexivity].
Qed.

Lemma removePending_nodes (x : CommandPutNodes.t) (c : MegaClient) :
  nodes (CommandPutNodes.removePendingDBRecordsAndTempFiles x c) = nodes c.
Proof.
  unfold CommandPutNodes.removePendingDBRecordsAndTempFiles.
  destruct (pendingtcids c !! CommandPutNodes.tag x) as [ids|];
    [destruct (tctable c)|]; simpl;
    (match goal with |- context [pendingfiles ?c !! ?t] => destruct (pendingfiles c !! t) end);
    reflexivity.
Qed.

(** C10: a create-node command of the application whose reply is
    parsed without error, and in which the node array [f] is empty,
    hands its completion [API_ENOENT], not [API_OK]. *)
Theorem C10_empty_node_array_is_ENOENT
  (env : Env) (fuel : nat) (pre post : list (nameid * JSON.value)) (x : CommandPutNodes.t)
  (c : MegaClient) :
  CommandPutNodes.source x = PUTNODES_APP ->
  forallb skipped_member pre = true ->
  forallb skipped_member post = true ->
  (readnodes env (JSON.Arr []) PUTNODES_APP (Some (CommandPutNodes.nn x))
     (CommandPutNodes.tag x) (nodes c)).1.1 = true ->
  (length pre + length post + 1 < fuel)%nat ->
  exists x' c' evs,
    CommandPutNodes.procresult env fuel x JsonObject
      (inside (pre ++ (MAKENAMEID "f", JSON.Arr []) :: post) c) = Some (true, x', c')
    /\ log c' = log c ++ evs
    /\ completions evs = [API_ENOENT]
    /\ JSON.cur (json c') = [].
Proof.
  intros Hs Hpre Hpost Hrn Hf.
  unfold CommandPutNodes.procresult.
  destruct (removePending_frame x (inside (pre ++ (MAKENAMEID "f", JSON.Arr []) :: post) c))
    as (Hj & _ & evs0 & Hl0 & Hc0 & _).
  pose proof (removePending_nodes x (inside (pre ++ (MAKENAMEID "f", JSON.Arr []) :: post) c))
    as Hn0.
  set (c0 := CommandPutNodes.removePendingDBRecordsAndTempFiles x _) in *.
  change (CommandPutNodes.on_code env x JsonObject c0) with (@inl MegaClient (outcome CommandPutNodes.t) c0).
  cbv beta iota.
  assert (Hfuel : exists k, fuel = (length pre + S (length post + S k))%nat)
    by (exists (fuel - length pre - length post - 2)%nat; lia).
  destruct Hfuel as [k ->].
  simpl in Hj. rewrite members_app in Hj. simpl in Hj.
  erewrite putnodes_parse_skip; [|exact Hpre|exact Hj].
  destruct (readnodes env (JSON.Arr []) PUTNODES_APP (Some (CommandPutNodes.nn x))
              (CommandPutNodes.tag x) (nodes c)) as [[ok nn'] ns'] eqn:Ern.
  simpl in Hrn. subst ok.
  cbn [CommandPutNodes.parse]. unfold JSON.getnameid. simpl.
  unfold CommandPutNodes.client_readnodes. simpl. rewrite Hs, Hn0. simpl. rewrite Ern.
  erewrite putnodes_parse_skip; [|exact Hpost|simpl; rewrite app_nil_r; reflexivity].
  simpl. unfold JSON.getnameid. simpl.
  unfold CommandPutNodes.deliver, CommandPutNodes.result. simpl. rewrite Hs. simpl.
  rewrite andb_false_r. simpl.
  destruct (ENABLE_SYNC env && negb (ISUNDEF (CommandPutNodes.targethandle x)));
    [destruct (nodeByHandle _ (CommandPutNodes.targethandle x)) as [[? ? ? ? []]|]|];
    destruct (CommandPutNodes.mResultFunction x);
    do 3 eexists; (split; [reflexivity|]); simpl; rewrite Hl0, <- ?app_assoc;
    (split; [reflexivity|]); rewrite completions_app, Hc0; split; reflexivity.
Qed.

(** C10 at work: the reply [{"f":[]}] to a create-node command of the
    application. *)
Lemma C10_empty_node_array_is_ENOENT_witness :
  CommandPutNodes.source example_putnodes = PUTNODES_APP
  /\ forallb skipped_member [] = true
  /\ forallb skipped_member [(MAKENAMEID "st", JSON.Str "x")] = true
  /\ (readnodes env0 (JSON.Arr []) PUTNODES_APP (Some (CommandPutNodes.nn example_putnodes))
        (CommandPutNodes.tag example_putnodes) (nodes client0)).1.1 = true
  /\ (length (A := nameid * JSON.value) [] + length [(MAKENAMEID "st", JSON.Str "x")] + 1 < 4)%nat
  /\ exists x' c' evs,
       CommandPutNodes.procresult env0 4 example_putnodes JsonObject
         (inside ([] ++ (MAKENAMEID "f", JSON.Arr []) :: [(MAKENAMEID "st", JSON.Str "x")])
            client0) = Some (true, x', c')
       /\ log c' = log client0 ++ evs
       /\ completions evs = [API_ENOENT]
       /\ JSON.cur (json c') = [].
Proof.
  split; [reflexivity|]. split; [reflexivity|]. split; [reflexivity|].
  split; [reflexivity|]. split; [simpl; lia|].
  apply (C10_empty_node_array_is_ENOENT env0 4 [] [(MAKENAMEID "st", JSON.Str "x")]
           example_putnodes client0).
  - reflexivity.
  - reflexivity.
  - reflexivity.
  - reflexivity.
  - simpl. lia.
Defined.

(** ** The return value of procresult *)





(** A file attribute upload whose reply holds no URL never leaves its
    loop: [case EOO] breaks out of the [switch] only. *)
Lemma putfa_parse_without_url_spins (fuel : nat) : forall ips x (c : MegaClient),
  JSON.cur (json c) = [] ->
  HttpReqCommandPutFA.parse fuel None ips x c = None.
Proof.
  induction fuel as [|fuel IH]; intros ips x c E; [reflexivity|].
  simpl. unfold JSON.getnameid. rewrite E. simpl. apply IH. simpl. exact E.
Qed.

Lemma putnodes_returns_true (env : Env) (fuel : nat) (x : CommandPutNodes.t) r c b x' c' :
  CommandPutNodes.procresult env fuel x r c = Some (b, x', c') -> b = true.
Proof.
  unfold CommandPutNodes.procresult, CommandPutNodes.on_code, CommandPutNodes.deliver.
  repeat match goal with
         | |- context [if ?b then _ else _] => destruct b
         end;
    try (intros [= <- _ _]; reflexivity);
    destruct (CommandPutNodes.parse _ _ _ _ _ _) as [[[[e em] x1] c1]|]; try discriminate;
    repeat match goal with
           | |- context [if ?b then _ else _] => destruct b
           end;
    intros [= <- _ _]; reflexivity.
Qed.




(** * Further properties of the commands *)

(** ** CommandPutNodes: the pending records of the tag *)

Lemma in_map_tctable_del (ev : event) (ids : list Z) :
  In ev (map tctable_del ids) -> exists i, ev = tctable_del i /\ In i ids.
Proof.
  intros H. apply in_map_iff in H as (i & <- & Hi). eauto.
Qed.

(** X1: [removePendingDBRecordsAndTempFiles] leaves no pending
    database ids and no pending files under the tag of the command and
    touches the records of no other tag; a second call changes
    nothing; and a row is deleted from the transfer cache only when
    the cache is open, and never the row with id 0. *)
Theorem removePending_clears_the_tag (cmd : CommandPutNodes.t) (c : MegaClient) :
  pendingtcids (CommandPutNodes.removePendingDBRecordsAndTempFiles cmd c)
  = delete (CommandPutNodes.tag cmd) (pendingtcids c)
  /\ pendingfiles (CommandPutNodes.removePendingDBRecordsAndTempFiles cmd c)
     = delete (CommandPutNodes.tag cmd) (pendingfiles c)
  /\ CommandPutNodes.removePendingDBRecordsAndTempFiles cmd
       (CommandPutNodes.removePendingDBRecordsAndTempFiles cmd c)
     = CommandPutNodes.removePendingDBRecordsAndTempFiles cmd c
  /\ exists evs,
       log (CommandPutNodes.removePendingDBRecordsAndTempFiles cmd c) = log c ++ evs
       /\ (forall i, In (tctable_del i) evs -> i <> 0 /\ tctable c = true)
       /\ (forall p, In (fsaccess_unlinklocal p) evs <->
                     exists pfs, pendingfiles c !! CommandPutNodes.tag cmd = Some pfs /\ In p pfs).
Proof.
  assert (Hid : forall c1 : MegaClient,
            pendingtcids c1 !! CommandPutNodes.tag cmd = None ->
            pendingfiles c1 !! CommandPutNodes.tag cmd = None ->
            CommandPutNodes.removePendingDBRecordsAndTempFiles cmd c1 = c1).
  { intros c1 H1 H2. unfold CommandPutNodes.removePendingDBRecordsAndTempFiles.
    rewrite H1, H2. reflexivity. }
  assert (Hdel : forall i ids, In (tctable_del i) (map tctable_del (filter (fun i => i ≠ 0) ids))
                               -> i <> 0).
  { intros i ids H. apply in_map_tctable_del in H as (i' & [= ->] & Hi).
    apply list_elem_of_In, list_elem_of_filter in Hi as [Hi _]. exact Hi. }
  assert (Hun : forall p pfs, In (fsaccess_unlinklocal p) (map fsaccess_unlinklocal pfs) <-> In p pfs).
  { intros p pfs. rewrite in_map_iff. split.
    - intros (q & [= ->] & Hq). exact Hq.
    - intros Hp. eauto. }
  assert (Hnd : forall i pfs, ~ In (tctable_del i) (map fsaccess_unlinklocal pfs)).
  { intros i pfs H. apply in_map_iff in H as (q & [=] & _). }
  assert (Hnu : forall p ids, ~ In (fsaccess_unlinklocal p) (map tctable_del ids)).
  { intros p ids H. apply in_map_iff in H as (q & [=] & _). }
  assert (H1 : pendingtcids (CommandPutNodes.removePendingDBRecordsAndTempFiles cmd c)
               = delete (CommandPutNodes.tag cmd) (pendingtcids c)).
  { unfold CommandPutNodes.removePendingDBRecordsAndTempFiles.
    destruct (pendingtcids c !! CommandPutNodes.tag cmd) as [ids|] eqn:E1;
      [destruct (tctable c)|]; simpl;
      (match goal with |- context [pendingfiles ?c !! ?t] => destruct (pendingfiles c !! t) end);
      simpl; rewrite ?(delete_id (pendingtcids c)) by assumption; reflexivity. }
  assert (H2 : pendingfiles (CommandPutNodes.removePendingDBRecordsAndTempFiles cmd c)
               = delete (CommandPutNodes.tag cmd) (pendingfiles c)).
  { unfold CommandPutNodes.removePendingDBRecordsAndTempFiles.
    destruct (pendingtcids c !! CommandPutNodes.tag cmd) as [ids|] eqn:E1;
      [destruct (tctable c)|]; simpl;
      destruct (pendingfiles c !! CommandPutNodes.tag cmd) eqn:E2;
      simpl; rewrite ?(delete_id (pendingfiles c)) by assumption; reflexivity. }
  split; [exact H1|]. split; [exact H2|].
  split; [apply Hid; [rewrite H1|rewrite H2]; apply lookup_delete_eq|].
  unfold CommandPutNodes.removePendingDBRecordsAndTempFiles.
  destruct (pendingtcids c !! CommandPutNodes.tag cmd) as [ids|] eqn:E1;
    [destruct (tctable c) eqn:Et|]; simpl;
    destruct (pendingfiles c !! CommandPutNodes.tag cmd) as [pfs|] eqn:E2; simpl;
    rewrite <- ?app_assoc;
    (eexists; split; [first [reflexivity | symmetry; apply app_nil_r]|]);
    (split; [intros i Hi|intros p]).
  all: try (simpl in Hi; destruct Hi as [Hi|Hi]; [discriminate|]).
  all: try (apply in_app_or in Hi as [Hi|Hi]).
  all: try (exfalso; exact (Hnd _ _ Hi)).
  all: try (split; [exact (Hdel _ _ Hi)|reflexivity]).
  all: try (destruct Hi; fail).
  all: rewrite ?in_app_iff; simpl; rewrite ?Hun.
  all: try (split; [intros [[H|H]|H]; try discriminate; try (exfalso; exact (Hnu _ _ H)); eauto
                   |intros (q & [= <-] & Hq); auto]; fail).
  all: try (split; [intros H; eauto|intros (q & [= <-] & Hq); auto]; fail).
  all: try (split; [intros [H|H]; try discriminate; try (exfalso; exact (Hnu _ _ H)); destruct H
                   |intros (q & [=] & _)]; fail).
  all: try (split; [intros []|intros (q & [=] & _)]; fail).
Qed.

(** ** CommandPutNodes: the return value *)

(** X2: [CommandPutNodes::procresult] never returns false.  A reply
    that breaks off under a key the loop skips is reported to the
    completion as [API_EINTERNAL], the cursor stays in front of the
    value that cannot be skipped, and the return value is true all the
    same. *)
Theorem putnodes_parse_error_returns_true
  (env : Env) (fuel : nat) (m rest : list (nameid * JSON.value)) (k : nameid)
  (x : CommandPutNodes.t) (c : MegaClient) :
  CommandPutNodes.source x = PUTNODES_APP ->
  forallb skipped_member m = true ->
  skipped_member (k, JSON.Num 0) = true ->
  (length m < fuel)%nat ->
  (exists x' c' evs,
     CommandPutNodes.procresult env fuel x JsonObject (inside (m ++ (k, JSON.Bad) :: rest) c)
     = Some (true, x', c')
     /\ log c' = log c ++ evs
     /\ completions evs = [API_EINTERNAL]
     /\ (JSON.storeobject (json c')).1.1 = false)
  /\ (forall r c0 b x1 c1,
        CommandPutNodes.procresult env fuel x r c0 = Some (b, x1, c1) -> b = true).
Proof.
  intros Hs Hm Hk Hf. split; [|intros r c0 b x1 c1; apply putnodes_returns_true].
  unfold CommandPutNodes.procresult.
  destruct (removePending_frame x (inside (m ++ (k, JSON.Bad) :: rest) c))
    as (Hj & _ & evs0 & Hl0 & Hc0 & _).
  set (c0 := CommandPutNodes.removePendingDBRecordsAndTempFiles x _) in *.
  change (CommandPutNodes.on_code env x JsonObject c0)
    with (@inl MegaClient (outcome CommandPutNodes.t) c0).
  cbv beta iota.
  assert (Hfuel : exists n, fuel = (length m + S n)%nat) by (exists (fuel - length m - 1)%nat; lia).
  destruct Hfuel as [n ->].
  simpl in Hj. rewrite members_app in Hj. simpl in Hj.
  erewrite putnodes_parse_skip; [|exact Hm|exact Hj].
  unfold skipped_member in Hk. simpl in Hk.
  apply andb_prop in Hk as [Hk Hf2]. apply andb_prop in Hk as [Hk Hf1].
  apply andb_prop in Hk as [Hk _].
  apply negb_true_iff in Hf2. apply negb_true_iff in Hf1. apply negb_true_iff in Hk.
  cbn [CommandPutNodes.parse]. unfold JSON.getnameid. simpl. rewrite Hf1, Hf2, Hk.
  unfold JSON.storeobject. simpl.
  unfold CommandPutNodes.deliver, CommandPutNodes.result. simpl. rewrite Hs. simpl.
  rewrite andb_false_r. simpl.
  destruct (ENABLE_SYNC env && negb (ISUNDEF (CommandPutNodes.targethandle x)));
    [destruct (nodeByHandle _ (CommandPutNodes.targethandle x)) as [[? ? ? ? []]|]|];
    destruct (CommandPutNodes.mResultFunction x);
    do 3 eexists; (split; [reflexivity|]); simpl; rewrite Hl0, <- ?app_assoc;
    (split; [reflexivity|]); rewrite completions_app, Hc0; split; reflexivity.
Qed.

(** A create-node command of the application and the reply
    [{"zz":<broken>}]. *)
Lemma putnodes_parse_error_returns_true_witness :
  CommandPutNodes.source example_putnodes = PUTNODES_APP
  /\ forallb skipped_member [] = true
  /\ skipped_member (MAKENAMEID "zz", JSON.Num 0) = true
  /\ (length (@nil (nameid * JSON.value)) < 2)%nat
  /\ (exists x' c' evs,
        CommandPutNodes.procresult env0 2 example_putnodes JsonObject
          (inside ([] ++ (MAKENAMEID "zz", JSON.Bad) :: []) client0)
        = Some (true, x', c')
        /\ log c' = log client0 ++ evs
        /\ completions evs = [API_EINTERNAL]
        /\ (JSON.storeobject (json c')).1.1 = false)
  /\ (forall r c0 b x1 c1,
        CommandPutNodes.procresult env0 2 example_putnodes r c0 = Some (b, x1, c1) -> b = true).
Proof.
  split; [reflexivity|]. split; [reflexivity|]. split; [reflexivity|]. split; [simpl; lia|].
  apply (putnodes_parse_error_returns_true env0 2 [] [] (MAKENAMEID "zz") example_putnodes
           client0).
  - reflexivity.
  - reflexivity.
  - reflexivity.
  - simpl. lia.
Defined.

(** ** HttpReqCommandPutFA: a reply without the URL *)

Lemma putfa_parse_skips_to_the_end (m : list (nameid * JSON.value)) :
  forall fuel ips x c u,
  forallb no_url_member m = true ->
  json c = JSON.mk (JSON.members m) u ->
  HttpReqCommandPutFA.parse fuel None ips x c = None.
Proof.
  induction m as [|[k v] m IH]; intros fuel ips x c u Hm Hj.
  - apply putfa_parse_without_url_spins. rewrite Hj. reflexivity.
  - destruct fuel as [|fuel]; [reflexivity|].
    simpl in Hm. apply andb_prop in Hm as [Hkv Hm].
    unfold no_url_member, url_member_ok in Hkv. simpl in Hkv.
    apply andb_prop in Hkv as [Hkv Hp]. apply andb_prop in Hkv as [Hkv Hip].
    apply andb_prop in Hkv as [Hk Hv].
    apply negb_true_iff in Hp. apply negb_true_iff in Hk.
    simpl. unfold JSON.getnameid. rewrite Hj. simpl. rewrite Hp.
    destruct (is_name k "ip").
    { destruct v; try discriminate.
      erewrite loadIpsFromJson_array; [|reflexivity|exact Hv].
      eapply IH; [exact Hm|reflexivity]. }
    rewrite Hk. unfold JSON.storeobject. simpl. rewrite Hv. simpl.
    eapply IH; [exact Hm|reflexivity].
Qed.

(** X3: on an object slot that has no key [p] the loop of
    [HttpReqCommandPutFA::procresult] does not return, however many
    turns it is given: at the end of the object it marks the request
    as failed and, [break] leaving the [switch] only, asks for the next
    key again. *)
Theorem putfa_reply_without_url_never_returns
  (env : Env) (fuel : nat) (m : list (nameid * JSON.value)) (x : HttpReqCommandPutFA.t)
  (c : MegaClient) :
  forallb no_url_member m = true ->
  HttpReqCommandPutFA.procresult env fuel x JsonObject (inside m c) = None.
Proof.
  intros Hm. unfold HttpReqCommandPutFA.procresult. simpl.
  eapply putfa_parse_skips_to_the_end; [exact Hm|reflexivity].
Qed.

(** The reply [{"ip":["10.0.0.1"]}], and a thousand turns. *)
Lemma putfa_reply_without_url_never_returns_witness :
  forallb no_url_member [(MAKENAMEID "ip", JSON.Arr [JSON.Str "10.0.0.1"])] = true
  /\ HttpReqCommandPutFA.procresult env0 1000 (HttpReqCommandPutFA.mk 7 0 REQ_INFLIGHT "" None true)
       JsonObject (inside [(MAKENAMEID "ip", JSON.Arr [JSON.Str "10.0.0.1"])] client0) = None.
Proof.
  split; [reflexivity|].
  apply (putfa_reply_without_url_never_returns env0 1000
           [(MAKENAMEID "ip", JSON.Arr [JSON.Str "10.0.0.1"])]
           (HttpReqCommandPutFA.mk 7 0 REQ_INFLIGHT "" None true) client0).
  reflexivity.
Defined.

(** ** CommandPutFile and CommandGetPutUrl: the URLs of the reply *)

Lemma putfile_parse_reads (m : list (nameid * JSON.value)) :
  forall fuel urls ips x c u,
  forallb url_member_ok m = true ->
  CommandPutFile.canceled x = false ->
  json c = JSON.mk (JSON.members m) u ->
  CommandPutFile.parse (length m + fuel) urls ips x c
  = CommandPutFile.parse fuel (urls ++ reply_urls m) (ips ++ reply_ips m) x
      (set_json (JSON.mk [] u) c).
Proof.
  induction m as [|[k v] m IH]; intros fuel urls ips x c u Hm Hx Hj.
  - simpl in *. rewrite !app_nil_r, <- Hj, client_eta. reflexivity.
  - simpl in Hm. apply andb_prop in Hm as [Hkv Hm].
    unfold url_member_ok in Hkv. simpl in Hkv.
    apply andb_prop in Hkv as [Hkv Hip]. apply andb_prop in Hkv as [Hk Hv].
    apply negb_true_iff in Hk.
    simpl. unfold JSON.getnameid. rewrite Hj. simpl.
    unfold reply_urls, reply_ips. simpl.
    destruct (is_name k "p") eqn:Hp.
    { assert (Hnip : is_name k "ip" = false).
      { unfold is_name in *. apply bool_decide_eq_true in Hp. subst k. reflexivity. }
      rewrite Hnip. unfold JSON.storeobject. simpl. rewrite Hv, Hx. simpl.
      erewrite IH; [|exact Hm|exact Hx|reflexivity].
      rewrite <- !app_assoc. reflexivity. }
    destruct (is_name k "ip").
    { destruct v; try discriminate.
      erewrite loadIpsFromJson_array; [|reflexivity|exact Hv].
      erewrite IH; [|exact Hm|exact Hx|reflexivity].
      rewrite <- !app_assoc. reflexivity. }
    rewrite Hk. unfold JSON.storeobject. simpl. rewrite Hv. simpl.
    erewrite IH; [|exact Hm|exact Hx|reflexivity]. reflexivity.
Qed.

(** X4: an upload command that was not canceled reads a well-formed
    reply to its end and returns true; the transfer is started when the
    reply holds exactly one URL (the slot takes the URL and the time,
    the addresses go to the cache of resolved URLs), and it is failed
    with [API_EINTERNAL] when the reply holds none, or more than one. *)
Theorem putfile_wants_exactly_one_url
  (fuel : nat) (m : list (nameid * JSON.value)) (s : Z) (ts : TransferSlot) (c : MegaClient) :
  forallb url_member_ok m = true ->
  (length m < fuel)%nat ->
  tslots c !! s = Some ts ->
  exists c',
    CommandPutFile.procresult fuel (CommandPutFile.mk (Some s) false) JsonObject (inside m c)
    = Some (true, CommandPutFile.mk (Some s) false, c')
    /\ JSON.cur (json c') = []
    /\ match reply_urls m with
       | [url] =>
           tslots c' !! s = Some (mkTransferSlot false [url] (ds c) (ds c))
           /\ log c' = log c ++ [cacheresolvedurls [url] (reply_ips m);
                                 transferbuf_setIsRaid s [url]; tslot_progress s]
       | _ =>
           tslots c' !! s = Some (CommandPutFile.clear_pendingcmd ts)
           /\ log c' = log c ++ [transfer_failed s API_EINTERNAL]
       end.
Proof.
  intros Hm Hf Hs. unfold CommandPutFile.procresult. simpl.
  assert (Hfuel : exists n, fuel = (length m + S n)%nat) by (exists (fuel - length m - 1)%nat; lia).
  destruct Hfuel as [n ->].
  erewrite putfile_parse_reads; [|exact Hm|reflexivity|reflexivity].
  simpl. unfold JSON.getnameid. simpl.
  destruct (reply_urls m) as [|url [|url2 urls]]; simpl.
  - eexists. split; [reflexivity|]. simpl. rewrite lookup_alter_eq, Hs. auto.
  - eexists. split; [reflexivity|]. simpl. rewrite !lookup_alter_eq, Hs. simpl.
    rewrite <- !app_assoc. auto.
  - eexists. split; [reflexivity|]. simpl. rewrite lookup_alter_eq, Hs. auto.
Qed.

(** The reply [{"p":"https://up","ip":["10.0.0.1","::1"]}] to the
    upload of transfer slot 1. *)
Lemma putfile_wants_exactly_one_url_witness :
  forallb url_member_ok [(MAKENAMEID "p", JSON.Str "https://up");
                         (MAKENAMEID "ip", JSON.Arr [JSON.Str "10.0.0.1"; JSON.Str "::1"])] = true
  /\ (2 < 3)%nat
  /\ tslots (set_tslots {[ 1 := mkTransferSlot true [] 0 0 ]} client0) !! 1
     = Some (mkTransferSlot true [] 0 0)
  /\ exists c',
    CommandPutFile.procresult 3 (CommandPutFile.mk (Some 1) false) JsonObject
      (inside [(MAKENAMEID "p", JSON.Str "https://up");
               (MAKENAMEID "ip", JSON.Arr [JSON.Str "10.0.0.1"; JSON.Str "::1"])]
         (set_tslots {[ 1 := mkTransferSlot true [] 0 0 ]} client0))
    = Some (true, CommandPutFile.mk (Some 1) false, c')
    /\ JSON.cur (json c') = []
    /\ match reply_urls [(MAKENAMEID "p", JSON.Str "https://up");
                         (MAKENAMEID "ip", JSON.Arr [JSON.Str "10.0.0.1"; JSON.Str "::1"])] with
       | [url] =>
           tslots c' !! 1
           = Some (mkTransferSlot false [url]
                     (ds (set_tslots {[ 1 := mkTransferSlot true [] 0 0 ]} client0))
                     (ds (set_tslots {[ 1 := mkTransferSlot true [] 0 0 ]} client0)))
           /\ log c' = log (set_tslots {[ 1 := mkTransferSlot true [] 0 0 ]} client0)
                       ++ [cacheresolvedurls [url]
                             (reply_ips [(MAKENAMEID "p", JSON.Str "https://up");
                                         (MAKENAMEID "ip",
                                          JSON.Arr [JSON.Str "10.0.0.1"; JSON.Str "::1"])]);
                           transferbuf_setIsRaid 1 [url]; tslot_progress 1]
       | _ =>
           tslots c' !! 1 = Some (CommandPutFile.clear_pendingcmd (mkTransferSlot true [] 0 0))
           /\ log c' = log (set_tslots {[ 1 := mkTransferSlot true [] 0 0 ]} client0)
                       ++ [transfer_failed 1 API_EINTERNAL]
       end.
Proof.
  split; [reflexivity|]. split; [lia|]. split; [reflexivity|].
  apply (putfile_wants_exactly_one_url 3
           [(MAKENAMEID "p", JSON.Str "https://up");
            (MAKENAMEID "ip", JSON.Arr [JSON.Str "10.0.0.1"; JSON.Str "::1"])]
           1 (mkTransferSlot true [] 0 0)
           (set_tslots {[ 1 := mkTransferSlot true [] 0 0 ]} client0)).
  - reflexivity.
  - simpl. lia.
  - reflexivity.
Defined.

Lemma default_last_cons (a d : string) (l : list string) :
  default d (last (a :: l)) = default a (last l).
Proof.
  rewrite last_cons. destruct (last l); reflexivity.
Qed.

Lemma getputurl_parse_reads (m : list (nameid * JSON.value)) :
  forall fuel url ips c u,
  forallb url_member_ok m = true ->
  json c = JSON.mk (JSON.members m) u ->
  CommandGetPutUrl.parse (length m + fuel) url ips (CommandGetPutUrl.mk false) c
  = CommandGetPutUrl.parse fuel (default url (last (reply_urls m))) (ips ++ reply_ips m)
      (CommandGetPutUrl.mk false) (set_json (JSON.mk [] u) c).
Proof.
  induction m as [|[k v] m IH]; intros fuel url ips c u Hm Hj.
  - simpl in *. rewrite !app_nil_r, <- Hj, client_eta. reflexivity.
  - simpl in Hm. apply andb_prop in Hm as [Hkv Hm].
    unfold url_member_ok in Hkv. simpl in Hkv.
    apply andb_prop in Hkv as [Hkv Hip]. apply andb_prop in Hkv as [Hk Hv].
    apply negb_true_iff in Hk.
    simpl. unfold JSON.getnameid. rewrite Hj. simpl.
    unfold reply_urls, reply_ips. simpl.
    destruct (is_name k "p") eqn:Hp.
    { assert (Hnip : is_name k "ip" = false).
      { unfold is_name in *. apply bool_decide_eq_true in Hp. subst k. reflexivity. }
      rewrite Hnip. unfold JSON.storeobject. simpl. rewrite Hv. simpl.
      erewrite IH; [|exact Hm|reflexivity].
      fold (reply_urls m). rewrite default_last_cons. reflexivity. }
    destruct (is_name k "ip").
    { destruct v; try discriminate.
      erewrite loadIpsFromJson_array; [|reflexivity|exact Hv].
      erewrite IH; [|exact Hm|reflexivity].
      rewrite <- !app_assoc. reflexivity. }
    rewrite Hk. unfold JSON.storeobject. simpl. rewrite Hv. simpl.
    erewrite IH; [|exact Hm|reflexivity]. reflexivity.
Qed.

(** X5: an upload-URL command that was not canceled reads a
    well-formed reply to its end and calls its completion once, with
    [API_OK], the URL under the last key [p] of the reply (the empty
    string when there is none) and all the addresses under its keys
    [ip], in the order of the reply; nothing else in the client
    changes. *)
Theorem getputurl_hands_over_the_last_url
  (fuel : nat) (m : list (nameid * JSON.value)) (c : MegaClient) :
  forallb url_member_ok m = true ->
  (length m < fuel)%nat ->
  CommandGetPutUrl.procresult fuel (CommandGetPutUrl.mk false) JsonObject (inside m c)
  = Some (true, CommandGetPutUrl.mk false,
          emit (GetPutUrl_mCompletion API_OK (default "" (last (reply_urls m))) (reply_ips m))
            (set_json (JSON.mk [] (JSON.up (json c))) c)).
Proof.
  intros Hm Hf. unfold CommandGetPutUrl.procresult. simpl.
  assert (Hfuel : exists n, fuel = (length m + S n)%nat) by (exists (fuel - length m - 1)%nat; lia).
  destruct Hfuel as [n ->].
  erewrite getputurl_parse_reads; [|exact Hm|reflexivity].
  reflexivity.
Qed.

(** A reply with two URLs: the second one is handed over. *)
Lemma getputurl_hands_over_the_last_url_witness :
  forallb url_member_ok [(MAKENAMEID "p", JSON.Str "https://a");
                         (MAKENAMEID "p", JSON.Str "https://b")] = true
  /\ (2 < 3)%nat
  /\ CommandGetPutUrl.procresult 3 (CommandGetPutUrl.mk false) JsonObject
       (inside [(MAKENAMEID "p", JSON.Str "https://a"); (MAKENAMEID "p", JSON.Str "https://b")]
          client0)
     = Some (true, CommandGetPutUrl.mk false,
             emit (GetPutUrl_mCompletion API_OK
                     (default "" (last (reply_urls [(MAKENAMEID "p", JSON.Str "https://a");
                                                    (MAKENAMEID "p", JSON.Str "https://b")])))
                     (reply_ips [(MAKENAMEID "p", JSON.Str "https://a");
                                 (MAKENAMEID "p", JSON.Str "https://b")]))
               (set_json (JSON.mk [] (JSON.up (json client0))) client0)).
Proof.
  split; [reflexivity|]. split; [lia|].
  apply (getputurl_hands_over_the_last_url 3
           [(MAKENAMEID "p", JSON.Str "https://a"); (MAKENAMEID "p", JSON.Str "https://b")]
           client0).
  - reflexivity.
  - simpl. lia.
Defined.

(** ** CommandMoveNode: the debris records and the request tag *)

Lemma size_alter_nodes (f : Node -> Node) (d : handle) (ns : gmap handle Node) :
  size (alter f d ns) = size ns.
Proof.
  destruct (ns !! d) as [n|] eqn:E.
  - assert (H : alter f d ns = <[d := f n]> ns).
    { apply map_eq. intros j. destruct (decide (d = j)) as [<-|Hne].
      - rewrite lookup_alter_eq, lookup_insert_eq, E. reflexivity.
      - rewrite lookup_alter_ne, lookup_insert_ne by assumption. reflexivity. }
    rewrite H. apply map_size_insert_Some. rewrite E. eauto.
  - rewrite alter_id' by assumption. reflexivity.
Qed.

Lemma parent_alter_syncdeleted (v : syncdel_t) (d n : handle) (ns : gmap handle Node) :
  parent <$> (alter (set_syncdeleted v) d ns !! n) = parent <$> (ns !! n).
Proof.
  destruct (decide (d = n)) as [<-|Hne].
  - rewrite lookup_alter_eq. destruct (ns !! d); reflexivity.
  - rewrite lookup_alter_ne by assumption. reflexivity.
Qed.

(** The walk up the parents does not see the sync-deletion states. *)
Lemma reaches_alter_syncdeleted (v : syncdel_t) (d s : handle) (ns : gmap handle Node)
  (fuel : nat) : forall n,
  CommandMoveNode.reaches fuel (alter (set_syncdeleted v) d ns) s n
  = CommandMoveNode.reaches fuel ns s n.
Proof.
  induction fuel as [|fuel IH]; intros n; simpl; [reflexivity|].
  destruct (bool_decide (n = s)); [reflexivity|].
  pose proof (parent_alter_syncdeleted v d n ns) as Hp.
  destruct (alter (set_syncdeleted v) d ns !! n) as [n1|], (ns !! n) as [n2|];
    simpl in Hp; try discriminate; [|reflexivity].
  injection Hp as ->. destruct (parent n2); [apply IH|reflexivity].
Qed.

Lemma mark_records (cmd : CommandMoveNode.t) (l : list handle) : forall (c : MegaClient),
  toDebris (fold_left (CommandMoveNode.mark_one cmd) l c) = toDebris c
  /\ reqtag (fold_left (CommandMoveNode.mark_one cmd) l c) = reqtag c
  /\ forall d,
       nodes (fold_left (CommandMoveNode.mark_one cmd) l c) !! d
       = (if bool_decide (d ∈ l)
             && CommandMoveNode.reaches (S (size (nodes c))) (nodes c) (CommandMoveNode.h cmd) d
          then set_syncdeleted (CommandMoveNode.syncdel cmd) <$> nodes c !! d
          else nodes c !! d).
Proof.
  induction l as [|a l IH]; intros c; cbn [fold_left].
  - split; [reflexivity|]. split; [reflexivity|]. intros d. reflexivity.
  - destruct (IH (CommandMoveNode.mark_one cmd c a)) as (Ht & Hr & Hn).
    split; [|split].
    + rewrite Ht. unfold CommandMoveNode.mark_one.
      destruct (CommandMoveNode.reaches _ _ _ _); reflexivity.
    + rewrite Hr. unfold CommandMoveNode.mark_one.
      destruct (CommandMoveNode.reaches _ _ _ _); reflexivity.
    + intros d. rewrite Hn. clear IH Ht Hr Hn.
      unfold CommandMoveNode.mark_one.
      destruct (CommandMoveNode.reaches (S (size (nodes c))) (nodes c) (CommandMoveNode.h cmd) a)
        eqn:Ha.
      * cbn [nodes set_nodes]. rewrite size_alter_nodes, reaches_alter_syncdeleted.
        destruct (decide (a = d)) as [<-|Hne].
        -- rewrite Ha, lookup_alter_eq, !andb_true_r.
           rewrite (bool_decide_eq_true_2 (a ∈ a :: l)) by (left).
           destruct (bool_decide (a ∈ l)); [|reflexivity].
           destruct (nodes c !! a) as [[]|]; reflexivity.
        -- rewrite lookup_alter_ne by assumption.
           assert (Hin : bool_decide (d ∈ a :: l) = bool_decide (d ∈ l)).
           { apply bool_decide_ext. rewrite elem_of_cons. split; [intros [->|?]|]; tauto. }
           rewrite Hin. reflexivity.
      * destruct (decide (a = d)) as [<-|Hne].
        -- rewrite Ha, !andb_false_r. reflexivity.
        -- assert (Hin : bool_decide (d ∈ a :: l) = bool_decide (d ∈ l)).
           { apply bool_decide_ext. rewrite elem_of_cons. split; [intros [->|?]|]; tauto. }
           rewrite Hin. reflexivity.
Qed.

Lemma reaches_mono (ns : gmap handle Node) (a : handle) (n : nat) : forall m d,
  (n <= m)%nat ->
  CommandMoveNode.reaches n ns a d = true ->
  CommandMoveNode.reaches m ns a d = true.
Proof.
  induction n as [|n IH]; intros m d Hle H; [discriminate|].
  destruct m as [|m]; [lia|]. simpl in H |- *.
  destruct (bool_decide (d = a)); [reflexivity|].
  destruct (ns !! d) as [nd|]; [|discriminate].
  destruct (parent nd) as [p|]; [|discriminate].
  apply IH; [lia|exact H].
Qed.

(** A walk that meets [a] is a chain of parents up to [a]. *)
Lemma reaches_in_subtree (ns : gmap handle Node) (a : handle) (n : nat) : forall d,
  CommandMoveNode.reaches n ns a d = true -> in_subtree ns a d.
Proof.
  induction n as [|n IH]; intros d H; [discriminate|].
  simpl in H. destruct (bool_decide (d = a)) eqn:Hd.
  { apply bool_decide_eq_true in Hd as ->. constructor. }
  destruct (ns !! d) as [nd|] eqn:En; [|discriminate].
  destruct (parent nd) as [p|] eqn:Ep; [|discriminate].
  eapply subtree_child; eauto.
Qed.

(** A chain of parents up to [a] is walked with fuel enough. *)
Lemma in_subtree_reaches (ns : gmap handle Node) (a d : handle) :
  in_subtree ns a d -> exists n, CommandMoveNode.reaches n ns a d = true.
Proof.
  induction 1 as [|d nd p En Ep _ [n IH]].
  - exists 1%nat. simpl. rewrite bool_decide_eq_true_2; reflexivity.
  - exists (S n). simpl. destruct (bool_decide (d = a)); [reflexivity|].
    rewrite En, Ep. exact IH.
Qed.

(** A walk in the tree without node [d] is a walk in the tree. *)
Lemma reaches_delete_sub (ns : gmap handle Node) (a d : handle) (n : nat) : forall p,
  CommandMoveNode.reaches n (delete d ns) a p = true ->
  CommandMoveNode.reaches n ns a p = true.
Proof.
  induction n as [|n IH]; intros p H; [discriminate|].
  simpl in H |- *. destruct (bool_decide (p = a)); [reflexivity|].
  destruct (delete d ns !! p) as [nd|] eqn:En; [|discriminate].
  apply lookup_delete_Some in En as [_ ->].
  destruct (parent nd) as [q|]; [|discriminate].
  apply IH. exact H.
Qed.

(** A walk either does without node [d] or passes through it. *)
Lemma reaches_delete (ns : gmap handle Node) (a d : handle) (n : nat) : forall p,
  CommandMoveNode.reaches n ns a p = true ->
  CommandMoveNode.reaches n (delete d ns) a p = true
  \/ CommandMoveNode.reaches n ns a d = true.
Proof.
  induction n as [|n IH]; intros p H; [discriminate|].
  destruct (decide (p = d)) as [->|Hne]; [right; exact H|].
  simpl in H. simpl CommandMoveNode.reaches at 1.
  destruct (bool_decide (p = a)); [left; reflexivity|].
  rewrite lookup_delete_ne by congruence.
  destruct (ns !! p) as [nd|]; [|discriminate].
  destruct (parent nd) as [q|]; [|discriminate].
  destruct (IH q H) as [Hl|Hr]; [left; exact Hl|].
  right. apply (reaches_mono ns a n); [lia|exact Hr].
Qed.

(** No walk that meets [a] needs more turns than the tree has nodes,
    and one more. *)
Lemma reaches_bounded (a : handle) (n : nat) : forall (ns : gmap handle Node) (d : handle),
  CommandMoveNode.reaches n ns a d = true ->
  CommandMoveNode.reaches (S (size ns)) ns a d = true.
Proof.
  induction n as [n IH] using lt_wf_ind. intros ns d H.
  destruct n as [|n]; [discriminate|].
  pose proof H as H0. simpl in H0.
  destruct (bool_decide (d = a)) eqn:Hd; [simpl; rewrite Hd; reflexivity|].
  destruct (ns !! d) as [nd|] eqn:En; [|discriminate].
  destruct (parent nd) as [p|] eqn:Ep; [|discriminate].
  assert (Hsize : size ns = S (size (delete d ns))).
  { pose proof (map_size_delete_Some d ns (ltac:(eauto))) as Hs.
    assert (size ns <> 0%nat).
    { intros Hz. apply map_size_empty_inv in Hz. subst ns. rewrite lookup_empty in En.
      discriminate. }
    lia. }
  destruct (reaches_delete ns a d n p H0) as [Hl|Hr].
  - simpl. rewrite Hd, En, Ep, Hsize. apply reaches_delete_sub with (d := d).
    apply (IH n); [lia|exact Hl].
  - apply (IH n); [lia|exact Hr].
Qed.

(** The walk of [procresult] meets the moved node exactly from the
    nodes of its subtree. *)
Lemma reaches_iff_in_subtree (ns : gmap handle Node) (a d : handle) :
  CommandMoveNode.reaches (S (size ns)) ns a d = true <-> in_subtree ns a d.
Proof.
  split.
  - apply reaches_in_subtree.
  - intros H. destruct (in_subtree_reaches ns a d H) as [n Hn].
    exact (reaches_bounded a n ns d Hn).
Qed.

(** X6: when the move of a locally deleted node is confirmed
    ([API_OK], in a build with the sync engine), the debris records of
    the subtree moved, those whose chain of parents leads to the moved
    node, the node itself included, take the sync-deletion state of
    the command, and these alone: every other node, the list of debris
    records and the request tag are as before, no node gets another
    parent, and the completion is called with [API_OK]. *)
Theorem movenode_marks_the_debris_subtree
  (env : Env) (x : CommandMoveNode.t) (syncn : Node) (c : MegaClient) :
  ENABLE_SYNC env = true ->
  CommandMoveNode.syncdel x <> SYNCDEL_NONE ->
  nodes c !! CommandMoveNode.h x = Some syncn ->
  exists c',
    CommandMoveNode.procresult env x (StrictError API_OK) c = Some (true, x, c')
    /\ toDebris c' = toDebris c
    /\ reqtag c' = reqtag c
    /\ log c' = log c ++ (if CommandMoveNode.completion x
                          then [MoveNode_completion (CommandMoveNode.h x) API_OK] else [])
    /\ (forall d,
          d ∈ toDebris c ->
          in_subtree (nodes c) (CommandMoveNode.h x) d ->
          nodes c' !! d = set_syncdeleted (CommandMoveNode.syncdel x) <$> nodes c !! d)
    /\ (forall d,
          ~ (d ∈ toDebris c /\ in_subtree (nodes c) (CommandMoveNode.h x) d) ->
          nodes c' !! d = nodes c !! d)
    /\ (forall d, parent <$> nodes c' !! d = parent <$> nodes c !! d).
Proof.
  intros He Hs Hn. unfold CommandMoveNode.procresult. rewrite He. simpl.
  unfold CommandMoveNode.sync_block. rewrite bool_decide_eq_true_2 by assumption.
  unfold nodeByHandle. rewrite Hn. simpl.
  unfold CommandMoveNode.mark_todebris.
  destruct (mark_records x (toDebris c) c) as (Ht & Hr & Hd).
  destruct (mark_todebris_frame x c) as (Hl & _ & _). unfold CommandMoveNode.mark_todebris in Hl.
  eexists. split; [reflexivity|].
  assert (Hyes : forall d,
             d ∈ toDebris c ->
             in_subtree (nodes c) (CommandMoveNode.h x) d ->
             nodes (fold_left (CommandMoveNode.mark_one x) (toDebris c) c) !! d
             = set_syncdeleted (CommandMoveNode.syncdel x) <$> nodes c !! d).
  { intros d Hin Hsub. rewrite Hd.
    rewrite (bool_decide_eq_true_2 _ Hin).
    apply reaches_iff_in_subtree in Hsub. rewrite Hsub. reflexivity. }
  assert (Hno : forall d,
             ~ (d ∈ toDebris c /\ in_subtree (nodes c) (CommandMoveNode.h x) d) ->
             nodes (fold_left (CommandMoveNode.mark_one x) (toDebris c) c) !! d
             = nodes c !! d).
  { intros d Hnot. rewrite Hd.
    destruct (bool_decide (d ∈ toDebris c)) eqn:Hin; [|reflexivity].
    destruct (CommandMoveNode.reaches _ _ _ _) eqn:Hre; [|reflexivity].
    exfalso. apply Hnot. split.
    - apply bool_decide_eq_true in Hin. exact Hin.
    - apply reaches_iff_in_subtree. exact Hre. }
  assert (Hpar : forall d,
             parent <$> nodes (fold_left (CommandMoveNode.mark_one x) (toDebris c) c) !! d
             = parent <$> nodes c !! d).
  { intros d. rewrite Hd. destruct (_ && _); [|reflexivity].
    destruct (nodes c !! d); reflexivity. }
  destruct (CommandMoveNode.completion x); simpl; rewrite ?Hl, ?app_nil_r;
    (split; [exact Ht|]); (split; [exact Hr|]); (split; [reflexivity|]);
    (split; [exact Hyes|]); (split; [exact Hno|exact Hpar]).
Qed.

(** The move of folder 7 into the sync debris is confirmed; file 5
    lies in it, file 3 does not. *)
Lemma movenode_marks_the_debris_subtree_witness :
  ENABLE_SYNC env0 = true
  /\ CommandMoveNode.syncdel example_debris_move <> SYNCDEL_NONE
  /\ nodes client_debris_tree !! CommandMoveNode.h example_debris_move
     = Some (mkNode (Some 1) None SYNCDEL_BIN 0 false)
  /\ exists c',
    CommandMoveNode.procresult env0 example_debris_move (StrictError API_OK) client_debris_tree
    = Some (true, example_debris_move, c')
    /\ toDebris c' = toDebris client_debris_tree
    /\ reqtag c' = reqtag client_debris_tree
    /\ log c' = log client_debris_tree
                ++ (if CommandMoveNode.completion example_debris_move
                    then [MoveNode_completion (CommandMoveNode.h example_debris_move) API_OK]
                    else [])
    /\ (forall d,
          d ∈ toDebris client_debris_tree ->
          in_subtree (nodes client_debris_tree) (CommandMoveNode.h example_debris_move) d ->
          nodes c' !! d
          = set_syncdeleted (CommandMoveNode.syncdel example_debris_move)
            <$> nodes client_debris_tree !! d)
    /\ (forall d,
          ~ (d ∈ toDebris client_debris_tree
             /\ in_subtree (nodes client_debris_tree)
                  (CommandMoveNode.h example_debris_move) d) ->
          nodes c' !! d = nodes client_debris_tree !! d)
    /\ (forall d, parent <$> nodes c' !! d = parent <$> nodes client_debris_tree !! d).
Proof.
  split; [reflexivity|]. split; [discriminate|]. split; [vm_compute; reflexivity|].
  apply (movenode_marks_the_debris_subtree env0 example_debris_move
           (mkNode (Some 1) None SYNCDEL_BIN 0 false) client_debris_tree).
  - reflexivity.
  - discriminate.
  - vm_compute. reflexivity.
Defined.

(** In that tree the confirmation marks file 5, which lies in the
    folder moved, and leaves file 3 as it is. *)
Lemma movenode_marks_the_file_in_the_folder :
  exists c',
    CommandMoveNode.procresult env0 example_debris_move (StrictError API_OK) client_debris_tree
    = Some (true, example_debris_move, c')
    /\ in_subtree (nodes client_debris_tree) 7 5
    /\ ~ in_subtree (nodes client_debris_tree) 7 3
    /\ syncdeleted <$> nodes client_debris_tree !! 5 = Some SYNCDEL_NONE
    /\ syncdeleted <$> nodes c' !! 5 = Some SYNCDEL_BIN
    /\ syncdeleted <$> nodes c' !! 3 = Some SYNCDEL_DEBRISDAY.
Proof.
  eexists. split; [reflexivity|].
  split; [apply (reaches_in_subtree _ _ 4); vm_compute; reflexivity|].
  split; [intros H; apply reaches_iff_in_subtree in H; vm_compute in H; discriminate|].
  vm_compute. auto.
Qed.

(** X7: when the move of a locally deleted node into the sync debris
    is refused and the account has a Rubbish Bin, the node is sent to
    the Rubbish Bin instead: one [rename] towards it, marked
    [SYNCDEL_FAILED], issued under the tag of the node, after which
    the request tag of the client is what it was; the node and its
    debris record are left as they are and the completion gets the
    code of the server. *)
Theorem movenode_failed_debris_move_goes_to_the_rubbish_bin
  (env : Env) (x : CommandMoveNode.t) (syncn bin : Node) (e : error) (c : MegaClient) :
  ENABLE_SYNC env = true ->
  CommandMoveNode.syncdel x <> SYNCDEL_NONE ->
  CommandMoveNode.syncdel x <> SYNCDEL_BIN ->
  CommandMoveNode.syncdel x <> SYNCDEL_FAILED ->
  nodes c !! CommandMoveNode.h x = Some syncn ->
  nodes c !! rubbish c = Some bin ->
  e <> API_OK ->
  exists c',
    CommandMoveNode.procresult env x (StrictError e) c = Some (true, x, c')
    /\ only_logged c c'
    /\ log c' = log c
                ++ (if bool_decide (e = API_EOVERQUOTA) then [client_activateoverquota] else [])
                ++ [client_rename (CommandMoveNode.h x) (rubbish c) SYNCDEL_FAILED
                      (CommandMoveNode.pp x) (CommandMoveNode.mCanChangeVault x)
                      (node_tag syncn)]
                ++ (if CommandMoveNode.completion x
                    then [MoveNode_completion (CommandMoveNode.h x) e] else []).
Proof.
  intros He Hs Hb Hf Hn Hr Hne.
  unfold CommandMoveNode.procresult, CommandMoveNode.sync_block, nodeByHandle.
  rewrite He.
  destruct (bool_decide (e = API_EOVERQUOTA)) eqn:Hq; simpl; rewrite ?Hq; simpl;
    rewrite !(bool_decide_eq_true_2 (CommandMoveNode.syncdel x <> SYNCDEL_NONE)) by assumption;
    rewrite !(bool_decide_eq_false_2 (CommandMoveNode.syncdel x = SYNCDEL_NONE)) by assumption;
    rewrite !(bool_decide_eq_false_2 (e = API_OK)) by assumption;
    rewrite Hn, Hr; simpl;
    rewrite !(bool_decide_eq_false_2 (CommandMoveNode.syncdel x = SYNCDEL_BIN)) by assumption;
    rewrite !(bool_decide_eq_false_2 (CommandMoveNode.syncdel x = SYNCDEL_FAILED)) by assumption;
    rewrite ?(bool_decide_eq_true_2 (is_Some (Some bin))) by eauto; simpl;
    destruct (CommandMoveNode.completion x); simpl;
    eexists; (split; [reflexivity|]); (split; [reflexivity|]);
    simpl; rewrite <- ?app_assoc; reflexivity.
Qed.

(** A move of node 7 towards the sync debris of the day, refused with
    [API_EACCESS]; node 9 is the Rubbish Bin. *)
Lemma movenode_failed_debris_move_goes_to_the_rubbish_bin_witness :
  ENABLE_SYNC env0 = true
  /\ CommandMoveNode.syncdel (CommandMoveNode.mk 7 SYNCDEL_DEBRISDAY 8 UNDEF false false true)
     <> SYNCDEL_NONE
  /\ CommandMoveNode.syncdel (CommandMoveNode.mk 7 SYNCDEL_DEBRISDAY 8 UNDEF false false true)
     <> SYNCDEL_BIN
  /\ CommandMoveNode.syncdel (CommandMoveNode.mk 7 SYNCDEL_DEBRISDAY 8 UNDEF false false true)
     <> SYNCDEL_FAILED
  /\ nodes client_with_bin !! 7 = Some (mkNode (Some 1) None SYNCDEL_DEBRISDAY 5 false)
  /\ nodes client_with_bin !! rubbish client_with_bin = Some (mkNode None None SYNCDEL_NONE 0 false)
  /\ API_EACCESS <> API_OK
  /\ exists c',
    CommandMoveNode.procresult env0 (CommandMoveNode.mk 7 SYNCDEL_DEBRISDAY 8 UNDEF false false true)
      (StrictError API_EACCESS) client_with_bin
    = Some (true, CommandMoveNode.mk 7 SYNCDEL_DEBRISDAY 8 UNDEF false false true, c')
    /\ only_logged client_with_bin c'
    /\ log c' = log client_with_bin
                ++ (if bool_decide (API_EACCESS = API_EOVERQUOTA)
                    then [client_activateoverquota] else [])
                ++ [client_rename 7 (rubbish client_with_bin) SYNCDEL_FAILED UNDEF false 5]
                ++ (if true then [MoveNode_completion 7 API_EACCESS] else []).
Proof.
  split; [reflexivity|]. split; [discriminate|]. split; [discriminate|].
  split; [discriminate|]. split; [vm_compute; reflexivity|].
  split; [vm_compute; reflexivity|]. split; [discriminate|].
  apply (movenode_failed_debris_move_goes_to_the_rubbish_bin env0
           (CommandMoveNode.mk 7 SYNCDEL_DEBRISDAY 8 UNDEF false false true)
           (mkNode (Some 1) None SYNCDEL_DEBRISDAY 5 false)
           (mkNode None None SYNCDEL_NONE 0 false) API_EACCESS client_with_bin).
  - reflexivity.
  - discriminate.
  - discriminate.
  - discriminate.
  - vm_compute. reflexivity.
  - vm_compute. reflexivity.
  - discriminate.
Defined.

(** ** Canceled commands *)

(** X8: the reply to a command that was canceled after it was sent
    (an upload, an upload-URL request, a streaming read) is processed
    without any effect: whatever the slot holds, [procresult] returns,
    the command is as [cancel] left it, the client differs from the
    old one in its cursor at most (no transfer slot or read node is
    written, nothing is called), and a return of false leaves the
    cursor in front of a value that cannot be skipped. *)
Theorem canceled_command_moves_the_cursor_only
  (env : Env) (fuel : nat) (cmd : Command) (r : Result) (c : MegaClient) :
  cancellable cmd = true ->
  (JSON.names (JSON.cur (json c)) < fuel)%nat ->
  exists b c',
    procresult env fuel (cancel cmd) r c = Some (b, cancel cmd, c')
    /\ c' = set_json (json c') c
    /\ (b = false -> wasErrorOrOK r = false /\ (JSON.storeobject (json c')).1.1 = false).
Proof.
  intros Hc Hf.
  destruct cmd as [| | x | x | x | | | | | | | |]; try discriminate Hc; clear Hc;
    unfold procresult, cancel.
  - destruct (putfile_canceled_procresult fuel x r c Hf) as (b & c' & Hp & Hc').
    rewrite Hp. exists b, c'. split; [reflexivity|]. split; [exact Hc'|].
    intros ->. revert Hp. unfold CommandPutFile.procresult, CommandPutFile.cancel. simpl.
    destruct (wasErrorOrOK r); [discriminate|].
    intros Hp. split; [reflexivity|]. eapply putfile_parse_false. exact Hp.
  - destruct (getputurl_canceled_procresult fuel x r c Hf) as (b & c' & Hp & Hc').
    rewrite Hp. exists b, c'. split; [reflexivity|]. split; [exact Hc'|].
    intros ->. revert Hp. unfold CommandGetPutUrl.procresult, CommandGetPutUrl.cancel. simpl.
    destruct (wasErrorOrOK r); [discriminate|].
    intros Hp. split; [reflexivity|]. eapply getputurl_parse_false. exact Hp.
  - destruct (directread_canceled_procresult env fuel x r c Hf) as (b & c' & Hp & Hc').
    rewrite Hp. exists b, c'. split; [reflexivity|]. split; [exact Hc'|].
    intros ->. revert Hp. unfold CommandDirectRead.procresult, CommandDirectRead.cancel. simpl.
    destruct (wasErrorOrOK r); [discriminate|].
    intros Hp. split; [reflexivity|]. eapply directread_parse_false. exact Hp.
Qed.

(** A canceled upload and the reply with its URL. *)
Lemma canceled_command_moves_the_cursor_only_witness :
  cancellable example_upload = true
  /\ (JSON.names (JSON.cur (json (inside [(MAKENAMEID "p", JSON.Str "https://up")] client0))) < 2)%nat
  /\ exists b c',
    procresult env0 2 (cancel example_upload) JsonObject
      (inside [(MAKENAMEID "p", JSON.Str "https://up")] client0)
    = Some (b, cancel example_upload, c')
    /\ c' = set_json (json c') (inside [(MAKENAMEID "p", JSON.Str "https://up")] client0)
    /\ (b = false ->
        wasErrorOrOK JsonObject = false /\ (JSON.storeobject (json c')).1.1 = false).
Proof.
  split; [reflexivity|]. split; [simpl; lia|].
  apply (canceled_command_moves_the_cursor_only env0 2 example_upload JsonObject
           (inside [(MAKENAMEID "p", JSON.Str "https://up")] client0)).
  - reflexivity.
  - simpl. lia.
Defined.

(** ** CommandDirectRead: the URLs and the time left *)

Lemma read_urls_array (urls : list string) (j : JSON.t) (l : list JSON.value) (r : list JSON.item) :
  JSON.cur j = JSON.IVal (JSON.Arr l) :: r ->
  forallb JSON.complete l = true ->
  CommandDirectRead.read_urls urls j = (urls ++ map JSON.text l, JSON.at_ r j).
Proof.
  intros E Hl. unfold CommandDirectRead.read_urls, JSON.enterarray. rewrite E.
  simpl JSON.cur. rewrite store_strings_complete by assumption. reflexivity.
Qed.

(** The turns of the loop of a read that is still wanted, one key at
    a time. *)
Lemma directread_turn_size (env : Env) (fuel : nat) e tl urls (n v : Z) r u (c : MegaClient) :
  json c = JSON.mk (JSON.IName (MAKENAMEID "s") :: JSON.IVal (JSON.Num v) :: r) u ->
  CommandDirectRead.parse env (S fuel) e tl urls (CommandDirectRead.mk (Some n) false) c
  = CommandDirectRead.parse env fuel e tl urls (CommandDirectRead.mk (Some n) false)
      (set_drns (alter (CommandDirectRead.set_size v) n (drns c)) (set_json (JSON.mk r u) c)).
Proof.
  intros Hj. simpl. unfold JSON.getnameid. rewrite Hj. reflexivity.
Qed.

Lemma directread_turn_urls (env : Env) (fuel : nat) e tl urls (n : Z) l r u (c : MegaClient) :
  json c = JSON.mk (JSON.IName (MAKENAMEID "g") :: JSON.IVal (JSON.Arr l) :: r) u ->
  forallb JSON.complete l = true ->
  CommandDirectRead.parse env (S fuel) e tl urls (CommandDirectRead.mk (Some n) false) c
  = if bool_decide (length (urls ++ map JSON.text l) = 1%nat)
       || bool_decide (length (urls ++ map JSON.text l) = RAIDPARTS)
    then CommandDirectRead.parse env fuel API_OK tl (default [] (drn_tempurls <$> drns c !! n))
           (CommandDirectRead.mk (Some n) false)
           (set_drns (alter (CommandDirectRead.set_tempurls (urls ++ map JSON.text l)) n (drns c))
              (set_json (JSON.mk r u) c))
    else CommandDirectRead.parse env fuel API_EINCOMPLETE tl (urls ++ map JSON.text l)
           (CommandDirectRead.mk (Some n) false) (set_json (JSON.mk r u) c).
Proof.
  intros Hj Hl. simpl. unfold JSON.getnameid. rewrite Hj. simpl.
  erewrite read_urls_array; [|reflexivity|exact Hl]. reflexivity.
Qed.

Lemma directread_turn_code (env : Env) (fuel : nat) e tl urls (n v : Z) r u (c : MegaClient) :
  json c = JSON.mk (JSON.IName (MAKENAMEID "e") :: JSON.IVal (JSON.Num v) :: r) u ->
  CommandDirectRead.parse env (S fuel) e tl urls (CommandDirectRead.mk (Some n) false) c
  = CommandDirectRead.parse env fuel (to_int v) tl urls (CommandDirectRead.mk (Some n) false)
      (set_json (JSON.mk r u) c).
Proof.
  intros Hj. simpl. unfold JSON.getnameid. rewrite Hj. reflexivity.
Qed.

Lemma directread_turn_timeleft (env : Env) (fuel : nat) e tl urls (n v : Z) r u (c : MegaClient) :
  json c = JSON.mk (JSON.IName (MAKENAMEID "tl") :: JSON.IVal (JSON.Num v) :: r) u ->
  CommandDirectRead.parse env (S fuel) e tl urls (CommandDirectRead.mk (Some n) false) c
  = CommandDirectRead.parse env fuel e (to_dstime v) urls (CommandDirectRead.mk (Some n) false)
      (set_json (JSON.mk r u) c).
Proof.
  intros Hj. simpl. unfold JSON.getnameid. rewrite Hj. reflexivity.
Qed.

Lemma directread_turn_end (env : Env) (fuel : nat) e tl urls (n : Z) (c : MegaClient) :
  JSON.cur (json c) = [] ->
  CommandDirectRead.parse env (S fuel) e tl urls (CommandDirectRead.mk (Some n) false) c
  = Some (true, CommandDirectRead.mk (Some n) false,
          emit (drn_cmdresult n e
                  (Some (if bool_decide (e = API_EOVERQUOTA)
                         then to_dstime
                                ((if bool_decide (tl = 0)
                                  then to_dstime (DEFAULT_BW_OVERQUOTA_BACKOFF_SECS env)
                                  else tl) * 10)
                         else 0))) c).
Proof.
  intros Hj. simpl. unfold JSON.getnameid. rewrite Hj. simpl.
  rewrite client_eta. unfold CommandDirectRead.cmdresult. simpl.
  destruct (bool_decide (e = API_EOVERQUOTA)); reflexivity.
Qed.

(** X9: a streaming read that is still wanted accepts one URL, or
    as many as a file has parts (six): on the reply
    [{"s":size,"g":[urls]}] the read node takes the size, and it takes
    the URLs and is told [API_OK] exactly when their number is 1 or 6;
    with any other number it keeps its URLs and is told
    [API_EINCOMPLETE].  In both cases the pending command of the node
    is cleared and [procresult] returns true at the end of the slot. *)
Theorem directread_takes_one_or_six_urls
  (env : Env) (fuel : nat) (n sz : Z) (l : list JSON.value) (nd : DirectReadNode)
  (c : MegaClient) :
  drns c !! n = Some nd ->
  forallb JSON.complete l = true ->
  exists c',
    CommandDirectRead.procresult env (3 + fuel) (CommandDirectRead.mk (Some n) false) JsonObject
      (inside [(MAKENAMEID "s", JSON.Num sz); (MAKENAMEID "g", JSON.Arr l)] c)
    = Some (true, CommandDirectRead.mk (Some n) false, c')
    /\ JSON.cur (json c') = []
    /\ (if bool_decide (length l = 1%nat) || bool_decide (length l = 6%nat)
        then drns c' !! n = Some (mkDirectReadNode false (map JSON.text l) sz)
             /\ log c' = log c ++ [drn_cmdresult n API_OK (Some 0)]
        else drns c' !! n = Some (mkDirectReadNode false (drn_tempurls nd) sz)
             /\ log c' = log c ++ [drn_cmdresult n API_EINCOMPLETE (Some 0)]).
Proof.
  intros Hn Hl. unfold CommandDirectRead.procresult.
  change (3 + fuel)%nat with (S (S (S fuel))).
  cbn [wasErrorOrOK CommandDirectRead.drn].
  erewrite directread_turn_size; [|reflexivity].
  erewrite directread_turn_urls; [|reflexivity|exact Hl].
  rewrite app_nil_l, length_map. unfold RAIDPARTS.
  destruct (bool_decide (length l = 1%nat) || bool_decide (length l = 6%nat));
    (erewrite directread_turn_end; [|reflexivity]);
    eexists; (split; [reflexivity|]); (split; [reflexivity|]);
    cbn [drns set_drns emit set_log set_json log inside];
    rewrite !lookup_alter_eq, Hn; split; reflexivity.
Qed.

(** Read node 1 and a reply with two URLs. *)
Lemma directread_takes_one_or_six_urls_witness :
  drns client_reading !! 1 = Some (mkDirectReadNode true [] 0)
  /\ forallb JSON.complete [JSON.Str "https://a"; JSON.Str "https://b"] = true
  /\ exists c',
    CommandDirectRead.procresult env0 (3 + 0) (CommandDirectRead.mk (Some 1) false) JsonObject
      (inside [(MAKENAMEID "s", JSON.Num 1024);
               (MAKENAMEID "g", JSON.Arr [JSON.Str "https://a"; JSON.Str "https://b"])]
         client_reading)
    = Some (true, CommandDirectRead.mk (Some 1) false, c')
    /\ JSON.cur (json c') = []
    /\ (if bool_decide (length [JSON.Str "https://a"; JSON.Str "https://b"] = 1%nat)
           || bool_decide (length [JSON.Str "https://a"; JSON.Str "https://b"] = 6%nat)
        then drns c' !! 1
             = Some (mkDirectReadNode false
                       (map JSON.text [JSON.Str "https://a"; JSON.Str "https://b"]) 1024)
             /\ log c' = log client_reading ++ [drn_cmdresult 1 API_OK (Some 0)]
        else drns c' !! 1
             = Some (mkDirectReadNode false (drn_tempurls (mkDirectReadNode true [] 0)) 1024)
             /\ log c' = log client_reading ++ [drn_cmdresult 1 API_EINCOMPLETE (Some 0)]).
Proof.
  split; [vm_compute; reflexivity|]. split; [reflexivity|].
  apply (directread_takes_one_or_six_urls env0 0 1 1024
           [JSON.Str "https://a"; JSON.Str "https://b"] (mkDirectReadNode true [] 0)
           client_reading).
  - vm_compute. reflexivity.
  - reflexivity.
Defined.

(** X10: a streaming read refused for bandwidth quota
    ([{"e":-17,"tl":t}]) tells the read node how long to wait, in
    tenths of a second: ten times the time left of the reply, or ten
    times the default back-off when the reply gives none (or zero), in
    32-bit unsigned arithmetic, so that the wait wraps around for a
    time left beyond 2^32 / 10 seconds.  The node keeps its URLs and
    its size. *)
Theorem directread_overquota_time_left
  (env : Env) (fuel : nat) (n t : Z) (nd : DirectReadNode) (c : MegaClient) :
  drns c !! n = Some nd ->
  exists c' w,
    CommandDirectRead.procresult env (3 + fuel) (CommandDirectRead.mk (Some n) false) JsonObject
      (inside [(MAKENAMEID "e", JSON.Num API_EOVERQUOTA); (MAKENAMEID "tl", JSON.Num t)] c)
    = Some (true, CommandDirectRead.mk (Some n) false, c')
    /\ log c' = log c ++ [drn_cmdresult n API_EOVERQUOTA (Some w)]
    /\ w = ((if bool_decide (t mod 4294967296 = 0)
             then DEFAULT_BW_OVERQUOTA_BACKOFF_SECS env mod 4294967296
             else t mod 4294967296) * 10) mod 4294967296
    /\ 0 <= w < 4294967296
    /\ drns c' !! n = Some (CommandDirectRead.clear_pendingcmd nd).
Proof.
  intros Hn. unfold CommandDirectRead.procresult.
  change (3 + fuel)%nat with (S (S (S fuel))).
  cbn [wasErrorOrOK CommandDirectRead.drn].
  erewrite directread_turn_code; [|reflexivity].
  erewrite directread_turn_timeleft; [|reflexivity].
  erewrite directread_turn_end; [|reflexivity].
  change (to_int API_EOVERQUOTA) with API_EOVERQUOTA.
  rewrite (bool_decide_eq_true_2 (API_EOVERQUOTA = API_EOVERQUOTA)) by reflexivity.
  do 2 eexists. split; [reflexivity|]. split; [reflexivity|].
  unfold to_dstime. split; [reflexivity|]. split.
  - apply Z.mod_pos_bound. lia.
  - cbn [drns set_drns emit set_log set_json inside]. rewrite lookup_alter_eq, Hn. reflexivity.
Qed.

(** Read node 1, and a reply that gives no time left. *)
Lemma directread_overquota_time_left_witness :
  drns client_reading !! 1 = Some (mkDirectReadNode true [] 0)
  /\ exists c' w,
    CommandDirectRead.procresult env0 (3 + 0) (CommandDirectRead.mk (Some 1) false) JsonObject
      (inside [(MAKENAMEID "e", JSON.Num API_EOVERQUOTA); (MAKENAMEID "tl", JSON.Num 0)]
         client_reading)
    = Some (true, CommandDirectRead.mk (Some 1) false, c')
    /\ log c' = log client_reading ++ [drn_cmdresult 1 API_EOVERQUOTA (Some w)]
    /\ w = ((if bool_decide (0 mod 4294967296 = 0)
             then DEFAULT_BW_OVERQUOTA_BACKOFF_SECS env0 mod 4294967296
             else 0 mod 4294967296) * 10) mod 4294967296
    /\ 0 <= w < 4294967296
    /\ drns c' !! 1 = Some (CommandDirectRead.clear_pendingcmd (mkDirectReadNode true [] 0)).
Proof.
  split; [vm_compute; reflexivity|].
  apply (directread_overquota_time_left env0 0 1 0 (mkDirectReadNode true [] 0) client_reading).
  vm_compute. reflexivity.
Defined.

(** ** CommandGetFA: the channel after the reply *)

Lemma getfa_parse_reads (m : list (nameid * JSON.value)) :
  forall fuel p x c u,
  forallb member_ok m = true ->
  json c = JSON.mk (JSON.members m) u ->
  CommandGetFA.parse (length m + fuel) p x c
  = CommandGetFA.parse fuel (match last (reply_urls m) with Some s => Some s | None => p end) x
      (set_json (JSON.mk [] u) c).
Proof.
  induction m as [|[k v] m IH]; intros fuel p x c u Hm Hj.
  - simpl in *. rewrite <- Hj, client_eta. reflexivity.
  - simpl in Hm. apply andb_prop in Hm as [Hkv Hm].
    unfold member_ok in Hkv. simpl in Hkv. apply andb_prop in Hkv as [Hk Hv].
    apply negb_true_iff in Hk.
    simpl. unfold JSON.getnameid. rewrite Hj. simpl.
    unfold reply_urls. simpl.
    destruct (is_name k "p") eqn:Hp.
    + unfold JSON.getvalue, JSON.storeobject. simpl. rewrite Hv. simpl.
      erewrite IH; [|exact Hm|reflexivity].
      fold (reply_urls m). rewrite last_cons. destruct (last (reply_urls m)); reflexivity.
    + rewrite Hk. unfold JSON.storeobject. simpl. rewrite Hv. simpl.
      erewrite IH; [|exact Hm|reflexivity]. reflexivity.
Qed.

(** X11: the fetch of file attributes reads a well-formed reply to
    its end and returns true.  With a URL in the reply (the last key
    [p] counts) the channel takes the URL and the time and is
    dispatched, its fetches untouched.  Without one the channel is
    failed with [API_EINTERNAL] and no fetch is lost: every fetch not
    yet asked for joins the pending ones (replacing a pending fetch of
    the same attribute), and none is left as not yet asked for. *)
Theorem getfa_reply_sets_or_fails_the_channel
  (fuel : nat) (m : list (nameid * JSON.value)) (x : CommandGetFA.t)
  (ch : FileAttributeFetchChannel) (c : MegaClient) :
  fafcs c !! CommandGetFA.part x = Some ch ->
  forallb member_ok m = true ->
  (length m < fuel)%nat ->
  exists c',
    CommandGetFA.procresult fuel x JsonObject (inside m c) = Some (true, x, c')
    /\ JSON.cur (json c') = []
    /\ looprequested c' = true
    /\ match last (reply_urls m) with
       | Some url =>
           fafcs c' !! CommandGetFA.part x
           = Some (mkFafc (fafs_fresh ch) (fafs_pending ch) (fafc_e ch) (fafc_status ch) url (ds c))
           /\ log c' = log c ++ [fafc_dispatch (CommandGetFA.part x)]
       | None =>
           (exists pending,
              fafcs c' !! CommandGetFA.part x
              = Some (mkFafc ∅ pending API_EINTERNAL REQ_FAILURE (fafc_posturl ch) (fafc_urltime ch))
              /\ (forall h f, fafs_fresh ch !! h = Some f -> pending !! h = Some f)
              /\ (forall h, fafs_fresh ch !! h = None -> pending !! h = fafs_pending ch !! h))
           /\ log c' = log c
       end.
Proof.
  intros Hch Hm Hf. unfold CommandGetFA.procresult. simpl.
  assert (Hfuel : exists n, fuel = (length m + S n)%nat) by (exists (fuel - length m - 1)%nat; lia).
  destruct Hfuel as [n ->].
  erewrite getfa_parse_reads; [|exact Hm|reflexivity].
  simpl. unfold JSON.getnameid, CommandGetFA.found. simpl.
  rewrite Hch. rewrite bool_decide_eq_true_2 by eauto.
  destruct (last (reply_urls m)) as [url|].
  - eexists. split; [reflexivity|]. simpl. rewrite lookup_alter_eq, Hch. auto.
  - eexists. split; [reflexivity|]. simpl. rewrite lookup_alter_eq, Hch. simpl.
    split; [reflexivity|]. split; [reflexivity|]. split; [|reflexivity].
    eexists. split; [reflexivity|]. split.
    + intros h f Hh. apply lookup_union_Some_l. exact Hh.
    + intros h Hh. apply lookup_union_r. exact Hh.
Qed.

(** A channel with one fetch not yet asked for, and a reply without a
    URL. *)
Lemma getfa_reply_sets_or_fails_the_channel_witness :
  fafcs client_fetching !! CommandGetFA.part (CommandGetFA.mk 0)
  = Some (mkFafc {[ 5 := 1 ]} ∅ API_OK REQ_INFLIGHT "" 0)
  /\ forallb member_ok [(MAKENAMEID "x", JSON.Num 1)] = true
  /\ (length [(MAKENAMEID "x", JSON.Num 1)] < 2)%nat
  /\ exists c',
    CommandGetFA.procresult 2 (CommandGetFA.mk 0) JsonObject
      (inside [(MAKENAMEID "x", JSON.Num 1)] client_fetching)
    = Some (true, CommandGetFA.mk 0, c')
    /\ JSON.cur (json c') = []
    /\ looprequested c' = true
    /\ match last (reply_urls [(MAKENAMEID "x", JSON.Num 1)]) with
       | Some url =>
           fafcs c' !! CommandGetFA.part (CommandGetFA.mk 0)
           = Some (mkFafc (fafs_fresh (mkFafc {[ 5 := 1 ]} ∅ API_OK REQ_INFLIGHT "" 0))
                     (fafs_pending (mkFafc {[ 5 := 1 ]} ∅ API_OK REQ_INFLIGHT "" 0))
                     (fafc_e (mkFafc {[ 5 := 1 ]} ∅ API_OK REQ_INFLIGHT "" 0))
                     (fafc_status (mkFafc {[ 5 := 1 ]} ∅ API_OK REQ_INFLIGHT "" 0))
                     url (ds client_fetching))
           /\ log c' = log client_fetching ++ [fafc_dispatch (CommandGetFA.part (CommandGetFA.mk 0))]
       | None =>
           (exists pending,
              fafcs c' !! CommandGetFA.part (CommandGetFA.mk 0)
              = Some (mkFafc ∅ pending API_EINTERNAL REQ_FAILURE
                        (fafc_posturl (mkFafc {[ 5 := 1 ]} ∅ API_OK REQ_INFLIGHT "" 0))
                        (fafc_urltime (mkFafc {[ 5 := 1 ]} ∅ API_OK REQ_INFLIGHT "" 0)))
              /\ (forall h f,
                    fafs_fresh (mkFafc {[ 5 := 1 ]} ∅ API_OK REQ_INFLIGHT "" 0) !! h = Some f ->
                    pending !! h = Some f)
              /\ (forall h,
                    fafs_fresh (mkFafc {[ 5 := 1 ]} ∅ API_OK REQ_INFLIGHT "" 0) !! h = None ->
                    pending !! h
                    = fafs_pending (mkFafc {[ 5 := 1 ]} ∅ API_OK REQ_INFLIGHT "" 0) !! h))
           /\ log c' = log client_fetching
       end.
Proof.
  split; [vm_compute; reflexivity|]. split; [reflexivity|]. split; [simpl; lia|].
  apply (getfa_reply_sets_or_fails_the_channel 2 [(MAKENAMEID "x", JSON.Num 1)]
           (CommandGetFA.mk 0) (mkFafc {[ 5 := 1 ]} ∅ API_OK REQ_INFLIGHT "" 0) client_fetching).
  - vm_compute. reflexivity.
  - reflexivity.
  - simpl. lia.
Defined.

(** ** CommandLogin: what a successful password login has checked *)

(** X12: at the end of the reply to a login with e-mail and password
    to an account with an RSA key pair (no [tsid] in the reply), every
    path returns true and calls [login_result] once; and [API_OK] is
    reported exactly when the reply held a user handle, a master key of
    full length, a session key of full length or none, a private key
    of 256 bytes or more which, decrypted with the master key, is
    accepted as an RSA key, and a session id of 32 bytes or more which,
    decrypted with that private key, carries that same user handle.
    The client then holds the decrypted master key, that private key,
    that user as [me] and the decrypted session id cut to its length. *)
Theorem login_ok_means_the_session_is_of_the_user
  (env : Env) (l : CommandLogin.locals) (cmd : CommandLogin.t) (c : MegaClient) :
  CommandLogin.checksession cmd = false ->
  CommandLogin.len_tsid l = 0 ->
  let masterkey := ecb_decrypt env (key (session c)) (CommandLogin.hash l) in
  let privk := ecb_decrypt env masterkey (CommandLogin.privkbuf l) in
  let csid := take (Z.to_nat (CommandLogin.len_csid l)) (CommandLogin.sidbuf l) in
  exists c' e,
    CommandLogin.finish env l cmd c = Some (true, cmd, c')
    /\ reported c c' e
    /\ (e = API_OK <->
        CommandLogin.me_ l <> UNDEF
        /\ CommandLogin.len_k l = KEYLENGTH env
        /\ (CommandLogin.len_sek l = 0 \/ CommandLogin.len_sek l = KEYLENGTH env)
        /\ 256 <= CommandLogin.len_privk l
        /\ asym_setkey env privk = true
        /\ 32 <= CommandLogin.len_csid l
        /\ exists sid_,
             asym_decrypt env privk csid = Some sid_
             /\ sid_userhandle env sid_ = Some (CommandLogin.me_ l))
    /\ (e = API_OK ->
        key (session c') = masterkey
        /\ asymkey (session c') = Some privk
        /\ me (session c') = CommandLogin.me_ l
        /\ exists sid_,
             asym_decrypt env privk csid = Some sid_
             /\ sid_userhandle env sid_ = Some (CommandLogin.me_ l)
             /\ sid (session c') = take (Z.to_nat (SIDLEN env)) sid_).
Proof.
  intros Hcs Ht masterkey privk csid. unfold CommandLogin.finish, CommandLogin.login_result.
  rewrite Hcs, Ht. simpl.
  assert (Hbad : forall c1 e1 (P : Prop) (Q : MegaClient -> Prop),
            log c1 = log c -> e1 <> API_OK -> ~ P ->
            exists c' e, Some (true, cmd, emit (app_login_result e1) c1) = Some (true, cmd, c')
                         /\ reported c c' e
                         /\ (e = API_OK <-> P)
                         /\ (e = API_OK -> Q c')).
  { intros c1 e1 P Q Hl He HP. exists (emit (app_login_result e1) c1), e1.
    split; [reflexivity|]. split; [exists [app_login_result e1]; simpl; rewrite Hl; auto|].
    split; [split; [intros ->; contradiction|intros HP'; contradiction]|].
    intros ->; contradiction. }
  destruct (ISUNDEF (CommandLogin.me_ l)) eqn:Hme; simpl.
  { apply (Hbad c API_EINTERNAL _ (fun c' => _)); [reflexivity|discriminate|].
    unfold ISUNDEF in Hme. apply bool_decide_eq_true in Hme. tauto. }
  assert (Hu : CommandLogin.me_ l <> UNDEF).
  { unfold ISUNDEF in Hme. apply bool_decide_eq_false in Hme. exact Hme. }
  destruct (bool_decide (CommandLogin.len_k l = KEYLENGTH env)) eqn:Hk; simpl.
  2:{ apply (Hbad c API_EINTERNAL _ (fun c' => _)); [reflexivity|discriminate|].
      apply bool_decide_eq_false in Hk. tauto. }
  apply bool_decide_eq_true in Hk.
  destruct (bool_decide (CommandLogin.len_sek l = 0)) eqn:Hs0;
    destruct (bool_decide (CommandLogin.len_sek l = KEYLENGTH env)) eqn:Hs1; simpl.
  4:{ apply (Hbad _ API_EINTERNAL _ (fun c' => _)); [reflexivity|discriminate|].
      apply bool_decide_eq_false in Hs0, Hs1. tauto. }
  all: assert (Hsek : CommandLogin.len_sek l = 0 \/ CommandLogin.len_sek l = KEYLENGTH env)
         by (first [ apply bool_decide_eq_true in Hs0; tauto
                   | apply bool_decide_eq_true in Hs1; tauto ]).
  all: rewrite ?andb_false_r; simpl.
  all: destruct (bool_decide (CommandLogin.len_privk l < 256)) eqn:Hp; simpl;
         [ apply (Hbad _ API_EINTERNAL _ (fun c' => _)); [reflexivity|discriminate|];
           apply bool_decide_eq_true in Hp; intros (_ & _ & _ & Hp' & _); lia
         | apply bool_decide_eq_false in Hp ].
  all: fold masterkey; fold privk.
  all: destruct (asym_setkey env privk) eqn:Hset; simpl;
         [ | apply (Hbad _ API_ENOENT _ (fun c' => _)); [reflexivity|discriminate|];
             intros (_ & _ & _ & _ & Hset' & _); discriminate ].
  all: destruct (bool_decide (CommandLogin.len_csid l < 32)) eqn:Hc; simpl;
         [ apply (Hbad _ API_EINTERNAL _ (fun c' => _)); [reflexivity|discriminate|];
           apply bool_decide_eq_true in Hc; intros (_ & _ & _ & _ & _ & Hc' & _); lia
         | apply bool_decide_eq_false in Hc ].
  all: fold csid.
  all: destruct (asym_decrypt env privk csid) as [sid_|] eqn:Hd; simpl;
         [ | apply (Hbad _ API_EINTERNAL _ (fun c' => _)); [reflexivity|discriminate|];
             intros (_ & _ & _ & _ & _ & _ & s & Hs' & _); discriminate ].
  all: destruct (bool_decide (sid_userhandle env sid_ = Some (CommandLogin.me_ l))) eqn:Hs;
         simpl;
         [ apply bool_decide_eq_true in Hs
         | apply (Hbad _ API_EINTERNAL _ (fun c' => _)); [reflexivity|discriminate|];
           apply bool_decide_eq_false in Hs;
           intros (_ & _ & _ & _ & _ & _ & s & Hs' & Hs''); congruence ].
  all: eexists _, API_OK; split; [reflexivity|];
         split; [eexists; (split; [simpl; rewrite <- !app_assoc; reflexivity|reflexivity])|];
         split; [split; [intros _|intros _; reflexivity]|intros _].
  all: try (split; [exact Hu|]; split; [exact Hk|]; split; [exact Hsek|];
            split; [lia|]; split; [reflexivity|]; split; [lia|]; exists sid_; auto).
  all: simpl; (split; [reflexivity|]); (split; [reflexivity|]); (split; [reflexivity|]);
         exists sid_; auto.
Qed.

(** The login of user 42 with the collaborators that let it
    through. *)
Lemma login_ok_means_the_session_is_of_the_user_witness :
  CommandLogin.checksession (CommandLogin.make false 0) = false
  /\ CommandLogin.len_tsid example_login_locals = 0
  /\ let masterkey := ecb_decrypt env_login (key (session client0))
                        (CommandLogin.hash example_login_locals) in
     let privk := ecb_decrypt env_login masterkey (CommandLogin.privkbuf example_login_locals) in
     let csid := take (Z.to_nat (CommandLogin.len_csid example_login_locals))
                   (CommandLogin.sidbuf example_login_locals) in
     exists c' e,
    CommandLogin.finish env_login example_login_locals (CommandLogin.make false 0) client0
    = Some (true, CommandLogin.make false 0, c')
    /\ reported client0 c' e
    /\ (e = API_OK <->
        CommandLogin.me_ example_login_locals <> UNDEF
        /\ CommandLogin.len_k example_login_locals = KEYLENGTH env_login
        /\ (CommandLogin.len_sek example_login_locals = 0
            \/ CommandLogin.len_sek example_login_locals = KEYLENGTH env_login)
        /\ 256 <= CommandLogin.len_privk example_login_locals
        /\ asym_setkey env_login privk = true
        /\ 32 <= CommandLogin.len_csid example_login_locals
        /\ exists sid_,
             asym_decrypt env_login privk csid = Some sid_
             /\ sid_userhandle env_login sid_ = Some (CommandLogin.me_ example_login_locals))
    /\ (e = API_OK ->
        key (session c') = masterkey
        /\ asymkey (session c') = Some privk
        /\ me (session c') = CommandLogin.me_ example_login_locals
        /\ exists sid_,
             asym_decrypt env_login privk csid = Some sid_
             /\ sid_userhandle env_login sid_ = Some (CommandLogin.me_ example_login_locals)
             /\ sid (session c') = take (Z.to_nat (SIDLEN env_login)) sid_).
Proof.
  split; [reflexivity|]. split; [reflexivity|].
  apply (login_ok_means_the_session_is_of_the_user env_login example_login_locals
           (CommandLogin.make false 0) client0); reflexivity.
Defined.

(** That login is let through: [API_OK], with the session id of user
    42. *)
Lemma login_of_user_42_is_accepted :
  exists c',
    CommandLogin.finish env_login example_login_locals (CommandLogin.make false 0) client0
    = Some (true, CommandLogin.make false 0, c')
    /\ completions (log c') = [API_OK]
    /\ me (session c') = 42
    /\ sid (session c') = repeat 2 32.
Proof. eexists. split; [reflexivity|]. vm_compute. auto. Qed.

(** ** CommandPrelogin: the account versions accepted *)

Lemma prelogin_turn_version (env : Env) (fuel : nat) v s x (n : Z) r u (c : MegaClient) :
  json c = JSON.mk (JSON.IName (MAKENAMEID "v") :: JSON.IVal (JSON.Num n) :: r) u ->
  CommandPrelogin.parse env (S fuel) v s x c
  = CommandPrelogin.parse env fuel (to_int n) s x (set_json (JSON.mk r u) c).
Proof.
  intros Hj. simpl. unfold JSON.getnameid. rewrite Hj. reflexivity.
Qed.

Lemma prelogin_turn_salt (env : Env) (fuel : nat) v s x (t : string) r u (c : MegaClient) :
  json c = JSON.mk (JSON.IName (MAKENAMEID "s") :: JSON.IVal (JSON.Str t) :: r) u ->
  CommandPrelogin.parse env (S fuel) v s x c
  = CommandPrelogin.parse env fuel v t x (set_json (JSON.mk r u) c).
Proof.
  intros Hj. simpl. unfold JSON.getnameid. rewrite Hj. reflexivity.
Qed.

(** X13: the prelogin reply [{"v":n}] or [{"v":n,"s":salt}] is
    accepted, the version and the decoded salt stored and handed to
    the application with the e-mail address, unless the version (as a
    32-bit integer) is 0 or above 2, or is 2 without a salt; then the
    application gets [API_EINTERNAL] and the session is untouched.
    Version 1 is accepted without a salt, and so is any negative
    version.  [procresult] returns true either way. *)
Theorem prelogin_accepts_versions_up_to_two
  (env : Env) (fuel : nat) (x : CommandPrelogin.t) (n : Z) (salt : option string)
  (c : MegaClient) :
  exists c',
    CommandPrelogin.procresult env (3 + fuel) x JsonObject
      (inside ((MAKENAMEID "v", JSON.Num n)
               :: match salt with
                  | Some s => [(MAKENAMEID "s", JSON.Str s)]
                  | None => []
                  end) c)
    = Some (true, x, c')
    /\ JSON.cur (json c') = []
    /\ if negb (bool_decide (to_int n = 0)) && bool_decide (to_int n <= 2)
          && negb (bool_decide (to_int n = 2) && bool_decide (default "" salt = ""))
       then session c' = set_account (to_int n) (atob env (default "" salt)) (session c)
            /\ log c' = log c ++ [app_prelogin_result (to_int n) (Some (CommandPrelogin.email x))
                                    (Some (default "" salt)) API_OK]
       else session c' = session c
            /\ log c' = log c ++ [app_prelogin_result 0 None None API_EINTERNAL].
Proof.
  unfold CommandPrelogin.procresult. simpl wasErrorOrOK. cbv iota.
  change (3 + fuel)%nat with (S (S (S fuel))).
  assert (Hend : forall k (s : string) (c1 : MegaClient),
            JSON.cur (json c1) = [] -> log c1 = log c -> session c1 = session c ->
            exists c',
              CommandPrelogin.parse env (S k) (to_int n) s x c1 = Some (true, x, c')
              /\ JSON.cur (json c') = []
              /\ if negb (bool_decide (to_int n = 0)) && bool_decide (to_int n <= 2)
                    && negb (bool_decide (to_int n = 2) && bool_decide (s = ""))
                 then session c' = set_account (to_int n) (atob env s) (session c)
                      /\ log c' = log c ++ [app_prelogin_result (to_int n)
                                              (Some (CommandPrelogin.email x)) (Some s) API_OK]
                 else session c' = session c
                      /\ log c' = log c ++ [app_prelogin_result 0 None None API_EINTERNAL]).
  { intros k s c1 Hj Hl Hs. simpl. unfold JSON.getnameid. rewrite Hj. simpl.
    destruct (bool_decide (to_int n = 0)) eqn:H0; simpl.
    { eexists. split; [reflexivity|]. simpl. rewrite Hj, Hl, Hs. auto. }
    destruct (bool_decide (to_int n > 2)) eqn:H2.
    { apply bool_decide_eq_true in H2.
      rewrite (bool_decide_eq_false_2 (to_int n <= 2)) by lia. simpl.
      eexists. split; [reflexivity|]. simpl. rewrite Hj, Hl, Hs. auto. }
    apply bool_decide_eq_false in H2.
    rewrite (bool_decide_eq_true_2 (to_int n <= 2)) by lia. simpl.
    destruct (bool_decide (to_int n = 2) && bool_decide (s = "")); simpl;
      eexists; (split; [reflexivity|]); simpl; rewrite Hj, Hl, ?Hs; auto. }
  destruct salt as [s|]; simpl default.
  - erewrite prelogin_turn_version; [|reflexivity].
    erewrite prelogin_turn_salt; [|reflexivity].
    apply Hend; reflexivity.
  - erewrite prelogin_turn_version; [|reflexivity].
    apply Hend; reflexivity.
Qed.

(** ** CommandDelNode: the code inside the reply *)

Lemma delnode_parse_skip (m : list (nameid * JSON.value)) :
  forall fuel e x c rest u,
  forallb not_result_member m = true ->
  json c = JSON.mk (JSON.members m ++ rest) u ->
  CommandDelNode.parse (length m + fuel) e x c
  = CommandDelNode.parse fuel e x (set_json (JSON.mk rest u) c).
Proof.
  induction m as [|[k v] m IH]; intros fuel e x c rest u Hm Hj.
  - simpl in *. rewrite <- Hj, client_eta. reflexivity.
  - simpl in Hm. apply andb_prop in Hm as [Hkv Hm].
    unfold not_result_member, member_ok in Hkv. simpl in Hkv.
    apply andb_prop in Hkv as [Hkv Hr]. apply andb_prop in Hkv as [Hk Hv].
    apply negb_true_iff in Hr. apply negb_true_iff in Hk.
    simpl. unfold JSON.getnameid. rewrite Hj. simpl. rewrite Hr, Hk.
    unfold JSON.storeobject. simpl. rewrite Hv. simpl.
    erewrite IH; [reflexivity|assumption|reflexivity].
Qed.

(** X14: a delete-node command takes its result from inside the
    reply: with [{.., "r":[n], ..}] the completion (or [unlink_result])
    is called once with the code [n], cut to 32 bits, and with a reply
    that has an empty [r] it is called with [API_OK]; the other members
    are skipped, the slot is read to its end and [procresult] returns
    true. *)
Theorem delnode_reports_the_code_inside_the_reply
  (fuel : nat) (pre post : list (nameid * JSON.value)) (code : option Z)
  (x : CommandDelNode.t) (c : MegaClient) :
  forallb not_result_member pre = true ->
  forallb not_result_member post = true ->
  (length pre + length post + 1 < fuel)%nat ->
  CommandDelNode.procresult fuel x JsonObject
    (inside (pre ++ (MAKENAMEID "r", JSON.Arr match code with
                                               | Some n => [JSON.Num n]
                                               | None => []
                                               end) :: post) c)
  = Some (true, x,
          CommandDelNode.result x (match code with Some n => to_int n | None => API_OK end)
            (set_json (JSON.mk [] (JSON.up (json c))) c)).
Proof.
  intros Hpre Hpost Hf. unfold CommandDelNode.procresult. simpl wasErrorOrOK. cbv iota.
  assert (Hfuel : exists k, fuel = (length pre + S (length post + S k))%nat)
    by (exists (fuel - length pre - length post - 2)%nat; lia).
  destruct Hfuel as [k ->].
  erewrite delnode_parse_skip;
    [|exact Hpre|unfold inside; simpl; rewrite members_app; reflexivity].
  assert (Hturn : CommandDelNode.parse (S (length post + S k)) API_OK x
                    (set_json
                       (JSON.mk
                          (JSON.members
                             ((MAKENAMEID "r", JSON.Arr match code with
                                                        | Some n => [JSON.Num n]
                                                        | None => []
                                                        end) :: post)) (JSON.up (json c)))
                       (inside (pre ++ (MAKENAMEID "r", JSON.Arr match code with
                                                                 | Some n => [JSON.Num n]
                                                                 | None => []
                                                                 end) :: post) c))
                  = CommandDelNode.parse (length post + S k)
                      (match code with Some n => to_int n | None => API_OK end) x
                      (set_json (JSON.mk (JSON.members post ++ []) (JSON.up (json c))) c)).
  { cbn [CommandDelNode.parse]. unfold JSON.getnameid. simpl.
    rewrite app_nil_r. destruct code; reflexivity. }
  rewrite Hturn.
  erewrite delnode_parse_skip; [|exact Hpost|reflexivity].
  simpl. unfold JSON.getnameid. simpl. reflexivity.
Qed.

(** The reply [{"r":[-9]}]: the completion is told [API_ENOENT]. *)
Lemma delnode_reports_the_code_inside_the_reply_witness :
  forallb not_result_member [] = true
  /\ forallb not_result_member [] = true
  /\ (length (@nil (nameid * JSON.value)) + length (@nil (nameid * JSON.value)) + 1 < 3)%nat
  /\ CommandDelNode.procresult 3 (CommandDelNode.mk 7 true) JsonObject
       (inside ([] ++ (MAKENAMEID "r", JSON.Arr match Some API_ENOENT with
                                                | Some n => [JSON.Num n]
                                                | None => []
                                                end) :: []) client0)
     = Some (true, CommandDelNode.mk 7 true,
             CommandDelNode.result (CommandDelNode.mk 7 true)
               (match Some API_ENOENT with Some n => to_int n | None => API_OK end)
               (set_json (JSON.mk [] (JSON.up (json client0))) client0)).
Proof.
  split; [reflexivity|]. split; [reflexivity|]. split; [simpl; lia|].
  apply (delnode_reports_the_code_inside_the_reply 3 [] [] (Some API_ENOENT)
           (CommandDelNode.mk 7 true) client0).
  - reflexivity.
  - reflexivity.
  - simpl. lia.
Defined.

(** ** The SMS verification commands: phone numbers and codes *)

Lemma digits_all_digits (s : string) :
  CommandSMSVerificationCheck.digits s = true <-> all_digits s.
Proof.
  unfold all_digits. induction s as [|a s IH]; simpl.
  - split; [intros _ i ch H; destruct i; discriminate|reflexivity].
  - destruct (isdigit a) eqn:Ha; simpl.
    + rewrite IH. split.
      * intros H [|i] ch; simpl; [intros [= <-]; exact Ha|apply H].
      * intros H i ch Hi. apply (H (S i) ch). exact Hi.
    + split; [discriminate|]. intros H. specialize (H 0%nat a eq_refl). congruence.
Qed.

Lemma char_at_get (s : string) (i : nat) (ch : Ascii.ascii) :
  String.get i s = Some ch -> char_at s i = ch.
Proof. unfold char_at. intros ->. reflexivity. Qed.

Lemma get_in_range (s : string) : forall i, (i < String.length s)%nat -> is_Some (String.get i s).
Proof.
  induction s as [|a s IH]; intros i Hi; simpl in *; [lia|].
  destruct i; [eauto|]. apply IH. lia.
Qed.

Lemma get_length (s : string) : forall i ch, String.get i s = Some ch -> (i < String.length s)%nat.
Proof.
  induction s as [|a s IH]; intros i ch Hi; simpl in *; [discriminate|].
  destruct i; [lia|]. apply IH in Hi. lia.
Qed.

(** The scan from index [n] down accepts a string whose characters
    below [n] are digits, a plus sign in front allowed. *)
Lemma scan_spec (s : string) (n : nat) :
  (n <= String.length s)%nat ->
  CommandSMSVerificationSend.scan s n = true
  <-> forall i ch, (i < n)%nat -> String.get i s = Some ch ->
                   isdigit ch = true \/ (i = 0%nat /\ ch = plus_sign).
Proof.
  induction n as [|n IH]; intros Hn; simpl.
  - split; [intros _ i ch Hi; lia|reflexivity].
  - destruct (get_in_range s n) as [c Hc]; [lia|].
    rewrite (char_at_get _ _ _ Hc).
    destruct (isdigit c || (bool_decide (n = 0%nat) && bool_decide (c = plus_sign))) eqn:E; simpl.
    + rewrite IH by lia. split.
      * intros H i ch Hi Hg. destruct (decide (i = n)) as [->|Hne].
        -- rewrite Hc in Hg. injection Hg as <-.
           apply orb_true_iff in E as [E|E]; [left; exact E|right].
           apply andb_true_iff in E as [E1 E2].
           apply bool_decide_eq_true in E1, E2. auto.
        -- apply H; [lia|exact Hg].
      * intros H i ch Hi. apply H. lia.
    + split; [discriminate|]. intros H.
      destruct (H n c) as [Hd|[H0 Hp]]; [lia|exact Hc| |].
      * rewrite Hd in E. discriminate.
      * rewrite H0, Hp in E. rewrite !bool_decide_eq_true_2 in E by reflexivity.
        rewrite orb_true_r in E. discriminate.
Qed.

(** X15: [isPhoneNumber] accepts exactly the strings of more than
    six characters that are all digits, or a plus sign followed by
    digits only. *)
Theorem isPhoneNumber_spec (s : string) :
  CommandSMSVerificationSend.isPhoneNumber s = true
  <-> (6 < String.length s)%nat
      /\ (all_digits s \/ exists t, s = String plus_sign t /\ all_digits t).
Proof.
  unfold CommandSMSVerificationSend.isPhoneNumber.
  pose proof (scan_spec s (String.length s) (Nat.le_refl _)) as Hs.
  destruct (CommandSMSVerificationSend.scan s (String.length s)) eqn:E.
  - destruct Hs as [Hs _]. specialize (Hs eq_refl).
    rewrite bool_decide_eq_true. split.
    + intros Hl. split; [exact Hl|].
      destruct s as [|a t]; [simpl in Hl; lia|].
      destruct (Hs 0%nat a) as [Ha|[_ ->]]; [simpl; lia|reflexivity| |].
      * left. intros i ch Hi. destruct (Hs i ch) as [Hd|[-> Hp]]; auto.
        -- eapply get_length. exact Hi.
        -- simpl in Hi. injection Hi as <-. exact Ha.
      * right. exists t. split; [reflexivity|].
        intros i ch Hi. destruct (Hs (S i) ch) as [Hd|[H0 _]]; auto.
        -- apply get_length in Hi. simpl. lia.
        -- discriminate.
    + intros [Hl _]. exact Hl.
  - split; [discriminate|]. intros [Hl Hd]. exfalso.
    assert (Hno : false = true); [|discriminate].
    apply Hs. intros i ch Hi Hg. destruct Hd as [Hd|(t & -> & Hd)].
    + left. eapply Hd. exact Hg.
    + destruct i; simpl in Hg; [injection Hg as <-; auto|left; eapply Hd; exact Hg].
Qed.

Lemma digits_scan (s : string) :
  CommandSMSVerificationCheck.digits s = true ->
  CommandSMSVerificationSend.scan s (String.length s) = true.
Proof.
  intros H. apply scan_spec; [lia|]. intros i ch _ Hg. left.
  apply digits_all_digits in H. eapply H. exact Hg.
Qed.

(** X16: [isVerificationCode] accepts exactly the strings of six
    digits.  No verification code is a phone number, and a plus sign
    followed by a verification code is one. *)
Theorem isVerificationCode_spec (s : string) :
  (CommandSMSVerificationCheck.isVerificationCode s = true
   <-> String.length s = 6%nat /\ all_digits s)
  /\ (CommandSMSVerificationCheck.isVerificationCode s = true ->
      CommandSMSVerificationSend.isPhoneNumber s = false
      /\ CommandSMSVerificationSend.isPhoneNumber (String plus_sign s) = true).
Proof.
  unfold CommandSMSVerificationCheck.isVerificationCode.
  pose proof (digits_all_digits s) as Hd.
  destruct (CommandSMSVerificationCheck.digits s) eqn:E.
  - rewrite bool_decide_eq_true. split.
    + split; [intros Hl; split; [exact Hl|apply Hd; reflexivity]|intros [Hl _]; exact Hl].
    + intros Hl. split.
      * unfold CommandSMSVerificationSend.isPhoneNumber.
        rewrite digits_scan by exact E. apply bool_decide_eq_false. lia.
      * apply isPhoneNumber_spec. split; [simpl; lia|].
        right. exists s. split; [reflexivity|apply Hd; reflexivity].
  - split; [|discriminate]. split; [discriminate|].
    intros [_ Ha]. apply Hd in Ha. discriminate.
Qed.

(** ** CommandGetCountryCallingCodes: the reply as a map *)

Lemma map_text_Str (l : list string) : map JSON.text (map JSON.Str l) = l.
Proof. induction l as [|a l IH]; simpl; [reflexivity|rewrite IH; reflexivity]. Qed.

Lemma complete_Str (l : list string) : forallb JSON.complete (map JSON.Str l) = true.
Proof. induction l; simpl; auto. Qed.

(** The turns given to an entry are enough for it: the loop over
    its members returns. *)
Lemma callingcodes_entry_returns (fuel : nat) : forall cc codes j,
  (JSON.names (JSON.cur j) < fuel)%nat ->
  is_Some (CommandGetCountryCallingCodes.entry fuel cc codes j).
Proof.
  induction fuel as [|fuel IH]; intros cc codes j Hf; [lia|].
  simpl. destruct (JSON.getnameid j) as [id j0] eqn:Eid.
  destruct (getnameid_names _ _ _ Eid) as [->|Hn]; [simpl; eauto|].
  destruct (is_name id "cc").
  { destruct (JSON.storeobject j0) as [[ok s] j1] eqn:Es.
    apply storeobject_names in Es as (Hs & _). apply IH. lia. }
  destruct (is_name id "l").
  { destruct (JSON.enterarray j0) as [ok j1] eqn:Ee.
    destruct (enterarray_cases _ _ _ Ee) as [[-> ->]|(-> & l & r & Ej & ->)];
      [apply IH; lia|].
    destruct (store_strings _ _ _) as [acc j2] eqn:Es.
    destruct (store_strings_names _ _ _ _ _ Es) as [Hs Hu]. simpl in Hs, Hu.
    rewrite names_values in Hs.
    destruct (JSON.leavearray j2) as [ok j3] eqn:El.
    pose proof (leavearray_names _ _ _ _ _ Hu El) as Hl.
    apply IH. rewrite Ej in Hn. simpl in Hn. lia. }
  destruct (bool_decide (id = EOO)); [eauto|].
  destruct (JSON.storeobject j0) as [[ok s] j1] eqn:Es.
  apply storeobject_names in Es as (Hs & _).
  destruct ok; [apply IH; lia|eauto].
Qed.

(** One well-formed entry is read to its end. *)
Lemma callingcodes_entry_reads (e : string * list string) (r : list JSON.item)
  (u : list (list JSON.item)) (fuel : nat) :
  CommandGetCountryCallingCodes.entry (S (S (S fuel))) "" []
    (JSON.mk (JSON.members [(MAKENAMEID "cc", JSON.Str (fst e));
                            (MAKENAMEID "l", JSON.Arr (map JSON.Str (snd e)))]) (r :: u))
  = Some (inr (fst e, snd e, JSON.mk [] (r :: u))).
Proof.
  cbn [CommandGetCountryCallingCodes.entry]. unfold JSON.getnameid. simpl.
  unfold JSON.storeobject, JSON.enterarray. simpl.
  rewrite length_map.
  pose proof (store_strings_complete (map JSON.Str (snd e)) [] ([] :: r :: u) (complete_Str _))
    as Hs.
  rewrite length_map, map_text_Str in Hs. simpl in Hs. rewrite Hs. reflexivity.
Qed.

Lemma callingcodes_entries_read (es : list (string * list string)) :
  forall fuel success m u,
  (length es < fuel)%nat ->
  CommandGetCountryCallingCodes.entries fuel success m
    (JSON.mk (map JSON.IVal (map calling_codes_entry es)) u)
  = Some (if success && forallb calling_codes_ok es
          then (true,
                [CommandGetCountryCallingCodes.getcountrycallingcodes_result API_OK
                   (Some (fold_left (fun m e => CommandGetCountryCallingCodes.emplace (fst e) (snd e) m)
                            es m))],
                JSON.mk [] u)
          else (false,
                [CommandGetCountryCallingCodes.getcountrycallingcodes_result API_EINTERNAL None],
                JSON.mk [] u)).
Proof.
  induction es as [|e es IH]; intros fuel success m u Hf;
    (destruct fuel as [|fuel]; [simpl in Hf; lia|]).
  - simpl. rewrite andb_true_r. destruct success; reflexivity.
  - cbn [CommandGetCountryCallingCodes.entries map]. unfold JSON.enterobject.
    cbn [JSON.cur JSON.up calling_codes_entry].
    rewrite names_members. cbn [length].
    rewrite (callingcodes_entry_reads e (map JSON.IVal (map calling_codes_entry es)) u 0).
    unfold leaveobject. cbn [JSON.cur JSON.up].
    cbn [forallb]. unfold calling_codes_ok at 1.
    destruct (bool_decide (fst e = "")); simpl.
    { rewrite IH by (simpl in Hf; lia). rewrite andb_false_r. reflexivity. }
    destruct (bool_decide (snd e = [])); simpl.
    { rewrite IH by (simpl in Hf; lia). rewrite andb_false_r. reflexivity. }
    rewrite IH by (simpl in Hf; lia). reflexivity.
Qed.

(** Among entries with a country code the map holds, for each
    country, the list of its first entry. *)
Lemma callingcodes_first_wins (es : list (string * list string)) :
  forall m cc,
  fold_left (fun m e => CommandGetCountryCallingCodes.emplace (fst e) (snd e) m) es m !! cc
  = match m !! cc with
    | Some l => Some l
    | None => first_codes cc es
    end.
Proof.
  induction es as [|e es IH]; intros m cc; simpl.
  - destruct (m !! cc); reflexivity.
  - rewrite IH. unfold CommandGetCountryCallingCodes.emplace.
    destruct (m !! fst e) as [l0|] eqn:E0.
    + destruct (m !! cc) as [l|] eqn:Ec; [reflexivity|].
      rewrite bool_decide_eq_false_2; [reflexivity|].
      intros He. rewrite He in E0. congruence.
    + destruct (decide (fst e = cc)) as [<-|Hne].
      * rewrite lookup_insert_eq, E0, bool_decide_eq_true_2 by reflexivity. reflexivity.
      * rewrite lookup_insert_ne by assumption.
        rewrite (bool_decide_eq_false_2 (fst e = cc)) by assumption. reflexivity.
Qed.

(** X17: the reply [[{"cc":c,"l":[codes]}, ..]] to the request for
    the country calling codes is read to its end.  When every entry
    has a country code and at least one calling code, the application
    gets [API_OK] with a map in which each country has the codes of its
    first entry, and [procresult] returns true.  When some entry has
    an empty country code or no calling code, the application gets
    [API_EINTERNAL] without a map and [procresult] returns false,
    though nothing in the reply was malformed. *)
Theorem callingcodes_reply
  (fuel : nat) (es : list (string * list string)) (u : list (list JSON.item)) :
  (length es < fuel)%nat ->
  exists calls,
    CommandGetCountryCallingCodes.procresult fuel JsonArray
      (JSON.mk (map JSON.IVal (map calling_codes_entry es)) u)
    = Some (forallb calling_codes_ok es, calls, JSON.mk [] u)
    /\ if forallb calling_codes_ok es
       then exists m,
              calls = [CommandGetCountryCallingCodes.getcountrycallingcodes_result API_OK (Some m)]
              /\ forall cc, m !! cc = first_codes cc es
       else calls = [CommandGetCountryCallingCodes.getcountrycallingcodes_result API_EINTERNAL None].
Proof.
  intros Hf. unfold CommandGetCountryCallingCodes.procresult. simpl wasErrorOrOK. cbv iota.
  rewrite callingcodes_entries_read by exact Hf. simpl.
  destruct (forallb calling_codes_ok es).
  - eexists. split; [reflexivity|]. eexists. split; [reflexivity|].
    intros cc. rewrite callingcodes_first_wins. rewrite lookup_empty. reflexivity.
  - eexists. split; reflexivity.
Qed.

(** Two entries for the same country. *)
Lemma callingcodes_reply_witness :
  (length [("ES", ["34"]); ("ES", ["35"])] < 3)%nat
  /\ exists calls,
    CommandGetCountryCallingCodes.procresult 3 JsonArray
      (JSON.mk (map JSON.IVal (map calling_codes_entry [("ES", ["34"]); ("ES", ["35"])])) [])
    = Some (forallb calling_codes_ok [("ES", ["34"]); ("ES", ["35"])], calls, JSON.mk [] [])
    /\ if forallb calling_codes_ok [("ES", ["34"]); ("ES", ["35"])]
       then exists m,
              calls = [CommandGetCountryCallingCodes.getcountrycallingcodes_result API_OK (Some m)]
              /\ forall cc, m !! cc = first_codes cc [("ES", ["34"]); ("ES", ["35"])]
       else calls = [CommandGetCountryCallingCodes.getcountrycallingcodes_result API_EINTERNAL None].
Proof.
  split; [simpl; lia|].
  apply (callingcodes_reply 3 [("ES", ["34"]); ("ES", ["35"])] []).
  simpl. lia.
Defined.

(** ** The request of CommandPutFile: one handle for each tree *)

Section PutFileRequestFacts.
Context (ns : gmap handle Node) (getrootnode : handle -> handle).

Lemma sent_handles_app (a b : list field) :
  sent_handles (a ++ b) = sent_handles a ++ sent_handles b.
Proof. unfold sent_handles. apply omap_app. Qed.

Lemma sent_users_app (a b : list field) : sent_users (a ++ b) = sent_users a ++ sent_users b.
Proof. unfold sent_users. apply omap_app. Qed.

Lemma sent_roots_element (req : list field) (h : handle) :
  sent_roots ns getrootnode (req ++ [element_handle h])
  = sent_roots ns getrootnode req ++ (if bool_decide (is_Some (ns !! h)) then [getrootnode h] else []).
Proof.
  unfold sent_roots. rewrite sent_handles_app, filter_app, map_app. f_equal.
  simpl. rewrite filter_cons, filter_nil.
  destruct (decide (is_Some (ns !! h))) as [H|H].
  - rewrite bool_decide_eq_true_2 by assumption. reflexivity.
  - rewrite bool_decide_eq_false_2 by assumption. reflexivity.
Qed.

Lemma sent_roots_beginarray (req : list field) (k : string) :
  sent_roots ns getrootnode (req ++ [beginarray k]) = sent_roots ns getrootnode req.
Proof.
  unfold sent_roots. rewrite sent_handles_app. simpl. rewrite app_nil_r. reflexivity.
Qed.

(** What the first loop keeps and brings about: the set of roots is
    that of the handles sent; no root is sent twice; every file with a
    target node is covered; and nothing but handles, after one
    [beginarray], is appended. *)
Lemma targets_spec (files : list File) :
  forall roots begun req,
  (forall x, x ∈ roots <-> x ∈ sent_roots ns getrootnode req) ->
  NoDup (sent_roots ns getrootnode req) ->
  (begun = false -> sent_handles req = []) ->
  NoDup (sent_roots ns getrootnode (PutFileRequest.targets ns getrootnode files roots begun req).2)
  /\ (forall h, h ∈ sent_handles req ->
                h ∈ sent_handles (PutFileRequest.targets ns getrootnode files roots begun req).2)
  /\ (forall f, f ∈ files -> file_h f <> UNDEF ->
        match ns !! file_h f with
        | Some _ =>
            exists h, h ∈ sent_handles (PutFileRequest.targets ns getrootnode files roots begun req).2
                      /\ is_Some (ns !! h) /\ getrootnode h = getrootnode (file_h f)
        | None =>
            file_h f ∈ sent_handles (PutFileRequest.targets ns getrootnode files roots begun req).2
        end)
  /\ sent_users (PutFileRequest.targets ns getrootnode files roots begun req).2 = sent_users req
  /\ ((PutFileRequest.targets ns getrootnode files roots begun req).1 = false ->
      sent_handles (PutFileRequest.targets ns getrootnode files roots begun req).2 = []).
Proof.
  induction files as [|file files IH]; intros roots begun req Hr Hnd Hb.
  - simpl. repeat split; auto. intros f Hf. apply elem_of_nil in Hf. contradiction.
  - assert (Hsend : forall roots' : gset handle,
              (forall x, x ∈ roots' <-> x ∈ sent_roots ns getrootnode req
                                              ++ (if bool_decide (is_Some (ns !! file_h file))
                                                  then [getrootnode (file_h file)] else [])) ->
              NoDup (sent_roots ns getrootnode req ++ (if bool_decide (is_Some (ns !! file_h file))
                                        then [getrootnode (file_h file)] else [])) ->
              let req1 := (if begun then req else req ++ [beginarray "t"])
                          ++ [element_handle (file_h file)] in
              (forall x, x ∈ roots' <-> x ∈ sent_roots ns getrootnode req1)
              /\ NoDup (sent_roots ns getrootnode req1)
              /\ sent_handles req1 = sent_handles req ++ [file_h file]
              /\ sent_users req1 = sent_users req).
    { intros roots' H1 H2 req1. unfold req1.
      rewrite sent_roots_element, sent_handles_app, sent_users_app. simpl.
      rewrite app_nil_r.
      destruct begun; rewrite ?sent_roots_beginarray, ?sent_handles_app, ?sent_users_app;
        simpl; rewrite ?app_nil_r; auto. }
    cbn [PutFileRequest.targets].
    destruct (ISUNDEF (file_h file)) eqn:Hu; cbn [negb].
    { (* no target node: the file is passed over *)
      destruct (IH roots begun req Hr Hnd Hb) as (H1 & H2 & H3 & H4 & H5).
      split; [exact H1|]. split; [exact H2|]. split; [|split; [exact H4|exact H5]].
      intros f Hf Hd. apply elem_of_cons in Hf as [->|Hf]; [|apply H3; assumption].
      unfold ISUNDEF in Hu. apply bool_decide_eq_true in Hu. contradiction. }
    destruct (ns !! file_h file) as [node|] eqn:Hn.
    + destruct (bool_decide (getrootnode (file_h file) ∈ roots)) eqn:Hin.
      * (* its tree has been named *)
        apply bool_decide_eq_true in Hin.
        destruct (IH roots begun req Hr Hnd Hb) as (H1 & H2 & H3 & H4 & H5).
        split; [exact H1|]. split; [exact H2|]. split; [|split; [exact H4|exact H5]].
        intros f Hf Hd. apply elem_of_cons in Hf as [->|Hf]; [|apply H3; assumption].
        rewrite Hn. apply Hr in Hin. unfold sent_roots in Hin.
        apply list_elem_of_fmap in Hin as (h & Hh & Hh').
        apply list_elem_of_filter in Hh' as [Hs Hh'].
        exists h. split; [apply H2; exact Hh'|]. split; [exact Hs|]. symmetry. exact Hh.
      * (* a new tree *)
        apply bool_decide_eq_false in Hin.
        destruct (Hsend ({[ getrootnode (file_h file) ]} ∪ roots)) as (Hr1 & Hnd1 & Hs1 & Hu1).
        { intros x. rewrite bool_decide_eq_true_2 by (rewrite ?Hn; eauto).
          rewrite elem_of_union, elem_of_singleton, elem_of_app, list_elem_of_singleton, Hr. tauto. }
        { rewrite bool_decide_eq_true_2 by (rewrite ?Hn; eauto).
          apply NoDup_app. split; [exact Hnd|]. split; [|apply NoDup_singleton].
          intros x Hx Hx'. apply list_elem_of_singleton in Hx'. subst x. apply Hin, Hr, Hx. }
        match goal with
        | |- context [PutFileRequest.targets ns getrootnode files ?r true ?q] =>
            destruct (IH r true q Hr1 Hnd1) as (H1 & H2 & H3 & H4 & H5); [discriminate|]
        end.
        split; [exact H1|].
        split; [intros h Hh; apply H2; rewrite Hs1; apply elem_of_app; auto|].
        split; [|split; [rewrite H4; exact Hu1|]].
        -- intros f Hf Hd. apply elem_of_cons in Hf as [->|Hf]; [|apply H3; assumption].
           rewrite Hn. exists (file_h file).
           split; [apply H2; rewrite Hs1; apply elem_of_app; right; left|].
           split; [rewrite ?Hn; eauto|reflexivity].
        -- intros Hb'. apply H5 in Hb' as Hnil.
           assert (Hx : file_h file ∈ @nil handle)
             by (rewrite <- Hnil; apply H2; rewrite Hs1; apply elem_of_app; right; left).
           apply elem_of_nil in Hx. contradiction.
    + (* a handle without a node is sent as it is *)
      destruct (Hsend roots) as (Hr1 & Hnd1 & Hs1 & Hu1).
      { intros x. rewrite bool_decide_eq_false_2 by (rewrite ?Hn; intros [? ?]; discriminate).
        rewrite app_nil_r. apply Hr. }
      { rewrite bool_decide_eq_false_2 by (rewrite ?Hn; intros [? ?]; discriminate).
        rewrite app_nil_r. exact Hnd. }
      match goal with
      | |- context [PutFileRequest.targets ns getrootnode files ?r true ?q] =>
          destruct (IH r true q Hr1 Hnd1) as (H1 & H2 & H3 & H4 & H5); [discriminate|]
      end.
      split; [exact H1|].
      split; [intros h Hh; apply H2; rewrite Hs1; apply elem_of_app; auto|].
      split; [|split; [rewrite H4; exact Hu1|]].
      * intros f Hf Hd. apply elem_of_cons in Hf as [->|Hf]; [|apply H3; assumption].
        rewrite Hn. apply H2. rewrite Hs1. apply elem_of_app. right. left.
      * intros Hb'. apply H5 in Hb' as Hnil.
        assert (Hx : file_h file ∈ @nil handle)
          by (rewrite <- Hnil; apply H2; rewrite Hs1; apply elem_of_app; right; left).
        apply elem_of_nil in Hx. contradiction.
Qed.

Lemma target_user_spec (files : list File) : forall req,
  sent_handles (PutFileRequest.target_user files req) = sent_handles req
  /\ exists us, sent_users (PutFileRequest.target_user files req) = sent_users req ++ us
                /\ (length us <= 1)%nat.
Proof.
  induction files as [|file files IH]; intros req; simpl.
  - split; [reflexivity|]. exists []. rewrite app_nil_r. auto.
  - destruct (ISUNDEF (file_h file) && negb (bool_decide (targetuser file = ""))).
    + rewrite sent_handles_app, sent_users_app. simpl. rewrite app_nil_r.
      split; [reflexivity|]. eexists. split; [reflexivity|]. simpl. lia.
    + apply IH.
Qed.

End PutFileRequestFacts.

(** X18: the request for an upload URL names each target tree
    once: no two handles it sends belong to nodes with the same root,
    every file whose target node is known has a handle of its tree in
    the request, and a target handle without a node is sent as it is.
    A target user is sent only when no handle was, and then only the
    first one. *)
Theorem putfile_request_names_each_tree_once
  (usehttps : bool) (ns : gmap handle Node) (getrootnode : handle -> handle) (size ms : Z)
  (files : list File) :
  NoDup (sent_roots ns getrootnode (PutFileRequest.make usehttps ns getrootnode size ms files))
  /\ (forall f, f ∈ files -> file_h f <> UNDEF ->
        match ns !! file_h f with
        | Some _ =>
            exists h,
              h ∈ sent_handles (PutFileRequest.make usehttps ns getrootnode size ms files)
              /\ is_Some (ns !! h) /\ getrootnode h = getrootnode (file_h f)
        | None => file_h f ∈ sent_handles (PutFileRequest.make usehttps ns getrootnode size ms files)
        end)
  /\ (sent_handles (PutFileRequest.make usehttps ns getrootnode size ms files) = []
      \/ sent_users (PutFileRequest.make usehttps ns getrootnode size ms files) = [])
  /\ (length (sent_users (PutFileRequest.make usehttps ns getrootnode size ms files)) <= 1)%nat.
Proof.
  unfold PutFileRequest.make.
  set (req0 := (if usehttps then [cmd_ "u"] ++ [arg_num "ssl" 2] else [cmd_ "u"])
               ++ [arg_num "v" 3; arg_num "s" size; arg_num "ms" ms]).
  assert (Hh0 : sent_handles req0 = []) by (unfold req0; destruct usehttps; reflexivity).
  assert (Hu0 : sent_users req0 = []) by (unfold req0; destruct usehttps; reflexivity).
  assert (Hr0 : sent_roots ns getrootnode req0 = []) by (unfold sent_roots; rewrite Hh0; reflexivity).
  destruct (targets_spec ns getrootnode files ∅ false req0) as (H1 & H2 & H3 & H4 & H5).
  { intros x. rewrite Hr0. split; [intros Hx; apply elem_of_empty in Hx; contradiction|].
    intros Hx. apply elem_of_nil in Hx. contradiction. }
  { rewrite Hr0. apply NoDup_nil_2. }
  { intros _. exact Hh0. }
  destruct (PutFileRequest.targets ns getrootnode files ∅ false req0) as [begun req] eqn:Et.
  simpl in H1, H2, H3, H4, H5.
  destruct begun.
  - assert (Hs : sent_handles (req ++ [endarray]) = sent_handles req)
      by (rewrite sent_handles_app; simpl; apply app_nil_r).
    assert (Hu : sent_users (req ++ [endarray]) = [])
      by (rewrite sent_users_app; simpl; rewrite app_nil_r, H4; exact Hu0).
    unfold sent_roots. rewrite Hs, Hu. split; [exact H1|]. split; [exact H3|].
    split; [right; reflexivity|simpl; lia].
  - destruct (target_user_spec files req) as (Hs & us & Hu & Hl).
    specialize (H5 eq_refl).
    unfold sent_roots. rewrite Hs, Hu, H4, Hu0, H5. simpl.
    split; [apply NoDup_nil_2|]. split; [|split; [left; reflexivity|exact Hl]].
    intros f Hf Hd. specialize (H3 f Hf Hd). rewrite H5 in H3.
    destruct (ns !! file_h f); [destruct H3 as (h & Hh & _)|];
      exfalso; eapply elem_of_nil; eassumption.
Qed.

(** ** CommandGetFile *)

(** The inner loop returns: each turn that goes on has consumed a
    key. *)
Lemma getfile_attrs_returns (fuel : nat) (cmd : CommandGetFile.t) : forall n f j,
  (JSON.names (JSON.cur j) < fuel)%nat ->
  exists x, CommandGetFile.attrs fuel cmd n f j = Some x
            /\ match x with
               | inl (_, calls) => calls = CommandGetFile.callFailedCompletion cmd API_EINTERNAL
               | inr _ => True
               end.
Proof.
  induction fuel as [|fuel IH]; intros n f j Hf; [lia|].
  simpl. destruct (JSON.getnameid j) as [id j0] eqn:Eid.
  destruct (getnameid_names _ _ _ Eid) as [->|Hn].
  { change (is_name EOO "c") with false. change (is_name EOO "n") with false.
    rewrite bool_decide_eq_true_2 by reflexivity.
    eexists. split; [reflexivity|exact I]. }
  destruct (is_name id "c").
  { destruct (JSON.storeobject j0) as [[ok v] j1] eqn:Es.
    apply storeobject_names in Es as (Hs & _).
    destruct ok; [apply IH; lia|eexists; split; reflexivity]. }
  destruct (is_name id "n").
  { destruct (JSON.storeobject j0) as [[ok v] j1] eqn:Es.
    apply storeobject_names in Es as (Hs & _).
    destruct ok; [apply IH; lia|eexists; split; reflexivity]. }
  destruct (bool_decide (id = EOO)); [eexists; split; [reflexivity|exact I]|].
  destruct (JSON.storeobject j0) as [[ok v] j1] eqn:Es.
  apply storeobject_names in Es as (Hs & _).
  destruct ok; [apply IH; lia|eexists; split; reflexivity].
Qed.

Lemma getfile_failed_due (cmd : CommandGetFile.t) (e : error) :
  CommandGetFile.canceled cmd = false ->
  length (CommandGetFile.completions (CommandGetFile.callFailedCompletion cmd e)) = getfile_due cmd.
Proof.
  intros Hc. unfold getfile_due, CommandGetFile.callFailedCompletion. rewrite Hc.
  destruct (CommandGetFile.mCompletion cmd); reflexivity.
Qed.

Lemma getfile_completions_app (a b : list CommandGetFile.call) :
  CommandGetFile.completions (a ++ b) = CommandGetFile.completions a ++ CommandGetFile.completions b.
Proof. unfold CommandGetFile.completions. apply omap_app. Qed.

(** The end of the reply object: the addresses are cached last,
    canceled or not. *)
Lemma getfile_at_end (decryptattr : string -> option (list JSON.item))
  (l : CommandGetFile.locals) (cmd : CommandGetFile.t) :
  exists b calls,
    CommandGetFile.at_end decryptattr l cmd
    = Some (b, calls ++ [CommandGetFile.cacheresolvedurls (CommandGetFile.tempurls l)
                           (CommandGetFile.tempips l)])
    /\ length (CommandGetFile.completions calls) = getfile_due cmd
    /\ (CommandGetFile.canceled cmd = true -> b = true /\ calls = []).
Proof.
  unfold CommandGetFile.at_end.
  destruct (CommandGetFile.canceled cmd) eqn:Hc.
  { exists true, []. unfold getfile_due. rewrite Hc. auto. }
  destruct (CommandGetFile.at_ l) as [a|].
  2:{ eexists _, _. split; [reflexivity|]. split; [|discriminate].
      apply getfile_failed_due, Hc. }
  destruct (decryptattr a) as [buf|].
  2:{ eexists _, _. split; [reflexivity|]. split; [|discriminate].
      apply getfile_failed_due, Hc. }
  destruct (getfile_attrs_returns (S (JSON.names buf)) cmd "" "" (JSON.mk buf []))
    as ([[b calls]|[n f]] & -> & Hx); [simpl; lia| |].
  - subst calls. eexists _, _. split; [reflexivity|]. split; [|discriminate].
    apply getfile_failed_due, Hc.
  - unfold getfile_due. rewrite Hc.
    destruct (CommandGetFile.mCompletion cmd) as [g|].
    + eexists _, [_]. split; [reflexivity|]. split; [reflexivity|discriminate].
    + exists false, []. split; [reflexivity|]. split; [reflexivity|discriminate].
Qed.

(** The loop over the reply returns, with the completions due; a
    canceled command has nothing called but, at the end of the object,
    the caching of the addresses. *)
Lemma getfile_parse_returns (decryptattr : string -> option (list JSON.item)) (fuel : nat)
  (cmd : CommandGetFile.t) : forall l c,
  (JSON.names (JSON.cur (json c)) < fuel)%nat ->
  exists b calls c',
    CommandGetFile.parse decryptattr fuel l cmd c = Some (b, calls, c')
    /\ length (CommandGetFile.completions calls) = getfile_due cmd
    /\ (CommandGetFile.canceled cmd = true ->
        if b then exists urls ips, calls = [CommandGetFile.cacheresolvedurls urls ips]
        else calls = []).
Proof.
  induction fuel as [|fuel IH]; intros l c Hf; [lia|].
  cbn [CommandGetFile.parse].
  destruct (JSON.getnameid (json c)) as [id j0] eqn:Eid.
  destruct (getnameid_names _ _ _ Eid) as [->|Hn].
  { simpl. destruct (getfile_at_end decryptattr l cmd) as (b & calls & -> & Hd & Hc).
    eexists _, _, _. split; [reflexivity|].
    rewrite getfile_completions_app, length_app, Hd. simpl. split; [lia|].
    intros Hcan. destruct (Hc Hcan) as [-> ->]. simpl. eauto. }
  destruct (is_name id "g").
  { destruct (CommandDirectRead.read_urls _ _) as [urls1 j1] eqn:Er.
    apply read_urls_names in Er. simpl in Er. apply IH. simpl. lia. }
  destruct (is_name id "ip").
  { destruct (loadIpsFromJson _ _) as [[ok ips] c1] eqn:El.
    apply loadIpsFromJson_frame in El as [_ Hl]. simpl in Hl. apply IH. lia. }
  destruct (is_name id "s").
  { destruct (JSON.getint _) as [n j1] eqn:Eg. apply getint_names in Eg as [Hg _].
    simpl in Hg. apply IH. simpl. lia. }
  destruct (is_name id "ts").
  { destruct (JSON.getint _) as [n j1] eqn:Eg. apply getint_names in Eg as [Hg _].
    simpl in Hg. apply IH. simpl. lia. }
  destruct (is_name id "tmd").
  { destruct (JSON.getint _) as [n j1] eqn:Eg. apply getint_names in Eg as [Hg _].
    simpl in Hg. apply IH. simpl. lia. }
  destruct (is_name id "at").
  { unfold JSON.getvalue. destruct (JSON.storeobject _) as [[ok v] j1] eqn:Es.
    apply storeobject_names in Es as (Hs & _). simpl in Hs. apply IH. simpl. lia. }
  destruct (is_name id "fa").
  { destruct (JSON.storeobject _) as [[ok v] j1] eqn:Es.
    apply storeobject_names in Es as (Hs & _). simpl in Hs. apply IH. simpl. lia. }
  destruct (is_name id "e").
  { destruct (JSON.getint _) as [n j1] eqn:Eg. apply getint_names in Eg as [Hg _].
    simpl in Hg. apply IH. simpl. lia. }
  destruct (is_name id "tl").
  { destruct (JSON.getint _) as [n j1] eqn:Eg. apply getint_names in Eg as [Hg _].
    simpl in Hg. apply IH. simpl. lia. }
  destruct (bool_decide (id = EOO)).
  { destruct (getfile_at_end decryptattr l cmd) as (b & calls & -> & Hd & Hc).
    eexists _, _, _. split; [reflexivity|].
    rewrite getfile_completions_app, length_app, Hd. simpl. split; [lia|].
    intros Hcan. destruct (Hc Hcan) as [-> ->]. simpl. eauto. }
  destruct (JSON.storeobject _) as [[ok v] j1] eqn:Es.
  apply storeobject_names in Es as (Hs & _). simpl in Hs.
  destruct ok; [apply IH; simpl; lia|].
  destruct (CommandGetFile.canceled cmd) eqn:Hcan.
  - eexists _, _, _. split; [reflexivity|]. unfold getfile_due. rewrite Hcan. auto.
  - eexists _, _, _. split; [reflexivity|]. split; [|discriminate].
    apply getfile_failed_due, Hcan.
Qed.

(** X19: whatever the reply, [CommandGetFile::procresult]
    returns, and it has called the completion of the command exactly
    once, with a failure or with the file; a canceled command never
    calls it.  Canceled, the command still has the addresses of the
    reply cached when it reads the reply to the end of its object
    (it returns true), and calls nothing when it returns false. *)
Theorem getfile_calls_back_once_unless_canceled
  (decryptattr : string -> option (list JSON.item)) (fuel : nat) (cmd : CommandGetFile.t)
  (r : Result) (c : MegaClient) :
  (JSON.names (JSON.cur (json c)) < fuel)%nat ->
  exists b calls c',
    CommandGetFile.procresult decryptattr fuel cmd r c = Some (b, calls, c')
    /\ length (CommandGetFile.completions calls)
       = (if CommandGetFile.canceled cmd then 0%nat
          else match CommandGetFile.mCompletion cmd with Some _ => 1%nat | None => 0%nat end)
    /\ (CommandGetFile.canceled cmd = true ->
        if wasErrorOrOK r then calls = []
        else if b then exists urls ips, calls = [CommandGetFile.cacheresolvedurls urls ips]
        else calls = []).
Proof.
  intros Hf. unfold CommandGetFile.procresult.
  destruct (wasErrorOrOK r).
  - destruct (CommandGetFile.canceled cmd) eqn:Hc.
    + eexists _, _, _. split; [reflexivity|]. auto.
    + eexists _, _, _. split; [reflexivity|]. split; [|discriminate].
      rewrite getfile_failed_due by assumption. unfold getfile_due. rewrite Hc. reflexivity.
  - destruct (getfile_parse_returns decryptattr fuel cmd CommandGetFile.locals0 c Hf)
      as (b & calls & c' & Hp & Hd & Hc).
    exists b, calls, c'. split; [exact Hp|]. split; [exact Hd|exact Hc].
Qed.

(** A command with a callback that accepts, on an empty reply object
    and with no attribute to decrypt. *)
Lemma getfile_calls_back_once_unless_canceled_witness :
  (JSON.names (JSON.cur (json client0)) < 1)%nat
  /\ exists b calls c',
    CommandGetFile.procresult (fun _ => None) 1 (CommandGetFile.mk false (Some (fun _ => true)))
      JsonObject client0 = Some (b, calls, c')
    /\ length (CommandGetFile.completions calls) = 1%nat
    /\ (false = true ->
        if wasErrorOrOK JsonObject then calls = []
        else if b then exists urls ips, calls = [CommandGetFile.cacheresolvedurls urls ips]
        else calls = []).
Proof.
  split; [simpl; lia|].
  apply (getfile_calls_back_once_unless_canceled (fun _ => None) 1
           (CommandGetFile.mk false (Some (fun _ => true))) JsonObject client0).
  simpl. lia.
Defined.

(** The turns of the loop, one key at a time. *)
Lemma getfile_turn_urls decryptattr (fuel : nat) l cmd (vs : list JSON.value) r u (c : MegaClient) :
  json c = JSON.mk (JSON.IName (MAKENAMEID "g") :: JSON.IVal (JSON.Arr vs) :: r) u ->
  forallb JSON.complete vs = true ->
  CommandGetFile.parse decryptattr (S fuel) l cmd c
  = CommandGetFile.parse decryptattr fuel
      (CommandGetFile.mkLocals (CommandGetFile.at_ l) API_OK (CommandGetFile.s l)
         (CommandGetFile.tl l) (CommandGetFile.ts l) (CommandGetFile.tm l)
         (CommandGetFile.fileattrstring l)
         (CommandGetFile.tempurls l ++ map JSON.text vs) (CommandGetFile.tempips l))
      cmd (set_json (JSON.mk r u) c).
Proof.
  intros Hj Hl. cbn [CommandGetFile.parse]. unfold JSON.getnameid. rewrite Hj.
  cbn [JSON.cur]. change (is_name (MAKENAMEID "g") "g") with true.
  cbn [json set_json JSON.at_ JSON.up].
  erewrite read_urls_array; [|reflexivity|exact Hl]. reflexivity.
Qed.

Lemma getfile_turn_size decryptattr (fuel : nat) l cmd (v : Z) r u (c : MegaClient) :
  json c = JSON.mk (JSON.IName (MAKENAMEID "s") :: JSON.IVal (JSON.Num v) :: r) u ->
  CommandGetFile.parse decryptattr (S fuel) l cmd c
  = CommandGetFile.parse decryptattr fuel
      (CommandGetFile.mkLocals (CommandGetFile.at_ l) (CommandGetFile.e l) v
         (CommandGetFile.tl l) (CommandGetFile.ts l) (CommandGetFile.tm l)
         (CommandGetFile.fileattrstring l) (CommandGetFile.tempurls l) (CommandGetFile.tempips l))
      cmd (set_json (JSON.mk r u) c).
Proof.
  intros Hj. cbn [CommandGetFile.parse]. unfold JSON.getnameid. rewrite Hj. reflexivity.
Qed.

Lemma getfile_turn_at decryptattr (fuel : nat) l cmd (a : string) r u (c : MegaClient) :
  json c = JSON.mk (JSON.IName (MAKENAMEID "at") :: JSON.IVal (JSON.Str a) :: r) u ->
  CommandGetFile.parse decryptattr (S fuel) l cmd c
  = CommandGetFile.parse decryptattr fuel
      (CommandGetFile.mkLocals (Some a) (CommandGetFile.e l) (CommandGetFile.s l)
         (CommandGetFile.tl l) (CommandGetFile.ts l) (CommandGetFile.tm l)
         (CommandGetFile.fileattrstring l) (CommandGetFile.tempurls l) (CommandGetFile.tempips l))
      cmd (set_json (JSON.mk r u) c).
Proof.
  intros Hj. cbn [CommandGetFile.parse]. unfold JSON.getnameid. rewrite Hj. reflexivity.
Qed.

Lemma getfile_turn_end decryptattr (fuel : nat) l cmd u (c : MegaClient) :
  json c = JSON.mk [] u ->
  CommandGetFile.parse decryptattr (S fuel) l cmd c
  = match CommandGetFile.at_end decryptattr l cmd with
    | Some (b, calls) => Some (b, calls, set_json (JSON.mk [] u) c)
    | None => None
    end.
Proof.
  intros Hj. cbn [CommandGetFile.parse]. unfold JSON.getnameid. rewrite Hj. reflexivity.
Qed.

(** X20: a download that goes through.  On the reply
    [{"g":[urls],"s":size,"at":a}], where [a] decrypts to the attributes
    [{"n":name,"c":fingerprint}], the completion is called once with
    [API_OK], the size, the URLs in the order of the reply, the name and
    the fingerprint; [procresult] returns what the completion returns,
    with the cursor at the end of the slot; and the URLs are cached
    after the completion has run. *)
Theorem getfile_hands_over_the_file
  (decryptattr : string -> option (list JSON.item)) (fuel : nat) (f : CommandGetFile.result -> bool)
  (urls : list string) (size : Z) (a name fingerprint : string) (c : MegaClient) :
  decryptattr a = Some (JSON.members [(MAKENAMEID "n", JSON.Str name);
                                      (MAKENAMEID "c", JSON.Str fingerprint)]) ->
  exists c',
    CommandGetFile.procresult decryptattr (4 + fuel) (CommandGetFile.mk false (Some f)) JsonObject
      (inside [(MAKENAMEID "g", JSON.Arr (map JSON.Str urls)); (MAKENAMEID "s", JSON.Num size);
               (MAKENAMEID "at", JSON.Str a)] c)
    = Some (f (CommandGetFile.mkResult API_OK size 0 0 0 (Some name) (Some fingerprint)
                 (Some "") urls []),
            [CommandGetFile.completion
               (CommandGetFile.mkResult API_OK size 0 0 0 (Some name) (Some fingerprint)
                  (Some "") urls []);
             CommandGetFile.cacheresolvedurls urls []],
            c')
    /\ JSON.cur (json c') = [].
Proof.
  intros Hd. unfold CommandGetFile.procresult.
  change (4 + fuel)%nat with (S (S (S (S fuel)))).
  cbn [wasErrorOrOK].
  erewrite getfile_turn_urls; [|reflexivity|apply complete_Str].
  erewrite getfile_turn_size; [|reflexivity].
  erewrite getfile_turn_at; [|reflexivity].
  erewrite getfile_turn_end; [|reflexivity].
  unfold CommandGetFile.at_end.
  cbn [CommandGetFile.canceled CommandGetFile.at_ CommandGetFile.locals0 CommandGetFile.tempurls
       CommandGetFile.tempips CommandGetFile.e CommandGetFile.s CommandGetFile.ts
       CommandGetFile.tm CommandGetFile.tl CommandGetFile.fileattrstring
       CommandGetFile.mCompletion].
  rewrite Hd, map_text_Str.
  eexists. split; [reflexivity|reflexivity].
Qed.

(** Two URLs, and attributes that decrypt whatever the text. *)
Lemma getfile_hands_over_the_file_witness :
  (fun _ : string => Some (JSON.members [(MAKENAMEID "n", JSON.Str "a.txt");
                                          (MAKENAMEID "c", JSON.Str "fp")])) "x"
  = Some (JSON.members [(MAKENAMEID "n", JSON.Str "a.txt"); (MAKENAMEID "c", JSON.Str "fp")])
  /\ exists c',
    CommandGetFile.procresult
      (fun _ => Some (JSON.members [(MAKENAMEID "n", JSON.Str "a.txt");
                                    (MAKENAMEID "c", JSON.Str "fp")]))
      (4 + 0) (CommandGetFile.mk false (Some (fun r => bool_decide (CommandGetFile.res_e r = API_OK))))
      JsonObject
      (inside [(MAKENAMEID "g", JSON.Arr (map JSON.Str ["https://a"; "https://b"]));
               (MAKENAMEID "s", JSON.Num 1024); (MAKENAMEID "at", JSON.Str "x")] client0)
    = Some ((fun r => bool_decide (CommandGetFile.res_e r = API_OK))
              (CommandGetFile.mkResult API_OK 1024 0 0 0 (Some "a.txt") (Some "fp")
                 (Some "") ["https://a"; "https://b"] []),
            [CommandGetFile.completion
               (CommandGetFile.mkResult API_OK 1024 0 0 0 (Some "a.txt") (Some "fp")
                  (Some "") ["https://a"; "https://b"] []);
             CommandGetFile.cacheresolvedurls ["https://a"; "https://b"] []],
            c')
    /\ JSON.cur (json c') = [].
Proof.
  split; [reflexivity|].
  apply (getfile_hands_over_the_file
           (fun _ => Some (JSON.members [(MAKENAMEID "n", JSON.Str "a.txt");
                                         (MAKENAMEID "c", JSON.Str "fp")]))
           0 (fun r => bool_decide (CommandGetFile.res_e r = API_OK))
           ["https://a"; "https://b"] 1024 "x" "a.txt" "fp" client0).
  reflexivity.
Defined.

(** ** CommandSetPendingContact *)

Lemma setpcr_completions_emit (x : CommandSetPendingContact.call) (c : CommandSetPendingContact.client) :
  CommandSetPendingContact.completions
    (CommandSetPendingContact.calls (CommandSetPendingContact.emit x c))
  = CommandSetPendingContact.completions (CommandSetPendingContact.calls c)
    ++ CommandSetPendingContact.completions [x].
Proof.
  unfold CommandSetPendingContact.completions, CommandSetPendingContact.emit.
  cbn [CommandSetPendingContact.calls]. apply omap_app.
Qed.

(** [doComplete] adds one completion and nothing else. *)
Lemma setpcr_doComplete (cmd : CommandSetPendingContact.t) h e a (c : CommandSetPendingContact.client) :
  CommandSetPendingContact.json (CommandSetPendingContact.doComplete cmd h e a c)
  = CommandSetPendingContact.json c
  /\ CommandSetPendingContact.pcrindex (CommandSetPendingContact.doComplete cmd h e a c)
     = CommandSetPendingContact.pcrindex c
  /\ CommandSetPendingContact.nodes (CommandSetPendingContact.doComplete cmd h e a c)
     = CommandSetPendingContact.nodes c
  /\ CommandSetPendingContact.newshares (CommandSetPendingContact.doComplete cmd h e a c)
     = CommandSetPendingContact.newshares c
  /\ CommandSetPendingContact.completions
       (CommandSetPendingContact.calls (CommandSetPendingContact.doComplete cmd h e a c))
     = CommandSetPendingContact.completions (CommandSetPendingContact.calls c) ++ [(h, e, a)].
Proof.
  unfold CommandSetPendingContact.doComplete. rewrite setpcr_completions_emit.
  destruct (CommandSetPendingContact.has_completion cmd); simpl; auto.
Qed.

(** The branch of an acknowledgement: what it reports and what it
    leaves as it was. *)
Lemma setpcr_acknowledged (cmd : CommandSetPendingContact.t) (c : CommandSetPendingContact.client) :
  forall h c', CommandSetPendingContact.acknowledged cmd c = (h, c') ->
  CommandSetPendingContact.json c' = CommandSetPendingContact.json c
  /\ CommandSetPendingContact.nodes c' = CommandSetPendingContact.nodes c
  /\ CommandSetPendingContact.completions (CommandSetPendingContact.calls c')
     = CommandSetPendingContact.completions (CommandSetPendingContact.calls c)
  /\ (h = UNDEF
      \/ exists kv, kv ∈ CommandSetPendingContact.pcrindex c
                    /\ CommandSetPendingContact.id (snd kv) = h
                    /\ CommandSetPendingContact.targetemail (snd kv)
                       = CommandSetPendingContact.temail cmd)
  /\ (CommandSetPendingContact.action cmd <> CommandSetPendingContact.OPCA_DELETE -> c' = c)
  /\ length (CommandSetPendingContact.pcrindex c') = length (CommandSetPendingContact.pcrindex c)
  /\ (forall i kv, CommandSetPendingContact.pcrindex c !! i = Some kv ->
        CommandSetPendingContact.targetemail (snd kv) <> CommandSetPendingContact.temail cmd ->
        CommandSetPendingContact.pcrindex c' !! i = Some kv)
  /\ (forall s, s ∈ CommandSetPendingContact.newshares c' ->
        s ∈ CommandSetPendingContact.newshares c
        \/ (CommandSetPendingContact.ns_pending s = h
            /\ CommandSetPendingContact.ns_access s = ACCESS_UNKNOWN
            /\ exists n shares,
                 n ∈ CommandSetPendingContact.nodes c
                 /\ CommandSetPendingContact.nodehandle n = CommandSetPendingContact.ns_h s
                 /\ CommandSetPendingContact.pendingshares n = Some shares
                 /\ h ∈ shares)).
Proof.
  intros h c'. unfold CommandSetPendingContact.acknowledged.
  destruct (list_find _ _) as [[i [k pcr]]|] eqn:Ef.
  2:{ intros [= <- <-]. repeat split; auto. }
  apply list_find_Some in Ef as (Hi & Hp & _). simpl in Hp.
  assert (Hin : (k, pcr) ∈ CommandSetPendingContact.pcrindex c)
    by (eapply list_elem_of_lookup_2; exact Hi).
  destruct (bool_decide (CommandSetPendingContact.action cmd = CommandSetPendingContact.OPCA_DELETE))
    eqn:Ha.
  2:{ intros [= <- <-]. repeat split; auto. right. exists (k, pcr). auto. }
  apply bool_decide_eq_true in Ha.
  intros [= <- <-]. cbn.
  split; [reflexivity|]. split; [reflexivity|].
  split.
  { unfold CommandSetPendingContact.completions. rewrite <- app_assoc, omap_app. simpl.
    apply app_nil_r. }
  split; [right; exists (k, pcr); auto|].
  split; [intros Hne; contradiction|].
  split; [apply length_alter|].
  split.
  { intros j kv Hj Hne. destruct (decide (i = j)) as [->|Hij].
    - rewrite Hi in Hj. injection Hj as <-. simpl in Hne. contradiction.
    - rewrite list_lookup_alter_ne by assumption. exact Hj. }
  intros s Hs. apply elem_of_app in Hs as [Hs|Hs]; [left; exact Hs|right].
  unfold CommandSetPendingContact.shares_of in Hs.
  apply list_elem_of_omap in Hs as (n & Hn & Hs).
  destruct (CommandSetPendingContact.pendingshares n) as [shares|] eqn:Hps; [|discriminate].
  destruct (bool_decide (CommandSetPendingContact.id pcr ∈ shares)) eqn:Hm; [|discriminate].
  apply bool_decide_eq_true in Hm. injection Hs as <-. simpl.
  split; [reflexivity|]. split; [reflexivity|]. exists n, shares. auto.
Qed.

(** X21: a bare status code settles the command at once:
    [procresult] returns true with the cursor where it was and has
    completed once, with that code.  The handle it reports is [UNDEF] or,
    on [API_OK], that of a request of the index with the e-mail of the
    command.  Unless the code is [API_OK] and the action a deletion, the
    index and the queue of new shares are as before.  A deletion removes
    no request and leaves the requests for other e-mails as they were;
    each share it queues is the removal ([ACCESS_UNKNOWN]) of a pending
    share that a node has with the request reported. *)
Theorem setpendingcontact_code_reply
  (env : Env) (fuel : nat) (cmd : CommandSetPendingContact.t) (e : error)
  (c : CommandSetPendingContact.client) :
  exists h c',
    CommandSetPendingContact.procresult env fuel cmd (StrictError e) c = Some (true, c')
    /\ CommandSetPendingContact.json c' = CommandSetPendingContact.json c
    /\ CommandSetPendingContact.completions (CommandSetPendingContact.calls c')
       = CommandSetPendingContact.completions (CommandSetPendingContact.calls c)
         ++ [(h, e, CommandSetPendingContact.action cmd)]
    /\ (h = UNDEF
        \/ (e = API_OK
            /\ exists kv, kv ∈ CommandSetPendingContact.pcrindex c
                          /\ CommandSetPendingContact.id (snd kv) = h
                          /\ CommandSetPendingContact.targetemail (snd kv)
                             = CommandSetPendingContact.temail cmd))
    /\ (e <> API_OK
        \/ CommandSetPendingContact.action cmd <> CommandSetPendingContact.OPCA_DELETE ->
        CommandSetPendingContact.pcrindex c' = CommandSetPendingContact.pcrindex c
        /\ CommandSetPendingContact.newshares c' = CommandSetPendingContact.newshares c)
    /\ length (CommandSetPendingContact.pcrindex c') = length (CommandSetPendingContact.pcrindex c)
    /\ (forall i kv, CommandSetPendingContact.pcrindex c !! i = Some kv ->
          CommandSetPendingContact.targetemail (snd kv) <> CommandSetPendingContact.temail cmd ->
          CommandSetPendingContact.pcrindex c' !! i = Some kv)
    /\ (forall s, s ∈ CommandSetPendingContact.newshares c' ->
          s ∈ CommandSetPendingContact.newshares c
          \/ (CommandSetPendingContact.ns_pending s = h
              /\ CommandSetPendingContact.ns_access s = ACCESS_UNKNOWN
              /\ exists n shares,
                   n ∈ CommandSetPendingContact.nodes c
                   /\ CommandSetPendingContact.nodehandle n = CommandSetPendingContact.ns_h s
                   /\ CommandSetPendingContact.pendingshares n = Some shares
                   /\ h ∈ shares)).
Proof.
  unfold CommandSetPendingContact.procresult. cbn [wasErrorOrOK wasError errorOrOK].
  destruct (bool_decide (e = API_OK)) eqn:He.
  - apply bool_decide_eq_true in He.
    destruct (CommandSetPendingContact.acknowledged cmd c) as [h c1] eqn:Ea.
    destruct (setpcr_acknowledged cmd c h c1 Ea) as (Hj & Hn & Hc & Hh & Hf & Hl & Ho & Hs).
    destruct (setpcr_doComplete cmd h e (CommandSetPendingContact.action cmd) c1)
      as (Dj & Dp & Dn & Ds & Dc).
    exists h, (CommandSetPendingContact.doComplete cmd h e (CommandSetPendingContact.action cmd) c1).
    split; [reflexivity|]. rewrite Dj, Dp, Ds, Dc, Hc.
    split; [exact Hj|]. split; [reflexivity|].
    split; [destruct Hh as [Hh|Hh]; [left; exact Hh|right; split; [exact He|exact Hh]]|].
    split; [|split; [exact Hl|split; [exact Ho|exact Hs]]].
    intros [Hne|Hne]; [contradiction|]. rewrite (Hf Hne). auto.
  - apply bool_decide_eq_false in He.
    destruct (setpcr_doComplete cmd UNDEF e (CommandSetPendingContact.action cmd) c)
      as (Dj & Dp & Dn & Ds & Dc).
    exists UNDEF, (CommandSetPendingContact.doComplete cmd UNDEF e
                     (CommandSetPendingContact.action cmd) c).
    split; [reflexivity|]. rewrite Dj, Dp, Ds, Dc.
    repeat split; auto.
Qed.

(** Moving the cursor first changes nothing of what the loop is
    said to have done. *)
Lemma setpcr_settled_set_json (cmd : CommandSetPendingContact.t) j c b c' :
  setpcr_settled cmd (CommandSetPendingContact.set_json j c) b c' -> setpcr_settled cmd c b c'.
Proof. intros H. exact H. Qed.

(** The end of the reply object. *)
Lemma setpcr_at_end (cmd : CommandSetPendingContact.t) (l : CommandSetPendingContact.locals)
  (c : CommandSetPendingContact.client) :
  exists b c',
    (if ISUNDEF (CommandSetPendingContact.p l)
     then Some (true, CommandSetPendingContact.doComplete cmd UNDEF API_EINTERNAL
                        (CommandSetPendingContact.action cmd) c)
     else
       match CommandSetPendingContact.eValue l, CommandSetPendingContact.m l with
       | Some e, Some m_ =>
           if negb (bool_decide (CommandSetPendingContact.action cmd
                                 = CommandSetPendingContact.OPCA_ADD))
              || bool_decide (CommandSetPendingContact.ts l = 0)
              || bool_decide (CommandSetPendingContact.uts l = 0)
           then Some (true, CommandSetPendingContact.doComplete cmd UNDEF API_EINTERNAL
                              (CommandSetPendingContact.action cmd) c)
           else
             Some (true,
                   CommandSetPendingContact.doComplete cmd (CommandSetPendingContact.p l)
                     API_OK (CommandSetPendingContact.action cmd)
                     (CommandSetPendingContact.emit
                        (CommandSetPendingContact.notifypcr (CommandSetPendingContact.p l))
                        (CommandSetPendingContact.emit
                           (CommandSetPendingContact.mappcr (CommandSetPendingContact.p l)
                              (CommandSetPendingContact.mkPcr
                                 (CommandSetPendingContact.p l) e m_
                                 (CommandSetPendingContact.ts l)
                                 (CommandSetPendingContact.uts l)
                                 (CommandSetPendingContact.msg l) true false))
                           c)))
       | _, _ => Some (true, CommandSetPendingContact.doComplete cmd UNDEF API_EINTERNAL
                               (CommandSetPendingContact.action cmd) c)
       end) = Some (b, c')
    /\ setpcr_settled cmd c b c'.
Proof.
  assert (Hfail : setpcr_settled cmd c true
                    (CommandSetPendingContact.doComplete cmd UNDEF API_EINTERNAL
                       (CommandSetPendingContact.action cmd) c)).
  { split; [reflexivity|]. split; [reflexivity|]. left. reflexivity. }
  destruct (ISUNDEF (CommandSetPendingContact.p l)) eqn:Hu; [eauto|].
  destruct (CommandSetPendingContact.eValue l) as [ev|]; [|eauto].
  destruct (CommandSetPendingContact.m l) as [mv|]; [|eauto].
  destruct (bool_decide (CommandSetPendingContact.action cmd = CommandSetPendingContact.OPCA_ADD))
    eqn:Ha; [|eauto].
  destruct (bool_decide (CommandSetPendingContact.ts l = 0)) eqn:Ht; [eauto|].
  destruct (bool_decide (CommandSetPendingContact.uts l = 0)) eqn:Hut; [eauto|].
  apply bool_decide_eq_true in Ha. apply bool_decide_eq_false in Ht, Hut.
  unfold ISUNDEF in Hu. apply bool_decide_eq_false in Hu.
  cbn [negb orb]. eexists _, _. split; [reflexivity|].
  split; [reflexivity|]. split; [reflexivity|]. right.
  split; [reflexivity|]. split; [exact Ha|].
  exists (CommandSetPendingContact.mkPcr (CommandSetPendingContact.p l) ev mv
            (CommandSetPendingContact.ts l) (CommandSetPendingContact.uts l)
            (CommandSetPendingContact.msg l) true false).
  cbn [CommandSetPendingContact.id CommandSetPendingContact.pcr_ts
       CommandSetPendingContact.pcr_uts CommandSetPendingContact.isoutgoing
       CommandSetPendingContact.changed_deleted].
  repeat (split; [first [assumption|reflexivity]|]).
  unfold setpcr_registered. cbn [CommandSetPendingContact.id]. rewrite Ha. reflexivity.
Qed.

(** The loop over the members of the request added: it returns, has
    touched neither the index nor the queue, and has either refused
    with one completion, or registered the request and completed. *)
Lemma setpcr_parse_returns (env : Env) (fuel : nat) (cmd : CommandSetPendingContact.t) :
  forall l c,
  (JSON.names (JSON.cur (CommandSetPendingContact.json c)) < fuel)%nat ->
  exists b c',
    CommandSetPendingContact.parse env fuel l cmd c = Some (b, c')
    /\ setpcr_settled cmd c b c'.
Proof.
  induction fuel as [|fuel IH]; intros l c Hf; [lia|].
  cbn [CommandSetPendingContact.parse].
  destruct (JSON.getnameid (CommandSetPendingContact.json c)) as [k j0] eqn:Eid.
  destruct (decide (k = EOO)) as [->|Hk].
  { change (is_name EOO "p") with false. change (is_name EOO "m") with false.
    change (is_name EOO "e") with false. change (is_name EOO "msg") with false.
    change (is_name EOO "ts") with false. change (is_name EOO "uts") with false.
    rewrite bool_decide_eq_true_2 by reflexivity. cbn iota.
    destruct (setpcr_at_end cmd l (CommandSetPendingContact.set_json j0 c)) as (b & c' & -> & Hs).
    eauto using setpcr_settled_set_json. }
  destruct (getnameid_names _ _ _ Eid) as [->|Hn]; [contradiction|].
  assert (Hstep : forall l' j1,
             (JSON.names (JSON.cur j1) <= JSON.names (JSON.cur j0))%nat ->
             exists b c',
               CommandSetPendingContact.parse env fuel l' cmd
                 (CommandSetPendingContact.set_json j1 (CommandSetPendingContact.set_json j0 c))
               = Some (b, c')
               /\ setpcr_settled cmd c b c').
  { intros l' j1 Hle.
    destruct (IH l' (CommandSetPendingContact.set_json j1 (CommandSetPendingContact.set_json j0 c)))
      as (b & c' & Hp & Hs); [simpl; lia|].
    exists b, c'. split; [exact Hp|].
    apply (setpcr_settled_set_json cmd j0), (setpcr_settled_set_json cmd j1), Hs. }
  destruct (is_name k "p").
  { destruct (CommandLogin.gethandle env _) as [h j1] eqn:Eg.
    apply gethandle_names in Eg. simpl in Eg. apply Hstep; lia. }
  destruct (is_name k "m").
  { unfold JSON.getvalue. destruct (JSON.storeobject _) as [[ok v] j1] eqn:Es.
    apply storeobject_names in Es as (Hs & _). simpl in Hs. apply Hstep; lia. }
  destruct (is_name k "e").
  { unfold JSON.getvalue. destruct (JSON.storeobject _) as [[ok v] j1] eqn:Es.
    apply storeobject_names in Es as (Hs & _). simpl in Hs. apply Hstep; lia. }
  destruct (is_name k "msg").
  { unfold JSON.getvalue. destruct (JSON.storeobject _) as [[ok v] j1] eqn:Es.
    apply storeobject_names in Es as (Hs & _). simpl in Hs. apply Hstep; lia. }
  destruct (is_name k "ts").
  { destruct (JSON.getint _) as [n j1] eqn:Eg. apply getint_names in Eg as [Hg _].
    simpl in Hg. apply Hstep; lia. }
  destruct (is_name k "uts").
  { destruct (JSON.getint _) as [n j1] eqn:Eg. apply getint_names in Eg as [Hg _].
    simpl in Hg. apply Hstep; lia. }
  rewrite bool_decide_eq_false_2 by assumption.
  destruct (JSON.storeobject _) as [[ok v] j1] eqn:Es.
  apply storeobject_names in Es as (Hs & _). simpl in Hs.
  destruct ok; [apply Hstep; lia|].
  eexists _, _. split; [reflexivity|].
  split; [reflexivity|]. split; [reflexivity|]. left. reflexivity.
Qed.

(** X22: a reply object registers a request only for an
    addition that came back whole.  Whatever the members of the reply,
    [procresult] returns, with the index and the queue of new shares
    untouched, and it has either completed once with [UNDEF] and
    [API_EINTERNAL], or (returning true, the action being an addition)
    registered and notified one outgoing request, with a defined handle
    and both times set, and then completed with its handle and
    [API_OK]. *)
Theorem setpendingcontact_registers_only_whole_additions
  (env : Env) (fuel : nat) (cmd : CommandSetPendingContact.t) (r : Result)
  (c : CommandSetPendingContact.client) :
  wasErrorOrOK r = false ->
  (JSON.names (JSON.cur (CommandSetPendingContact.json c)) < fuel)%nat ->
  exists b c',
    CommandSetPendingContact.procresult env fuel cmd r c = Some (b, c')
    /\ CommandSetPendingContact.pcrindex c' = CommandSetPendingContact.pcrindex c
    /\ CommandSetPendingContact.newshares c' = CommandSetPendingContact.newshares c
    /\ (CommandSetPendingContact.calls c'
        = CommandSetPendingContact.calls c
          ++ [if CommandSetPendingContact.has_completion cmd
              then CommandSetPendingContact.mCompletion UNDEF API_EINTERNAL
                     (CommandSetPendingContact.action cmd)
              else CommandSetPendingContact.setpcr_result UNDEF API_EINTERNAL
                     (CommandSetPendingContact.action cmd)]
        \/ (b = true
            /\ CommandSetPendingContact.action cmd = CommandSetPendingContact.OPCA_ADD
            /\ exists pcr,
                 CommandSetPendingContact.id pcr <> UNDEF
                 /\ CommandSetPendingContact.pcr_ts pcr <> 0
                 /\ CommandSetPendingContact.pcr_uts pcr <> 0
                 /\ CommandSetPendingContact.isoutgoing pcr = true
                 /\ CommandSetPendingContact.changed_deleted pcr = false
                 /\ CommandSetPendingContact.calls c'
                    = CommandSetPendingContact.calls c
                      ++ [CommandSetPendingContact.mappcr (CommandSetPendingContact.id pcr) pcr;
                          CommandSetPendingContact.notifypcr (CommandSetPendingContact.id pcr);
                          if CommandSetPendingContact.has_completion cmd
                          then CommandSetPendingContact.mCompletion
                                 (CommandSetPendingContact.id pcr) API_OK
                                 CommandSetPendingContact.OPCA_ADD
                          else CommandSetPendingContact.setpcr_result
                                 (CommandSetPendingContact.id pcr) API_OK
                                 CommandSetPendingContact.OPCA_ADD])).
Proof.
  intros Hr Hf. unfold CommandSetPendingContact.procresult. rewrite Hr.
  destruct (setpcr_parse_returns env fuel cmd CommandSetPendingContact.locals0 c Hf)
    as (b & c' & Hp & Hi & Hs & Hc).
  exists b, c'. split; [exact Hp|]. split; [exact Hi|]. split; [exact Hs|].
  destruct Hc as [Hc|(Hb & Ha & pcr & H1 & H2 & H3 & H4 & H5 & Hc)].
  - left. exact Hc.
  - right. split; [exact Hb|]. split; [exact Ha|]. exists pcr.
    repeat (split; [assumption|]).
    rewrite Hc. unfold CommandSetPendingContact.doComplete, CommandSetPendingContact.emit.
    cbn [CommandSetPendingContact.calls]. rewrite <- !app_assoc. reflexivity.
Qed.

(** A reminder with a callback, and an empty reply object. *)
Lemma setpendingcontact_registers_only_whole_additions_witness :
  wasErrorOrOK JsonObject = false
  /\ (JSON.names (JSON.cur (JSON.mk [] [])) < 1)%nat
  /\ exists b c',
    CommandSetPendingContact.procresult env0 1
      (CommandSetPendingContact.mk "a@b.c" CommandSetPendingContact.OPCA_REMIND true) JsonObject
      (CommandSetPendingContact.mkClient (JSON.mk [] []) [] [] [] []) = Some (b, c')
    /\ CommandSetPendingContact.pcrindex c' = []
    /\ CommandSetPendingContact.newshares c' = []
    /\ (CommandSetPendingContact.calls c'
        = [] ++ [CommandSetPendingContact.mCompletion UNDEF API_EINTERNAL
                   CommandSetPendingContact.OPCA_REMIND]
        \/ (b = true
            /\ CommandSetPendingContact.OPCA_REMIND = CommandSetPendingContact.OPCA_ADD
            /\ exists pcr,
                 CommandSetPendingContact.id pcr <> UNDEF
                 /\ CommandSetPendingContact.pcr_ts pcr <> 0
                 /\ CommandSetPendingContact.pcr_uts pcr <> 0
                 /\ CommandSetPendingContact.isoutgoing pcr = true
                 /\ CommandSetPendingContact.changed_deleted pcr = false
                 /\ CommandSetPendingContact.calls c'
                    = [] ++ [CommandSetPendingContact.mappcr (CommandSetPendingContact.id pcr) pcr;
                             CommandSetPendingContact.notifypcr (CommandSetPendingContact.id pcr);
                             CommandSetPendingContact.mCompletion
                               (CommandSetPendingContact.id pcr) API_OK
                               CommandSetPendingContact.OPCA_ADD])).
Proof.
  split; [reflexivity|]. split; [simpl; lia|].
  apply (setpendingcontact_registers_only_whole_additions env0 1
           (CommandSetPendingContact.mk "a@b.c" CommandSetPendingContact.OPCA_REMIND true)
           JsonObject (CommandSetPendingContact.mkClient (JSON.mk [] []) [] [] [] []));
    [reflexivity|simpl; lia].
Defined.

(** The turns of the loop, one key at a time. *)
Lemma setpcr_turn_handle (env : Env) (fuel : nat) l cmd (s : string) r u
  (c : CommandSetPendingContact.client) :
  CommandSetPendingContact.json c
  = JSON.mk (JSON.IName (MAKENAMEID "p") :: JSON.IVal (JSON.Str s) :: r) u ->
  CommandSetPendingContact.parse env (S fuel) l cmd c
  = CommandSetPendingContact.parse env fuel
      (CommandSetPendingContact.mkLocals (bytes_handle env (atob env s))
         (CommandSetPendingContact.ts l) (CommandSetPendingContact.uts l)
         (CommandSetPendingContact.eValue l) (CommandSetPendingContact.m l)
         (CommandSetPendingContact.msg l))
      cmd (CommandSetPendingContact.set_json (JSON.mk r u) c).
Proof.
  intros Hj. cbn [CommandSetPendingContact.parse]. unfold JSON.getnameid. rewrite Hj. reflexivity.
Qed.

Lemma setpcr_turn_target (env : Env) (fuel : nat) l cmd (s : string) r u
  (c : CommandSetPendingContact.client) :
  CommandSetPendingContact.json c
  = JSON.mk (JSON.IName (MAKENAMEID "m") :: JSON.IVal (JSON.Str s) :: r) u ->
  CommandSetPendingContact.parse env (S fuel) l cmd c
  = CommandSetPendingContact.parse env fuel
      (CommandSetPendingContact.mkLocals (CommandSetPendingContact.p l)
         (CommandSetPendingContact.ts l) (CommandSetPendingContact.uts l)
         (CommandSetPendingContact.eValue l) (Some s) (CommandSetPendingContact.msg l))
      cmd (CommandSetPendingContact.set_json (JSON.mk r u) c).
Proof.
  intros Hj. cbn [CommandSetPendingContact.parse]. unfold JSON.getnameid. rewrite Hj. reflexivity.
Qed.

Lemma setpcr_turn_originator (env : Env) (fuel : nat) l cmd (s : string) r u
  (c : CommandSetPendingContact.client) :
  CommandSetPendingContact.json c
  = JSON.mk (JSON.IName (MAKENAMEID "e") :: JSON.IVal (JSON.Str s) :: r) u ->
  CommandSetPendingContact.parse env (S fuel) l cmd c
  = CommandSetPendingContact.parse env fuel
      (CommandSetPendingContact.mkLocals (CommandSetPendingContact.p l)
         (CommandSetPendingContact.ts l) (CommandSetPendingContact.uts l)
         (Some s) (CommandSetPendingContact.m l) (CommandSetPendingContact.msg l))
      cmd (CommandSetPendingContact.set_json (JSON.mk r u) c).
Proof.
  intros Hj. cbn [CommandSetPendingContact.parse]. unfold JSON.getnameid. rewrite Hj. reflexivity.
Qed.

Lemma setpcr_turn_ts (env : Env) (fuel : nat) l cmd (v : Z) r u
  (c : CommandSetPendingContact.client) :
  CommandSetPendingContact.json c
  = JSON.mk (JSON.IName (MAKENAMEID "ts") :: JSON.IVal (JSON.Num v) :: r) u ->
  CommandSetPendingContact.parse env (S fuel) l cmd c
  = CommandSetPendingContact.parse env fuel
      (CommandSetPendingContact.mkLocals (CommandSetPendingContact.p l)
         v (CommandSetPendingContact.uts l)
         (CommandSetPendingContact.eValue l) (CommandSetPendingContact.m l)
         (CommandSetPendingContact.msg l))
      cmd (CommandSetPendingContact.set_json (JSON.mk r u) c).
Proof.
  intros Hj. cbn [CommandSetPendingContact.parse]. unfold JSON.getnameid. rewrite Hj. reflexivity.
Qed.

Lemma setpcr_turn_uts (env : Env) (fuel : nat) l cmd (v : Z) r u
  (c : CommandSetPendingContact.client) :
  CommandSetPendingContact.json c
  = JSON.mk (JSON.IName (MAKENAMEID "uts") :: JSON.IVal (JSON.Num v) :: r) u ->
  CommandSetPendingContact.parse env (S fuel) l cmd c
  = CommandSetPendingContact.parse env fuel
      (CommandSetPendingContact.mkLocals (CommandSetPendingContact.p l)
         (CommandSetPendingContact.ts l) v
         (CommandSetPendingContact.eValue l) (CommandSetPendingContact.m l)
         (CommandSetPendingContact.msg l))
      cmd (CommandSetPendingContact.set_json (JSON.mk r u) c).
Proof.
  intros Hj. cbn [CommandSetPendingContact.parse]. unfold JSON.getnameid. rewrite Hj. reflexivity.
Qed.

(** X23: an addition that came back whole is registered.  On the
    reply [{"p":handle,"m":target,"e":originator,"ts":t,"uts":u}] to an
    addition, with a handle that decodes and both times set, the
    command registers the outgoing request made of exactly these values
    (no message, not deleted), notifies it and completes with its handle
    and [API_OK]; [procresult] returns true at the end of the slot. *)
Theorem setpendingcontact_registers_the_request_added
  (env : Env) (fuel : nat) (temail : string) (has_completion : bool)
  (hs target originator : string) (t u : Z) (c : CommandSetPendingContact.client) :
  bytes_handle env (atob env hs) <> UNDEF ->
  t <> 0 ->
  u <> 0 ->
  CommandSetPendingContact.procresult env (6 + fuel)
    (CommandSetPendingContact.mk temail CommandSetPendingContact.OPCA_ADD has_completion)
    JsonObject
    (CommandSetPendingContact.set_json
       (JSON.mk (JSON.members [(MAKENAMEID "p", JSON.Str hs); (MAKENAMEID "m", JSON.Str target);
                               (MAKENAMEID "e", JSON.Str originator);
                               (MAKENAMEID "ts", JSON.Num t); (MAKENAMEID "uts", JSON.Num u)])
          (JSON.up (CommandSetPendingContact.json c))) c)
  = Some (true,
          CommandSetPendingContact.mkClient
            (JSON.mk [] (JSON.up (CommandSetPendingContact.json c)))
            (CommandSetPendingContact.pcrindex c) (CommandSetPendingContact.nodes c)
            (CommandSetPendingContact.newshares c)
            (CommandSetPendingContact.calls c
             ++ [CommandSetPendingContact.mappcr (bytes_handle env (atob env hs))
                   (CommandSetPendingContact.mkPcr (bytes_handle env (atob env hs))
                      originator target t u None true false);
                 CommandSetPendingContact.notifypcr (bytes_handle env (atob env hs));
                 if has_completion
                 then CommandSetPendingContact.mCompletion (bytes_handle env (atob env hs))
                        API_OK CommandSetPendingContact.OPCA_ADD
                 else CommandSetPendingContact.setpcr_result (bytes_handle env (atob env hs))
                        API_OK CommandSetPendingContact.OPCA_ADD])).
Proof.
  intros Hh Ht Hu. unfold CommandSetPendingContact.procresult.
  change (6 + fuel)%nat with (S (S (S (S (S (S fuel)))))).
  cbn [wasErrorOrOK].
  erewrite setpcr_turn_handle; [|reflexivity].
  erewrite setpcr_turn_target; [|reflexivity].
  erewrite setpcr_turn_originator; [|reflexivity].
  erewrite setpcr_turn_ts; [|reflexivity].
  erewrite setpcr_turn_uts; [|reflexivity].
  cbn [CommandSetPendingContact.parse]. unfold JSON.getnameid.
  cbn [CommandSetPendingContact.json CommandSetPendingContact.set_json JSON.cur].
  change (is_name EOO "p") with false. change (is_name EOO "m") with false.
  change (is_name EOO "e") with false. change (is_name EOO "msg") with false.
  change (is_name EOO "ts") with false. change (is_name EOO "uts") with false.
  rewrite (bool_decide_eq_true_2 (EOO = EOO)) by reflexivity. cbn iota.
  cbn [CommandSetPendingContact.p CommandSetPendingContact.ts CommandSetPendingContact.uts
       CommandSetPendingContact.eValue CommandSetPendingContact.m CommandSetPendingContact.msg
       CommandSetPendingContact.locals0 CommandSetPendingContact.action].
  unfold ISUNDEF. rewrite (bool_decide_eq_false_2 _ Hh).
  rewrite (bool_decide_eq_true_2
             (CommandSetPendingContact.OPCA_ADD = CommandSetPendingContact.OPCA_ADD)) by reflexivity.
  rewrite (bool_decide_eq_false_2 _ Ht), (bool_decide_eq_false_2 _ Hu).
  cbn [negb orb].
  unfold CommandSetPendingContact.doComplete, CommandSetPendingContact.emit.
  cbn [CommandSetPendingContact.calls CommandSetPendingContact.json
       CommandSetPendingContact.pcrindex CommandSetPendingContact.nodes
       CommandSetPendingContact.newshares CommandSetPendingContact.has_completion JSON.at_ JSON.up].
  rewrite <- !app_assoc. reflexivity.
Qed.

(** The request of [a@b.c] to [d@e.f], with handle 7. *)
Lemma setpendingcontact_registers_the_request_added_witness :
  bytes_handle env_handles (atob env_handles "Bw") <> UNDEF
  /\ 1600000000 <> 0
  /\ 1600000001 <> 0
  /\ CommandSetPendingContact.procresult env_handles (6 + 0)
       (CommandSetPendingContact.mk "d@e.f" CommandSetPendingContact.OPCA_ADD false)
       JsonObject
       (CommandSetPendingContact.set_json
          (JSON.mk (JSON.members [(MAKENAMEID "p", JSON.Str "Bw"); (MAKENAMEID "m", JSON.Str "d@e.f");
                                  (MAKENAMEID "e", JSON.Str "a@b.c");
                                  (MAKENAMEID "ts", JSON.Num 1600000000);
                                  (MAKENAMEID "uts", JSON.Num 1600000001)])
             (JSON.up (CommandSetPendingContact.json
                         (CommandSetPendingContact.mkClient (JSON.mk [] []) [] [] [] []))))
          (CommandSetPendingContact.mkClient (JSON.mk [] []) [] [] [] []))
     = Some (true,
             CommandSetPendingContact.mkClient (JSON.mk [] []) [] [] []
               [CommandSetPendingContact.mappcr 7
                  (CommandSetPendingContact.mkPcr 7 "a@b.c" "d@e.f" 1600000000 1600000001
                     None true false);
                CommandSetPendingContact.notifypcr 7;
                CommandSetPendingContact.setpcr_result 7 API_OK CommandSetPendingContact.OPCA_ADD]).
Proof.
  split; [discriminate|]. split; [discriminate|]. split; [discriminate|].
  apply (setpendingcontact_registers_the_request_added env_handles 0 "d@e.f" false
           "Bw" "d@e.f" "a@b.c" 1600000000 1600000001
           (CommandSetPendingContact.mkClient (JSON.mk [] []) [] [] [] []));
    discriminate.
Defined.

(** ** Sets *)

(** The loop of [procresultid] returns: each turn that goes on has
    consumed a key. *)
Lemma procresultid_members_returns (env : Env) (fuel : nat) : forall v j,
  (JSON.names (JSON.cur j) < fuel)%nat ->
  exists b v' j', CommandSE.members env fuel v j = Some (b, v', j')
                  /\ (is_Some (CommandSE.u v) -> is_Some (CommandSE.u v')).
Proof.
  induction fuel as [|fuel IH]; intros v j Hf; [lia|].
  cbn [CommandSE.members].
  destruct (JSON.getnameid j) as [k j0] eqn:Eid.
  destruct (decide (k = EOO)) as [->|Hk].
  { change (is_name EOO "id") with false. change (is_name EOO "u") with false.
    change (is_name EOO "s") with false. change (is_name EOO "ts") with false.
    change (is_name EOO "o") with false.
    rewrite bool_decide_eq_true_2 by reflexivity. eauto. }
  destruct (getnameid_names _ _ _ Eid) as [->|Hn]; [contradiction|].
  assert (Hskip : exists b v' j',
             (let '(ok, _, j1) := JSON.storeobject j0 in
              if ok then CommandSE.members env fuel v j1 else Some (false, v, j1))
             = Some (b, v', j')
             /\ (is_Some (CommandSE.u v) -> is_Some (CommandSE.u v'))).
  { destruct (JSON.storeobject j0) as [[ok x] j1] eqn:Es.
    apply storeobject_names in Es as (Hs & _).
    destruct ok; [apply IH; lia|eauto]. }
  destruct (is_name k "id").
  { destruct (CommandLogin.gethandle env j0) as [h j1] eqn:Eg.
    apply gethandle_names in Eg.
    destruct (IH (CommandSE.mkIds h (CommandSE.ts v) (CommandSE.u v) (CommandSE.s v)
                    (CommandSE.o v)) j1) as (b & v' & j' & Hm & Hu); [lia|]. eauto. }
  destruct (is_name k "u").
  { destruct (CommandSE.u v) as [x|] eqn:Eu; [|exact Hskip].
    destruct (CommandLogin.gethandle env j0) as [h j1] eqn:Eg.
    apply gethandle_names in Eg.
    destruct (IH (CommandSE.mkIds (CommandSE.id v) (CommandSE.ts v) (Some h) (CommandSE.s v)
                    (CommandSE.o v)) j1) as (b & v' & j' & Hm & Hu); [lia|].
    exists b, v', j'. split; [exact Hm|]. intros _. apply Hu. simpl. eauto. }
  destruct (is_name k "s").
  { destruct (CommandSE.s v) as [x|] eqn:Eu; [|exact Hskip].
    destruct (CommandLogin.gethandle env j0) as [h j1] eqn:Eg.
    apply gethandle_names in Eg.
    destruct (IH (CommandSE.mkIds (CommandSE.id v) (CommandSE.ts v) (CommandSE.u v) (Some h)
                    (CommandSE.o v)) j1) as (b & v' & j' & Hm & Hu); [lia|]. eauto. }
  destruct (is_name k "ts").
  { destruct (JSON.getint j0) as [n j1] eqn:Eg. apply getint_names in Eg as [Hg _].
    destruct (IH (CommandSE.mkIds (CommandSE.id v) n (CommandSE.u v) (CommandSE.s v)
                    (CommandSE.o v)) j1) as (b & v' & j' & Hm & Hu); [lia|]. eauto. }
  destruct (is_name k "o").
  { destruct (CommandSE.o v) as [x|] eqn:Eu; [|exact Hskip].
    destruct (JSON.getint j0) as [n j1] eqn:Eg. apply getint_names in Eg as [Hg _].
    destruct (IH (CommandSE.mkIds (CommandSE.id v) (CommandSE.ts v) (CommandSE.u v)
                    (CommandSE.s v) (Some n)) j1) as (b & v' & j' & Hm & Hu); [lia|]. eauto. }
  rewrite bool_decide_eq_false_2 by assumption. exact Hskip.
Qed.

(** X24: a Set is created only when the reply names its user.
    Whatever the reply, [CommandPutSet::procresult] returns and
    completes once (when it has a callback).  It hands a Set to the
    client to add only for a command without Set id, on an object reply
    read to its end, and the Set is new and has a user other than 0; it
    hands one to update only for a command with a Set id, with that id
    and the user the command had.  When it returns false the reply was
    no bare code, no Set was handed over and the completion is told
    [API_EINTERNAL].  A bare code leaves the cursor where it was; for a
    command without Set id it is reported as [API_EINTERNAL] whatever
    the code, for one with a Set id a code other than [API_OK] is passed
    on as it is. *)
Theorem putset_creates_only_sets_with_a_user
  (env : Env) (client_addSet : CommandPutSet.Set_ -> option CommandPutSet.Set_)
  (client_updateSet : CommandPutSet.Set_ -> bool)
  (fuel : nat) (cmd : CommandPutSet.t) (r : Result) (j : JSON.t) :
  (JSON.names (JSON.cur j) < fuel)%nat ->
  exists b calls j',
    CommandPutSet.procresult env client_addSet client_updateSet fuel cmd r j = Some (b, calls, j')
    /\ length (CommandPutSet.completions calls)
       = (if CommandPutSet.has_completion cmd then 1%nat else 0%nat)
    /\ (forall s, CommandPutSet.addSet s ∈ calls ->
          CommandPutSet.id (CommandPutSet.mSet cmd) = UNDEF
          /\ hasJsonObject r = true /\ b = true
          /\ CommandPutSet.user s <> 0 /\ CommandPutSet.CH_NEW s = true)
    /\ (forall s, CommandPutSet.updateSet s ∈ calls ->
          CommandPutSet.id (CommandPutSet.mSet cmd) <> UNDEF
          /\ CommandPutSet.id s = CommandPutSet.id (CommandPutSet.mSet cmd)
          /\ CommandPutSet.user s = CommandPutSet.user (CommandPutSet.mSet cmd)
          /\ b = true)
    /\ (b = false ->
        wasErrorOrOK r = false
        /\ calls = if CommandPutSet.has_completion cmd
                   then [CommandPutSet.completion API_EINTERNAL None] else [])
    /\ (forall e, r = StrictError e ->
          b = true /\ j' = j
          /\ (CommandPutSet.id (CommandPutSet.mSet cmd) = UNDEF ->
              calls = if CommandPutSet.has_completion cmd
                      then [CommandPutSet.completion API_EINTERNAL None] else [])
          /\ (CommandPutSet.id (CommandPutSet.mSet cmd) <> UNDEF -> e <> API_OK ->
              calls = if CommandPutSet.has_completion cmd
                      then [CommandPutSet.completion e None] else [])).
Proof.
  intros Hf. unfold CommandPutSet.procresult, CommandSE.procerrorcode, CommandSE.procresultid.
  assert (Hundef : forall h, ISUNDEF h = true -> h = UNDEF)
    by (intros h H; apply bool_decide_eq_true in H; exact H).
  assert (Hdef : forall h, ISUNDEF h = false -> h <> UNDEF)
    by (intros h H; apply bool_decide_eq_false in H; exact H).
  destruct r as [e| | |]; cbn [wasErrorOrOK errorOrOK hasJsonObject].
  - (* a bare code *)
    cbn [negb orb CommandSE.u CommandSE.id CommandSE.ts default].
    rewrite (bool_decide_eq_true_2 (0 = 0)) by reflexivity. rewrite andb_true_r.
    destruct (ISUNDEF (CommandPutSet.id (CommandPutSet.mSet cmd))) eqn:Hu.
    + apply Hundef in Hu.
      eexists _, _, _. split; [reflexivity|].
      destruct (CommandPutSet.has_completion cmd); cbn;
        (split; [reflexivity|]); (split; [intros s Hs; in_calls Hs|]);
        (split; [intros s Hs; in_calls Hs|]); (split; [discriminate|]);
        intros e' _; repeat split; auto; intros; contradiction.
    + apply Hdef in Hu.
      destruct (bool_decide (e = API_OK)) eqn:He.
      * apply bool_decide_eq_true in He.
        destruct (client_updateSet _) eqn:Hup;
          (eexists _, _, _; split; [reflexivity|]);
          destruct (CommandPutSet.has_completion cmd); cbn;
          (split; [reflexivity|]); (split; [intros s Hs; in_calls Hs|]);
          (split; [intros s Hs; in_calls Hs; injection Hs as ->; auto|]);
          (split; [discriminate|]);
          intros e' [= <-]; repeat split; auto; intros; contradiction.
      * apply bool_decide_eq_false in He.
        eexists _, _, _. split; [reflexivity|].
        destruct (CommandPutSet.has_completion cmd); cbn;
          (split; [reflexivity|]); (split; [intros s Hs; in_calls Hs|]);
          (split; [intros s Hs; in_calls Hs|]); (split; [discriminate|]);
          intros e' [= <-]; repeat split; auto; intros; contradiction.
  - (* an object *)
    destruct (procresultid_members_returns env fuel (CommandSE.mkIds 0 0 (Some 0) None None) j Hf)
      as (b & v & j' & -> & Hsome).
    destruct Hsome as [usr Husr]; [simpl; eauto|]. rewrite Husr.
    change (default 0 (Some usr)) with usr.
    rewrite (bool_decide_eq_true_2 (API_OK = API_OK)) by reflexivity.
    destruct b; cbn [negb orb].
    + destruct (ISUNDEF (CommandPutSet.id (CommandPutSet.mSet cmd))) eqn:Hu.
      * apply Hundef in Hu. cbn [andb]. destruct (bool_decide _) eqn:Hz.
        -- eexists _, _, _. split; [reflexivity|].
           destruct (CommandPutSet.has_completion cmd); cbn;
             (split; [reflexivity|]); (split; [intros s Hs; in_calls Hs|]);
             (split; [intros s Hs; in_calls Hs|]); (split; [discriminate|]);
             intros; discriminate.
        -- apply bool_decide_eq_false in Hz.
           eexists _, _, _. split; [reflexivity|].
           destruct (CommandPutSet.has_completion cmd); cbn;
             (split; [reflexivity|]);
             (split; [intros s Hs; in_calls Hs; injection Hs as ->; auto|]);
             (split; [intros s Hs; in_calls Hs|]); (split; [discriminate|]);
             intros; discriminate.
      * apply Hdef in Hu. cbn [andb].
        destruct (client_updateSet _) eqn:Hup;
          (eexists _, _, _; split; [reflexivity|]);
          destruct (CommandPutSet.has_completion cmd); cbn;
          (split; [reflexivity|]); (split; [intros s Hs; in_calls Hs|]);
          (split; [intros s Hs; in_calls Hs; injection Hs as ->; auto|]);
          (split; [discriminate|]);
          intros; discriminate.
    + eexists _, _, _. split; [reflexivity|].
      destruct (CommandPutSet.has_completion cmd); cbn;
        (split; [reflexivity|]); (split; [intros s Hs; in_calls Hs|]);
        (split; [intros s Hs; in_calls Hs|]); (split; [auto|]);
        intros; discriminate.
  - (* an array *)
    cbn [negb orb]. eexists _, _, _. split; [reflexivity|].
    destruct (CommandPutSet.has_completion cmd); cbn;
      (split; [reflexivity|]); (split; [intros s Hs; in_calls Hs|]);
      (split; [intros s Hs; in_calls Hs|]); (split; [auto|]);
      intros; discriminate.
  - (* a scalar *)
    cbn [negb orb]. eexists _, _, _. split; [reflexivity|].
    destruct (CommandPutSet.has_completion cmd); cbn;
      (split; [reflexivity|]); (split; [intros s Hs; in_calls Hs|]);
      (split; [intros s Hs; in_calls Hs|]); (split; [auto|]);
      intros; discriminate.
Qed.

(** A command that creates a Set, and an empty reply object. *)
Lemma putset_creates_only_sets_with_a_user_witness :
  (JSON.names (JSON.cur (JSON.mk [] [])) < 1)%nat
  /\ exists b calls j',
    CommandPutSet.procresult env0 Some (fun _ => true) 1
      (CommandPutSet.mk (CommandPutSet.mkSet UNDEF 0 0 false) true) JsonObject (JSON.mk [] [])
    = Some (b, calls, j')
    /\ length (CommandPutSet.completions calls) = 1%nat
    /\ (forall s, CommandPutSet.addSet s ∈ calls ->
          UNDEF = UNDEF
          /\ hasJsonObject JsonObject = true /\ b = true
          /\ CommandPutSet.user s <> 0 /\ CommandPutSet.CH_NEW s = true)
    /\ (forall s, CommandPutSet.updateSet s ∈ calls ->
          UNDEF <> UNDEF
          /\ CommandPutSet.id s = UNDEF
          /\ CommandPutSet.user s = 0
          /\ b = true)
    /\ (b = false ->
        wasErrorOrOK JsonObject = false
        /\ calls = [CommandPutSet.completion API_EINTERNAL None])
    /\ (forall e, JsonObject = StrictError e ->
          b = true /\ j' = JSON.mk [] []
          /\ (UNDEF = UNDEF -> calls = [CommandPutSet.completion API_EINTERNAL None])
          /\ (UNDEF <> UNDEF -> e <> API_OK -> calls = [CommandPutSet.completion e None])).
Proof.
  split; [simpl; lia|].
  apply (putset_creates_only_sets_with_a_user env0 Some (fun _ => true) 1
           (CommandPutSet.mk (CommandPutSet.mkSet UNDEF 0 0 false) true) JsonObject (JSON.mk [] [])).
  simpl. lia.
Defined.

(** ** CommandSetPH *)

(** The loop over the reply to a writable link returns; it moves
    the cursor only, and leaves with a key that is not empty. *)
Lemma setph_members_returns (env : Env) (fuel : nat) : forall ph authKey c,
  (JSON.names (JSON.cur (json c)) < fuel)%nat ->
  exists x, CommandSetPH.members env fuel ph authKey c = Some x
            /\ match x with
               | inl (calls, _) => calls = [CommandSetPH.completion API_EINTERNAL UNDEF UNDEF]
               | inr (_, key, c') => key <> "" /\ nodes c' = nodes c
               end.
Proof.
  induction fuel as [|fuel IH]; intros ph authKey c Hf; [lia|].
  cbn [CommandSetPH.members].
  destruct (JSON.getnameid (json c)) as [k j0] eqn:Eid.
  destruct (decide (k = EOO)) as [->|Hk].
  { change (is_name EOO "w") with false. change (is_name EOO "ph") with false.
    rewrite bool_decide_eq_true_2 by reflexivity.
    destruct (bool_decide (authKey = "")) eqn:Ha.
    - eexists. split; [reflexivity|reflexivity].
    - apply bool_decide_eq_false in Ha. eexists. split; [reflexivity|]. split; [exact Ha|reflexivity]. }
  destruct (getnameid_names _ _ _ Eid) as [->|Hn]; [contradiction|].
  assert (Hstep : forall ph' key' j1,
             (JSON.names (JSON.cur j1) <= JSON.names (JSON.cur j0))%nat ->
             exists x, CommandSetPH.members env fuel ph' key' (set_json j1 (set_json j0 c)) = Some x
                       /\ match x with
                          | inl (calls, _) =>
                              calls = [CommandSetPH.completion API_EINTERNAL UNDEF UNDEF]
                          | inr (_, key, c') => key <> "" /\ nodes c' = nodes c
                          end).
  { intros ph' key' j1 Hle.
    destruct (IH ph' key' (set_json j1 (set_json j0 c))) as (x & Hm & Hx); [simpl; lia|].
    exists x. split; [exact Hm|]. destruct x as [[calls c1]|[[ph1 key1] c1]]; exact Hx. }
  destruct (is_name k "w").
  { destruct (JSON.storeobject _) as [[ok v] j1] eqn:Es.
    apply storeobject_names in Es as (Hs & _). simpl in Hs. apply Hstep. lia. }
  destruct (is_name k "ph").
  { destruct (CommandLogin.gethandle env _) as [v j1] eqn:Eg.
    apply gethandle_names in Eg. simpl in Eg. apply Hstep. lia. }
  rewrite bool_decide_eq_false_2 by assumption.
  destruct (JSON.storeobject _) as [[ok v] j1] eqn:Es.
  apply storeobject_names in Es as (Hs & _). simpl in Hs.
  destruct ok; [apply Hstep; lia|].
  eexists. split; [reflexivity|reflexivity].
Qed.

(** X25: a public link is reported only with its handle.  Whatever
    the reply, [CommandSetPH::procresult] returns and its last call,
    the only one of its kind, is the completion.  On a reply that is
    no bare code it either returns false, having called nothing but
    the completion with [API_EINTERNAL], or returns true and reports
    [API_OK] with the node of the command and a public handle that is
    defined; the link is then set on the node, when the client has it,
    with that same handle, not taken down, and for a writable link with
    a key that is not empty. *)
Theorem setph_reports_a_link_only_with_its_handle
  (env : Env) (now : Z) (fuel : nat) (cmd : CommandSetPH.t) (r : Result) (c : MegaClient) :
  (JSON.names (JSON.cur (json c)) < fuel)%nat ->
  exists b calls c',
    CommandSetPH.procresult env now fuel cmd r c = Some (b, calls, c')
    /\ (forall e, r = StrictError e ->
          b = true /\ calls = [CommandSetPH.completion e UNDEF UNDEF] /\ c' = c)
    /\ (wasErrorOrOK r = false ->
        if b then
          exists ph key,
            ph <> UNDEF
            /\ (CommandSetPH.mWritable cmd = true -> key <> "")
            /\ calls
               = match nodeByHandle c (CommandSetPH.h cmd) with
                 | Some _ => [CommandSetPH.setpubliclink (CommandSetPH.h cmd) ph now
                                (CommandSetPH.ets cmd) false key;
                              CommandSetPH.notifynode (CommandSetPH.h cmd)]
                 | None => []
                 end ++ [CommandSetPH.completion API_OK (CommandSetPH.h cmd) ph]
        else calls = [CommandSetPH.completion API_EINTERNAL UNDEF UNDEF]).
Proof.
  intros Hf. unfold CommandSetPH.procresult.
  assert (Hfin : forall ph key c1,
             nodes c1 = nodes c ->
             (CommandSetPH.mWritable cmd = true -> key <> "") ->
             exists b calls c',
               Some (CommandSetPH.finish now cmd ph key c1) = Some (b, calls, c')
               /\ if b then
                    exists ph key,
                      ph <> UNDEF
                      /\ (CommandSetPH.mWritable cmd = true -> key <> "")
                      /\ calls
                         = match nodeByHandle c (CommandSetPH.h cmd) with
                           | Some _ => [CommandSetPH.setpubliclink (CommandSetPH.h cmd) ph now
                                          (CommandSetPH.ets cmd) false key;
                                        CommandSetPH.notifynode (CommandSetPH.h cmd)]
                           | None => []
                           end ++ [CommandSetPH.completion API_OK (CommandSetPH.h cmd) ph]
                  else calls = [CommandSetPH.completion API_EINTERNAL UNDEF UNDEF]).
  { intros ph key c1 Hn Hk. unfold CommandSetPH.finish, nodeByHandle. rewrite Hn.
    destruct (ISUNDEF ph) eqn:Hu.
    - eexists _, _, _. split; [reflexivity|]. reflexivity.
    - unfold ISUNDEF in Hu. apply bool_decide_eq_false in Hu.
      eexists _, _, _. split; [reflexivity|]. exists ph, key. auto. }
  destruct (wasErrorOrOK r) eqn:Hr.
  - destruct r as [e| | |]; try discriminate Hr. cbn [errorOrOK].
    eexists _, _, _. split; [reflexivity|]. split; [|discriminate].
    intros e' [= <-]. auto.
  - assert (Hnc : forall e, r <> StrictError e) by (intros e ->; discriminate Hr).
    destruct (CommandSetPH.mWritable cmd) eqn:Hw.
    + destruct (setph_members_returns env fuel UNDEF "" c Hf) as (x & Hm & Hx).
      rewrite Hm. destruct x as [[calls c1]|[[ph key] c1]].
      * subst calls. eexists _, _, _. split; [reflexivity|].
        split; [intros e He; destruct (Hnc e He)|]. intros _. reflexivity.
      * destruct Hx as [Hk Hn].
        destruct (Hfin ph key c1 Hn (fun _ => Hk)) as (b & calls & c' & Hp & Hc).
        rewrite Hp. eexists _, _, _. split; [reflexivity|].
        split; [intros e He; destruct (Hnc e He)|]. intros _. exact Hc.
    + destruct (CommandLogin.gethandle env (json c)) as [ph j1].
      destruct (Hfin ph "" (set_json j1 c)) as (b & calls & c' & Hp & Hc);
        [reflexivity|discriminate|].
      rewrite Hp. eexists _, _, _. split; [reflexivity|].
      split; [intros e He; destruct (Hnc e He)|]. intros _. exact Hc.
Qed.

(** A link that is not writable, and an empty reply. *)
Lemma setph_reports_a_link_only_with_its_handle_witness :
  (JSON.names (JSON.cur (json client0)) < 1)%nat
  /\ exists b calls c',
    CommandSetPH.procresult env0 0 1 (CommandSetPH.mk 7 0 false) JsonArray client0
    = Some (b, calls, c')
    /\ (forall e, JsonArray = StrictError e ->
          b = true /\ calls = [CommandSetPH.completion e UNDEF UNDEF] /\ c' = client0)
    /\ (wasErrorOrOK JsonArray = false ->
        if b then
          exists ph key,
            ph <> UNDEF
            /\ (false = true -> key <> "")
            /\ calls
               = match nodeByHandle client0 7 with
                 | Some _ => [CommandSetPH.setpubliclink 7 ph 0 0 false key;
                              CommandSetPH.notifynode 7]
                 | None => []
                 end ++ [CommandSetPH.completion API_OK 7 ph]
        else calls = [CommandSetPH.completion API_EINTERNAL UNDEF UNDEF]).
Proof.
  split; [simpl; lia|].
  apply (setph_reports_a_link_only_with_its_handle env0 0 1 (CommandSetPH.mk 7 0 false)
           JsonArray client0).
  simpl. lia.
Defined.
